(** * A collaborative-editing relay: sessions, protocol router, fan-out and
    the debounced persistence scheduler

    Shallow embedding of [src/persistence.ts], [src/y-websocket-utils.ts] and
    the server entry point (admission, room tracking, keepalive, health
    endpoint and shutdown handler).

    - JavaScript [Map]s that the code iterates ([docs], [doc.conns], the
      argument of [saveAllPending]) are insertion-ordered association lists
      ([JsMap]); [saveTimers], which is only looked up, is a [gmap].
    - [Uint8Array]s are [list byte].
    - Mutable module state is passed explicitly.  Closures that read the
      shared [doc] object later (the getter handed to [scheduleSave]) are
      functions of the heap they read, evaluated when the timer fires.
    - The third-party libraries (yjs, y-protocols, ws, the S3 client) are not
      part of the repository.  The CRDT and the presence codec are an
      interface ([YLib]); the transport and the object store are explicit
      state with an outcome oracle for the operations that can fail. *)

From Stdlib Require Import ZArith NArith List String Ascii Bool Lia.
From Stdlib.Strings Require Import Byte.
From stdpp Require Import base option list gmap strings.

Local Open Scope Z_scope.

Abbreviation bytes := (list byte).

(** ** lib0: variable-length unsigned integers *)

Module Lib0.

(** A JavaScript number as far as the decoder can produce one: a
    non-negative integer (standing for the nearest double once it exceeds
    [MAX_SAFE_INTEGER]), [NaN] or [Infinity]. *)
Inductive JsNumber :=
| JInt (z : Z)
| JNaN
| JInfinity.

Definition MAX_SAFE_INTEGER : Z := 2 ^ 53 - 1.
Definition BITS7 : Z := 127.
Definition BIT8 : Z := 128.

Definition js_add (a b : JsNumber) : JsNumber :=
  match a, b with
  | JNaN, _ | _, JNaN => JNaN
  | JInfinity, _ | _, JInfinity => JInfinity
  | JInt x, JInt y => JInt (x + y)
  end.

Definition js_gt (a : JsNumber) (bound : Z) : bool :=
  match a with
  | JInt x => bound <? x
  | JNaN => false
  | JInfinity => true
  end.

Definition byteZ (b : byte) : Z := Z.of_N (Byte.to_N b).

(** [n === z] for an integer constant [z]. *)
Definition js_is (n : JsNumber) (z : Z) : bool :=
  match n with
  | JInt x => x =? z
  | _ => false
  end.

(** [(r & BITS7) * mult] at the [i]-th byte read, where [mult = 128 ** i]
    as a double: finite up to [i = 146], [Infinity] afterwards. *)
Definition scaled (r : Z) (i : nat) : JsNumber :=
  if (i <=? 146)%nat then JInt (Z.land r BITS7 * 128 ^ Z.of_nat i)
  else if Z.land r BITS7 =? 0 then JNaN else JInfinity.

(** [decoding.readVarUint]: [None] is a thrown error (unexpected end of
    array, or integer out of range). *)
Fixpoint readVarUint_loop (arr : bytes) (num : JsNumber) (i : nat)
  : option (JsNumber * bytes) :=
  match arr with
  | [] => None
  | b :: rest =>
      let r := byteZ b in
      let num' := js_add num (scaled r i) in
      if r <? BIT8 then Some (num', rest)
      else if js_gt num' MAX_SAFE_INTEGER then None
      else readVarUint_loop rest num' (S i)
  end.

Definition readVarUint (arr : bytes) : option (JsNumber * bytes) :=
  readVarUint_loop arr (JInt 0) 0.

(** [decoding.peekVarUint]: reads without advancing. *)
Definition peekVarUint (arr : bytes) : option JsNumber :=
  fst <$> readVarUint arr.

(** [decoding.readVarUint8Array]: a length, then a view of that many
    bytes; a length past the end of the buffer is a [RangeError]. *)
Definition readVarUint8Array (arr : bytes) : option (bytes * bytes) :=
  match readVarUint arr with
  | None => None
  | Some (JInt len, rest) =>
      if len <=? Z.of_nat (length rest)
      then Some (take (Z.to_nat len) rest, drop (Z.to_nat len) rest)
      else None
  | Some (JNaN, rest) => Some ([], rest)
  | Some (JInfinity, _) => None
  end.

Definition byte_of_N (n : N) : byte :=
  default x00 (Byte.of_N (n mod 256)%N).

(** [encoding.writeVarUint]; the loop runs once per seven bits. *)
Fixpoint writeVarUint_loop (fuel : nat) (num : N) : bytes :=
  match fuel with
  | O => [byte_of_N (N.land 127 num)]
  | S fuel' =>
      if (127 <? num)%N
      then byte_of_N (N.lor 128 (N.land 127 num)) :: writeVarUint_loop fuel' (num / 128)%N
      else [byte_of_N (N.land 127 num)]
  end.

Definition writeVarUint (num : N) : bytes :=
  writeVarUint_loop (N.to_nat (N.size num)) num.

(** [encoding.writeVarUint8Array]. *)
Definition writeVarUint8Array (payload : bytes) : bytes :=
  writeVarUint (N.of_nat (length payload)) ++ payload.

End Lib0.

(** ** Insertion-ordered maps (JavaScript [Map]) *)

Module JsMap.
Section JsMap.
Context {K V : Type} `{EqDecision K}.

Fixpoint get (k : K) (m : list (K * V)) : option V :=
  match m with
  | [] => None
  | (k', v) :: m' => if decide (k = k') then Some v else get k m'
  end.

Definition has (k : K) (m : list (K * V)) : bool :=
  match get k m with Some _ => true | None => false end.

(** [set] keeps the position of an existing key and appends a new one. *)
Fixpoint set (k : K) (v : V) (m : list (K * V)) : list (K * V) :=
  match m with
  | [] => [(k, v)]
  | (k', v') :: m' =>
      if decide (k = k') then (k, v) :: m' else (k', v') :: set k v m'
  end.

Fixpoint remove (k : K) (m : list (K * V)) : list (K * V) :=
  match m with
  | [] => []
  | (k', v') :: m' =>
      if decide (k = k') then remove k m' else (k', v') :: remove k m'
  end.

Definition keys (m : list (K * V)) : list K := fst <$> m.

End JsMap.
End JsMap.

(** ** persistence.ts *)

Module Persistence.

(** [process.env], as far as the module reads it. *)
Record Env := mkEnv {
  CLOUDFLARE_ACCOUNT_ID : option string;
  R2_ACCESS_KEY_ID : option string;
  R2_SECRET_ACCESS_KEY : option string;
  R2_BUCKET_NAME : option string;
}.

(** JavaScript truthiness of a possibly undefined string. *)
Definition truthy (v : option string) : bool :=
  match v with
  | None => false
  | Some s => negb (String.eqb s "")
  end.

Record S3Client := mkS3Client {
  endpoint : string;
  accessKeyId : string;
  secretAccessKey : string;
}.

Definition getS3Client (env : Env) : option S3Client :=
  if negb (truthy (CLOUDFLARE_ACCOUNT_ID env))
     || negb (truthy (R2_ACCESS_KEY_ID env))
     || negb (truthy (R2_SECRET_ACCESS_KEY env))
  then None
  else Some {|
    endpoint := "https://" +:+ default "" (CLOUDFLARE_ACCOUNT_ID env)
                +:+ ".r2.cloudflarestorage.com";
    accessKeyId := default "" (R2_ACCESS_KEY_ID env);
    secretAccessKey := default "" (R2_SECRET_ACCESS_KEY env) |}.

Definition BUCKET_NAME (env : Env) : string :=
  if truthy (R2_BUCKET_NAME env) then default "" (R2_BUCKET_NAME env)
  else "write".

Definition SAVE_DEBOUNCE_MS : Z := 2000.

(** [String.prototype.split] on a one-character separator. *)
Fixpoint split (sep : ascii) (s : string) : list string :=
  match s with
  | EmptyString => [EmptyString]
  | String c s' =>
      if Ascii.eqb c sep then EmptyString :: split sep s'
      else match split sep s' with
           | h :: t => String c h :: t
           | [] => [String c EmptyString]
           end
  end.

(** A missing array element renders as [undefined] in a template literal. *)
Definition interpolate (v : option string) : string := default "undefined" v.

Definition getStateKey (roomId : string) : string :=
  let parts := split ":" roomId in
  "collab/" +:+ interpolate (parts !! 0%nat) +:+ "/"
  +:+ interpolate (parts !! 1%nat) +:+ "/state.yjs".

(** *** The object store *)

Inductive S3Command :=
| PutObjectCommand (Bucket Key : string) (Body : bytes)
| GetObjectCommand (Bucket Key : string)
| DeleteObjectCommand (Bucket Key : string).

(** The store: its objects, every request sent to it (latest first, tagged
    with the room the caller was serving), and the failures the backend
    will answer with: [fault n c] is the error name thrown for command [c]
    when it is the [n]-th request. *)
Record S3 := mkS3 {
  objects : gmap (string * string) bytes;
  requests : list (string * S3Command);
  fault : nat -> S3Command -> option string;
}.

Inductive S3Response :=
| S3Ok (Body : option bytes)
| S3Error (name : string).

Definition s3_send (roomId : string) (c : S3Command) (s : S3) : S3Response * S3 :=
  let logged objs := mkS3 objs ((roomId, c) :: requests s) (fault s) in
  match fault s (length (requests s)) c with
  | Some e => (S3Error e, logged (objects s))
  | None =>
      match c with
      | PutObjectCommand b k body => (S3Ok None, logged (<[(b, k) := body]> (objects s)))
      | GetObjectCommand b k =>
          match objects s !! (b, k) with
          | Some body => (S3Ok (Some body), logged (objects s))
          | None => (S3Error "NoSuchKey", logged (objects s))
          end
      | DeleteObjectCommand b k => (S3Ok None, logged (delete (b, k) (objects s)))
      end
  end.

(** How an [async] function ends. *)
Inductive Settled (A : Type) :=
| Resolved (a : A)
| Rejected (err : string).
Arguments Resolved {A} a.
Arguments Rejected {A} err.

Section Store.
Variable env : Env.

Definition persistState (roomId : string) (state : bytes) (s : S3) : Settled unit * S3 :=
  match getS3Client env with
  | None => (Resolved tt, s)
  | Some _ =>
      let key := getStateKey roomId in
      (* try / catch: a failed send is logged and swallowed *)
      match s3_send roomId (PutObjectCommand (BUCKET_NAME env) key state) s with
      | (S3Ok _, s') => (Resolved tt, s')
      | (S3Error _, s') => (Resolved tt, s')
      end
  end.

Definition loadState (roomId : string) (s : S3) : Settled (option bytes) * S3 :=
  match getS3Client env with
  | None => (Resolved None, s)
  | Some _ =>
      let key := getStateKey roomId in
      match s3_send roomId (GetObjectCommand (BUCKET_NAME env) key) s with
      | (S3Ok (Some body), s') => (Resolved (Some body), s')
      | (S3Ok None, s') => (Resolved None, s')
      | (S3Error _, s') => (Resolved None, s')
      end
  end.

Definition deleteState (roomId : string) (s : S3) : Settled unit * S3 :=
  match getS3Client env with
  | None => (Resolved tt, s)
  | Some _ =>
      let key := getStateKey roomId in
      match s3_send roomId (DeleteObjectCommand (BUCKET_NAME env) key) s with
      | (S3Ok _, s') => (Resolved tt, s')
      | (S3Error _, s') => (Resolved tt, s')
      end
  end.

Definition isPersistenceAvailable : bool :=
  match getS3Client env with Some _ => true | None => false end.

(** *** The debounce scheduler *)

(** [Heap] is whatever the state getters read when they are finally called. *)
Variable Heap : Type.

(** A timeout armed by [scheduleSave]: its callback is determined by the
    room and the getter it closes over. *)
Record Timer := mkTimer {
  timer_id : nat;
  deadline : Z;
  timer_room : string;
  timer_getState : Heap -> bytes;
}.

(** Module state of persistence.ts together with the runtime's timers. *)
Record Persist := mkPersist {
  saveTimers : gmap string nat;
  timeouts : list Timer;
  nextTimer : nat;
  now : Z;
  store : S3;
}.

Definition set_store (s : S3) (p : Persist) : Persist :=
  mkPersist (saveTimers p) (timeouts p) (nextTimer p) (now p) s.

Definition clearTimeout (t : nat) (p : Persist) : Persist :=
  mkPersist (saveTimers p)
            (filter (fun x => timer_id x <> t) (timeouts p))
            (nextTimer p) (now p) (store p).

Definition scheduleSave (roomId : string) (getState : Heap -> bytes) (p : Persist) : Persist :=
  let p1 := match saveTimers p !! roomId with
            | Some existingTimer => clearTimeout existingTimer p
            | None => p
            end in
  let timer := nextTimer p1 in
  mkPersist (<[roomId := timer]> (saveTimers p1))
            (timeouts p1 ++ [mkTimer timer (now p1 + SAVE_DEBOUNCE_MS) roomId getState])
            (S (nextTimer p1)) (now p1) (store p1).

Definition cancelPendingSave (roomId : string) (p : Persist) : Persist :=
  match saveTimers p !! roomId with
  | Some timer =>
      let p1 := clearTimeout timer p in
      mkPersist (delete roomId (saveTimers p1)) (timeouts p1) (nextTimer p1) (now p1) (store p1)
  | None => p
  end.

Definition forceSave (roomId : string) (getState : Heap -> bytes) (h : Heap) (p : Persist)
  : Settled unit * Persist :=
  let p1 := cancelPendingSave roomId p in
  let state := getState h in
  if (0 <? length state)%nat
  then let '(r, s) := persistState roomId state (store p1) in (r, set_store s p1)
  else (Resolved tt, p1).

(** The [for ... of] loop of [saveAllPending]; the promises are settled
    when the call returns (the model completes a request when it is sent). *)
Fixpoint saveAllPending (docs : list (string * (Heap -> bytes))) (h : Heap) (p : Persist)
  : Persist :=
  match docs with
  | [] => p
  | (roomId, getState) :: rest =>
      let p1 := cancelPendingSave roomId p in
      let '(_, s) := persistState roomId (getState h) (store p1) in
      saveAllPending rest h (set_store s p1)
  end.

(** The callback of the timeout armed by [scheduleSave]. *)
Definition timerCallback (roomId : string) (getState : Heap -> bytes) (h : Heap) (p : Persist)
  : Persist :=
  let p1 := mkPersist (delete roomId (saveTimers p)) (timeouts p) (nextTimer p) (now p) (store p) in
  let state := getState h in
  if (0 <? length state)%nat
  then set_store (snd (persistState roomId state (store p1))) p1
  else p1.

(** The runtime fires an armed timeout once its deadline has passed: the
    timeout leaves the timer list, then its callback runs. *)
Definition fire (t : nat) (h : Heap) (p : Persist) : Persist :=
  match List.find (fun x => Nat.eqb (timer_id x) t) (timeouts p) with
  | Some x =>
      if deadline x <=? now p
      then timerCallback (timer_room x) (timer_getState x) h (clearTimeout t p)
      else p
  | None => p
  end.

(** One turn of the timer phase: every timeout that is due, oldest first. *)
Definition runDue (h : Heap) (p : Persist) : Persist :=
  fold_left (fun acc t => fire t h acc) (timer_id <$> timeouts p) p.

Definition advance (dt : Z) (p : Persist) : Persist :=
  mkPersist (saveTimers p) (timeouts p) (nextTimer p) (now p + Z.max 0 dt) (store p).

(** Everything that can happen to the scheduler. *)
Inductive Op :=
| OpScheduleSave (roomId : string) (getState : Heap -> bytes)
| OpCancelPendingSave (roomId : string)
| OpForceSave (roomId : string) (getState : Heap -> bytes)
| OpSaveAllPending (docs : list (string * (Heap -> bytes)))
| OpAdvance (dt : Z)
| OpRunDue.

Definition step (h : Heap) (o : Op) (p : Persist) : Persist :=
  match o with
  | OpScheduleSave r g => scheduleSave r g p
  | OpCancelPendingSave r => cancelPendingSave r p
  | OpForceSave r g => snd (forceSave r g h p)
  | OpSaveAllPending ds => saveAllPending ds h p
  | OpAdvance dt => advance dt p
  | OpRunDue => runDue h p
  end.

(** A history: each operation with the heap as it stood at that moment. *)
Definition run (ops : list (Heap * Op)) (p : Persist) : Persist :=
  fold_left (fun acc ho => step (fst ho) (snd ho) acc) ops p.

Definition initial (s : S3) : Persist := mkPersist ∅ [] 0 0 s.

(** The bodies written for a room, latest first. *)
Definition writesFor (roomId : string) (s : S3) : list bytes :=
  omap (fun rc => match rc with
                  | (r, PutObjectCommand _ _ body) =>
                      if String.eqb r roomId then Some body else None
                  | _ => None
                  end) (requests s).

(** The live timeouts of a room. *)
Definition pendingFor (roomId : string) (p : Persist) : list Timer :=
  filter (fun t => timer_room t = roomId) (timeouts p).

(** The scheduler's invariant: live timeouts have distinct ids, all below
    the next id; no room has two of them; and [saveTimers] maps a room to
    a timeout exactly when that timeout is live and was armed for it. *)
Definition TimersInv (p : Persist) : Prop :=
  NoDup (timer_id <$> timeouts p)
  /\ NoDup (timer_room <$> timeouts p)
  /\ (forall t, t ∈ timeouts p -> (timer_id t < nextTimer p)%nat)
  /\ (forall room id,
        saveTimers p !! room = Some id <->
        exists t, t ∈ timeouts p /\ timer_id t = id /\ timer_room t = room).

(** The two elementary transitions of the timer state: a room's timeout
    and map entry are dropped, and a fresh timeout is armed for a room. *)
Definition forget (roomId : string) (p : Persist) : Persist :=
  mkPersist (delete roomId (saveTimers p))
            (filter (fun t => timer_room t <> roomId) (timeouts p))
            (nextTimer p) (now p) (store p).

Definition arm (roomId : string) (getState : Heap -> bytes) (p : Persist) : Persist :=
  mkPersist (<[roomId := nextTimer p]> (saveTimers p))
            (timeouts p ++ [mkTimer (nextTimer p) (now p + SAVE_DEBOUNCE_MS) roomId getState])
            (S (nextTimer p)) (now p) (store p).

(** A burst of further [scheduleSave] calls for one room.  Before each
    call [dt] milliseconds pass and the timeouts that are due fire, reading
    the heap [h] of that moment. *)
Fixpoint burst (roomId : string) (calls : list (Z * Heap * (Heap -> bytes))) (p : Persist)
  : Persist :=
  match calls with
  | [] => p
  | (dt, h, getState) :: rest =>
      burst roomId rest (scheduleSave roomId getState (runDue h (advance dt p)))
  end.

(** The getter of the last call of a burst that started with [g]. *)
Definition lastGetter (g : Heap -> bytes) (calls : list (Z * Heap * (Heap -> bytes)))
  : Heap -> bytes :=
  List.last (map snd calls) g.

(** What one flush of [state] adds to the writes of its room. *)
Definition flushed (state : bytes) : list bytes :=
  if isPersistenceAvailable && (0 <? length state)%nat then [state] else [].

End Store.

Arguments mkTimer {Heap} timer_id deadline timer_room timer_getState.
Arguments timer_id {Heap} t.
Arguments deadline {Heap} t.
Arguments timer_room {Heap} t.
Arguments timer_getState {Heap} t.
Arguments mkPersist {Heap} saveTimers timeouts nextTimer now store.
Arguments saveTimers {Heap} p.
Arguments timeouts {Heap} p.
Arguments nextTimer {Heap} p.
Arguments now {Heap} p.
Arguments store {Heap} p.
Arguments set_store {Heap} s p.
Arguments clearTimeout {Heap} t p.
Arguments scheduleSave {Heap} roomId getState p.
Arguments cancelPendingSave {Heap} roomId p.
Arguments forceSave env {Heap} roomId getState h p.
Arguments saveAllPending env {Heap} docs h p.
Arguments timerCallback env {Heap} roomId getState h p.
Arguments fire env {Heap} t h p.
Arguments runDue env {Heap} h p.
Arguments advance {Heap} dt p.
Arguments OpScheduleSave {Heap} roomId getState.
Arguments OpCancelPendingSave {Heap} roomId.
Arguments OpForceSave {Heap} roomId getState.
Arguments OpSaveAllPending {Heap} docs.
Arguments OpAdvance {Heap} dt.
Arguments OpRunDue {Heap}.
Arguments step env {Heap} h o p.
Arguments run env {Heap} ops p.
Arguments initial {Heap} s.
Arguments pendingFor {Heap} roomId p.
Arguments TimersInv {Heap} p.
Arguments forget {Heap} roomId p.
Arguments arm {Heap} roomId getState p.
Arguments burst env {Heap} roomId calls p.
Arguments lastGetter {Heap} g calls.

End Persistence.

(** ** The libraries behind y-websocket-utils.ts *)

(** [awarenessProtocol.Awareness]: the presence map ([states], a [Map] from
    client id to presence payload) and the library's bookkeeping ([meta]). *)
Record Awareness (Json Meta : Type) := mkAwareness {
  states : list (nat * Json);
  meta : Meta;
}.
Arguments mkAwareness {Json Meta} states meta.
Arguments states {Json Meta} a.
Arguments meta {Json Meta} a.

(** The argument of the awareness [update] event. *)
Record AwarenessChange := mkChange {
  added : list nat;
  updated : list nat;
  removed : list nat;
}.

(** How [applyAwarenessUpdate] ends: it throws while decoding, or returns
    after emitting at most one [update] event. *)
Inductive AwOutcome :=
| AwThrew
| AwDone (change : option AwarenessChange).

(** What [syncProtocol.readSyncMessage] did: the document afterwards, the
    [update] event the document emitted if its committed state changed, and
    the bytes written to the reply encoder ([None]: it threw). *)
Record SyncResult (YDoc : Type) := mkSyncResult {
  sync_doc : YDoc;
  sync_update : option bytes;
  sync_reply : option bytes;
}.
Arguments mkSyncResult {YDoc} sync_doc sync_update sync_reply.
Arguments sync_doc {YDoc} s.
Arguments sync_update {YDoc} s.
Arguments sync_reply {YDoc} s.

(** The document capability and the presence codec. *)
Class YLib := mkYLib {
  YDoc : Type;
  Json : Type;
  Meta : Type;
  newYDoc : bool -> YDoc;
  newMeta : Meta;
  readSyncMessage : bytes -> YDoc -> SyncResult YDoc;
  writeSyncStep1 : YDoc -> bytes;
  applyAwarenessUpdate : Awareness Json Meta -> bytes -> Awareness Json Meta * AwOutcome;
  encodeAwarenessUpdate : Awareness Json Meta -> list nat -> bytes;
  metaOnRemove : nat -> Meta -> Meta;
}.

(** A [WebSocket] object is identified by a number. *)
Abbreviation Conn := nat.

(** The transport's view of a socket: its [readyState], and whether
    [conn.send] throws synchronously when called now. *)
Record Socket := mkSocket {
  readyState : Z;
  sendThrows : bool;
}.

(** All sockets, every [conn.send(m)] that went through (latest first) and
    every [conn.close()] call (latest first). *)
Record Net := mkNet {
  sockets : Conn -> Socket;
  wire : list (Conn * bytes);
  closeCalls : list Conn;
}.

(** ** y-websocket-utils.ts *)

Module Utils.

Definition wsReadyStateConnecting : Z := 0.
Definition wsReadyStateOpen : Z := 1.

Definition messageSync : Z := 0.
Definition messageAwareness : Z := 1.
Definition messageYjsUpdate : Z := 2.

Definition ENCRYPTED_SYNC_VERSION : Z := 1.
Definition ENCRYPTED_AWARENESS_VERSION : Z := 2.
Definition ENCRYPTED_SYNC_COMPRESSED_VERSION : Z := 3.

Definition isEncryptedMessage (message : bytes) : bool :=
  match message with
  | [] => false
  | b :: _ =>
      let version := Lib0.byteZ b in
      (version =? ENCRYPTED_SYNC_VERSION)
      || (version =? ENCRYPTED_AWARENESS_VERSION)
      || (version =? ENCRYPTED_SYNC_COMPRESSED_VERSION)
  end.

Definition isEncryptedSyncMessage (message : bytes) : bool :=
  match message with
  | [] => false
  | b :: _ =>
      (Lib0.byteZ b =? ENCRYPTED_SYNC_VERSION)
      || (Lib0.byteZ b =? ENCRYPTED_SYNC_COMPRESSED_VERSION)
  end.

(** A [Set<number>]: insertion-ordered, no duplicates. *)
Definition set_add (x : nat) (s : list nat) : list nat :=
  if bool_decide (x ∈ s) then s else s ++ [x].
Definition set_delete (x : nat) (s : list nat) : list nat :=
  filter (fun y => y <> x) s.

Section Relay.
Context {Y : YLib}.

Record WSSharedDoc := mkDoc {
  name : string;
  conns : list (Conn * list nat);
  awareness : Awareness Json Meta;
  encryptedState : option bytes;
  isEncrypted : bool;
  ydoc : YDoc;
}.

(** The constructor of [WSSharedDocImpl], and [doc.gc = gc] in [getYDoc]. *)
Definition WSSharedDocImpl (docname : string) (gc : bool) : WSSharedDoc :=
  mkDoc docname [] (mkAwareness [] newMeta) None false (newYDoc gc).

(** What the relay functions of one room work on: the room's [doc] object
    and the sockets. *)
Record Relay := mkRelay {
  doc : WSSharedDoc;
  net : Net;
}.

Definition set_conns (c : list (Conn * list nat)) (r : Relay) : Relay :=
  let d := doc r in
  mkRelay (mkDoc (name d) c (awareness d) (encryptedState d) (isEncrypted d) (ydoc d)) (net r).

Definition set_awareness (a : Awareness Json Meta) (r : Relay) : Relay :=
  let d := doc r in
  mkRelay (mkDoc (name d) (conns d) a (encryptedState d) (isEncrypted d) (ydoc d)) (net r).

Definition set_ydoc (y : YDoc) (r : Relay) : Relay :=
  let d := doc r in
  mkRelay (mkDoc (name d) (conns d) (awareness d) (encryptedState d) (isEncrypted d) y) (net r).

Definition set_encryptedState (e : option bytes) (r : Relay) : Relay :=
  let d := doc r in
  mkRelay (mkDoc (name d) (conns d) (awareness d) e (isEncrypted d) (ydoc d)) (net r).

Definition set_isEncrypted (b : bool) (r : Relay) : Relay :=
  let d := doc r in
  mkRelay (mkDoc (name d) (conns d) (awareness d) (encryptedState d) b (ydoc d)) (net r).

(** [conn.send(m, cb)] going through. *)
Definition conn_send (conn : Conn) (m : bytes) (r : Relay) : Relay :=
  mkRelay (doc r) (mkNet (sockets (net r)) ((conn, m) :: wire (net r)) (closeCalls (net r))).

(** [conn.close()]: an open or opening socket starts closing. *)
Definition conn_close (conn : Conn) (r : Relay) : Relay :=
  let n := net r in
  let s := sockets n conn in
  let s' := if readyState s =? 3 then s else mkSocket 2 (sendThrows s) in
  mkRelay (doc r)
          (mkNet (fun c => if decide (c = conn) then s' else sockets n c)
                 (wire n) (conn :: closeCalls n)).

(** [awarenessProtocol.removeAwarenessStates], up to the events it emits:
    the presence map without the listed clients, and the clients that were
    in it. *)
Fixpoint removeAwarenessStates (aw : Awareness Json Meta) (clients : list nat)
  : Awareness Json Meta * list nat :=
  match clients with
  | [] => (aw, [])
  | clientID :: rest =>
      if JsMap.has clientID (states aw)
      then let '(aw', removed) :=
             removeAwarenessStates
               (mkAwareness (JsMap.remove clientID (states aw))
                            (metaOnRemove clientID (meta aw))) rest in
           (aw', clientID :: removed)
      else removeAwarenessStates aw rest
  end.

(** [Map.prototype.forEach] over [doc.conns] while the callback may delete
    entries: an entry deleted before its turn is skipped. *)
Definition conns_forEach (f : Conn -> Relay -> Relay) (r : Relay) : Relay :=
  fold_left (fun acc c => if JsMap.has c (conns (doc acc)) then f c acc else acc)
            (JsMap.keys (conns (doc r))) r.

(** [send], [awarenessChangeHandler] and [closeConn] call each other:
    [closeConn] revokes presence, the awareness [update] event runs the
    handler, the handler sends to every connection, and [send] closes dead
    ones.  They are written over the [closeConn] they call. *)
Definition send_with (closeConn : Conn -> Relay -> Relay)
  (conn : Conn) (m : bytes) (r : Relay) : Relay :=
  let rs := readyState (sockets (net r) conn) in
  let r1 := if negb (rs =? wsReadyStateConnecting) && negb (rs =? wsReadyStateOpen)
            then closeConn conn r else r in
  if sendThrows (sockets (net r1) conn)
  then closeConn conn r1
  else conn_send conn m r1.

Definition awarenessFrame (r : Relay) (changedClients : list nat) : bytes :=
  Lib0.writeVarUint (Z.to_N messageAwareness)
  ++ Lib0.writeVarUint8Array (encodeAwarenessUpdate (awareness (doc r)) changedClients).

Definition awarenessChangeHandler_with (closeConn : Conn -> Relay -> Relay)
  (change : AwarenessChange) (origin : option Conn) (r : Relay) : Relay :=
  let changedClients := added change ++ updated change ++ removed change in
  let r1 :=
    match origin with
    | Some conn =>
        match JsMap.get conn (conns (doc r)) with
        | Some connControlledIDs =>
            let ids := fold_left (fun s x => set_add x s) (added change) connControlledIDs in
            let ids := fold_left (fun s x => set_delete x s) (removed change) ids in
            set_conns (JsMap.set conn ids (conns (doc r))) r
        | None => r
        end
    | None => r
    end in
  let buff := awarenessFrame r1 changedClients in
  conns_forEach (fun c => send_with closeConn c buff) r1.

(** [closeConn]; each level of the recursion has removed one connection, so
    [length conns] levels are enough. *)
Fixpoint closeConn_fuel (fuel : nat) (conn : Conn) (r : Relay) : Relay :=
  let r1 :=
    match JsMap.get conn (conns (doc r)), fuel with
    | Some controlledIds, S fuel' =>
        let r' := set_conns (JsMap.remove conn (conns (doc r))) r in
        let '(aw, gone) := removeAwarenessStates (awareness (doc r')) controlledIds in
        let r'' := set_awareness aw r' in
        match gone with
        | [] => r''
        | _ :: _ =>
            awarenessChangeHandler_with (closeConn_fuel fuel') (mkChange [] [] gone) None r''
        end
    | Some _, O => r
    | None, _ => r
    end in
  conn_close conn r1.

Definition closeConn (conn : Conn) (r : Relay) : Relay :=
  closeConn_fuel (length (conns (doc r))) conn r.

Definition send : Conn -> bytes -> Relay -> Relay := send_with closeConn.

Definition awarenessChangeHandler : AwarenessChange -> option Conn -> Relay -> Relay :=
  awarenessChangeHandler_with closeConn.

Definition updateFrame (update : bytes) : bytes :=
  Lib0.writeVarUint (Z.to_N messageSync)
  ++ Lib0.writeVarUint (Z.to_N messageYjsUpdate) ++ Lib0.writeVarUint8Array update.

Definition updateHandler (update : bytes) (r : Relay) : Relay :=
  conns_forEach (fun conn => send conn (updateFrame update)) r.

Definition broadcastEncryptedMessage (sender : Conn) (message : bytes) (r : Relay) : Relay :=
  conns_forEach (fun conn => if decide (conn <> sender) then send conn message else id) r.

(** A socket through which a frame goes out: open or opening, and
    [conn.send] does not throw. *)
Definition aliveb (n : Net) (c : Conn) : bool :=
  ((readyState (sockets n c) =? wsReadyStateConnecting)
   || (readyState (sockets n c) =? wsReadyStateOpen))
  && negb (sendThrows (sockets n c)).

(** The frames built by [awarenessChangeHandler]. *)
Definition isPresenceFrame (m : bytes) : Prop :=
  exists payload,
    m = Lib0.writeVarUint (Z.to_N messageAwareness) ++ Lib0.writeVarUint8Array payload.

(** What closing connections may do to a room.  Only a connection whose
    socket no longer works, or one that is not among those to [spare], is
    ever closed.  The document, the blob, the mode and the name stay;
    connections and presence entries can only go away; spared sockets that
    work keep working and stay registered with the client ids they
    control; sockets that do not work stay so; frames are only added to the
    wire, each of them allowed by [sentOk]. *)
Definition closable (spare : Conn -> Prop) (r : Relay) (c : Conn) : Prop :=
  aliveb (net r) c = false \/ ~ spare c.

Record Pruned (spare : Conn -> Prop) (sentOk : Conn * bytes -> Prop) (r r' : Relay)
  : Prop := mkPruned {
  pruned_name : name (doc r') = name (doc r);
  pruned_blob : encryptedState (doc r') = encryptedState (doc r);
  pruned_mode : isEncrypted (doc r') = isEncrypted (doc r);
  pruned_ydoc : ydoc (doc r') = ydoc (doc r);
  pruned_conns : forall c ids,
    JsMap.get c (conns (doc r')) = Some ids -> JsMap.get c (conns (doc r)) = Some ids;
  pruned_size : (length (conns (doc r')) <= length (conns (doc r)))%nat;
  pruned_alive : forall c,
    spare c -> aliveb (net r) c = true ->
    aliveb (net r') c = true /\ JsMap.get c (conns (doc r')) = JsMap.get c (conns (doc r));
  pruned_dead : forall c, aliveb (net r) c = false -> aliveb (net r') c = false;
  pruned_presence : forall id v,
    JsMap.get id (states (awareness (doc r'))) = Some v ->
    JsMap.get id (states (awareness (doc r))) = Some v;
  pruned_wire : exists sent, wire (net r') = sent ++ wire (net r) /\ Forall sentOk sent;
}.

(** The fields of a room that no relay function touches. *)
Definition Static (r r' : Relay) : Prop :=
  name (doc r') = name (doc r)
  /\ encryptedState (doc r') = encryptedState (doc r)
  /\ isEncrypted (doc r') = isEncrypted (doc r)
  /\ ydoc (doc r') = ydoc (doc r).

(** The first half of [awarenessChangeHandler] for a change that came
    from [conn]: the ids the connection controls are brought up to date. *)
Definition recordChange (change : AwarenessChange) (conn : Conn) (r : Relay) : Relay :=
  match JsMap.get conn (conns (doc r)) with
  | Some connControlledIDs =>
      let ids := fold_left (fun s x => set_add x s) (added change) connControlledIDs in
      let ids := fold_left (fun s x => set_delete x s) (removed change) ids in
      set_conns (JsMap.set conn ids (conns (doc r))) r
  | None => r
  end.

(** The presence frame by which [closeConn] announces what it revoked,
    seen from the state [r] in which the handling began: it encodes, from
    a presence map that has only entries [r] had, the removal of client
    ids that had an entry in [r] and were controlled by a connection of
    [r] which is not spared or whose socket does not work. *)
Definition isRemovalNotice (spare : Conn -> Prop) (r : Relay) (m : bytes) : Prop :=
  exists aw gone,
    gone <> []
    /\ m = Lib0.writeVarUint (Z.to_N messageAwareness)
           ++ Lib0.writeVarUint8Array (encodeAwarenessUpdate aw gone)
    /\ (forall id v, JsMap.get id (states aw) = Some v ->
                     JsMap.get id (states (awareness (doc r))) = Some v)
    /\ forall id, id ∈ gone ->
         JsMap.get id (states aw) = None
         /\ is_Some (JsMap.get id (states (awareness (doc r))))
         /\ exists c ids, JsMap.get c (conns (doc r)) = Some ids /\ id ∈ ids
                          /\ (spare c -> aliveb (net r) c = false).

(** Closing, in full: besides what [Pruned] says, [close()] is called
    only on sockets that do not work or are not spared, and on every
    connection that leaves the room; the client ids of a connection that
    leaves have no presence entry afterwards; and a presence entry goes
    away only with a connection that controlled it. *)
Record Closes (spare : Conn -> Prop) (sentOk : Conn * bytes -> Prop) (r r' : Relay)
  : Prop := mkCloses {
  closes_pruned : Pruned spare sentOk r r';
  closes_calls : exists called,
    closeCalls (net r') = called ++ closeCalls (net r)
    /\ (forall c, c ∈ called -> spare c -> aliveb (net r) c = false)
    /\ (forall c ids, JsMap.get c (conns (doc r)) = Some ids ->
                      JsMap.get c (conns (doc r')) = None -> c ∈ called);
  closes_revoked : forall c ids id,
    JsMap.get c (conns (doc r)) = Some ids -> JsMap.get c (conns (doc r')) = None ->
    id ∈ ids -> JsMap.get id (states (awareness (doc r'))) = None;
  closes_presence : forall id v,
    JsMap.get id (states (awareness (doc r))) = Some v ->
    JsMap.get id (states (awareness (doc r'))) = None ->
    exists c ids, JsMap.get c (conns (doc r)) = Some ids /\ id ∈ ids
                  /\ JsMap.get c (conns (doc r')) = None;
}.

End Relay.
End Utils.

(** ** The server: module state, event handlers, shutdown *)

Module Server.
Import Persistence Utils.

(** How a [try] block ends. *)
Inductive Completion (A : Type) :=
| Normal (a : A)
| Threw (a : A).
Arguments Normal {A} a.
Arguments Threw {A} a.

Inductive Phase := Running | ShuttingDown | Exited.

Section Server.
Context {Y : YLib}.
Variable env : Env.

(** The module-level [docs] map, the sockets, the state of persistence.ts
    (its getters read [docs]) and the life of the process. *)
Record World := mkWorld {
  docs : list (string * WSSharedDoc);
  network : Net;
  persist : Persist (list (string * WSSharedDoc));
  phase : Phase;
}.

(** The closure [() => doc.encryptedState || new Uint8Array(0)], where
    [doc] is the object stored in [docs] under [room]. *)
Definition encryptedStateGetter (room : string) (h : list (string * WSSharedDoc)) : bytes :=
  match JsMap.get room h with
  | Some d => default [] (encryptedState d)
  | None => []
  end.

(** Storing the room's [doc] object and the sockets back. *)
Definition leave (room : string) (r : Relay) (w : World) : World :=
  mkWorld (JsMap.set room (doc r) (docs w)) (net r) (persist w) (phase w).

Definition inRoom (room : string) (f : Relay -> Relay) (w : World) : World :=
  match JsMap.get room (docs w) with
  | Some d => leave room (f (mkRelay d (network w))) w
  | None => w
  end.

Definition getYDoc (docname : string) (gc : bool) (w : World) : World :=
  match JsMap.get docname (docs w) with
  | Some _ => w
  | None =>
      mkWorld (JsMap.set docname (WSSharedDocImpl docname gc) (docs w))
              (network w) (persist w) (phase w)
  end.

(** The body of the [try] block of [messageListener] for the [doc] stored
    under [room].  The size of the [notes] map is only logged. *)
Definition messageListener_try (conn : Conn) (room : string) (message : bytes) (w : World)
  : Completion World :=
  match JsMap.get room (docs w) with
  | None => Normal w
  | Some d =>
      let r := mkRelay d (network w) in
      if isEncryptedMessage message then
        let r := set_isEncrypted true r in
        if isEncryptedSyncMessage message then
          let r := set_encryptedState (Some message) r in
          let p := scheduleSave (name d) (encryptedStateGetter room) (persist w) in
          let r := broadcastEncryptedMessage conn message r in
          Normal (mkWorld (JsMap.set room (doc r) (docs w)) (net r) p (phase w))
        else
          Normal (leave room (broadcastEncryptedMessage conn message r) w)
      else
        match Lib0.readVarUint message with
        | None => Threw w
        | Some (messageType, rest) =>
            if Lib0.js_is messageType messageSync then
              match Lib0.peekVarUint rest with
              | None => Threw w
              | Some _ =>
                  let res := readSyncMessage rest (ydoc d) in
                  let r := set_ydoc (sync_doc res) r in
                  let r := match sync_update res with
                           | Some update => updateHandler update r
                           | None => r
                           end in
                  match sync_reply res with
                  | None => Threw (leave room r w)
                  | Some written =>
                      let encoder := Lib0.writeVarUint (Z.to_N messageSync) ++ written in
                      if (1 <? length encoder)%nat
                      then Normal (leave room (send conn encoder r) w)
                      else Normal (leave room r w)
                  end
              end
            else if Lib0.js_is messageType messageAwareness then
              match Lib0.readVarUint8Array rest with
              | None => Threw w
              | Some (update, _) =>
                  let '(aw, outcome) := applyAwarenessUpdate (awareness d) update in
                  let r := set_awareness aw r in
                  match outcome with
                  | AwThrew => Threw (leave room r w)
                  | AwDone None => Normal (leave room r w)
                  | AwDone (Some change) =>
                      Normal (leave room (awarenessChangeHandler change (Some conn) r) w)
                  end
              end
            else Normal w
        end
  end.

(** [messageListener]: whatever the body throws is caught and logged. *)
Definition messageListener (conn : Conn) (room : string) (message : bytes) (w : World) : World :=
  match messageListener_try conn room message w with
  | Normal w' => w'
  | Threw w' => w'
  end.

(** [docName || req.url?.slice(1).split('?')[0] || 'default']. *)
Definition setupName (docName url : option string) : string :=
  if truthy docName then default "" docName
  else
    let fromUrl := (fun u => match u with
                             | EmptyString => EmptyString
                             | String _ u' => hd EmptyString (split "?" u')
                             end) <$> url in
    if truthy fromUrl then default "" fromUrl else "default".

(** [setupWSConnection] up to its [await]: the room is fetched or created
    and, for the first connection of a room without a blob, the load is
    started.  The result is what [persistedState] will be. *)
Definition setupWSConnection_start (room : string) (gc : bool) (w : World)
  : World * option bytes :=
  let w1 := getYDoc room gc w in
  match JsMap.get room (docs w1) with
  | None => (w1, None)
  | Some d =>
      if (length (conns d) =? 0)%nat
         && match encryptedState d with None => true | Some _ => false end
      then
        let '(res, s) := loadState env room (store (persist w1)) in
        (mkWorld (docs w1) (network w1) (set_store s (persist w1)) (phase w1),
         match res with Resolved v => v | Rejected _ => None end)
      else (w1, None)
  end.

(** The rest of [setupWSConnection], run when the load has settled. *)
Definition setupWSConnection_finish (conn : Conn) (room : string)
  (persistedState : option bytes) : World -> World :=
  inRoom room (fun r =>
    let r := match persistedState with
             | Some st => set_isEncrypted true (set_encryptedState (Some st) r)
             | None => r
             end in
    let r := set_conns (JsMap.set conn [] (conns (doc r))) r in
    match isEncrypted (doc r), encryptedState (doc r) with
    | true, Some st => send conn st r
    | _, _ =>
        let r := send conn (Lib0.writeVarUint (Z.to_N messageSync)
                            ++ writeSyncStep1 (ydoc (doc r))) r in
        let awarenessStates := states (awareness (doc r)) in
        if (0 <? length awarenessStates)%nat
        then send conn (awarenessFrame r (JsMap.keys awarenessStates)) r
        else r
    end).

(** [setupWSConnection] when nothing else happens during the load. *)
Definition setupWSConnection (conn : Conn) (docName url : option string) (gc : bool)
  (w : World) : World :=
  let room := setupName docName url in
  let '(w1, persistedState) := setupWSConnection_start room gc w in
  setupWSConnection_finish conn room persistedState w1.

Definition getDocsForPersistence (w : World)
  : list (string * (list (string * WSSharedDoc) -> bytes)) :=
  omap (fun kd => match encryptedState (snd kd) with
                  | Some _ => Some (fst kd, encryptedStateGetter (fst kd))
                  | None => None
                  end) (docs w).

(** The [SIGTERM] handler of the entry point: the listeners are closed and
    the process exits once they have drained.  Nothing else is called. *)
Definition onSIGTERM (w : World) : World :=
  match phase w with
  | Running => mkWorld (docs w) (network w) (persist w) ShuttingDown
  | _ => w
  end.

Definition processExit (w : World) : World :=
  match phase w with
  | ShuttingDown => mkWorld (docs w) (network w) (persist w) Exited
  | _ => w
  end.

Definition set_persist (p : Persist (list (string * WSSharedDoc))) (w : World) : World :=
  mkWorld (docs w) (network w) p (phase w).

(** What the event loop delivers. *)
Inductive Event :=
| EvSetupStart (room : string) (gc : bool)
| EvSetupFinish (conn : Conn) (room : string) (persistedState : option bytes)
| EvMessage (conn : Conn) (room : string) (message : bytes)
| EvClose (conn : Conn) (room : string)
| EvSendError (conn : Conn) (room : string)
| EvTransport (conn : Conn) (s : Socket)
| EvPresenceTimeout (room : string) (clients : list nat)
| EvAdvance (dt : Z)
| EvTimers
| EvSIGTERM
| EvExit.

Definition presenceTimeout (clients : list nat) (r : Relay) : Relay :=
  let '(aw, gone) := removeAwarenessStates (awareness (doc r)) clients in
  let r := set_awareness aw r in
  match gone with
  | [] => r
  | _ :: _ => awarenessChangeHandler (mkChange [] [] gone) None r
  end.

Definition transport (conn : Conn) (s : Socket) (w : World) : World :=
  let n := network w in
  mkWorld (docs w)
          (mkNet (fun c => if decide (c = conn) then s else sockets n c) (wire n) (closeCalls n))
          (persist w) (phase w).

Definition handle (e : Event) (w : World) : World :=
  match phase w with
  | Exited => w
  | _ =>
      match e with
      | EvSetupStart room gc => fst (setupWSConnection_start room gc w)
      | EvSetupFinish conn room st => setupWSConnection_finish conn room st w
      | EvMessage conn room m => messageListener conn room m w
      | EvClose conn room => inRoom room (closeConn conn) w
      | EvSendError conn room => inRoom room (closeConn conn) w
      | EvTransport conn s => transport conn s w
      | EvPresenceTimeout room clients => inRoom room (presenceTimeout clients) w
      | EvAdvance dt => set_persist (advance dt (persist w)) w
      | EvTimers => set_persist (runDue env (docs w) (persist w)) w
      | EvSIGTERM => onSIGTERM w
      | EvExit => processExit w
      end
  end.

Definition runEvents (es : list Event) (w : World) : World :=
  fold_left (fun acc e => handle e acc) es w.

(** What handling an event of one room leaves alone: the scheduler, the
    phase and every other room; the room is still there and its [doc]
    satisfies [Q]. *)
Definition OnlyRoom (room : string) (Q : WSSharedDoc -> Prop) (w w' : World) : Prop :=
  persist w' = persist w
  /\ phase w' = phase w
  /\ (forall room', room' <> room -> JsMap.get room' (docs w') = JsMap.get room' (docs w))
  /\ exists d', JsMap.get room (docs w') = Some d' /\ Q d'.

(** The room has latched to encrypted mode. *)
Definition latched (room : string) (w : World) : Prop :=
  exists d, JsMap.get room (docs w) = Some d /\ isEncrypted d = true.

(** The same world with the mode flag of one room set to [b]. *)
Definition setMode (room : string) (b : bool) : World -> World :=
  inRoom room (set_isEncrypted b).

Definition emptyNet : Net :=
  mkNet (fun _ => mkSocket 1 false) [] [].

Definition boot (s : S3) : World :=
  mkWorld [] emptyNet (initial s) Running.

End Server.
End Server.

(** ** What every event keeps *)

Module Reach.
Import Persistence Utils Server.

Section Reach.
Context {Y : YLib}.

(** How the [doc] object of a room can change: the name never does; mode
    and blob stay as they are, or the room is (now) encrypted and a blob it
    had is still there, possibly replaced. *)
Definition Advances (d d' : WSSharedDoc) : Prop :=
  name d' = name d
  /\ ((isEncrypted d' = isEncrypted d /\ encryptedState d' = encryptedState d)
      \/ (isEncrypted d' = true
          /\ (is_Some (encryptedState d) -> is_Some (encryptedState d')))).

(** How [docs] can change: rooms stay and advance, and a room that
    appears is a fresh [WSSharedDocImpl] stored under its own name. *)
Definition DocsStep (w w' : World) : Prop :=
  (forall room d, JsMap.get room (docs w) = Some d ->
                  exists d', JsMap.get room (docs w') = Some d' /\ Advances d d')
  /\ (forall room d', JsMap.get room (docs w') = Some d' ->
                      is_Some (JsMap.get room (docs w))
                      \/ exists gc, d' = WSSharedDocImpl room gc)
  /\ (NoDup (JsMap.keys (docs w)) -> NoDup (JsMap.keys (docs w'))).

(** The state of the rooms is well formed: one entry per room, each [doc]
    stored under its own name, and a room that holds a blob is in
    encrypted mode. *)
Definition WorldOk (w : World) : Prop :=
  NoDup (JsMap.keys (docs w))
  /\ forall room d, JsMap.get room (docs w) = Some d ->
       name d = room /\ (is_Some (encryptedState d) -> isEncrypted d = true).

(** Events that leave the blob of [room] and its pending save alone:
    everything except an encrypted sync frame for the room, a load for the
    room that settles with a stored state, the passing of time, a turn of
    the timers and the exit of the process. *)
Definition quietFor (room : string) (e : Event) : Prop :=
  match e with
  | EvMessage _ r m => r <> room \/ isEncryptedSyncMessage m = false
  | EvSetupFinish _ r (Some _) => r <> room
  | EvAdvance _ | EvTimers | EvExit => False
  | _ => True
  end.

(** What may come between two frames of a burst: quiet events, the
    passing of time and turns of the timers. *)
Definition calmFor (room : string) (e : Event) : Prop :=
  match e with
  | EvAdvance _ | EvTimers => True
  | _ => quietFor room e
  end.

(** The time that passes in a run of events. *)
Definition elapsed (es : list Event) : Z :=
  fold_right (fun e acc => match e with
                           | EvAdvance dt => Z.max 0 dt + acc
                           | _ => acc
                           end) 0 es.

(** A burst: encrypted sync frames for [room], each preceded by whatever
    else happens before it. *)
Definition burstEvents (room : string) (frames : list (list Event * Conn * bytes))
  : list Event :=
  flat_map (fun f => f.1.1 ++ [EvMessage f.1.2 room f.2]) frames.

(** The room holds the encrypted sync frame [m] and a save of it is
    pending, armed just now. *)
Definition Armed (room : string) (m : bytes) (w : World) : Prop :=
  phase w <> Exited
  /\ WorldOk w
  /\ TimersInv (persist w)
  /\ isEncryptedSyncMessage m = true
  /\ (exists d, JsMap.get room (docs w) = Some d /\ encryptedState d = Some m)
  /\ exists t, pendingFor room (persist w) = [t]
               /\ deadline t = now (persist w) + SAVE_DEBOUNCE_MS
               /\ timer_getState t = encryptedStateGetter room.

(** The room holds the encrypted sync frame [m] and a save of it is
    pending, armed at time [a]. *)
Definition Waiting (room : string) (m : bytes) (a : Z) (w : World) : Prop :=
  phase w <> Exited
  /\ WorldOk w
  /\ TimersInv (persist w)
  /\ isEncryptedSyncMessage m = true
  /\ (exists d, JsMap.get room (docs w) = Some d /\ encryptedState d = Some m)
  /\ exists t, pendingFor room (persist w) = [t]
               /\ deadline t = a + SAVE_DEBOUNCE_MS
               /\ timer_getState t = encryptedStateGetter room.

End Reach.
End Reach.

(** ** index.ts: admission, room tracking, keepalive, health *)

Module Index.
Import Persistence Utils Server.

Inductive Role := view_only | suggesting | editor.

Record CollabToken := mkCollabToken {
  userId : string;
  bookId : string;
  chapterId : string;
  role : Role;
  displayName : string;
  color : string;
  exp : Z;
}.

(** The fields index.ts adds to a socket object; all start undefined. *)
Record AuthenticatedWebSocket := mkAuthenticatedWebSocket {
  ws_userId : option string;
  ws_bookId : option string;
  ws_chapterId : option string;
  ws_role : option Role;
  ws_displayName : option string;
  ws_color : option string;
  isAlive : option bool;
}.

Definition plainSocket : AuthenticatedWebSocket :=
  mkAuthenticatedWebSocket None None None None None None None.

(** The upgrade request as the handler reads it: its [url], and what
    [searchParams.get] gives for [token] and [room] ([None] for the pair:
    [new URL] throws). *)
Record Request := mkRequest {
  req_url : option string;
  searchParams : option (option string * option string);
}.

(** The answer of the HTTP server. *)
Record Response := mkResponse {
  statusCode : Z;
  body : option (string * nat);
}.

Definition JWT_SECRET (COLLAB_JWT_SECRET : option string) : string :=
  if truthy COLLAB_JWT_SECRET then default EmptyString COLLAB_JWT_SECRET
  else "dev-secret-change-in-production"%string.

Section Index.
Context {Y : YLib}.
Variable env : Env.
Variable COLLAB_JWT_SECRET : option string.
(** [jwt.verify token secret]: the decoded payload; [None]: it throws. *)
Variable jwt_verify : string -> string -> option CollabToken.

(** Module state of index.ts, the sockets of the WebSocket server and the
    listeners registered on them.  [listening] holds the sockets on which
    index.ts has registered its [pong] and [close] listeners, with the
    [tokenData] and [roomName] those closures captured; [awaiting] the
    calls of [setupWSConnection] suspended at [await loadState], with what
    the load resolves to; [joined] the sockets on which
    [setupWSConnection] has registered its [message] and [close]
    listeners, with the room of the [doc] they captured. *)
Record Front := mkFront {
  world : World;
  roomConnections : list (string * list Conn);
  clients : list Conn;
  fields : Conn -> AuthenticatedWebSocket;
  listening : list (Conn * (CollabToken * string));
  awaiting : list (Conn * (string * option bytes));
  joined : list (Conn * string);
  closed : list (Conn * (Z * string));
  terminated : list Conn;
  pinged : list Conn;
  nextSocket : Conn;
}.

Definition set_world (w : World) (f : Front) : Front :=
  mkFront w (roomConnections f) (clients f) (fields f) (listening f) (awaiting f)
          (joined f) (closed f) (terminated f) (pinged f) (nextSocket f).

Definition set_fields (ws : Conn) (a : AuthenticatedWebSocket) (f : Front) : Front :=
  mkFront (world f) (roomConnections f) (clients f)
          (fun c => if decide (c = ws) then a else fields f c)
          (listening f) (awaiting f) (joined f) (closed f) (terminated f) (pinged f)
          (nextSocket f).

Definition set_roomConnections (rc : list (string * list Conn)) (f : Front) : Front :=
  mkFront (world f) rc (clients f) (fields f) (listening f) (awaiting f)
          (joined f) (closed f) (terminated f) (pinged f) (nextSocket f).

Definition set_isAlive (ws : Conn) (b : bool) (f : Front) : Front :=
  let a := fields f ws in
  set_fields ws (mkAuthenticatedWebSocket (ws_userId a) (ws_bookId a) (ws_chapterId a)
                   (ws_role a) (ws_displayName a) (ws_color a) (Some b)) f.

(** An open or opening socket starts closing. *)
Definition closing (ws : Conn) (n : Net) : Net :=
  let s := sockets n ws in
  let s' := if readyState s =? 3 then s else mkSocket 2 (sendThrows s) in
  mkNet (fun c => if decide (c = ws) then s' else sockets n c) (wire n) (closeCalls n).

Definition set_network (n : Net) (w : World) : World :=
  mkWorld (docs w) n (persist w) (phase w).

(** [ws.close(code, reason)]. *)
Definition ws_close (ws : Conn) (code : Z) (reason : string) (f : Front) : Front :=
  mkFront (set_network (closing ws (network (world f))) (world f))
          (roomConnections f) (clients f) (fields f) (listening f) (awaiting f)
          (joined f) ((ws, (code, reason)) :: closed f) (terminated f) (pinged f)
          (nextSocket f).

(** [ws.terminate()]: the socket is destroyed; its [close] event follows. *)
Definition ws_terminate (ws : Conn) (f : Front) : Front :=
  mkFront (set_network (closing ws (network (world f))) (world f))
          (roomConnections f) (clients f) (fields f) (listening f) (awaiting f)
          (joined f) (closed f) (ws :: terminated f) (pinged f) (nextSocket f).

(** [ws.ping()]; it throws on a socket that is still connecting. *)
Definition ws_ping (ws : Conn) (f : Front) : option Front :=
  if readyState (sockets (network (world f)) ws) =? wsReadyStateConnecting then None
  else Some (mkFront (world f) (roomConnections f) (clients f) (fields f) (listening f)
                     (awaiting f) (joined f) (closed f) (terminated f) (ws :: pinged f)
                     (nextSocket f)).

Definition verifyToken (token : string) : option CollabToken :=
  jwt_verify token (JWT_SECRET COLLAB_JWT_SECRET).

(** Tracking a socket under its room. *)
Definition track (ws : Conn) (roomName : string) (rc : list (string * list Conn))
  : list (string * list Conn) :=
  let rc1 := if JsMap.has roomName rc then rc else JsMap.set roomName [] rc in
  JsMap.set roomName (set_add ws (default [] (JsMap.get roomName rc1))) rc1.

(** The [close] listener of index.ts. *)
Definition untrack (ws : Conn) (roomName : string) (rc : list (string * list Conn))
  : list (string * list Conn) :=
  match JsMap.get roomName rc with
  | Some connections =>
      let connections := set_delete ws connections in
      if (length connections =? 0)%nat
      then JsMap.remove roomName rc
      else JsMap.set roomName connections rc
  | None => rc
  end.

(** Whether [setupWSConnection] suspends at [await loadState]. *)
Definition suspends (room : string) (w : World) : bool :=
  match JsMap.get room (docs w) with
  | Some d => (length (conns d) =? 0)%nat
              && match encryptedState d with None => true | Some _ => false end
  | None => false
  end.

(** The call [setupWSConnection(ws, req, { docName: roomName, gc: true })]
    as far as it runs before control returns to the handler: up to the
    [await] when it loads, to its end when it does not. *)
Definition callSetup (ws : Conn) (req : Request) (roomName : string) (f : Front) : Front :=
  let name := setupName (Some roomName) (req_url req) in
  let '(w1, persistedState) := setupWSConnection_start env name true (world f) in
  if suspends name w1
  then mkFront w1 (roomConnections f) (clients f) (fields f) (listening f)
               (JsMap.set ws (name, persistedState) (awaiting f))
               (joined f) (closed f) (terminated f) (pinged f) (nextSocket f)
  else mkFront (setupWSConnection_finish ws name None w1)
               (roomConnections f) (clients f) (fields f) (listening f) (awaiting f)
               (JsMap.set ws name (joined f)) (closed f) (terminated f) (pinged f)
               (nextSocket f).

(** The [connection] listener, run on a socket the server has just
    created and added to [wss.clients].  [Threw]: [new URL] threw. *)
Definition onConnection (req : Request) (f : Front) : Completion Front :=
  let ws := nextSocket f in
  let f := mkFront (world f) (roomConnections f) (set_add ws (clients f))
                   (fun c => if decide (c = ws) then plainSocket else fields f c)
                   (listening f) (awaiting f) (joined f) (closed f) (terminated f)
                   (pinged f) (S ws) in
  match searchParams req with
  | None => Threw f
  | Some (token, roomName) =>
      if negb (truthy token) || negb (truthy roomName)
      then Normal (ws_close ws 4001 "Missing token or room" f)
      else
        match verifyToken (default EmptyString token) with
        | None => Normal (ws_close ws 4002 "Invalid token" f)
        | Some tokenData =>
            let roomName := default EmptyString roomName in
            let expectedRoom := (bookId tokenData +:+ ":" +:+ chapterId tokenData)%string in
            if negb (String.eqb roomName expectedRoom)
            then Normal (ws_close ws 4003 "Room mismatch" f)
            else
              let f := set_fields ws
                         (mkAuthenticatedWebSocket
                            (Some (userId tokenData)) (Some (bookId tokenData))
                            (Some (chapterId tokenData)) (Some (role tokenData))
                            (Some (displayName tokenData)) (Some (color tokenData))
                            (Some true)) f in
              let f := set_roomConnections (track ws roomName (roomConnections f)) f in
              let f := callSetup ws req roomName f in
              Normal (mkFront (world f) (roomConnections f) (clients f) (fields f)
                              (JsMap.set ws (tokenData, roomName) (listening f))
                              (awaiting f) (joined f) (closed f) (terminated f)
                              (pinged f) (nextSocket f))
        end
  end.

(** The awaited load settles and [setupWSConnection] runs to its end. *)
Definition onLoaded (ws : Conn) (f : Front) : Front :=
  match JsMap.get ws (awaiting f) with
  | Some (room, persistedState) =>
      mkFront (setupWSConnection_finish ws room persistedState (world f))
              (roomConnections f) (clients f) (fields f) (listening f)
              (JsMap.remove ws (awaiting f)) (JsMap.set ws room (joined f))
              (closed f) (terminated f) (pinged f) (nextSocket f)
  | None => f
  end.

(** A frame arrives on an open socket; without a [message] listener it is
    dropped. *)
Definition onMessage (ws : Conn) (m : bytes) (f : Front) : Front :=
  if bool_decide (ws ∈ clients f)
  then match JsMap.get ws (joined f) with
       | Some room => set_world (messageListener ws room m (world f)) f
       | None => f
       end
  else f.

Definition onPong (ws : Conn) (f : Front) : Front :=
  if bool_decide (ws ∈ clients f) && JsMap.has ws (listening f)
  then set_isAlive ws true f
  else f.

(** The socket has closed: the server drops it from [wss.clients], then
    the [close] listeners run, the one of index.ts and the one of
    [setupWSConnection]; they work on disjoint state. *)
Definition onSocketClose (ws : Conn) (f : Front) : Front :=
  if bool_decide (ws ∈ clients f)
  then
    let n := network (world f) in
    let n' := mkNet (fun c => if decide (c = ws) then mkSocket 3 (sendThrows (sockets n c))
                              else sockets n c) (wire n) (closeCalls n) in
    let rc := match JsMap.get ws (listening f) with
              | Some (_, roomName) => untrack ws roomName (roomConnections f)
              | None => roomConnections f
              end in
    let w := set_network n' (world f) in
    let w := match JsMap.get ws (joined f) with
             | Some room => inRoom room (closeConn ws) w
             | None => w
             end in
    mkFront w rc (set_delete ws (clients f)) (fields f) (listening f) (awaiting f)
            (joined f) (closed f) (terminated f) (pinged f) (nextSocket f)
  else f.

(** One turn of the keepalive interval for one socket. *)
Definition keepalive (ws : Conn) (f : Front) : option Front :=
  match isAlive (fields f ws) with
  | Some false => Some (ws_terminate ws f)
  | _ => ws_ping ws (set_isAlive ws false f)
  end.

(** The interval callback: [wss.clients.forEach].  [None]: [ping] threw. *)
Definition tick (f : Front) : option Front :=
  fold_left (fun acc ws => match acc with Some f' => keepalive ws f' | None => None end)
            (clients f) (Some f).

(** The HTTP request listener. *)
Definition onRequest (url : option string) (f : Front) : Response :=
  if bool_decide (url = Some "/health"%string)
  then mkResponse 200 (Some ("ok"%string, length (roomConnections f)))
  else mkResponse 404 None.

(** An exception that nothing catches ends the process. *)
Definition crash (f : Front) : Front :=
  set_world (mkWorld (docs (world f)) (network (world f)) (persist (world f)) Exited) f.

Inductive FrontEvent :=
| FConnection (req : Request)
| FLoaded (ws : Conn)
| FMessage (ws : Conn) (m : bytes)
| FPong (ws : Conn)
| FSocketClose (ws : Conn)
| FTick
| FSendError (ws : Conn)
| FTransport (ws : Conn) (s : Socket)
| FPresenceTimeout (room : string) (clients : list nat)
| FAdvance (dt : Z)
| FTimers
| FSIGTERM
| FExit.

Definition handleFront (e : FrontEvent) (f : Front) : Front :=
  match phase (world f) with
  | Exited => f
  | ph =>
      match e with
      | FConnection req =>
          match ph with
          | Running =>
              match onConnection req f with
              | Normal f' => f'
              | Threw f' => crash f'
              end
          | _ => f
          end
      | FLoaded ws => onLoaded ws f
      | FMessage ws m => onMessage ws m f
      | FPong ws => onPong ws f
      | FSocketClose ws => onSocketClose ws f
      | FTick =>
          match tick f with
          | Some f' => f'
          | None => crash f
          end
      | FSendError ws =>
          match JsMap.get ws (joined f) with
          | Some room => set_world (handle env (EvSendError ws room) (world f)) f
          | None => f
          end
      | FTransport ws s => set_world (handle env (EvTransport ws s) (world f)) f
      | FPresenceTimeout room clients =>
          set_world (handle env (EvPresenceTimeout room clients) (world f)) f
      | FAdvance dt => set_world (handle env (EvAdvance dt) (world f)) f
      | FTimers => set_world (handle env EvTimers (world f)) f
      | FSIGTERM => set_world (handle env EvSIGTERM (world f)) f
      | FExit => set_world (handle env EvExit (world f)) f
      end
  end.

Definition runFront (es : list FrontEvent) (f : Front) : Front :=
  fold_left (fun acc e => handleFront e acc) es f.

Definition start (s : S3) : Front :=
  mkFront (boot s) [] [] (fun _ => plainSocket) [] [] [] [] [] [] 0%nat.

(** Admission: every listener was registered for a socket whose token
    verified and named the room, and only such sockets are registered in a
    room's [doc]. *)
Record AdmissionInv (f : Front) : Prop := mkAdmissionInv {
  adm_fresh_listening : forall ws x,
    JsMap.get ws (listening f) = Some x -> (ws < nextSocket f)%nat;
  adm_fresh_awaiting : forall ws x,
    JsMap.get ws (awaiting f) = Some x -> (ws < nextSocket f)%nat;
  adm_fresh_joined : forall ws x,
    JsMap.get ws (joined f) = Some x -> (ws < nextSocket f)%nat;
  adm_token : forall ws tokenData roomName,
    JsMap.get ws (listening f) = Some (tokenData, roomName) ->
    (exists token, verifyToken token = Some tokenData)
    /\ roomName = (bookId tokenData +:+ ":" +:+ chapterId tokenData)%string;
  adm_awaiting : forall ws room st,
    JsMap.get ws (awaiting f) = Some (room, st) ->
    JsMap.get ws (joined f) = None
    /\ exists tokenData, JsMap.get ws (listening f) = Some (tokenData, room);
  adm_joined : forall ws room,
    JsMap.get ws (joined f) = Some room ->
    exists tokenData, JsMap.get ws (listening f) = Some (tokenData, room);
  adm_conns : forall room d ws,
    JsMap.get room (docs (world f)) = Some d -> ws ∈ JsMap.keys (conns d) ->
    JsMap.get ws (joined f) = Some room;
}.

(** Tracking: [roomConnections] holds, room by room, the admitted sockets
    that have not closed yet, and no empty set. *)
Record TrackingInv (f : Front) : Prop := mkTrackingInv {
  trk_fresh : forall ws, ws ∈ clients f -> (ws < nextSocket f)%nat;
  trk_fresh_listening : forall ws x,
    JsMap.get ws (listening f) = Some x -> (ws < nextSocket f)%nat;
  trk_clients : NoDup (clients f);
  trk_rooms : NoDup (JsMap.keys (roomConnections f));
  trk_tracked : forall roomName ws,
    (exists connections, JsMap.get roomName (roomConnections f) = Some connections
                         /\ ws ∈ connections)
    <-> (ws ∈ clients f
         /\ exists tokenData, JsMap.get ws (listening f) = Some (tokenData, roomName));
  trk_nonempty : forall roomName connections,
    JsMap.get roomName (roomConnections f) = Some connections -> connections <> [];
}.

End Index.
End Index.


(** ** A stand-in for the libraries

    Used to run the handlers on concrete frames.

    The sync side is a fragment of Yjs, with the update format (version 1),
    the state vector format and the dispatch of y-protocols: a document
    holds entries of root-level maps, each set once.  An update is read as
    the library reads it: the structs by client, then the delete set.  The
    fragment takes structs with info byte 40 (content [ContentAny], a
    [parentSub], no origins) under a named root type, each with one value
    that is [undefined], [null], a boolean or a string, with ASCII text,
    keys that the document does not hold yet, clocks that do not run ahead
    of the document, and an empty delete set.  In the fragment the
    document, the [update] event and the replies are the library's.  Any
    other frame is refused as if the library had thrown, which the library
    does when the frame is malformed; for a well-formed update outside the
    fragment the library would do more.

    The presence side follows the wire format and the clock rule of
    y-protocols' awareness: a count, then (client id, clock, JSON text)
    entries; the JSON text is kept as bytes and [null] is the only text
    read as null. *)

Module StandIn.

Definition bytes_eqb (a b : bytes) : bool :=
  bool_decide (map Byte.to_N a = map Byte.to_N b).

(** One entry of a root-level map: the struct [(client, clock)], the name
    of the root type, the key and the value as it is encoded. *)
Record Item := mkItem {
  item_client : N;
  item_clock : N;
  item_parent : bytes;
  item_sub : bytes;
  item_value : bytes;
}.

Definition isAscii (s : bytes) : bool := forallb (fun b => Lib0.byteZ b <? 128) s.

(** [readVarString], for text that UTF-8 decoding and encoding leave as
    it is. *)
Definition readString (dec : bytes) : option (bytes * bytes) :=
  match Lib0.readVarUint8Array dec with
  | Some (s, rest) => if isAscii s then Some (s, rest) else None
  | None => None
  end.

(** lib0's [readAny] for [undefined] (127), [null] (126), the booleans
    (121, 120) and strings (119). *)
Definition readAny (dec : bytes) : option (bytes * bytes) :=
  match dec with
  | [] => None
  | b :: rest =>
      let tag := Lib0.byteZ b in
      if (tag =? 127) || (tag =? 126) || (tag =? 121) || (tag =? 120)
      then Some ([b], rest)
      else if tag =? 119 then
        match readString rest with
        | Some (s, rest') => Some (b :: Lib0.writeVarUint8Array s, rest')
        | None => None
        end
      else None
  end.

(** One struct: the info byte, the parent (a root type, by name), the
    key, the number of values and the value. *)
Definition readItem (client clock : N) (dec : bytes) : option (Item * bytes) :=
  match dec with
  | [] => None
  | info :: d1 =>
      if Lib0.byteZ info =? 40 then
        match Lib0.readVarUint d1 with
        | Some (Lib0.JInt 1, d2) =>
            '(parent, d3) ← readString d2;
            '(sub, d4) ← readString d3;
            match Lib0.readVarUint d4 with
            | Some (Lib0.JInt 1, d5) =>
                '(v, d6) ← readAny d5;
                Some (mkItem client clock parent sub v, d6)
            | _ => None
            end
        | _ => None
        end
      else None
  end.

(** The loops of [readClientsStructRefs]; every struct takes at least one
    byte, so the length of the input bounds the turns. *)
Fixpoint readItems (fuel : nat) (n : Z) (client clock : N) (dec : bytes)
  : option (list Item * bytes) :=
  if n <=? 0 then Some ([], dec)
  else
    match fuel with
    | O => None
    | S fuel' =>
        '(it, d1) ← readItem client clock dec;
        '(its, d2) ← readItems fuel' (n - 1) client (clock + 1)%N d1;
        Some (it :: its, d2)
    end.

Definition readGroup (dec : bytes) : option (N * list Item * bytes) :=
  match Lib0.readVarUint dec with
  | Some (Lib0.JInt n, d1) =>
      match Lib0.readVarUint d1 with
      | Some (Lib0.JInt client, d2) =>
          match Lib0.readVarUint d2 with
          | Some (Lib0.JInt clock, d3) =>
              '(its, d4) ← readItems (length d3) n (Z.to_N client) (Z.to_N clock) d3;
              Some (Z.to_N client, its, d4)
          | _ => None
          end
      | _ => None
      end
  | _ => None
  end.

Fixpoint readGroups (fuel : nat) (n : Z) (dec : bytes)
  : option (list (N * list Item) * bytes) :=
  if n <=? 0 then Some ([], dec)
  else
    match fuel with
    | O => None
    | S fuel' =>
        '(g, d1) ← readGroup dec;
        '(gs, d2) ← readGroups fuel' (n - 1) d1;
        Some (g :: gs, d2)
    end.

Definition readUpdate (u : bytes) : option (list (N * list Item)) :=
  match Lib0.readVarUint u with
  | Some (Lib0.JInt n, d1) =>
      '(gs, d2) ← readGroups (length d1) n d1;
      match Lib0.readVarUint d2 with
      | Some (Lib0.JInt 0, _) => Some gs
      | _ => None
      end
  | _ => None
  end.

(** [getState]: every struct of the fragment takes one clock tick. *)
Definition getState (d : list Item) (client : N) : N :=
  N.of_nat (length (List.filter (fun it => (item_client it =? client)%N) d)).

Definition hasKey (d : list Item) (parent sub : bytes) : bool :=
  existsb (fun it => bytes_eqb (item_parent it) parent && bytes_eqb (item_sub it) sub) d.

(** Integrating one struct: one that the document has already is skipped,
    the next one of its client is added. *)
Definition integrateItem (acc : option (list Item * list Item)) (it : Item)
  : option (list Item * list Item) :=
  '(d, new) ← acc;
  let st := getState d (item_client it) in
  if (item_clock it <? st)%N then Some (d, new)
  else if (item_clock it =? st)%N && negb (hasKey d (item_parent it) (item_sub it))
  then Some (d ++ [it], new ++ [it])
  else None.

Definition integrateGroup (acc : option (list Item * list (N * list Item)))
  (g : N * list Item) : option (list Item * list (N * list Item)) :=
  '(d, done) ← acc;
  '(d', new) ← fold_left integrateItem g.2 (Some (d, []));
  Some (d', done ++ [(g.1, new)]).

(** Clients are taken from the highest id down. *)
Fixpoint insertGroup (g : N * list Item) (l : list (N * list Item)) : list (N * list Item) :=
  match l with
  | [] => [g]
  | h :: t => if (h.1 <? g.1)%N then g :: l else h :: insertGroup g t
  end.

Definition sortGroups (gs : list (N * list Item)) : list (N * list Item) :=
  fold_right insertGroup [] gs.

(** [applyUpdate]: the document afterwards and the structs that were
    added, by client. *)
Definition applyUpdate (u : bytes) (d : list Item)
  : option (list Item * list (N * list Item)) :=
  gs ← readUpdate u;
  if bool_decide (NoDup gs.*1)
  then fold_left integrateGroup (sortGroups gs) (Some (d, []))
  else None.

Definition encodeItem (it : Item) : bytes :=
  [x28] ++ Lib0.writeVarUint 1 ++ Lib0.writeVarUint8Array (item_parent it)
  ++ Lib0.writeVarUint8Array (item_sub it) ++ Lib0.writeVarUint 1 ++ item_value it.

Definition encodeGroup (g : N * list Item) : bytes :=
  Lib0.writeVarUint (N.of_nat (length g.2)) ++ Lib0.writeVarUint g.1
  ++ Lib0.writeVarUint (match g.2 with it :: _ => item_clock it | [] => 0%N end)
  ++ flat_map encodeItem g.2.

(** An update with the given structs and an empty delete set. *)
Definition encodeUpdate (gs : list (N * list Item)) : bytes :=
  let gs := List.filter (fun g => match g.2 with [] => false | _ :: _ => true end) gs in
  Lib0.writeVarUint (N.of_nat (length gs)) ++ flat_map encodeGroup gs ++ Lib0.writeVarUint 0.

Fixpoint insertClient (c : N) (l : list N) : list N :=
  match l with
  | [] => [c]
  | h :: t => if (h =? c)%N then l else if (h <? c)%N then c :: l else h :: insertClient c t
  end.

(** The clients of a document, highest id first. *)
Definition clientsOf (d : list Item) : list N :=
  fold_right (fun it acc => insertClient (item_client it) acc) [] d.

Definition encodeStateVector (d : list Item) : bytes :=
  Lib0.writeVarUint (N.of_nat (length (clientsOf d)))
  ++ flat_map (fun c => Lib0.writeVarUint c ++ Lib0.writeVarUint (getState d c)) (clientsOf d).

Fixpoint readStateVector (fuel : nat) (n : Z) (dec : bytes) (sv : list (N * N))
  : option (list (N * N)) :=
  if n <=? 0 then Some sv
  else
    match fuel with
    | O => None
    | S fuel' =>
        match Lib0.readVarUint dec with
        | Some (Lib0.JInt client, d1) =>
            match Lib0.readVarUint d1 with
            | Some (Lib0.JInt clock, d2) =>
                readStateVector fuel' (n - 1) d2 (JsMap.set (Z.to_N client) (Z.to_N clock) sv)
            | _ => None
            end
        | _ => None
        end
    end.

Definition decodeStateVector (sv : bytes) : option (list (N * N)) :=
  match Lib0.readVarUint sv with
  | Some (Lib0.JInt n, dec) => readStateVector (length dec) n dec []
  | _ => None
  end.

(** [encodeStateAsUpdate]: what the document has beyond a state vector. *)
Definition encodeStateAsUpdate (d : list Item) (target : list (N * N)) : bytes :=
  encodeUpdate
    ((fun c => (c, List.filter
                     (fun it => (item_client it =? c)%N
                                && (default 0%N (JsMap.get c target) <=? item_clock it)%N) d))
     <$> clientsOf d).

(** [syncProtocol.readSyncMessage]: step 1 is answered with step 2, step 2
    and update are applied. *)
Definition readSyncMessage (rest : bytes) (d : list Item) : SyncResult (list Item) :=
  match Lib0.readVarUint rest with
  | Some (t, body) =>
      if Lib0.js_is t 0 then
        match Lib0.readVarUint8Array body with
        | Some (sv, _) =>
            match decodeStateVector sv with
            | Some target =>
                mkSyncResult d None
                  (Some (Lib0.writeVarUint 1
                         ++ Lib0.writeVarUint8Array (encodeStateAsUpdate d target)))
            | None => mkSyncResult d None None
            end
        | None => mkSyncResult d None None
        end
      else if Lib0.js_is t 1 || Lib0.js_is t 2 then
        match Lib0.readVarUint8Array body with
        | Some (u, _) =>
            match applyUpdate u d with
            | Some (d', new) =>
                if forallb (fun g : N * list Item =>
                              match g.2 with [] => true | _ :: _ => false end) new
                then mkSyncResult d None (Some [])
                else mkSyncResult d' (Some (encodeUpdate new)) (Some [])
            | None => mkSyncResult d None None
            end
        | None => mkSyncResult d None None
        end
      else mkSyncResult d None None
  | None => mkSyncResult d None None
  end.

(** [syncProtocol.writeSyncStep1]. *)
Definition writeSyncStep1 (d : list Item) : bytes :=
  Lib0.writeVarUint 0 ++ Lib0.writeVarUint8Array (encodeStateVector d).

(** The awareness object's own client id and the clock of every client. *)
Record Clocks := mkClocks {
  localClient : nat;
  clocks : list (nat * Z);
}.

Definition nullText : bytes := [x6e; x75; x6c; x6c].
Definition isNull (state : bytes) : bool := bytes_eqb state nullText.

(** One turn of the loop of [applyAwarenessUpdate]. *)
Definition applyEntry (clientID : nat) (clock : Z) (state : bytes)
  (aw : Awareness bytes Clocks) (ch : AwarenessChange) : Awareness bytes Clocks * AwarenessChange :=
  let clientMeta := JsMap.get clientID (clocks (meta aw)) in
  let currClock := default 0 clientMeta in
  if (currClock <? clock)
     || ((currClock =? clock) && isNull state && JsMap.has clientID (states aw))
  then
    let keepLocal := isNull state && Nat.eqb clientID (localClient (meta aw))
                     && JsMap.has clientID (states aw) in
    let st := if isNull state
              then (if keepLocal then states aw else JsMap.remove clientID (states aw))
              else JsMap.set clientID state (states aw) in
    let clock' := if keepLocal then clock + 1 else clock in
    let aw' := mkAwareness st (mkClocks (localClient (meta aw))
                                        (JsMap.set clientID clock' (clocks (meta aw)))) in
    match clientMeta, isNull state with
    | None, false => (aw', mkChange (added ch ++ [clientID]) (updated ch) (removed ch))
    | Some _, true => (aw', mkChange (added ch) (updated ch) (removed ch ++ [clientID]))
    | _, false => (aw', mkChange (added ch) (updated ch ++ [clientID]) (removed ch))
    | _, true => (aw', ch)
    end
  else (aw, ch).

(** The loop: [len] entries are still to be read; every entry takes at
    least three bytes, so the length of the input bounds the turns. *)
Fixpoint applyEntries (fuel : nat) (len : Z) (dec : bytes)
  (aw : Awareness bytes Clocks) (ch : AwarenessChange)
  : option (Awareness bytes Clocks * AwarenessChange) :=
  if len <=? 0 then Some (aw, ch)
  else
    match fuel with
    | O => None
    | S fuel' =>
        match Lib0.readVarUint dec with
        | Some (Lib0.JInt clientID, dec1) =>
            match Lib0.readVarUint dec1 with
            | Some (Lib0.JInt clock, dec2) =>
                match Lib0.readVarUint8Array dec2 with
                | Some (state, dec3) =>
                    let '(aw', ch') := applyEntry (Z.to_nat clientID) clock state aw ch in
                    applyEntries fuel' (len - 1) dec3 aw' ch'
                | None => None
                end
            | _ => None
            end
        | _ => None
        end
    end.

Definition applyAwarenessUpdate (aw : Awareness bytes Clocks) (update : bytes)
  : Awareness bytes Clocks * AwOutcome :=
  match Lib0.readVarUint update with
  | Some (Lib0.JInt len, dec) =>
      match applyEntries (length dec) len dec aw (mkChange [] [] []) with
      | None => (aw, AwThrew)
      | Some (aw', ch) =>
          (aw', AwDone (match added ch ++ updated ch ++ removed ch with
                        | [] => None
                        | _ :: _ => Some ch
                        end))
      end
  | Some (Lib0.JNaN, _) => (aw, AwDone None)
  | _ => (aw, AwThrew)
  end.

Definition encodeAwarenessUpdate (aw : Awareness bytes Clocks) (clients : list nat) : bytes :=
  Lib0.writeVarUint (N.of_nat (length clients))
  ++ flat_map (fun clientID =>
       Lib0.writeVarUint (N.of_nat clientID)
       ++ Lib0.writeVarUint (Z.to_N (default 0 (JsMap.get clientID (clocks (meta aw)))))
       ++ Lib0.writeVarUint8Array (default nullText (JsMap.get clientID (states aw))))
     clients.

(** [removeAwarenessStates] bumps the clock of the object's own client. *)
Definition metaOnRemove (clientID : nat) (m : Clocks) : Clocks :=
  if Nat.eqb clientID (localClient m)
  then mkClocks (localClient m)
                (match JsMap.get clientID (clocks m) with
                 | Some c => JsMap.set clientID (c + 1) (clocks m)
                 | None => clocks m
                 end)
  else m.

Definition lib : YLib :=
  mkYLib (list Item) bytes Clocks
         (fun _ => []) (mkClocks 4242 [(4242%nat, 1)])
         readSyncMessage writeSyncStep1
         applyAwarenessUpdate encodeAwarenessUpdate
         metaOnRemove.

End StandIn.

(** ** Concrete runs *)

Module Scenario.
Import Persistence Utils Server.
Local Open Scope string_scope.

Definition configured : Env := mkEnv (Some "acct") (Some "key") (Some "secret") None.
Definition unconfigured : Env := mkEnv None None None None.
Definition emptyStore : S3 := mkS3 ∅ [] (fun _ _ => None).
Definition room : string := "book1:ch2".

(** For the scheduler alone the heap is the blob itself. *)
Definition blob : bytes -> bytes := id.
Definition otherRoom : list (bytes * Op bytes) := [([x01], OpScheduleSave "book9:ch9" blob)].
Definition burstCalls : list (Z * bytes * (bytes -> bytes)) :=
  [(500, [x01; x0a], blob); (700, [x01; x0b], blob)].
Definition pendingSave : list (bytes * Op bytes) := [([x01; x0a], OpScheduleSave room blob)].

(** Two clients join a fresh room. *)
Definition twoJoined : World (Y := StandIn.lib) :=
  runEvents configured
    [EvSetupStart room true; EvSetupFinish 1%nat room None;
     EvSetupStart room true; EvSetupFinish 2%nat room None] (boot emptyStore).

(** A Yjs update: client 1, at clock 0, sets key [a] of the root map
    [notes] to the string [b]; no deletions. *)
Definition notesUpdate : bytes :=
  [x01; x01; x01; x00; x28; x01; x05; x6e; x6f; x74; x65; x73; x01; x61; x01; x77; x01; x62;
   x00].
Definition noteA : StandIn.Item :=
  StandIn.mkItem 1 0 [x6e; x6f; x74; x65; x73] [x61] [x77; x01; x62].
(** The legacy sync frame that carries it: sync, update, 19 bytes. *)
Definition legacyUpdate : bytes := [x00; x02; x13] ++ notesUpdate.
(** An encrypted sync frame. *)
Definition encryptedSync : bytes := [x01; x2a].
(** A legacy awareness frame (type tag [1] written in two bytes, so that the
    first byte is not 1): one entry, client 7, clock 1, state [{}]. *)
Definition presenceOf7 : bytes := [x81; x00; x06; x01; x07; x01; x02; x7b; x7d].

(** The room has latched to encrypted mode. *)
Definition latched : World (Y := StandIn.lib) :=
  handle configured (EvMessage 1%nat room encryptedSync) twoJoined.

(** Client 1 controls presence id 7; the socket of client 2 has closed but
    its close event has not been delivered yet. *)
Definition oneDead : World (Y := StandIn.lib) :=
  runEvents configured
    [EvMessage 1%nat room presenceOf7; EvTransport 2%nat (mkSocket 3 false)] twoJoined.

(** One client joined, sent an encrypted state and left; the save is
    still pending. *)
Definition unsaved : World (Y := StandIn.lib) :=
  runEvents configured
    [EvSetupStart room true; EvSetupFinish 1%nat room None;
     EvMessage 1%nat room encryptedSync; EvClose 1%nat room] (boot emptyStore).

End Scenario.

(** ** Concrete runs of the front end *)

Module FrontScenario.
Import Persistence Utils Server Index Scenario.
Local Open Scope string_scope.

(** A store that answers every request with an error. *)
Definition failing : S3 := mkS3 ∅ [] (fun _ _ => Some "InternalError").

(** A store that holds a state for the room. *)
Definition stocked : S3 :=
  mkS3 {[ ("write", "collab/book1/ch2/state.yjs") := encryptedSync ]} [] (fun _ _ => None).

(** A save of the room is due. *)
Definition dueSave (s : S3) : Persist bytes :=
  advance 2000 (scheduleSave room blob (initial s)).
Definition dueTimer : Timer bytes := mkTimer 0 2000 room blob.

(** A save of another room is pending. *)
Definition otherPending : Persist bytes := scheduleSave "book9:ch9" blob (initial emptyStore).
Definition otherTimer : Timer bytes := mkTimer 0 2000 "book9:ch9" blob.

(** The canonical presence frame with an empty update. *)
Definition canonicalPresence : bytes := [x01; x01; x00].

(** The legacy sync step 1 frame of a client whose document is empty:
    sync, step 1, a state vector of one byte with no entries. *)
Definition syncStep1 : bytes := [x00; x00; x01; x00].

(** Client 1 has joined and brought presence id 7. *)
Definition withPresence : World (Y := StandIn.lib) :=
  runEvents configured [EvMessage 1%nat room presenceOf7] twoJoined.

(** The room with two working connections, as a relay state. *)
Definition relayOfTwo : Relay (Y := StandIn.lib) :=
  mkRelay (mkDoc room [(1%nat, []); (2%nat, [])] (mkAwareness [] newMeta) None false
                 (newYDoc true))
          emptyNet.

(** The socket of a client that is about to join has closed. *)
Definition goneBeforeJoining : World (Y := StandIn.lib) :=
  handle configured (EvTransport 9%nat (mkSocket 3 false)) twoJoined.

(** The token service: one token, for an editor of the room. *)
Definition ann : CollabToken := mkCollabToken "u1" "book1" "ch2" editor "Ann" "#c0ffee" 0.
Definition jwt (token secret : string) : option CollabToken :=
  if String.eqb token "t-ann" && String.eqb secret "dev-secret-change-in-production"
  then Some ann else None.

Definition goodRequest : Request :=
  mkRequest (Some "/?token=t-ann&room=book1:ch2") (Some (Some "t-ann", Some room)).
Definition wrongRoom : Request :=
  mkRequest (Some "/?token=t-ann&room=book9:ch9") (Some (Some "t-ann", Some "book9:ch9")).

(** One client has connected; its load is still in flight. *)
Definition connecting : Front (Y := StandIn.lib) :=
  runFront configured None jwt [FConnection goodRequest] (start emptyStore).

(** The load has settled and a second client has joined. *)
Definition twoClients : Front (Y := StandIn.lib) :=
  runFront configured None jwt [FLoaded 0%nat; FConnection goodRequest] connecting.

End FrontScenario.

(** * Properties *)

(** ** Lists *)

Module ListFacts.
Section ListFacts.
Context {A B : Type}.
Implicit Types (l : list A) (f : A -> B).

Lemma filter_none (P : A -> Prop) `{forall x, Decision (P x)} l :
  (forall x, x ∈ l -> ~ P x) -> filter P l = [].
Proof.
  induction l as [|a l IH]; intros Hl; [done|].
  rewrite filter_cons. destruct (decide (P a)) as [Hp|_].
  - exfalso. apply (Hl a); [left | done].
  - apply IH. intros x Hx. apply Hl. by right.
Qed.

Lemma filter_all (P : A -> Prop) `{forall x, Decision (P x)} l :
  (forall x, x ∈ l -> P x) -> filter P l = l.
Proof.
  induction l as [|a l IH]; intros Hl; [done|].
  rewrite filter_cons. destruct (decide (P a)) as [_|Hn].
  - f_equal. apply IH. intros x Hx. apply Hl. by right.
  - exfalso. apply Hn, Hl. left.
Qed.

Lemma NoDup_fmap_inj_on f l x y :
  NoDup (f <$> l) -> x ∈ l -> y ∈ l -> f x = f y -> x = y.
Proof.
  induction l as [|a l IH]; intros Hnd Hx Hy Hf; [by inversion Hx|].
  rewrite fmap_cons in Hnd. apply NoDup_cons in Hnd as [Hnot Hnd].
  apply elem_of_cons in Hx as [->|Hx]; apply elem_of_cons in Hy as [->|Hy].
  - done.
  - exfalso. apply Hnot. rewrite Hf. by apply list_elem_of_fmap_2.
  - exfalso. apply Hnot. rewrite <- Hf. by apply list_elem_of_fmap_2.
  - by apply IH.
Qed.

Lemma NoDup_fmap_filter f (P : A -> Prop) `{forall x, Decision (P x)} l :
  NoDup (f <$> l) -> NoDup (f <$> filter P l).
Proof.
  induction l as [|a l IH]; intros Hnd; [done|].
  rewrite fmap_cons in Hnd. apply NoDup_cons in Hnd as [Hnot Hnd].
  rewrite filter_cons. destruct (decide (P a)); [|by apply IH].
  rewrite fmap_cons. apply NoDup_cons. split; [|by apply IH].
  intros [y [Hy Hin]]%list_elem_of_fmap.
  apply list_elem_of_filter in Hin as [_ Hin].
  apply Hnot. rewrite Hy. by apply list_elem_of_fmap_2.
Qed.

Lemma filter_unique `{EqDecision B} f l x :
  NoDup (f <$> l) -> x ∈ l -> filter (fun y => f y = f x) l = [x].
Proof.
  induction l as [|a l IH]; intros Hnd Hx; [by inversion Hx|].
  rewrite fmap_cons in Hnd. apply NoDup_cons in Hnd as [Hnot Hnd].
  rewrite filter_cons. apply elem_of_cons in Hx as [->|Hx].
  - rewrite decide_True by done. f_equal.
    apply filter_none. intros y Hy Hf. apply Hnot. rewrite <- Hf.
    by apply list_elem_of_fmap_2.
  - rewrite decide_False; [by apply IH|].
    intros Hf. apply Hnot. rewrite Hf. by apply list_elem_of_fmap_2.
Qed.

End ListFacts.
End ListFacts.

(** ** The persistence scheduler *)

Module PersistenceFacts.
Import Persistence ListFacts.

Section Facts.
Variable env : Env.
Context {Heap : Type}.
Implicit Types (p : Persist Heap) (h : Heap) (room : string) (t : Timer Heap).

Lemma inv_initial s : TimersInv (initial (Heap := Heap) s).
Proof.
  unfold TimersInv, initial; simpl.
  split; [constructor|]. split; [constructor|]. split.
  - intros t Ht. inversion Ht.
  - intros room id. rewrite lookup_empty. split; [done|].
    intros (t & Ht & _). inversion Ht.
Qed.

Lemma inv_set_store s p : TimersInv p -> TimersInv (set_store s p).
Proof. done. Qed.

Lemma inv_advance dt p : TimersInv p -> TimersInv (advance dt p).
Proof. done. Qed.

Lemma inv_room_id p t :
  TimersInv p -> t ∈ timeouts p -> saveTimers p !! timer_room t = Some (timer_id t).
Proof. intros (_ & _ & _ & H3) Ht. apply H3. by exists t. Qed.

Lemma inv_absent p room :
  TimersInv p -> saveTimers p !! room = None -> pendingFor room p = [].
Proof.
  intros Hinv Hnone. apply filter_none. intros t Ht Hr.
  pose proof (inv_room_id p t Hinv Ht) as Hs. rewrite Hr in Hs. congruence.
Qed.

Lemma inv_pending p t :
  TimersInv p -> t ∈ timeouts p -> pendingFor (timer_room t) p = [t].
Proof.
  intros (_ & H1 & _) Ht. unfold pendingFor. by apply (filter_unique timer_room).
Qed.

(** Clearing the timeout that [saveTimers] holds for a room removes
    exactly the timeouts of that room. *)
Lemma clear_is_drop p room id :
  TimersInv p -> saveTimers p !! room = Some id ->
  filter (fun x => timer_id x <> id) (timeouts p)
  = filter (fun x => timer_room x <> room) (timeouts p).
Proof.
  intros Hinv Hs.
  destruct Hinv as (H0 & H1 & H2 & H3).
  destruct (proj1 (H3 room id) Hs) as (t0 & Ht0 & Hid0 & Hr0).
  assert (Hiff : forall x, x ∈ timeouts p -> (timer_id x <> id <-> timer_room x <> room)).
  { intros x Hx. split; intros Hne Heq; apply Hne.
    - assert (saveTimers p !! room = Some (timer_id x)) as Hx'
        by (apply H3; by exists x).
      congruence.
    - assert (x = t0) as -> by (apply (NoDup_fmap_inj_on timer_id (timeouts p)); congruence).
      done. }
  clear - Hiff. induction (timeouts p) as [|a l IH]; [done|].
  rewrite !filter_cons.
  assert (timer_id a <> id <-> timer_room a <> room) as Ha by (apply Hiff; left).
  rewrite IH by (intros x Hx; apply Hiff; by right).
  destruct (decide (timer_id a <> id)), (decide (timer_room a <> room)); tauto.
Qed.

Lemma cancel_is_forget p room :
  TimersInv p -> cancelPendingSave room p = forget room p.
Proof.
  intros Hinv. unfold cancelPendingSave, forget.
  destruct (saveTimers p !! room) as [id|] eqn:Hs; simpl.
  - by rewrite (clear_is_drop p room id).
  - rewrite delete_id by done.
    pose proof (inv_absent p room Hinv Hs) as Hnil. unfold pendingFor in Hnil.
    rewrite filter_all; [by destruct p|].
    intros x Hx Hr.
    assert (x ∈ filter (fun t => timer_room t = room) (timeouts p)) as Hin
      by (apply list_elem_of_filter; done).
    rewrite Hnil in Hin. inversion Hin.
Qed.

Lemma schedule_is_arm p room g :
  TimersInv p -> scheduleSave room g p = arm room g (forget room p).
Proof.
  intros Hinv. unfold scheduleSave, arm, forget.
  destruct (saveTimers p !! room) as [id|] eqn:Hs; simpl.
  - rewrite (clear_is_drop p room id) by done. by rewrite insert_delete_eq.
  - rewrite insert_delete_eq.
    pose proof (inv_absent p room Hinv Hs) as Hnil. unfold pendingFor in Hnil.
    rewrite (filter_all (fun t => timer_room t <> room)); [done|].
    intros x Hx Hr.
    assert (x ∈ filter (fun t => timer_room t = room) (timeouts p)) as Hin
      by (apply list_elem_of_filter; done).
    rewrite Hnil in Hin. inversion Hin.
Qed.

Lemma inv_forget p room : TimersInv p -> TimersInv (forget room p).
Proof.
  intros (H0 & H1 & H2 & H3). unfold TimersInv, forget; simpl.
  split; [by apply NoDup_fmap_filter|].
  split; [by apply NoDup_fmap_filter|].
  split.
  - intros t [_ Ht]%list_elem_of_filter. by apply H2.
  - intros room' id. destruct (decide (room' = room)) as [->|Hne].
    + rewrite lookup_delete_eq. split; [done|].
      intros (t & [Hr _]%list_elem_of_filter & _ & Hr'). done.
    + rewrite lookup_delete_ne by done. rewrite H3. split.
      * intros (t & Ht & Hid & Hr). exists t. split; [|done].
        apply list_elem_of_filter. split; [congruence|done].
      * intros (t & [_ Ht]%list_elem_of_filter & Hid & Hr). by exists t.
Qed.

Lemma forget_lookup p room : saveTimers (forget room p) !! room = None.
Proof. apply lookup_delete_eq. Qed.

Lemma pending_forget_eq p room : pendingFor room (forget room p) = [].
Proof.
  unfold pendingFor, forget; simpl. apply filter_none.
  intros x [Hr _]%list_elem_of_filter. done.
Qed.

Lemma pending_forget_ne p room room' :
  room' <> room -> pendingFor room' (forget room p) = pendingFor room' p.
Proof.
  intros Hne. unfold pendingFor, forget; simpl.
  apply list_filter_filter_l. congruence.
Qed.

Lemma inv_arm p room g :
  TimersInv p -> saveTimers p !! room = None -> TimersInv (arm room g p).
Proof.
  intros Hinv Hnone. pose proof (inv_absent p room Hinv Hnone) as Hnil.
  destruct Hinv as (H0 & H1 & H2 & H3). unfold TimersInv, arm; simpl.
  rewrite !fmap_app; simpl.
  split; [|split; [|split]].
  - apply NoDup_app. split; [done|]. split; [|apply NoDup_singleton].
    intros i [t [-> Ht]]%list_elem_of_fmap Hin%list_elem_of_singleton.
    apply H2 in Ht. lia.
  - apply NoDup_app. split; [done|]. split; [|apply NoDup_singleton].
    intros r [t [-> Ht]]%list_elem_of_fmap Hin%list_elem_of_singleton.
    assert (t ∈ pendingFor room p) as Hp by (apply list_elem_of_filter; done).
    rewrite Hnil in Hp. inversion Hp.
  - intros t [Ht| ->%list_elem_of_singleton]%elem_of_app; simpl; [|lia].
    apply H2 in Ht. lia.
  - intros room' id. destruct (decide (room' = room)) as [->|Hne].
    + rewrite lookup_insert_eq. split.
      * intros [= <-]. eexists. split; [apply elem_of_app; right; by left|done].
      * intros (t & [Ht| ->%list_elem_of_singleton]%elem_of_app & Hid & Hr); simpl in *.
        -- assert (t ∈ pendingFor room p) as Hp by (apply list_elem_of_filter; done).
           rewrite Hnil in Hp. inversion Hp.
        -- by subst.
    + rewrite lookup_insert_ne by done. rewrite H3. split.
      * intros (t & Ht & Hid & Hr). exists t. split; [|done].
        apply elem_of_app. by left.
      * intros (t & [Ht| ->%list_elem_of_singleton]%elem_of_app & Hid & Hr); simpl in *.
        -- by exists t.
        -- done.
Qed.

Lemma pending_arm_eq p room g :
  pendingFor room (arm room g p)
  = pendingFor room p ++ [mkTimer (nextTimer p) (now p + SAVE_DEBOUNCE_MS) room g].
Proof.
  unfold pendingFor, arm; simpl. rewrite filter_app. f_equal.
  rewrite filter_cons. simpl. by rewrite decide_True.
Qed.

Lemma pending_arm_ne p room room' g :
  room' <> room -> pendingFor room' (arm room g p) = pendingFor room' p.
Proof.
  intros Hne. unfold pendingFor, arm; simpl. rewrite filter_app.
  rewrite filter_cons. simpl. rewrite decide_False by congruence.
  by rewrite filter_nil, app_nil_r.
Qed.

Lemma inv_cancel p room : TimersInv p -> TimersInv (cancelPendingSave room p).
Proof. intros Hinv. rewrite cancel_is_forget by done. by apply inv_forget. Qed.

Lemma inv_schedule p room g : TimersInv p -> TimersInv (scheduleSave room g p).
Proof.
  intros Hinv. rewrite schedule_is_arm by done.
  apply inv_arm; [by apply inv_forget | apply forget_lookup].
Qed.

(** *** Writes *)

Lemma writes_persistState room r state s :
  writesFor room (snd (persistState env r state s))
  = (if String.eqb r room then (if isPersistenceAvailable env then [state] else []) else [])
    ++ writesFor room s.
Proof.
  unfold persistState, isPersistenceAvailable.
  destruct (getS3Client env); simpl; [|by destruct (String.eqb r room)].
  unfold s3_send.
  destruct (fault s (length (requests s)) _); unfold writesFor; simpl;
    by destruct (String.eqb r room).
Qed.

Lemma writes_flush room r state s :
  writesFor room (if (0 <? length state)%nat then snd (persistState env r state s) else s)
  = (if String.eqb r room then flushed env state else []) ++ writesFor room s.
Proof.
  unfold flushed. destruct (0 <? length state)%nat.
  - rewrite writes_persistState, andb_true_r. done.
  - rewrite andb_false_r. by destruct (String.eqb r room).
Qed.

(** *** Firing *)

Lemma find_by_id (l : list (Timer Heap)) x :
  NoDup (timer_id <$> l) -> x ∈ l ->
  List.find (fun y => Nat.eqb (timer_id y) (timer_id x)) l = Some x.
Proof.
  induction l as [|a l IH]; intros Hnd Hx; [by inversion Hx|].
  rewrite fmap_cons in Hnd. apply NoDup_cons in Hnd as [Hnot Hnd]. simpl.
  apply elem_of_cons in Hx as [->|Hx].
  - by rewrite Nat.eqb_refl.
  - destruct (Nat.eqb_spec (timer_id a) (timer_id x)) as [Heq|_]; [|by apply IH].
    exfalso. apply Hnot. rewrite Heq. by apply list_elem_of_fmap_2.
Qed.

Lemma find_by_id_inv (l : list (Timer Heap)) id x :
  List.find (fun y => Nat.eqb (timer_id y) id) l = Some x -> x ∈ l /\ timer_id x = id.
Proof.
  intros [Hin Heq]%find_some. split; [by apply list_elem_of_In|].
  by apply Nat.eqb_eq.
Qed.

(** A due timeout that fires drops its room from the timer state and
    flushes what its getter returns now. *)
Lemma fire_due p x h :
  TimersInv p -> x ∈ timeouts p -> deadline x <= now p ->
  exists s',
    fire env (timer_id x) h p = set_store s' (forget (timer_room x) p)
    /\ forall room,
         writesFor room s'
         = (if String.eqb (timer_room x) room then flushed env (timer_getState x h) else [])
           ++ writesFor room (store p).
Proof.
  intros Hinv Hx Hdue. unfold fire.
  rewrite find_by_id by (done || apply Hinv).
  apply Z.leb_le in Hdue. rewrite Hdue.
  unfold timerCallback, clearTimeout; simpl.
  rewrite (clear_is_drop p (timer_room x) (timer_id x)) by (done || by apply inv_room_id).
  exists (if (0 <? length (timer_getState x h))%nat
          then snd (persistState env (timer_room x) (timer_getState x h) (store p))
          else store p).
  split; [|intros room; apply writes_flush].
  unfold set_store, forget; simpl. by destruct (0 <? length _)%nat.
Qed.

Lemma fire_cases p id h :
  TimersInv p ->
  fire env id h p = p
  \/ exists x, x ∈ timeouts p /\ timer_id x = id /\ deadline x <= now p
               /\ fire env id h p = fire env (timer_id x) h p.
Proof.
  intros Hinv. unfold fire at 1.
  destruct (List.find _ _) as [x|] eqn:Hfind; [|by left].
  apply find_by_id_inv in Hfind as [Hx Hid].
  destruct (deadline x <=? now p) eqn:Hdue; [|by left].
  right. exists x. apply Z.leb_le in Hdue. by subst.
Qed.

Lemma fire_waiting p x h :
  TimersInv p -> x ∈ timeouts p -> now p < deadline x -> fire env (timer_id x) h p = p.
Proof.
  intros Hinv Hx Hlt. unfold fire.
  rewrite find_by_id by (done || apply Hinv).
  apply Z.leb_gt in Hlt. by rewrite Hlt.
Qed.

Lemma inv_fire p id h : TimersInv p -> TimersInv (fire env id h p).
Proof.
  intros Hinv. destruct (fire_cases p id h Hinv) as [->|(x & Hx & _ & Hdue & ->)]; [done|].
  destruct (fire_due p x h Hinv Hx Hdue) as (s' & -> & _).
  apply inv_set_store, inv_forget, Hinv.
Qed.

Lemma now_fire p id h : TimersInv p -> now (fire env id h p) = now p.
Proof.
  intros Hinv. destruct (fire_cases p id h Hinv) as [->|(x & Hx & _ & Hdue & ->)]; [done|].
  by destruct (fire_due p x h Hinv Hx Hdue) as (s' & -> & _).
Qed.

(** A timeout of another room firing leaves this room's timeout and
    writes alone. *)
Lemma fire_other p id h room :
  TimersInv p ->
  (forall x, x ∈ timeouts p -> timer_id x = id -> deadline x <= now p -> timer_room x <> room) ->
  pendingFor room (fire env id h p) = pendingFor room p
  /\ writesFor room (store (fire env id h p)) = writesFor room (store p).
Proof.
  intros Hinv Hother.
  destruct (fire_cases p id h Hinv) as [->|(x & Hx & Hid & Hdue & ->)]; [done|].
  destruct (fire_due p x h Hinv Hx Hdue) as (s' & -> & Hw).
  pose proof (Hother x Hx Hid Hdue) as Hne. split.
  - change (pendingFor room (set_store s' (forget (timer_room x) p)))
      with (pendingFor room (forget (timer_room x) p)).
    by apply pending_forget_ne.
  - simpl. rewrite Hw.
    destruct (String.eqb_spec (timer_room x) room); [done|done].
Qed.

Lemma pending_singleton p room t :
  pendingFor room p = [t] -> t ∈ timeouts p /\ timer_room t = room.
Proof.
  intros Hp. assert (t ∈ pendingFor room p) as Hin by (rewrite Hp; left).
  apply list_elem_of_filter in Hin. tauto.
Qed.

Lemma pending_member p room x :
  x ∈ timeouts p -> timer_room x = room -> x ∈ pendingFor room p.
Proof. intros. by apply list_elem_of_filter. Qed.

Lemma fireAll_inv ids h p :
  TimersInv p ->
  TimersInv (fold_left (fun acc i => fire env i h acc) ids p)
  /\ now (fold_left (fun acc i => fire env i h acc) ids p) = now p.
Proof.
  revert p. induction ids as [|i ids IH]; intros p Hinv; [done|]. simpl.
  destruct (IH (fire env i h p) (inv_fire p i h Hinv)) as [? Hnow].
  split; [done|]. by rewrite Hnow, now_fire.
Qed.

Lemma fireAll_absent ids h p room :
  TimersInv p -> pendingFor room p = [] ->
  pendingFor room (fold_left (fun acc i => fire env i h acc) ids p) = []
  /\ writesFor room (store (fold_left (fun acc i => fire env i h acc) ids p))
     = writesFor room (store p).
Proof.
  revert p. induction ids as [|i ids IH]; intros p Hinv Hnil; [done|]. simpl.
  destruct (fire_other p i h room Hinv) as [Hp Hw].
  { intros x Hx _ _ Hr. pose proof (pending_member p room x Hx Hr) as Hin.
    rewrite Hnil in Hin. inversion Hin. }
  destruct (IH (fire env i h p) (inv_fire p i h Hinv)) as [? Hw']; [congruence|].
  split; [done|congruence].
Qed.

Lemma fireAll_waiting ids h p room t :
  TimersInv p -> pendingFor room p = [t] -> now p < deadline t ->
  pendingFor room (fold_left (fun acc i => fire env i h acc) ids p) = [t]
  /\ writesFor room (store (fold_left (fun acc i => fire env i h acc) ids p))
     = writesFor room (store p).
Proof.
  revert p. induction ids as [|i ids IH]; intros p Hinv Hone Hlt; [done|]. simpl.
  destruct (fire_other p i h room Hinv) as [Hp Hw].
  { intros x Hx _ Hdue Hr. pose proof (pending_member p room x Hx Hr) as Hin.
    rewrite Hone in Hin. apply list_elem_of_singleton in Hin. subst. lia. }
  destruct (IH (fire env i h p) (inv_fire p i h Hinv)) as [? Hw'];
    [congruence | by rewrite now_fire | ].
  split; [done|congruence].
Qed.

Lemma fireAll_due ids h p room t :
  TimersInv p -> pendingFor room p = [t] -> deadline t <= now p -> timer_id t ∈ ids ->
  pendingFor room (fold_left (fun acc i => fire env i h acc) ids p) = []
  /\ writesFor room (store (fold_left (fun acc i => fire env i h acc) ids p))
     = flushed env (timer_getState t h) ++ writesFor room (store p).
Proof.
  revert p. induction ids as [|i ids IH]; intros p Hinv Hone Hdue Hin; [by inversion Hin|].
  simpl. destruct (pending_singleton p room t Hone) as [Ht Hr].
  destruct (decide (i = timer_id t)) as [->|Hne].
  - destruct (fire_due p t h Hinv Ht Hdue) as (s' & Heq & Hw). rewrite Heq.
    destruct (fireAll_absent ids h (set_store s' (forget (timer_room t) p)) room) as [Hp' Hw'].
    { apply inv_set_store, inv_forget, Hinv. }
    { rewrite Hr. apply pending_forget_eq. }
    split; [done|]. rewrite Hw'. simpl. rewrite Hw, Hr.
    by rewrite String.eqb_refl.
  - apply elem_of_cons in Hin as [?|Hin]; [congruence|].
    destruct (fire_other p i h room Hinv) as [Hp Hw].
    { intros x Hx Hid _ Hrx. pose proof (pending_member p room x Hx Hrx) as Hin'.
      rewrite Hone in Hin'. apply list_elem_of_singleton in Hin'. subst. done. }
    destruct (IH (fire env i h p) (inv_fire p i h Hinv)) as [? Hw'];
      [congruence | by rewrite now_fire | done | ].
    split; [done|congruence].
Qed.

Lemma inv_runDue h p : TimersInv p -> TimersInv (runDue env h p).
Proof. intros Hinv. by apply fireAll_inv. Qed.

Lemma now_runDue h p : TimersInv p -> now (runDue env h p) = now p.
Proof. intros Hinv. by apply fireAll_inv. Qed.

Lemma runDue_absent h p room :
  TimersInv p -> pendingFor room p = [] ->
  pendingFor room (runDue env h p) = []
  /\ writesFor room (store (runDue env h p)) = writesFor room (store p).
Proof. intros. by apply fireAll_absent. Qed.

Lemma runDue_waiting h p room t :
  TimersInv p -> pendingFor room p = [t] -> now p < deadline t ->
  pendingFor room (runDue env h p) = [t]
  /\ writesFor room (store (runDue env h p)) = writesFor room (store p).
Proof. intros. by apply fireAll_waiting. Qed.

Lemma runDue_due h p room t :
  TimersInv p -> pendingFor room p = [t] -> deadline t <= now p ->
  pendingFor room (runDue env h p) = []
  /\ writesFor room (store (runDue env h p))
     = flushed env (timer_getState t h) ++ writesFor room (store p).
Proof.
  intros Hinv Hone Hdue. apply fireAll_due; try done.
  apply list_elem_of_fmap_2. by apply (pending_singleton p room t).
Qed.

(** *** Every operation keeps the invariant *)

Lemma inv_forceSave room g h p :
  TimersInv p -> TimersInv (snd (forceSave env room g h p)).
Proof.
  intros Hinv. unfold forceSave.
  destruct (0 <? length (g h))%nat; [destruct (persistState _ _ _ _)|]; simpl;
    [apply inv_set_store|]; by apply inv_cancel.
Qed.

Lemma inv_saveAllPending ds h p :
  TimersInv p -> TimersInv (saveAllPending env ds h p).
Proof.
  revert p. induction ds as [|[r g] ds IH]; intros p Hinv; [done|]. simpl.
  destruct (persistState _ _ _ _). apply IH, inv_set_store. by apply inv_cancel.
Qed.

Lemma inv_step h o p : TimersInv p -> TimersInv (step env h o p).
Proof.
  intros Hinv. destruct o; simpl.
  - by apply inv_schedule.
  - by apply inv_cancel.
  - by apply inv_forceSave.
  - by apply inv_saveAllPending.
  - by apply inv_advance.
  - by apply inv_runDue.
Qed.

Lemma inv_run ops p : TimersInv p -> TimersInv (run env ops p).
Proof.
  revert p. induction ops as [|[h o] ops IH]; intros p Hinv; [done|].
  apply IH. by apply inv_step.
Qed.

Lemma pending_cases p room :
  TimersInv p ->
  (saveTimers p !! room = None /\ pendingFor room p = [])
  \/ (exists t, saveTimers p !! room = Some (timer_id t) /\ pendingFor room p = [t]).
Proof.
  intros Hinv. destruct (saveTimers p !! room) as [id|] eqn:Hs.
  - right. destruct Hinv as (H0 & H1 & H2 & H3).
    destruct (proj1 (H3 room id) Hs) as (t & Ht & <- & <-).
    exists t. split; [done|]. by apply inv_pending.
  - left. split; [done|]. by apply inv_absent.
Qed.

(** C10. For every room, at every moment, there is at most one pending
    timeout: in every state the scheduler reaches from its initial state
    through [scheduleSave], [cancelPendingSave], [forceSave],
    [saveAllPending], the passing of time and the firing of due timeouts,
    the room has at most one live timeout, every live timeout of the room
    is the one recorded in [saveTimers], and a room without an entry in
    [saveTimers] has no live timeout. *)
Theorem C10_at_most_one_pending_timer (s : S3) (ops : list (Heap * Op Heap)) (room : string) :
  let p := run env ops (initial s) in
  (length (pendingFor room p) <= 1)%nat
  /\ Forall (fun t => saveTimers p !! room = Some (timer_id t)) (pendingFor room p)
  /\ (saveTimers p !! room = None <-> pendingFor room p = [])
  /\ TimersInv p.
Proof.
  intros p.
  assert (TimersInv p) as Hinv by apply inv_run, inv_initial.
  destruct (pending_cases p room Hinv) as [[Hs Hp]|(t & Hs & Hp)]; rewrite Hp, Hs.
  - split; [simpl; lia|]. split; [constructor|]. by split.
  - split; [simpl; lia|]. split; [by repeat constructor|]. by split.
Qed.

(** *** Bursts *)

Lemma last_cons_default {X : Type} (a d : X) (l : list X) :
  List.last (a :: l) d = List.last l a.
Proof.
  revert a d. induction l as [|b l IH]; intros a d; [done|].
  change (List.last (a :: b :: l) d) with (List.last (b :: l) d).
  by rewrite !IH.
Qed.

Lemma schedule_effect p room g :
  TimersInv p ->
  pendingFor room (scheduleSave room g p)
  = [mkTimer (nextTimer p) (now p + SAVE_DEBOUNCE_MS) room g]
  /\ now (scheduleSave room g p) = now p
  /\ store (scheduleSave room g p) = store p.
Proof.
  intros Hinv. rewrite schedule_is_arm by done.
  rewrite pending_arm_eq, pending_forget_eq. done.
Qed.

Lemma burst_keeps_one_timer room calls p t :
  TimersInv p -> pendingFor room p = [t] -> deadline t = now p + SAVE_DEBOUNCE_MS ->
  Forall (fun c => 0 <= c.1.1 < SAVE_DEBOUNCE_MS) calls ->
  TimersInv (burst env room calls p)
  /\ writesFor room (store (burst env room calls p)) = writesFor room (store p)
  /\ exists t', pendingFor room (burst env room calls p) = [t']
                /\ deadline t' = now (burst env room calls p) + SAVE_DEBOUNCE_MS
                /\ timer_getState t' = lastGetter (timer_getState t) calls.
Proof.
  revert p t. induction calls as [|[[dt h] g] calls IH]; intros p t Hinv Hone Hdl Hcalls.
  - split; [done|]. split; [done|]. by exists t.
  - apply Forall_cons in Hcalls as [Hdt Hcalls]. simpl in Hdt. simpl.
    set (p1 := advance dt p).
    assert (TimersInv p1) as Hinv1 by by apply inv_advance.
    assert (now p1 < deadline t) as Hlt by (unfold p1; simpl; lia).
    destruct (runDue_waiting h p1 room t Hinv1 Hone Hlt) as [Hp2 Hw2].
    pose proof (inv_runDue h p1 Hinv1) as Hinv2.
    destruct (schedule_effect (runDue env h p1) room g Hinv2) as (Hp3 & Hnow3 & Hst3).
    destruct (IH (scheduleSave room g (runDue env h p1)) _
                 (inv_schedule _ room g Hinv2) Hp3) as (Hinv' & Hw' & t' & Hp' & Hd' & Hg').
    { by rewrite Hnow3. }
    { done. }
    split; [done|]. split; [by rewrite Hw', Hst3, Hw2|].
    exists t'. split; [done|]. split; [done|].
    rewrite Hg'. unfold lastGetter. simpl map.
    by rewrite last_cons_default.
Qed.

(** C5. A burst of [scheduleSave] calls for one room, each call arriving
    less than the debounce delay after the one before, leaves exactly one
    pending timeout and writes nothing while it lasts; once the delay has
    passed after the last call, the timeouts that fire add to the room's
    writes exactly what one flush of the last call's getter gives, read at
    that moment: one write with that snapshot as its body when the store
    is configured and the snapshot is not empty, and no write otherwise. *)
Theorem C5_burst_writes_once (s : S3) (ops : list (Heap * Op Heap)) (room : string)
    (g : Heap -> bytes) (calls : list (Z * Heap * (Heap -> bytes))) (dt : Z) (h : Heap) :
  Forall (fun c => 0 <= c.1.1 < SAVE_DEBOUNCE_MS) calls ->
  SAVE_DEBOUNCE_MS <= dt ->
  let p0 := run env ops (initial s) in
  let pN := burst env room calls (scheduleSave room g p0) in
  let pend := runDue env h (advance dt pN) in
  length (pendingFor room pN) = 1%nat
  /\ writesFor room (store pN) = writesFor room (store p0)
  /\ writesFor room (store pend)
     = flushed env (lastGetter g calls h) ++ writesFor room (store p0)
  /\ (isPersistenceAvailable env = true -> lastGetter g calls h <> [] ->
      writesFor room (store pend) = lastGetter g calls h :: writesFor room (store p0))
  /\ pendingFor room pend = [].
Proof.
  intros Hcalls Hdt p0 pN pend.
  assert (TimersInv p0) as Hinv0 by apply inv_run, inv_initial.
  destruct (schedule_effect p0 room g Hinv0) as (Hp1 & Hnow1 & Hst1).
  destruct (burst_keeps_one_timer room calls (scheduleSave room g p0) _
              (inv_schedule _ room g Hinv0) Hp1) as (HinvN & HwN & t & HpN & HdN & HgN).
  { by rewrite Hnow1. }
  { done. }
  fold pN in HinvN, HwN, HpN, HdN.
  split; [by rewrite HpN|]. split; [by rewrite HwN, Hst1|].
  destruct (runDue_due h (advance dt pN) room t) as [Hpe Hwe].
  - by apply inv_advance.
  - done.
  - simpl. lia.
  - fold pend in Hpe, Hwe.
    assert (writesFor room (store pend)
            = flushed env (lastGetter g calls h) ++ writesFor room (store p0)) as Hw
      by (rewrite Hwe; simpl; by rewrite HgN, HwN, Hst1).
    split; [done|]. split; [|done].
    intros Hcfg Hne. rewrite Hw. unfold flushed. rewrite Hcfg.
    by destruct (lastGetter g calls h).
Qed.

(** C6. When a room has a pending scheduled save, [forceSave] resolves
    after removing that timeout and its map entry and adding to the room's
    writes exactly one flush of the snapshot its getter returns at that
    moment (one write when the store is configured and the snapshot is not
    empty, none otherwise); however much time passes afterwards, the
    cancelled timeout adds no further write. *)
Theorem C6_forceSave_writes_at_most_once (s : S3) (ops : list (Heap * Op Heap))
    (room : string) (g : Heap -> bytes) (h : Heap) (id : nat) :
  let p := run env ops (initial s) in
  saveTimers p !! room = Some id ->
  let p' := snd (forceSave env room g h p) in
  fst (forceSave env room g h p) = Resolved tt
  /\ saveTimers p' !! room = None
  /\ pendingFor room p' = []
  /\ Forall (fun t => timer_id t <> id) (timeouts p')
  /\ writesFor room (store p') = flushed env (g h) ++ writesFor room (store p)
  /\ (length (writesFor room (store p')) <= 1 + length (writesFor room (store p)))%nat
  /\ (isPersistenceAvailable env = true -> g h <> [] ->
      writesFor room (store p') = g h :: writesFor room (store p))
  /\ forall dt h', writesFor room (store (runDue env h' (advance dt p')))
                   = writesFor room (store p').
Proof.
  intros p Hs p'.
  assert (TimersInv p) as Hinv by apply inv_run, inv_initial.
  assert (TimersInv p') as Hinv' by by apply inv_forceSave.
  assert (exists s', forceSave env room g h p = (Resolved tt, set_store s' (forget room p))
                     /\ writesFor room s' = flushed env (g h) ++ writesFor room (store p))
    as (s' & Heq & Hw).
  { unfold forceSave. rewrite cancel_is_forget by done.
    pose proof (writes_flush room room (g h) (store p)) as Hw.
    rewrite String.eqb_refl in Hw.
    destruct (0 <? length (g h))%nat.
    - exists (snd (persistState env room (g h) (store p))). split; [|done].
      unfold persistState. simpl.
      destruct (getS3Client env); [|done].
      by destruct (s3_send _ _ _) as [[] ?].
    - exists (store p). split; [|done]. by destruct p. }
  unfold p' in *. rewrite Heq in *. simpl fst. simpl snd in *.
  assert (pendingFor room (set_store s' (forget room p)) = []) as Hnil
    by apply pending_forget_eq.
  split; [done|]. split; [apply forget_lookup|]. split; [done|].
  split; [|split; [done|split; [|split]]].
  - apply Forall_forall. intros t [Hr Ht]%list_elem_of_filter Hid.
    apply Hr. pose proof (inv_room_id p t Hinv Ht) as Hroom.
    destruct Hinv as (H0 & H1 & H2 & H3).
    destruct (proj1 (H3 room id) Hs) as (t0 & Ht0 & Hid0 & Hr0).
    assert (t = t0) as -> by (apply (NoDup_fmap_inj_on timer_id (timeouts p)); congruence).
    done.
  - change (store (set_store s' (forget room p))) with s'.
    rewrite Hw, length_app. unfold flushed. destruct (_ && _); simpl; lia.
  - intros Hcfg Hne. change (store (set_store s' (forget room p))) with s'.
    rewrite Hw. unfold flushed. rewrite Hcfg. by destruct (g h).
  - intros dt h'.
    apply (runDue_absent h' (advance dt (set_store s' (forget room p))) room).
    + by apply inv_advance.
    + done.
Qed.

(** C9. When one of the three credentials is missing or empty,
    [persistState], [loadState], [deleteState] and [forceSave] all resolve
    without sending any request to the object store, and [loadState]
    resolves to absent: persistence is off, nothing fails. *)
Theorem C9_unconfigured_store_is_never_called (room : string) (state : bytes) (s : S3)
    (g : Heap -> bytes) (h : Heap) (p : Persist Heap) :
  truthy (CLOUDFLARE_ACCOUNT_ID env) && truthy (R2_ACCESS_KEY_ID env)
    && truthy (R2_SECRET_ACCESS_KEY env) = false ->
  isPersistenceAvailable env = false
  /\ persistState env room state s = (Resolved tt, s)
  /\ loadState env room s = (Resolved None, s)
  /\ deleteState env room s = (Resolved tt, s)
  /\ fst (forceSave env room g h p) = Resolved tt
  /\ store (snd (forceSave env room g h p)) = store p.
Proof.
  intros Hcfg.
  assert (getS3Client env = None) as Hnone.
  { unfold getS3Client.
    destruct (truthy (CLOUDFLARE_ACCOUNT_ID env)), (truthy (R2_ACCESS_KEY_ID env)),
      (truthy (R2_SECRET_ACCESS_KEY env)); simpl in *; congruence. }
  unfold isPersistenceAvailable, persistState, loadState, deleteState, forceSave, persistState.
  rewrite Hnone. repeat split; try done.
  - by destruct (0 <? length (g h))%nat.
  - destruct (0 <? length (g h))%nat; simpl;
      unfold cancelPendingSave; by destruct (saveTimers p !! room).
Qed.

(** *** Flushing every room *)

Lemma writes_saveAllPending (ds : list (string * (Heap -> bytes))) h p room :
  writesFor room (store (saveAllPending env ds h p))
  = (if isPersistenceAvailable env
     then rev (omap (fun rg => if String.eqb rg.1 room then Some (rg.2 h) else None) ds)
     else [])
    ++ writesFor room (store p).
Proof.
  revert p. induction ds as [|[r g] ds IH]; intros p.
  - simpl. by destruct (isPersistenceAvailable env).
  - simpl saveAllPending.
    destruct (persistState env r (g h) (store (cancelPendingSave r p))) as [res s] eqn:E.
    rewrite IH. simpl store.
    pose proof (writes_persistState room r (g h) (store (cancelPendingSave r p))) as Hw.
    rewrite E in Hw. simpl in Hw. rewrite Hw.
    assert (store (cancelPendingSave r p) = store p) as ->
      by (unfold cancelPendingSave; by destruct (saveTimers p !! r)).
    simpl omap. destruct (String.eqb r room); simpl.
    + destruct (isPersistenceAvailable env); [|done]. by rewrite <- app_assoc.
    + done.
Qed.

Lemma pending_saveAllPending_nil (ds : list (string * (Heap -> bytes))) h p room :
  TimersInv p -> pendingFor room p = [] ->
  pendingFor room (saveAllPending env ds h p) = [].
Proof.
  revert p. induction ds as [|[r g] ds IH]; intros p Hinv Hnil; [done|].
  simpl. destruct (persistState _ _ _ _) as [res s].
  apply IH.
  - apply inv_set_store. by apply inv_cancel.
  - change (pendingFor room (cancelPendingSave r p) = []).
    rewrite cancel_is_forget by done.
    destruct (decide (room = r)) as [->|Hne]; [apply pending_forget_eq|].
    by rewrite pending_forget_ne.
Qed.

Lemma pending_saveAllPending (ds : list (string * (Heap -> bytes))) h p room :
  TimersInv p -> room ∈ ds.*1 ->
  pendingFor room (saveAllPending env ds h p) = [].
Proof.
  revert p. induction ds as [|[r g] ds IH]; intros p Hinv Hin; [by inversion Hin|].
  simpl. destruct (persistState _ _ _ _) as [res s].
  assert (TimersInv (set_store s (cancelPendingSave r p))) as Hinv'
    by (apply inv_set_store; by apply inv_cancel).
  rewrite fmap_cons in Hin. apply elem_of_cons in Hin as [->|Hin]; [|by apply IH].
  apply pending_saveAllPending_nil; [done|].
  change (pendingFor r (cancelPendingSave r p) = []).
  rewrite cancel_is_forget by done. apply pending_forget_eq.
Qed.

End Facts.
End PersistenceFacts.

(** ** Insertion-ordered maps *)

Module JsMapFacts.
Section JsMapFacts.
Context {K V : Type} `{EqDecision K}.
Implicit Types (k : K) (v : V) (m : list (K * V)).

Lemma get_remove_eq k m : JsMap.get k (JsMap.remove k m) = None.
Proof.
  induction m as [|[k' v'] m IH]; [done|]. simpl.
  destruct (decide (k = k')) as [->|Hne]; [done|]. simpl. by rewrite decide_False.
Qed.

Lemma get_remove_ne k k' m : k <> k' -> JsMap.get k' (JsMap.remove k m) = JsMap.get k' m.
Proof.
  intros Hne. induction m as [|[k0 v0] m IH]; [done|]. simpl.
  destruct (decide (k = k0)) as [->|Hne0]; simpl.
  - rewrite decide_False by congruence. done.
  - by rewrite IH.
Qed.

Lemma get_remove_some k k' v m :
  JsMap.get k' (JsMap.remove k m) = Some v -> JsMap.get k' m = Some v.
Proof.
  destruct (decide (k = k')) as [->|Hne].
  - by rewrite get_remove_eq.
  - by rewrite get_remove_ne.
Qed.

Lemma length_remove k m : (length (JsMap.remove k m) <= length m)%nat.
Proof.
  induction m as [|[k' v'] m IH]; [done|]. simpl.
  destruct (decide (k = k')); simpl; lia.
Qed.

Lemma length_remove_some k v m :
  JsMap.get k m = Some v -> (length (JsMap.remove k m) < length m)%nat.
Proof.
  induction m as [|[k' v'] m IH]; [done|]. simpl.
  destruct (decide (k = k')); simpl; intros Hg.
  - pose proof (length_remove k m). lia.
  - apply IH in Hg. lia.
Qed.

Lemma get_set_eq k v m : JsMap.get k (JsMap.set k v m) = Some v.
Proof.
  induction m as [|[k' v'] m IH]; simpl.
  - by rewrite decide_True.
  - destruct (decide (k = k')) as [->|Hne]; simpl.
    + by rewrite decide_True.
    + by rewrite decide_False.
Qed.

Lemma get_set_ne k k' v m : k <> k' -> JsMap.get k' (JsMap.set k v m) = JsMap.get k' m.
Proof.
  intros Hne. induction m as [|[k0 v0] m IH]; simpl.
  - by rewrite decide_False by congruence.
  - destruct (decide (k = k0)) as [->|Hne0]; simpl.
    + by rewrite !decide_False by congruence.
    + by rewrite IH.
Qed.

Lemma keys_set_same k v v' m :
  JsMap.get k m = Some v' -> JsMap.keys (JsMap.set k v m) = JsMap.keys m.
Proof.
  unfold JsMap.keys. induction m as [|[k0 v0] m IH]; [done|]. simpl.
  destruct (decide (k = k0)) as [->|Hne]; [done|].
  intros Hg. rewrite !fmap_cons. f_equal. by apply IH.
Qed.

Lemma get_is_Some_keys k m : is_Some (JsMap.get k m) <-> k ∈ JsMap.keys m.
Proof.
  unfold JsMap.keys. induction m as [|[k' v'] m IH]; simpl.
  - split; [by intros [? ?]|by inversion 1].
  - destruct (decide (k = k')) as [->|Hne].
    + split; [left|by eexists].
    + rewrite IH. split; [by right|].
      intros [?|?]%elem_of_cons; done.
Qed.

Lemma has_true k m : JsMap.has k m = true <-> is_Some (JsMap.get k m).
Proof.
  unfold JsMap.has. destruct (JsMap.get k m); split; done.
Qed.

End JsMapFacts.
End JsMapFacts.

(** ** Closing connections *)

Module UtilsFacts.
Import Utils JsMapFacts.

Section Facts.
Context {Y : YLib}.
Implicit Types (r : Relay) (c conn : Conn) (m : bytes).
Implicit Types (K : Conn -> Prop) (P : Conn * bytes -> Prop).

Lemma pruned_refl K P r : Pruned K P r r.
Proof.
  constructor; try done.
  exists []. split; [done|constructor].
Qed.

Lemma pruned_trans K P r1 r2 r3 : Pruned K P r1 r2 -> Pruned K P r2 r3 -> Pruned K P r1 r3.
Proof.
  intros H12 H23. destruct H12, H23. constructor; try congruence; try lia.
  - auto.
  - intros c Hs Ha. destruct (pruned_alive0 c Hs Ha) as [Ha2 Hg2].
    destruct (pruned_alive1 c Hs Ha2) as [Ha3 Hg3]. split; [done|congruence].
  - auto.
  - auto.
  - destruct pruned_wire0 as (s1 & E1 & F1), pruned_wire1 as (s2 & E2 & F2).
    exists (s2 ++ s1). rewrite E2, E1, app_assoc. split; [done|by apply Forall_app].
Qed.

Lemma pruned_weaken K P Q r r' : (forall e, P e -> Q e) -> Pruned K P r r' -> Pruned K Q r r'.
Proof.
  intros HPQ []. constructor; try done.
  destruct pruned_wire0 as (s & E & F). exists s. split; [done|].
  eapply Forall_impl; eauto.
Qed.

Lemma closable_stable K P r r' c : Pruned K P r r' -> closable K r c -> closable K r' c.
Proof. intros H [Hd|Hs]; [left; by apply (pruned_dead _ _ _ _ H)|by right]. Qed.

Lemma pruned_conn_send K P c m r : P (c, m) -> Pruned K P r (conn_send c m r).
Proof.
  intros HP. constructor; try done.
  exists [(c, m)]. split; [done|by constructor].
Qed.

Lemma aliveb_conn_close c c' r :
  aliveb (net (conn_close c r)) c' = if decide (c' = c) then false else aliveb (net r) c'.
Proof.
  unfold aliveb, conn_close; simpl. destruct (decide (c' = c)) as [->|]; [|done].
  destruct (readyState (sockets (net r) c) =? 3) eqn:E; [|done].
  apply Z.eqb_eq in E. by rewrite E.
Qed.

Lemma pruned_conn_close K P c r : closable K r c -> Pruned K P r (conn_close c r).
Proof.
  intros Hc. constructor; try done.
  - intros c' Hs Ha. rewrite aliveb_conn_close.
    destruct (decide (c' = c)) as [->|]; [|done].
    destruct Hc; [congruence|done].
  - intros c' Ha. rewrite aliveb_conn_close. by destruct (decide (c' = c)).
  - exists []. split; [done|constructor].
Qed.

Lemma pruned_remove K P c r :
  closable K r c -> Pruned K P r (set_conns (JsMap.remove c (conns (doc r))) r).
Proof.
  intros Hc. constructor; try done; simpl.
  - intros c' ids. apply get_remove_some.
  - apply length_remove.
  - intros c' Hs Ha. split; [done|]. apply get_remove_ne.
    intros ->. destruct Hc; [congruence|done].
  - exists []. split; [done|constructor].
Qed.

Lemma removeAwarenessStates_sub (aw : Awareness Json Meta) ids id v :
  JsMap.get id (states (removeAwarenessStates aw ids).1) = Some v ->
  JsMap.get id (states aw) = Some v.
Proof.
  revert aw. induction ids as [|i ids IH]; intros aw; [done|]. simpl.
  destruct (JsMap.has i (states aw)); [|by apply IH].
  destruct (removeAwarenessStates _ ids) as [aw' gone] eqn:E. simpl.
  intros Hg. pose proof (IH (mkAwareness (JsMap.remove i (states aw)) (metaOnRemove i (meta aw)))) as IH'.
  rewrite E in IH'. apply IH' in Hg. simpl in Hg. by apply get_remove_some in Hg.
Qed.

Lemma removeAwarenessStates_gone (aw : Awareness Json Meta) ids id :
  id ∈ ids -> JsMap.get id (states (removeAwarenessStates aw ids).1) = None.
Proof.
  revert aw. induction ids as [|i ids IH]; intros aw Hin; [by inversion Hin|].
  destruct (JsMap.get id (states (removeAwarenessStates aw (i :: ids)).1)) as [v|] eqn:Hg;
    [exfalso|done].
  simpl in Hg. apply elem_of_cons in Hin as [->|Hin].
  - destruct (JsMap.has i (states aw)) eqn:Hhas.
    + destruct (removeAwarenessStates _ ids) as [aw' gone] eqn:E. simpl in Hg.
      pose proof (removeAwarenessStates_sub
                    (mkAwareness (JsMap.remove i (states aw)) (metaOnRemove i (meta aw)))
                    ids i v) as Hsub.
      rewrite E in Hsub. apply Hsub in Hg. simpl in Hg. by rewrite get_remove_eq in Hg.
    + apply removeAwarenessStates_sub in Hg. unfold JsMap.has in Hhas. by rewrite Hg in Hhas.
  - destruct (JsMap.has i (states aw)).
    + destruct (removeAwarenessStates _ ids) as [aw' gone] eqn:E. simpl in Hg.
      pose proof (IH (mkAwareness (JsMap.remove i (states aw)) (metaOnRemove i (meta aw))) Hin)
        as Hnone.
      rewrite E in Hnone. simpl in Hnone. congruence.
    + rewrite IH in Hg by done. done.
Qed.

Lemma pruned_set_awareness K P r (aw : Awareness Json Meta) :
  (forall id v, JsMap.get id (states aw) = Some v ->
                JsMap.get id (states (awareness (doc r))) = Some v) ->
  Pruned K P r (set_awareness aw r).
Proof.
  intros Hsub. constructor; try done.
  exists []. split; [done|constructor].
Qed.

(** The mutual recursion, over any [closeConn] that prunes. *)
Lemma pruned_send_with K P (cc : Conn -> Relay -> Relay) c m r :
  (forall c r, closable K r c -> Pruned K P r (cc c r)) ->
  P (c, m) -> Pruned K P r (send_with cc c m r).
Proof.
  intros Hcc HP. unfold send_with.
  destruct (negb (readyState (sockets (net r) c) =? wsReadyStateConnecting)
            && negb (readyState (sockets (net r) c) =? wsReadyStateOpen)) eqn:Ers.
  - assert (aliveb (net r) c = false) as Hdead.
    { unfold aliveb. apply andb_true_iff in Ers as [E0 E1].
      apply negb_true_iff in E0, E1. by rewrite E0, E1. }
    pose proof (Hcc c r (or_introl Hdead)) as H1.
    destruct (sendThrows (sockets (net (cc c r)) c)).
    + eapply pruned_trans; [exact H1|]. apply Hcc. left. by apply (pruned_dead _ _ _ _ H1).
    + eapply pruned_trans; [exact H1|]. by apply pruned_conn_send.
  - destruct (sendThrows (sockets (net r) c)) eqn:Eth.
    + apply Hcc. left. unfold aliveb. rewrite Eth. apply andb_false_r.
    + by apply pruned_conn_send.
Qed.

Lemma pruned_fold K P (step : Relay -> Conn -> Relay) (l : list Conn) r :
  (forall r c, Pruned K P r (step r c)) -> Pruned K P r (fold_left step l r).
Proof.
  intros Hstep. revert r. induction l as [|c l IH]; intros r; [apply pruned_refl|].
  simpl. eapply pruned_trans; [apply Hstep|apply IH].
Qed.

Lemma pruned_forEach K P (f : Conn -> Relay -> Relay) r :
  (forall c r, Pruned K P r (f c r)) -> Pruned K P r (conns_forEach f r).
Proof.
  intros Hf. apply pruned_fold. intros r' c.
  destruct (JsMap.has c (conns (doc r'))); [apply Hf|apply pruned_refl].
Qed.

Lemma awarenessFrame_isPresenceFrame r ids : isPresenceFrame (awarenessFrame r ids).
Proof. by eexists. Qed.

Lemma pruned_handler_with K P (cc : Conn -> Relay -> Relay) change r :
  (forall c r, closable K r c -> Pruned K P r (cc c r)) ->
  (forall c x, isPresenceFrame x -> P (c, x)) ->
  Pruned K P r (awarenessChangeHandler_with cc change None r).
Proof.
  intros Hcc HP. unfold awarenessChangeHandler_with.
  apply pruned_forEach. intros c r'. apply pruned_send_with; [done|].
  apply HP, awarenessFrame_isPresenceFrame.
Qed.

Lemma pruned_closeConn_fuel K P n :
  (forall c x, isPresenceFrame x -> P (c, x)) ->
  forall c r, closable K r c -> Pruned K P r (closeConn_fuel n c r).
Proof.
  intros HP. induction n as [|n IH]; intros c r Hc.
  - simpl. destruct (JsMap.get c (conns (doc r))); by apply pruned_conn_close.
  - simpl. destruct (JsMap.get c (conns (doc r))) as [ids|]; [|by apply pruned_conn_close].
    destruct (removeAwarenessStates _ ids) as [aw gone] eqn:E.
    set (r' := set_conns (JsMap.remove c (conns (doc r))) r) in *.
    assert (Pruned K P r (set_awareness aw r')) as H1.
    { eapply pruned_trans; [by apply pruned_remove|].
      apply pruned_set_awareness. intros id v Hg.
      apply (removeAwarenessStates_sub (awareness (doc r)) ids). by rewrite E. }
    assert (Pruned K P r
              match gone with
              | [] => set_awareness aw r'
              | _ :: _ =>
                  awarenessChangeHandler_with (closeConn_fuel n) (mkChange [] [] gone) None
                                              (set_awareness aw r')
              end) as H2.
    { destruct gone; [done|].
      eapply pruned_trans; [exact H1|]. by apply pruned_handler_with. }
    eapply pruned_trans; [exact H2|].
    apply pruned_conn_close. by apply (closable_stable _ _ _ _ _ H2).
Qed.

Lemma pruned_closeConn K P c r :
  (forall c x, isPresenceFrame x -> P (c, x)) ->
  closable K r c -> Pruned K P r (closeConn c r).
Proof. intros. by apply pruned_closeConn_fuel. Qed.

Lemma pruned_send K P c m r :
  (forall c x, isPresenceFrame x -> P (c, x)) -> P (c, m) -> Pruned K P r (send c m r).
Proof.
  intros HP Hm. apply pruned_send_with; [|done].
  intros. by apply pruned_closeConn.
Qed.

Lemma pruned_awarenessChangeHandler K P change r :
  (forall c x, isPresenceFrame x -> P (c, x)) ->
  Pruned K P r (awarenessChangeHandler change None r).
Proof.
  intros HP. apply pruned_handler_with; [|done].
  intros. by apply pruned_closeConn.
Qed.

(** *** Sockets that work receive what is broadcast *)

Lemma send_alive c m r : aliveb (net r) c = true -> send c m r = conn_send c m r.
Proof.
  unfold aliveb, send, send_with.
  intros [Hrs Hth%negb_true_iff]%andb_true_iff.
  assert (negb (readyState (sockets (net r) c) =? wsReadyStateConnecting)
          && negb (readyState (sockets (net r) c) =? wsReadyStateOpen) = false) as ->.
  { apply orb_true_iff in Hrs as [H|H]; rewrite H; [done|apply andb_false_r]. }
  by rewrite Hth.
Qed.

Lemma fold_delivers K P (f : Conn -> Relay -> Relay) c m (l : list Conn) r :
  (forall c' r', Pruned K P r' (f c' r')) -> K c ->
  (forall r', aliveb (net r') c = true -> f c r' = conn_send c m r') ->
  c ∈ l -> aliveb (net r) c = true -> is_Some (JsMap.get c (conns (doc r))) ->
  exists sent,
    wire (net (fold_left (fun acc x => if JsMap.has x (conns (doc acc)) then f x acc else acc)
                         l r))
    = sent ++ wire (net r) /\ (c, m) ∈ sent.
Proof.
  intros Hf Hk Hsend. revert r.
  assert (forall r x, Pruned K P r (if JsMap.has x (conns (doc r)) then f x r else r)) as Hstep.
  { intros r x. destruct (JsMap.has x (conns (doc r))); [apply Hf|apply pruned_refl]. }
  induction l as [|a l IH]; intros r Hin Ha Hreg; [by inversion Hin|]. simpl.
  destruct (decide (c = a)) as [<-|Hne].
  - apply has_true in Hreg. rewrite Hreg, Hsend by done.
    destruct (pruned_wire _ _ _ _
                (pruned_fold K P (fun acc x => if JsMap.has x (conns (doc acc)) then f x acc
                                               else acc) l (conn_send c m r) Hstep))
      as (sent & E & _).
    exists (sent ++ [(c, m)]). rewrite E, <- app_assoc. split; [done|].
    apply elem_of_app. right. left.
  - apply elem_of_cons in Hin as [?|Hin]; [done|].
    pose proof (Hstep r a) as H1.
    destruct (pruned_alive _ _ _ _ H1 c Hk Ha) as [Ha1 Hg1].
    destruct (IH _ Hin Ha1) as (sent & E & Hs); [by rewrite Hg1|].
    destruct (pruned_wire _ _ _ _ H1) as (s1 & E1 & _).
    exists (sent ++ s1). rewrite E, E1, app_assoc. split; [done|].
    apply elem_of_app. by left.
Qed.

(** When every selected connection works, a broadcast is one [conn.send]
    per selected connection, in the order of the map, and nothing else. *)
Lemma fold_all_alive (f : Conn -> Relay -> Relay) (sel : Conn -> bool) m (l : list Conn) r :
  (forall c r', sel c = false -> f c r' = r') ->
  (forall c r', sel c = true -> aliveb (net r') c = true -> f c r' = conn_send c m r') ->
  (forall c, c ∈ l -> is_Some (JsMap.get c (conns (doc r)))
                      /\ (sel c = true -> aliveb (net r) c = true)) ->
  fold_left (fun acc x => if JsMap.has x (conns (doc acc)) then f x acc else acc) l r
  = mkRelay (doc r)
            (mkNet (sockets (net r))
                   (rev ((fun c => (c, m)) <$> List.filter sel l) ++ wire (net r))
                   (closeCalls (net r))).
Proof.
  intros Hskip Hf. revert r. induction l as [|a l IH]; intros r Hall.
  - by destruct r as [d []].
  - simpl. destruct (Hall a) as [Hreg Ha]; [left|].
    apply has_true in Hreg. rewrite Hreg.
    destruct (sel a) eqn:Hsel.
    + rewrite Hf by auto. rewrite IH.
      * simpl. by rewrite <- app_assoc.
      * intros c Hc. apply Hall. by right.
    + rewrite Hskip by done. apply IH. intros c Hc. apply Hall. by right.
Qed.

(** *** What [closeConn] does to the connection it is called on *)

Lemma closeConn_registered K P conn ids r :
  (forall c x, isPresenceFrame x -> P (c, x)) ->
  JsMap.get conn (conns (doc r)) = Some ids ->
  exists r1,
    Pruned K P
      (set_awareness (removeAwarenessStates (awareness (doc r)) ids).1
                     (set_conns (JsMap.remove conn (conns (doc r))) r)) r1
    /\ closeConn conn r = conn_close conn r1.
Proof.
  intros HP Hget. unfold closeConn.
  destruct (length (conns (doc r))) as [|n] eqn:Hlen.
  { destruct (conns (doc r)); simpl in *; done. }
  simpl. rewrite Hget.
  destruct (removeAwarenessStates _ ids) as [aw gone] eqn:E.
  simpl. destruct gone as [|i gone].
  - eexists. split; [apply pruned_refl|done].
  - eexists. split; [|done]. apply pruned_handler_with; [|done].
    intros. by apply pruned_closeConn_fuel.
Qed.

Lemma closeConn_spec conn r :
  Pruned (fun c => c <> conn) (fun e => isPresenceFrame e.2) r (closeConn conn r)
  /\ JsMap.get conn (conns (doc (closeConn conn r))) = None
  /\ (forall ids id,
        JsMap.get conn (conns (doc r)) = Some ids -> id ∈ ids ->
        JsMap.get id (states (awareness (doc (closeConn conn r)))) = None).
Proof.
  assert (Pruned (fun c => c <> conn) (fun e => isPresenceFrame e.2) r (closeConn conn r))
    as Hp.
  { apply pruned_closeConn; [done|]. right. by intros H. }
  split; [done|].
  destruct (JsMap.get conn (conns (doc r))) as [ids|] eqn:Hget.
  - destruct (closeConn_registered (fun _ => True) (fun _ => True) conn ids r)
      as (r1 & H1 & ->); [done|done|].
    change (doc (conn_close conn r1)) with (doc r1). split.
    + destruct (JsMap.get conn (conns (doc r1))) as [x|] eqn:Hx; [|done].
      apply (pruned_conns _ _ _ _ H1) in Hx. simpl in Hx. by rewrite get_remove_eq in Hx.
    + intros ids' id [= <-] Hin.
      destruct (JsMap.get id (states (awareness (doc r1)))) as [v|] eqn:Hv; [|done].
      apply (pruned_presence _ _ _ _ H1) in Hv. simpl in Hv.
      by rewrite removeAwarenessStates_gone in Hv.
  - split; [|done].
    destruct (JsMap.get conn (conns (doc (closeConn conn r)))) as [x|] eqn:Hx; [|done].
    apply (pruned_conns _ _ _ _ Hp) in Hx. congruence.
Qed.

(** *** [closeConn] never runs out of levels *)

Lemma closeConn_fuel_size n c r :
  (length (conns (doc (closeConn_fuel n c r))) <= length (conns (doc r)))%nat.
Proof.
  apply (pruned_size (fun _ => False) (fun _ => True)).
  apply pruned_closeConn_fuel; [done|]. right. by intros [].
Qed.

Lemma send_with_size (cc : Conn -> Relay -> Relay) c m r :
  (forall c r, (length (conns (doc (cc c r))) <= length (conns (doc r)))%nat) ->
  (length (conns (doc (send_with cc c m r))) <= length (conns (doc r)))%nat.
Proof.
  intros Hcc. unfold send_with.
  destruct (negb _ && negb _).
  - destruct (sendThrows _); simpl.
    + etrans; [apply Hcc|apply Hcc].
    + apply Hcc.
  - destruct (sendThrows _); simpl; [apply Hcc|done].
Qed.

Lemma send_with_ext N (cc1 cc2 : Conn -> Relay -> Relay) c m r :
  (forall c r, (length (conns (doc r)) <= N)%nat -> cc1 c r = cc2 c r) ->
  (forall c r, (length (conns (doc (cc2 c r))) <= length (conns (doc r)))%nat) ->
  (length (conns (doc r)) <= N)%nat ->
  send_with cc1 c m r = send_with cc2 c m r.
Proof.
  intros Hext Hsize Hr. unfold send_with.
  destruct (negb _ && negb _).
  - rewrite (Hext c r Hr). destruct (sendThrows _); [|done].
    apply Hext. etrans; [apply Hsize|done].
  - destruct (sendThrows _); [by apply Hext|done].
Qed.

Lemma forEach_ext N (f1 f2 : Conn -> Relay -> Relay) r :
  (forall c r, (length (conns (doc r)) <= N)%nat -> f1 c r = f2 c r) ->
  (forall c r, (length (conns (doc (f2 c r))) <= length (conns (doc r)))%nat) ->
  (length (conns (doc r)) <= N)%nat ->
  conns_forEach f1 r = conns_forEach f2 r.
Proof.
  intros Hext Hsize. unfold conns_forEach. generalize (JsMap.keys (conns (doc r))).
  intros l. revert r. induction l as [|a l IH]; intros r Hr; [done|]. simpl.
  destruct (JsMap.has a (conns (doc r))); [|by apply IH].
  rewrite (Hext a r Hr). apply IH. etrans; [apply Hsize|done].
Qed.

Lemma closeConn_fuel_enough n k c r :
  (length (conns (doc r)) <= n)%nat -> closeConn_fuel (n + k) c r = closeConn_fuel n c r.
Proof.
  revert c r. induction n as [|n IH]; intros c r Hlen.
  - assert (conns (doc r) = []) as Hnil by (destruct (conns (doc r)); simpl in *; [done|lia]).
    destruct k; simpl; by rewrite Hnil.
  - simpl. destruct (JsMap.get c (conns (doc r))) as [ids|] eqn:Hget; [|done].
    destruct (removeAwarenessStates _ ids) as [aw gone]. destruct gone as [|i gone]; [done|].
    f_equal. unfold awarenessChangeHandler_with.
    apply (forEach_ext n).
    + intros c' r' Hr'. apply (send_with_ext n); [|apply closeConn_fuel_size|done].
      intros. by apply IH.
    + intros c' r'. apply send_with_size, closeConn_fuel_size.
    + simpl. pose proof (length_remove_some c ids (conns (doc r)) Hget). lia.
Qed.

(** At every level the recursion reaches, [closeConn_fuel] is [closeConn]. *)
Lemma closeConn_fuel_closeConn n c r :
  (length (conns (doc r)) <= n)%nat -> closeConn_fuel n c r = closeConn c r.
Proof.
  intros Hlen. unfold closeConn.
  replace n with (length (conns (doc r)) + (n - length (conns (doc r))))%nat by lia.
  by apply closeConn_fuel_enough.
Qed.

(** *** A connection gets what is broadcast or leaves the room *)

Lemma pruned_absent K P r r' c :
  Pruned K P r r' -> JsMap.get c (conns (doc r)) = None ->
  JsMap.get c (conns (doc r')) = None.
Proof.
  intros Hp Hnone. destruct (JsMap.get c (conns (doc r'))) as [ids|] eqn:E; [|done].
  apply (pruned_conns _ _ _ _ Hp) in E. congruence.
Qed.

Lemma send_outcome c m r :
  (exists r1 s1, send c m r = conn_send c m r1 /\ wire (net r1) = s1 ++ wire (net r))
  \/ JsMap.get c (conns (doc (send c m r))) = None.
Proof.
  unfold send, send_with.
  match goal with |- context [sendThrows (sockets (net ?x) c)] => set (r1 := x) end.
  destruct (sendThrows (sockets (net r1) c)).
  - right. apply closeConn_spec.
  - left. exists r1. unfold r1. destruct (negb _ && negb _) eqn:Ers.
    + assert (aliveb (net r) c = false) as Hdead.
      { unfold aliveb. apply andb_true_iff in Ers as [E0 E1].
        apply negb_true_iff in E0, E1. by rewrite E0, E1. }
      destruct (pruned_wire _ _ _ _
                  (pruned_closeConn (fun _ => True) (fun _ => True) c r
                     (fun _ _ _ => I) (or_introl Hdead))) as (s1 & E & _).
      by exists s1.
    + by exists [].
Qed.

Lemma fold_reaches K P (f : Conn -> Relay -> Relay) c m (l : list Conn) r :
  (forall c' r', Pruned K P r' (f c' r')) ->
  (forall r',
     (exists r1 s1, f c r' = conn_send c m r1 /\ wire (net r1) = s1 ++ wire (net r'))
     \/ JsMap.get c (conns (doc (f c r'))) = None) ->
  c ∈ l ->
  exists sent,
    wire (net (fold_left (fun acc x => if JsMap.has x (conns (doc acc)) then f x acc else acc)
                         l r))
    = sent ++ wire (net r)
    /\ ((c, m) ∈ sent
        \/ JsMap.get c
             (conns (doc (fold_left (fun acc x => if JsMap.has x (conns (doc acc)) then f x acc
                                                  else acc) l r))) = None).
Proof.
  intros Hf Hout. revert r.
  assert (forall r x, Pruned K P r (if JsMap.has x (conns (doc r)) then f x r else r)) as Hstep.
  { intros r x. destruct (JsMap.has x (conns (doc r))); [apply Hf|apply pruned_refl]. }
  assert (forall l r,
            Pruned K P r
              (fold_left (fun acc x => if JsMap.has x (conns (doc acc)) then f x acc else acc)
                         l r)) as Hfold.
  { intros l' r'. by apply pruned_fold. }
  induction l as [|a l IH]; intros r Hin; [by inversion Hin|]. simpl.
  destruct (decide (c = a)) as [<-|Hne].
  - destruct (JsMap.has c (conns (doc r))) eqn:Hhas.
    + destruct (pruned_wire _ _ _ _ (Hfold l (f c r))) as (s2 & E2 & _).
      destruct (Hout r) as [(r1 & s1 & Ef & E1)|Hnone].
      * exists (s2 ++ (c, m) :: s1). split.
        -- rewrite E2, Ef. simpl. rewrite E1. by rewrite <- app_assoc.
        -- left. apply elem_of_app. right. left.
      * destruct (pruned_wire _ _ _ _ (Hf c r)) as (s0 & E0 & _).
        exists (s2 ++ s0). split; [by rewrite E2, E0, app_assoc|].
        right. by apply (pruned_absent _ _ _ _ _ (Hfold l (f c r))).
    + destruct (pruned_wire _ _ _ _ (Hfold l r)) as (s2 & E2 & _).
      exists s2. split; [done|]. right.
      apply (pruned_absent _ _ _ _ _ (Hfold l r)).
      unfold JsMap.has in Hhas. by destruct (JsMap.get c (conns (doc r))).
  - apply elem_of_cons in Hin as [?|Hin]; [done|].
    destruct (IH (if JsMap.has a (conns (doc r)) then f a r else r) Hin) as (sent & E & Hs).
    destruct (pruned_wire _ _ _ _ (Hstep r a)) as (s1 & E1 & _).
    exists (sent ++ s1). split; [by rewrite E, E1, app_assoc|].
    destruct Hs as [Hs|Hs]; [left|by right]. apply elem_of_app. by left.
Qed.

(** *** The two broadcasts *)

Lemma isEncryptedSync_isEncrypted message :
  isEncryptedSyncMessage message = true -> isEncryptedMessage message = true.
Proof.
  destruct message as [|b rest]; simpl; [done|].
  intros [H|H]%orb_true_iff; rewrite H; [done|apply orb_true_r].
Qed.

Lemma first_byte_sync message :
  hd_error message = Some x01 \/ hd_error message = Some x03 ->
  isEncryptedSyncMessage message = true.
Proof. destruct message as [|b rest]; simpl; intros [[= ->]|[= ->]]; done. Qed.

Lemma first_byte_legacy message :
  isEncryptedMessage message = false <->
  hd_error message <> Some x01 /\ hd_error message <> Some x02 /\ hd_error message <> Some x03.
Proof.
  destruct message as [|b rest]; simpl; [done|].
  split.
  - intros H. repeat split; intros [= ->]; done.
  - intros (H1 & H2 & H3). destruct b; try done.
Qed.

Lemma broadcast_pruned sender m r :
  Pruned (fun _ => True) (fun e => (e.1 <> sender /\ e.2 = m) \/ isPresenceFrame e.2)
         r (broadcastEncryptedMessage sender m r).
Proof.
  apply pruned_forEach. intros c r'.
  destruct (decide (c <> sender)); [|apply pruned_refl].
  apply pruned_send; [by right|by left].
Qed.

Lemma broadcast_delivers sender m c r :
  c ∈ JsMap.keys (conns (doc r)) -> c <> sender -> aliveb (net r) c = true ->
  exists sent,
    wire (net (broadcastEncryptedMessage sender m r)) = sent ++ wire (net r)
    /\ (c, m) ∈ sent.
Proof.
  intros Hin Hne Ha.
  apply (fold_delivers (fun _ => True) (fun _ => True)
           (fun conn => if decide (conn <> sender) then send conn m else id) c m); try done.
  - intros c' r'. destruct (decide (c' <> sender)); [by apply pruned_send|apply pruned_refl].
  - intros r' Ha'. rewrite decide_True by done. by apply send_alive.
  - by apply get_is_Some_keys.
Qed.

Lemma broadcast_all_alive sender m r :
  (forall c, c ∈ JsMap.keys (conns (doc r)) -> c <> sender -> aliveb (net r) c = true) ->
  broadcastEncryptedMessage sender m r
  = mkRelay (doc r)
      (mkNet (sockets (net r))
             (rev ((fun c => (c, m))
                   <$> List.filter (fun c => negb (Nat.eqb c sender)) (JsMap.keys (conns (doc r))))
              ++ wire (net r))
             (closeCalls (net r))).
Proof.
  intros Hall. unfold broadcastEncryptedMessage, conns_forEach.
  apply fold_all_alive.
  - intros c r' Heq%negb_false_iff%Nat.eqb_eq. by rewrite decide_False by (by intros H).
  - intros c r' Hne%negb_true_iff%Nat.eqb_neq Ha. rewrite decide_True by done.
    by apply send_alive.
  - intros c Hc. split; [by apply get_is_Some_keys|].
    intros Hne%negb_true_iff%Nat.eqb_neq. by apply Hall.
Qed.

Lemma updateHandler_pruned update r :
  Pruned (fun _ => True) (fun e => e.2 = updateFrame update \/ isPresenceFrame e.2)
         r (updateHandler update r).
Proof.
  apply pruned_forEach. intros c r'. apply pruned_send; [by right|by left].
Qed.

Lemma updateHandler_delivers update c r :
  c ∈ JsMap.keys (conns (doc r)) -> aliveb (net r) c = true ->
  exists sent,
    wire (net (updateHandler update r)) = sent ++ wire (net r)
    /\ (c, updateFrame update) ∈ sent.
Proof.
  intros Hin Ha.
  apply (fold_delivers (fun _ => True) (fun _ => True)
           (fun conn => send conn (updateFrame update)) c (updateFrame update)); try done.
  - intros c' r'. by apply pruned_send.
  - intros r' Ha'. by apply send_alive.
  - by apply get_is_Some_keys.
Qed.

Lemma updateHandler_all_alive update r :
  (forall c, c ∈ JsMap.keys (conns (doc r)) -> aliveb (net r) c = true) ->
  updateHandler update r
  = mkRelay (doc r)
      (mkNet (sockets (net r))
             (rev ((fun c => (c, updateFrame update)) <$> JsMap.keys (conns (doc r)))
              ++ wire (net r))
             (closeCalls (net r))).
Proof.
  intros Hall. unfold updateHandler, conns_forEach.
  rewrite (fold_all_alive _ (fun _ => true) (updateFrame update)).
  - assert (forall l : list Conn, List.filter (fun _ => true) l = l) as ->; [|done].
    intros l. induction l as [|a l IH]; [done|]. simpl. by rewrite IH.
  - done.
  - intros c r' _ Ha. by apply send_alive.
  - intros c Hc. split; [by apply get_is_Some_keys|]. intros _. by apply Hall.
Qed.

Lemma broadcast_reaches sender m c r :
  c ∈ JsMap.keys (conns (doc r)) -> c <> sender ->
  exists sent,
    wire (net (broadcastEncryptedMessage sender m r)) = sent ++ wire (net r)
    /\ ((c, m) ∈ sent
        \/ JsMap.get c (conns (doc (broadcastEncryptedMessage sender m r))) = None).
Proof.
  intros Hin Hne.
  apply (fold_reaches (fun _ => True) (fun _ => True)
           (fun conn => if decide (conn <> sender) then send conn m else id) c m); try done.
  - intros c' r'. destruct (decide (c' <> sender)); [by apply pruned_send|apply pruned_refl].
  - intros r'. rewrite decide_True by done. apply send_outcome.
Qed.

Lemma updateHandler_reaches update c r :
  c ∈ JsMap.keys (conns (doc r)) ->
  exists sent,
    wire (net (updateHandler update r)) = sent ++ wire (net r)
    /\ ((c, updateFrame update) ∈ sent
        \/ JsMap.get c (conns (doc (updateHandler update r))) = None).
Proof.
  intros Hin.
  apply (fold_reaches (fun _ => True) (fun _ => True)
           (fun conn => send conn (updateFrame update)) c (updateFrame update)); try done.
  - intros c' r'. by apply pruned_send.
  - intros r'. apply send_outcome.
Qed.

End Facts.
End UtilsFacts.

(** ** Closing connections, in full *)

Module ClosingFacts.
Import Utils JsMapFacts UtilsFacts.

Section Facts.
Context {Y : YLib}.
Implicit Types (r : Relay) (c conn : Conn) (m : bytes).
Implicit Types (K : Conn -> Prop) (P : Conn * bytes -> Prop).

(** *** What [removeAwarenessStates] removes *)

Lemma removeAwarenessStates_listed (aw : Awareness Json Meta) ids id :
  id ∈ (removeAwarenessStates aw ids).2 -> id ∈ ids /\ is_Some (JsMap.get id (states aw)).
Proof.
  revert aw. induction ids as [|i ids IH]; intros aw; simpl; [by inversion 1|].
  destruct (JsMap.has i (states aw)) eqn:Hhas.
  - destruct (removeAwarenessStates _ ids) as [aw' gone] eqn:E. simpl.
    intros [->|Hin]%elem_of_cons.
    + split; [left|]. by apply has_true.
    + pose proof (IH (mkAwareness (JsMap.remove i (states aw)) (metaOnRemove i (meta aw))))
        as IH'.
      rewrite E in IH'. destruct (IH' Hin) as [H1 [v Hv]]. split; [by right|].
      simpl in Hv. apply get_remove_some in Hv. by eexists.
  - intros Hin. destruct (IH aw Hin) as [H1 H2]. split; [by right|done].
Qed.

Lemma removeAwarenessStates_lists (aw : Awareness Json Meta) ids id :
  id ∈ ids -> is_Some (JsMap.get id (states aw)) -> id ∈ (removeAwarenessStates aw ids).2.
Proof.
  revert aw. induction ids as [|i ids IH]; intros aw Hin Hsome; [by inversion Hin|]. simpl.
  destruct (JsMap.has i (states aw)) eqn:Hhas.
  - destruct (removeAwarenessStates _ ids) as [aw' gone] eqn:E. simpl.
    destruct (decide (id = i)) as [->|Hne]; [left|]. right.
    apply elem_of_cons in Hin as [?|Hin]; [done|].
    pose proof (IH (mkAwareness (JsMap.remove i (states aw)) (metaOnRemove i (meta aw))) Hin)
      as IH'.
    rewrite E in IH'. apply IH'. simpl. rewrite get_remove_ne by done. done.
  - apply elem_of_cons in Hin as [->|Hin]; [|by apply IH].
    apply has_true in Hsome. congruence.
Qed.

Lemma removeAwarenessStates_kept (aw : Awareness Json Meta) ids id :
  id ∉ ids ->
  JsMap.get id (states (removeAwarenessStates aw ids).1) = JsMap.get id (states aw).
Proof.
  revert aw. induction ids as [|i ids IH]; intros aw Hnot; [done|]. simpl.
  apply not_elem_of_cons in Hnot as [Hne Hnot].
  destruct (JsMap.has i (states aw)); [|by apply IH].
  destruct (removeAwarenessStates _ ids) as [aw' gone] eqn:E. simpl.
  pose proof (IH (mkAwareness (JsMap.remove i (states aw)) (metaOnRemove i (meta aw))) Hnot)
    as IH'.
  rewrite E in IH'. simpl in IH'. rewrite IH'. by apply get_remove_ne.
Qed.

(** *** The relation *)

Lemma closes_refl K P r : Closes K P r r.
Proof.
  constructor.
  - apply pruned_refl.
  - exists []. split; [done|]. split; [by inversion 1|]. congruence.
  - congruence.
  - congruence.
Qed.

Lemma pruned_gone K P r r' id :
  Pruned K P r r' -> JsMap.get id (states (awareness (doc r))) = None ->
  JsMap.get id (states (awareness (doc r'))) = None.
Proof.
  intros Hp Hnone. destruct (JsMap.get id (states (awareness (doc r')))) as [v|] eqn:E; [|done].
  apply (pruned_presence _ _ _ _ Hp) in E. congruence.
Qed.

Lemma pruned_was_dead K P r r' c :
  Pruned K P r r' -> K c -> aliveb (net r') c = false -> aliveb (net r) c = false.
Proof.
  intros Hp Hk Hd. destruct (aliveb (net r) c) eqn:E; [|done].
  destruct (pruned_alive _ _ _ _ Hp c Hk E). congruence.
Qed.

Lemma closes_trans K P r1 r2 r3 : Closes K P r1 r2 -> Closes K P r2 r3 -> Closes K P r1 r3.
Proof.
  intros [P12 (k12 & E12 & D12 & R12) V12 S12] [P23 (k23 & E23 & D23 & R23) V23 S23].
  constructor.
  - by eapply pruned_trans.
  - exists (k23 ++ k12). split; [by rewrite E23, E12, app_assoc|]. split.
    + intros c [Hc|Hc]%elem_of_app Hk; [|by apply D12].
      apply (pruned_was_dead _ _ _ _ _ P12 Hk). by apply D23.
    + intros c ids H1 H3. apply elem_of_app.
      destruct (JsMap.get c (conns (doc r2))) as [ids2|] eqn:H2.
      * left. by apply (R23 c ids2).
      * right. by apply (R12 c ids).
  - intros c ids id H1 H3 Hin.
    destruct (JsMap.get c (conns (doc r2))) as [ids2|] eqn:H2.
    + assert (ids2 = ids) as -> by (apply (pruned_conns _ _ _ _ P12) in H2; congruence).
      by apply (V23 c ids).
    + apply (pruned_gone _ _ _ _ _ P23). by apply (V12 c ids).
  - intros id v H1 H3.
    destruct (JsMap.get id (states (awareness (doc r2)))) as [v2|] eqn:H2.
    + destruct (S23 id v2 H2 H3) as (c & ids & Hc & Hin & Hgone).
      exists c, ids. split; [by apply (pruned_conns _ _ _ _ P12)|done].
    + destruct (S12 id v H1 H2) as (c & ids & Hc & Hin & Hgone).
      exists c, ids. split; [done|]. split; [done|]. by apply (pruned_absent _ _ _ _ _ P23).
Qed.

Lemma closes_weaken K P Q r r' : (forall e, P e -> Q e) -> Closes K P r r' -> Closes K Q r r'.
Proof.
  intros HPQ [H1 H2 H3 H4]. constructor; try done. by apply (pruned_weaken _ P).
Qed.

Lemma closes_conn_send K P c m r : P (c, m) -> Closes K P r (conn_send c m r).
Proof.
  intros HP. constructor.
  - by apply pruned_conn_send.
  - exists []. split; [done|]. split; [by inversion 1|]. simpl. congruence.
  - simpl. congruence.
  - simpl. congruence.
Qed.

Lemma closable_dead K r c : closable K r c -> K c -> aliveb (net r) c = false.
Proof. intros [?|?] ?; done. Qed.

Lemma closes_conn_close K P c r : closable K r c -> Closes K P r (conn_close c r).
Proof.
  intros Hc. constructor.
  - by apply pruned_conn_close.
  - exists [c]. split; [done|]. split.
    + intros c' ->%list_elem_of_singleton. by apply (closable_dead K).
    + simpl. congruence.
  - simpl. congruence.
  - simpl. congruence.
Qed.

(** *** The recursion, from the state in which the handling began *)

Section From.
Variables (K : Conn -> Prop) (P : Conn * bytes -> Prop) (r0 : Relay).
Hypothesis HP : forall c x, isRemovalNotice K r0 x -> P (c, x).

Lemma closes_send_with (cc : Conn -> Relay -> Relay) c m r :
  (forall c r, Pruned K P r0 r -> closable K r c -> Closes K P r (cc c r)) ->
  P (c, m) -> Pruned K P r0 r -> Closes K P r (send_with cc c m r).
Proof.
  intros Hcc Hm Hgood. unfold send_with.
  destruct (negb (readyState (sockets (net r) c) =? wsReadyStateConnecting)
            && negb (readyState (sockets (net r) c) =? wsReadyStateOpen)) eqn:Ers.
  - assert (aliveb (net r) c = false) as Hdead.
    { unfold aliveb. apply andb_true_iff in Ers as [E0 E1].
      apply negb_true_iff in E0, E1. by rewrite E0, E1. }
    pose proof (Hcc c r Hgood (or_introl Hdead)) as H1.
    assert (Pruned K P r0 (cc c r)) as Hgood1
      by (eapply pruned_trans; [exact Hgood|apply H1]).
    destruct (sendThrows (sockets (net (cc c r)) c)).
    + eapply closes_trans; [exact H1|]. apply Hcc; [done|]. left.
      by apply (pruned_dead _ _ _ _ (closes_pruned _ _ _ _ H1)).
    + eapply closes_trans; [exact H1|]. by apply closes_conn_send.
  - destruct (sendThrows (sockets (net r) c)) eqn:Eth.
    + apply Hcc; [done|]. left. unfold aliveb. rewrite Eth. apply andb_false_r.
    + by apply closes_conn_send.
Qed.

Lemma closes_fold (step : Relay -> Conn -> Relay) (l : list Conn) r :
  (forall r c, Pruned K P r0 r -> Closes K P r (step r c)) ->
  Pruned K P r0 r -> Closes K P r (fold_left step l r).
Proof.
  intros Hstep. revert r. induction l as [|c l IH]; intros r Hgood; [apply closes_refl|].
  simpl. eapply closes_trans; [by apply Hstep|]. apply IH.
  eapply pruned_trans; [exact Hgood|]. by apply Hstep.
Qed.

Lemma closes_forEach (f : Conn -> Relay -> Relay) r :
  (forall c r, Pruned K P r0 r -> Closes K P r (f c r)) ->
  Pruned K P r0 r -> Closes K P r (conns_forEach f r).
Proof.
  intros Hf Hgood. apply closes_fold; [|done]. intros r' c Hg.
  destruct (JsMap.has c (conns (doc r'))); [by apply Hf|apply closes_refl].
Qed.

Lemma closes_handler_with (cc : Conn -> Relay -> Relay) gone r :
  (forall c r, Pruned K P r0 r -> closable K r c -> Closes K P r (cc c r)) ->
  isRemovalNotice K r0 (awarenessFrame r gone) ->
  Pruned K P r0 r ->
  Closes K P r (awarenessChangeHandler_with cc (mkChange [] [] gone) None r).
Proof.
  intros Hcc Hnotice Hgood. unfold awarenessChangeHandler_with. simpl.
  apply closes_forEach; [|done]. intros c r' Hg. apply closes_send_with; [done| |done].
  by apply HP.
Qed.

Lemma closable_from r c :
  Pruned K P r0 r -> closable K r c -> K c -> aliveb (net r0) c = false.
Proof.
  intros Hgood Hc Hk. apply (pruned_was_dead _ _ _ _ _ Hgood Hk). by apply (closable_dead K).
Qed.

Lemma closes_closeConn_fuel n :
  forall c r, Pruned K P r0 r -> closable K r c -> Closes K P r (closeConn_fuel n c r).
Proof.
  induction n as [|n IH]; intros c r Hgood Hc.
  { simpl. destruct (JsMap.get c (conns (doc r))); by apply closes_conn_close. }
  simpl. destruct (JsMap.get c (conns (doc r))) as [ids|] eqn:Hget;
    [|by apply closes_conn_close].
  destruct (removeAwarenessStates _ ids) as [aw gone] eqn:E.
  set (r1 := set_conns (JsMap.remove c (conns (doc r))) r) in *.
  set (r2 := set_awareness aw r1).
  assert (aw = (removeAwarenessStates (awareness (doc r)) ids).1) as Haw by (by rewrite E).
  assert (gone = (removeAwarenessStates (awareness (doc r)) ids).2) as Hgone by (by rewrite E).
  assert (Pruned K P r r2) as HA.
  { eapply pruned_trans; [by apply pruned_remove|].
    apply pruned_set_awareness. intros id v Hg.
    apply (removeAwarenessStates_sub (awareness (doc r)) ids). by rewrite <- Haw. }
  assert (Pruned K P r0 r2) as Hgood2 by (by eapply pruned_trans).
  set (r3 := match gone with
             | [] => r2
             | _ :: _ => awarenessChangeHandler_with (closeConn_fuel n) (mkChange [] [] gone) None r2
             end).
  assert (Closes K P r2 r3) as HB.
  { unfold r3. destruct gone as [|g gone'] eqn:Eg; [apply closes_refl|].
    rewrite <- Eg in *. apply closes_handler_with; [done| |done].
    exists aw, gone. split; [by rewrite Eg|]. split; [done|]. split.
    - intros id v Hv. apply (pruned_presence _ _ _ _ Hgood2). done.
    - intros id Hin. rewrite Hgone in Hin.
      apply removeAwarenessStates_listed in Hin as [Hin [v Hv]]. split; [|split].
      + rewrite Haw. by apply removeAwarenessStates_gone.
      + exists v. by apply (pruned_presence _ _ _ _ Hgood).
      + exists c, ids. split; [by apply (pruned_conns _ _ _ _ Hgood)|]. split; [done|].
        by apply (closable_from r). }
  destruct HB as [PB (kB & EB & DB & RB) VB SB].
  assert (Pruned K P r r3) as H13 by (by eapply pruned_trans).
  constructor.
  - eapply pruned_trans; [exact H13|]. apply pruned_conn_close.
    by apply (closable_stable _ _ _ _ _ H13).
  - exists (c :: kB). split; [simpl; by rewrite EB|]. split.
    + intros c' [->|Hin]%elem_of_cons Hk; [by apply (closable_dead K)|]. by apply DB.
    + intros c' ids' H1 H3. destruct (decide (c' = c)) as [->|Hne]; [left|]. right.
      apply (RB c' ids'); [|done]. simpl. rewrite get_remove_ne by done. done.
  - intros c' ids' id H1 H3 Hin. simpl in H3. change (doc (conn_close c r3)) with (doc r3).
    destruct (decide (c' = c)) as [->|Hne].
    + assert (ids' = ids) as -> by congruence.
      apply (pruned_gone _ _ _ _ _ PB). simpl. rewrite Haw.
      by apply removeAwarenessStates_gone.
    + apply (VB c' ids'); [|done|done]. simpl. rewrite get_remove_ne by done. done.
  - intros id v H1 H3. change (doc (conn_close c r3)) with (doc r3) in *.
    destruct (JsMap.get id (states (awareness (doc r2)))) as [v2|] eqn:H2.
    + destruct (SB id v2 H2 H3) as (c' & ids' & Hc' & Hin & Hgone').
      exists c', ids'. split; [|done]. simpl in Hc'. by apply get_remove_some in Hc'.
    + exists c, ids. split; [done|]. split.
      * destruct (decide (id ∈ ids)) as [?|Hnot]; [done|]. exfalso.
        simpl in H2. rewrite Haw, removeAwarenessStates_kept in H2 by done. congruence.
      * apply (pruned_absent _ _ _ _ _ PB). simpl. apply get_remove_eq.
Qed.

Lemma closes_closeConn_from c r :
  Pruned K P r0 r -> closable K r c -> Closes K P r (closeConn c r).
Proof. apply closes_closeConn_fuel. Qed.

Lemma closes_send_from c m r :
  P (c, m) -> Pruned K P r0 r -> Closes K P r (send c m r).
Proof. intros Hm Hgood. apply closes_send_with; [|done|done]. apply closes_closeConn_from. Qed.

End From.

(** *** The functions of the relay *)

Lemma closes_closeConn conn r :
  Closes (fun c => c <> conn) (fun e => isRemovalNotice (fun c => c <> conn) r e.2)
         r (closeConn conn r).
Proof.
  apply (closes_closeConn_from _ _ r); [done|apply pruned_refl|]. right. by intros H.
Qed.

Lemma closes_broadcast sender m r :
  Closes (fun _ => True)
         (fun e => (e.1 <> sender /\ e.2 = m) \/ isRemovalNotice (fun _ => True) r e.2)
         r (broadcastEncryptedMessage sender m r).
Proof.
  apply (closes_forEach _ _ r); [|apply pruned_refl]. intros c r' Hg.
  destruct (decide (c <> sender)); [|apply closes_refl].
  apply (closes_send_from _ _ r); [by right|by left|done].
Qed.

Lemma closes_handler change conn r :
  let r1 := recordChange change conn r in
  let frame := awarenessFrame r1 (added change ++ updated change ++ removed change) in
  awarenessChangeHandler change (Some conn) r
  = conns_forEach (fun c => send c frame) r1
  /\ Closes (fun _ => True)
            (fun e => e.2 = frame \/ isRemovalNotice (fun _ => True) r1 e.2)
            r1 (awarenessChangeHandler change (Some conn) r).
Proof.
  intros r1 frame.
  assert (awarenessChangeHandler change (Some conn) r
          = conns_forEach (fun c => send c frame) r1) as Heq by done.
  split; [done|]. rewrite Heq.
  apply (closes_forEach _ _ r1); [|apply pruned_refl]. intros c r' Hg.
  apply (closes_send_from _ _ r1); [by right|by left|done].
Qed.

(** *** Connections whose socket does not work leave the room *)

Lemma fold_prunes K P (f : Conn -> Relay -> Relay) c (l : list Conn) r :
  (forall c' r', Pruned K P r' (f c' r')) ->
  (forall r', aliveb (net r') c = false -> JsMap.get c (conns (doc (f c r'))) = None) ->
  c ∈ l -> aliveb (net r) c = false ->
  JsMap.get c (conns (doc (fold_left (fun acc x => if JsMap.has x (conns (doc acc))
                                                    then f x acc else acc) l r))) = None.
Proof.
  intros Hf Hdead. revert r.
  assert (forall r x, Pruned K P r (if JsMap.has x (conns (doc r)) then f x r else r)) as Hstep.
  { intros r x. destruct (JsMap.has x (conns (doc r))); [apply Hf|apply pruned_refl]. }
  assert (forall l r,
            Pruned K P r
              (fold_left (fun acc x => if JsMap.has x (conns (doc acc)) then f x acc else acc)
                         l r)) as Hfold.
  { intros l' r'. by apply pruned_fold. }
  induction l as [|a l IH]; intros r Hin Hd; [by inversion Hin|]. simpl.
  destruct (decide (c = a)) as [<-|Hne].
  - apply (pruned_absent _ _ _ _ _ (Hfold l _)).
    destruct (JsMap.has c (conns (doc r))) eqn:Hhas; [by apply Hdead|].
    unfold JsMap.has in Hhas. by destruct (JsMap.get c (conns (doc r))).
  - apply elem_of_cons in Hin as [?|Hin]; [done|]. apply IH; [done|].
    by apply (pruned_dead _ _ _ _ (Hstep r a)).
Qed.

Lemma send_dead_gone c m r :
  aliveb (net r) c = false -> JsMap.get c (conns (doc (send c m r))) = None.
Proof.
  intros Hdead. destruct (send_outcome c m r) as [(r1 & s1 & Heq & _)|?]; [|done].
  unfold send, send_with in *.
  destruct (negb (readyState (sockets (net r) c) =? wsReadyStateConnecting)
            && negb (readyState (sockets (net r) c) =? wsReadyStateOpen)) eqn:Ers.
  - destruct (closeConn_spec c r) as (Hp & Hgone & _).
    destruct (sendThrows (sockets (net (closeConn c r)) c)).
    + apply closeConn_spec.
    + done.
  - assert (sendThrows (sockets (net r) c) = true) as Hth.
    { unfold aliveb in Hdead.
      destruct (readyState (sockets (net r) c) =? wsReadyStateConnecting),
               (readyState (sockets (net r) c) =? wsReadyStateOpen),
               (sendThrows (sockets (net r) c)); simpl in *; congruence. }
    rewrite Hth. apply closeConn_spec.
Qed.

Lemma broadcast_prunes sender m c r :
  c <> sender -> aliveb (net r) c = false ->
  JsMap.get c (conns (doc (broadcastEncryptedMessage sender m r))) = None.
Proof.
  intros Hne Hdead.
  destruct (decide (c ∈ JsMap.keys (conns (doc r)))) as [Hin|Hnot].
  - apply (fold_prunes (fun _ => True) (fun _ => True)
             (fun conn => if decide (conn <> sender) then send conn m else id)); try done.
    + intros c' r'. destruct (decide (c' <> sender)); [by apply pruned_send|apply pruned_refl].
    + intros r' Hd. rewrite decide_True by done. by apply send_dead_gone.
  - apply (pruned_absent _ _ _ _ _ (broadcast_pruned sender m r)).
    destruct (JsMap.get c (conns (doc r))) as [ids|] eqn:E; [|done].
    exfalso. apply Hnot. apply get_is_Some_keys. by eexists.
Qed.

Lemma forEach_send_prunes m c r :
  aliveb (net r) c = false ->
  JsMap.get c (conns (doc (conns_forEach (fun c0 => send c0 m) r))) = None.
Proof.
  intros Hdead.
  destruct (decide (c ∈ JsMap.keys (conns (doc r)))) as [Hin|Hnot].
  - apply (fold_prunes (fun _ => True) (fun _ => True) (fun conn => send conn m)); try done.
    + intros c' r'. by apply pruned_send.
    + intros r' Hd. by apply send_dead_gone.
  - apply (pruned_absent (fun _ => True) (fun _ => True) r).
    + apply pruned_forEach. intros c' r'. by apply pruned_send.
    + destruct (JsMap.get c (conns (doc r))) as [ids|] eqn:E; [|done].
      exfalso. apply Hnot. apply get_is_Some_keys. by eexists.
Qed.

(** *** [closeConn], one level *)

Lemma closeConn_unfold conn r ids :
  JsMap.get conn (conns (doc r)) = Some ids ->
  closeConn conn r
  = conn_close conn
      (let r1 := set_conns (JsMap.remove conn (conns (doc r))) r in
       let r2 := set_awareness (removeAwarenessStates (awareness (doc r)) ids).1 r1 in
       match (removeAwarenessStates (awareness (doc r)) ids).2 with
       | [] => r2
       | gone => awarenessChangeHandler (mkChange [] [] gone) None r2
       end).
Proof.
  intros Hget. unfold closeConn.
  destruct (length (conns (doc r))) as [|n] eqn:Hlen.
  { destruct (conns (doc r)); simpl in *; done. }
  simpl. rewrite Hget.
  destruct (removeAwarenessStates _ ids) as [aw gone] eqn:E. simpl.
  destruct gone as [|g gone]; [done|]. f_equal.
  unfold awarenessChangeHandler, awarenessChangeHandler_with.
  assert (length (conns (doc (set_awareness aw
                                (set_conns (JsMap.remove conn (conns (doc r))) r)))) <= n)%nat
    as Hsmall.
  { simpl. pose proof (length_remove_some conn ids (conns (doc r)) Hget). lia. }
  apply (forEach_ext n); [| |done].
  - intros c' r' Hr'. apply (send_with_ext n); [| |done].
    + intros c0 r0 H0. by apply closeConn_fuel_closeConn.
    + intros c0 r0. apply closeConn_fuel_size.
  - intros c' r'. apply send_with_size. intros c0 r0. apply closeConn_fuel_size.
Qed.

End Facts.
End ClosingFacts.

(** ** The server *)

Module ServerFacts.
Import Persistence Utils Server JsMapFacts UtilsFacts.

Section Facts.
Context {Y : YLib}.
Variable env : Env.
Implicit Types (w : World) (r : Relay) (d : WSSharedDoc) (room : string).
Implicit Types (conn c : Conn) (m message : bytes).

Lemma static_refl r : Static r r.
Proof. done. Qed.

Lemma static_trans r1 r2 r3 : Static r1 r2 -> Static r2 r3 -> Static r1 r3.
Proof. unfold Static. intros (? & ? & ? & ?) (? & ? & ? & ?). repeat split; congruence. Qed.

Lemma pruned_static K P r r' : Pruned K P r r' -> Static r r'.
Proof. intros []. done. Qed.

Lemma schedule_armed {Heap : Type} (p : Persist Heap) room (g : Heap -> bytes) :
  mkTimer (nextTimer p) (now p + SAVE_DEBOUNCE_MS) room g ∈ timeouts (scheduleSave room g p)
  /\ saveTimers (scheduleSave room g p) !! room = Some (nextTimer p).
Proof.
  unfold scheduleSave. destruct (saveTimers p !! room); simpl.
  - split; [apply elem_of_app; right; left|apply lookup_insert_eq].
  - split; [apply elem_of_app; right; left|apply lookup_insert_eq].
Qed.

Lemma get_leave room r w : JsMap.get room (docs (leave room r w)) = Some (doc r).
Proof. apply get_set_eq. Qed.

Lemma get_leave_ne room room' r w :
  room' <> room -> JsMap.get room' (docs (leave room r w)) = JsMap.get room' (docs w).
Proof. intros Hne. apply get_set_ne. congruence. Qed.

(** *** Encrypted sync frames *)

Lemma messageListener_encrypted_sync conn room message w d :
  JsMap.get room (docs w) = Some d ->
  isEncryptedSyncMessage message = true ->
  messageListener conn room message w
  = let r := broadcastEncryptedMessage conn message
               (set_encryptedState (Some message)
                  (set_isEncrypted true (mkRelay d (network w)))) in
    mkWorld (JsMap.set room (doc r) (docs w)) (net r)
            (scheduleSave (name d) (encryptedStateGetter room) (persist w)) (phase w).
Proof.
  intros Hget Hsync. unfold messageListener, messageListener_try.
  by rewrite Hget, (isEncryptedSync_isEncrypted _ Hsync), Hsync.
Qed.


(** *** Legacy frames *)

Lemma handler_static change origin r : Static r (awarenessChangeHandler change origin r).
Proof.
  unfold awarenessChangeHandler, awarenessChangeHandler_with.
  match goal with |- Static _ (conns_forEach _ ?x) => set (r1 := x) end.
  assert (Static r r1) as H1.
  { unfold r1. destruct origin as [c|]; [|done]. by destruct (JsMap.get c _). }
  eapply static_trans; [exact H1|].
  apply (pruned_static (fun _ => True) (fun _ => True)).
  apply pruned_forEach. intros c r'. apply pruned_send_with; [|done].
  intros. by apply pruned_closeConn.
Qed.

Lemma send_static c m r : Static r (send c m r).
Proof. apply (pruned_static (fun _ => True) (fun _ => True)). by apply pruned_send. Qed.

Lemma updateHandler_static update r : Static r (updateHandler update r).
Proof. eapply pruned_static, updateHandler_pruned. Qed.

Lemma broadcast_static sender m r : Static r (broadcastEncryptedMessage sender m r).
Proof. eapply pruned_static, broadcast_pruned. Qed.

Lemma closeConn_static conn r : Static r (closeConn conn r).
Proof. eapply pruned_static, closeConn_spec. Qed.

Lemma onlyRoom_leave room (Q : WSSharedDoc -> Prop) r w :
  Q (doc r) -> OnlyRoom room Q w (leave room r w).
Proof.
  intros HQ. split; [done|]. split; [done|]. split.
  - intros room' Hne. by apply get_leave_ne.
  - exists (doc r). split; [apply get_leave|done].
Qed.

Lemma onlyRoom_same room (Q : WSSharedDoc -> Prop) w d :
  JsMap.get room (docs w) = Some d -> Q d -> OnlyRoom room Q w w.
Proof. intros Hget HQ. split; [done|]. split; [done|]. split; [done|]. by exists d. Qed.

Lemma onlyRoom_weaken room (Q Q' : WSSharedDoc -> Prop) w w' :
  (forall d, Q d -> Q' d) -> OnlyRoom room Q w w' -> OnlyRoom room Q' w w'.
Proof.
  intros HQ (? & ? & ? & d' & ? & ?). split; [done|]. split; [done|]. split; [done|].
  exists d'. auto.
Qed.

(** A frame whose first byte is not 1, 2 or 3 is handled the same way
    whatever the mode of the room: nothing is scheduled, mode and blob stay,
    and a well-formed legacy sync frame is applied to the document. *)
Lemma messageListener_legacy conn room message w d :
  JsMap.get room (docs w) = Some d ->
  isEncryptedMessage message = false ->
  OnlyRoom room
    (fun d' =>
       isEncrypted d' = isEncrypted d
       /\ encryptedState d' = encryptedState d
       /\ name d' = name d
       /\ forall t rest x,
            Lib0.readVarUint message = Some (t, rest) ->
            Lib0.js_is t messageSync = true ->
            Lib0.peekVarUint rest = Some x ->
            ydoc d' = sync_doc (readSyncMessage rest (ydoc d)))
    w (messageListener conn room message w).
Proof.
  intros Hget Hleg. unfold messageListener, messageListener_try. rewrite Hget, Hleg.
  destruct (Lib0.readVarUint message) as [[t rest]|] eqn:Hread.
  2: { apply (onlyRoom_same _ _ _ d); [done|]. repeat split; try done. }
  destruct (Lib0.js_is t messageSync) eqn:Hsync.
  - destruct (Lib0.peekVarUint rest) as [x|] eqn:Hpeek.
    2: { apply (onlyRoom_same _ _ _ d); [done|]. repeat split; try done.
         intros t' rest' x' [= <- <-] _ Hx. congruence. }
    set (res := readSyncMessage rest (ydoc d)).
    set (r0 := set_ydoc (sync_doc res) (mkRelay d (network w))).
    assert (forall r', Static r0 r' ->
              OnlyRoom room
                (fun d' => isEncrypted d' = isEncrypted d
                           /\ encryptedState d' = encryptedState d
                           /\ name d' = name d
                           /\ forall t0 rest0 x0,
                                Some (t, rest) = Some (t0, rest0) ->
                                Lib0.js_is t0 messageSync = true ->
                                Lib0.peekVarUint rest0 = Some x0 ->
                                ydoc d' = sync_doc (readSyncMessage rest0 (ydoc d)))
                w (leave room r' w)) as Hfin.
    { intros r' (Hn & Hb & Hm & Hy). apply onlyRoom_leave.
      split; [by rewrite Hm|]. split; [by rewrite Hb|]. split; [by rewrite Hn|].
      intros t0 rest0 x0 [= <- <-] _ _. by rewrite Hy. }
    assert (Static r0 match sync_update res with
                      | Some update => updateHandler update r0
                      | None => r0
                      end) as Hupd.
    { destruct (sync_update res); [apply updateHandler_static|apply static_refl]. }
    destruct (sync_reply res) as [written|].
    + destruct (1 <? length _)%nat.
      * apply Hfin. eapply static_trans; [exact Hupd|apply send_static].
      * by apply Hfin.
    + by apply Hfin.
  - assert (forall r', Static (mkRelay d (network w)) r' ->
              OnlyRoom room
                (fun d' => isEncrypted d' = isEncrypted d
                           /\ encryptedState d' = encryptedState d
                           /\ name d' = name d
                           /\ forall t0 rest0 x0,
                                Some (t, rest) = Some (t0, rest0) ->
                                Lib0.js_is t0 messageSync = true ->
                                Lib0.peekVarUint rest0 = Some x0 ->
                                ydoc d' = sync_doc (readSyncMessage rest0 (ydoc d)))
                w (leave room r' w)) as Hfin.
    { intros r' (Hn & Hb & Hm & Hy). apply onlyRoom_leave.
      split; [by rewrite Hm|]. split; [by rewrite Hb|]. split; [by rewrite Hn|].
      intros t0 rest0 x0 [= <- <-] Hs _. congruence. }
    destruct (Lib0.js_is t messageAwareness).
    2: { apply (onlyRoom_same _ _ _ d); [done|]. repeat split; try done.
         intros t0 rest0 x0 [= <- <-] Hs _. congruence. }
    destruct (Lib0.readVarUint8Array rest) as [[update rest']|].
    2: { apply (onlyRoom_same _ _ _ d); [done|]. repeat split; try done.
         intros t0 rest0 x0 [= <- <-] Hs _. congruence. }
    destruct (applyAwarenessUpdate (awareness d) update) as [aw outcome].
    destruct outcome as [|[change|]].
    + by apply Hfin.
    + apply Hfin. eapply static_trans; [|apply handler_static]. done.
    + by apply Hfin.
Qed.

Lemma messageListener_legacy_update conn room message w d t rest x update :
  JsMap.get room (docs w) = Some d ->
  isEncryptedMessage message = false ->
  Lib0.readVarUint message = Some (t, rest) ->
  Lib0.js_is t messageSync = true ->
  Lib0.peekVarUint rest = Some x ->
  sync_update (readSyncMessage rest (ydoc d)) = Some update ->
  messageListener conn room message w
  = leave room
      (let res := readSyncMessage rest (ydoc d) in
       let r := updateHandler update (set_ydoc (sync_doc res) (mkRelay d (network w))) in
       match sync_reply res with
       | Some written =>
           if (1 <? length (Lib0.writeVarUint (Z.to_N messageSync) ++ written))%nat
           then send conn (Lib0.writeVarUint (Z.to_N messageSync) ++ written) r
           else r
       | None => r
       end) w.
Proof.
  intros Hget Hleg Hread Hsync Hpeek Hupd.
  unfold messageListener, messageListener_try.
  rewrite Hget, Hleg, Hread, Hsync, Hpeek, Hupd. cbv zeta.
  destruct (sync_reply _); [|done]. by destruct (1 <? length _)%nat.
Qed.

(** C2, as the code has it.  When a legacy sync frame changes the
    committed state of the document, the update notification goes to all
    connections of the room, the sender included: each of them is sent
    the update frame or has left the room by the end (it was found dead),
    each one whose socket works is sent it, and when all of them work the
    frames sent are one update frame per connection, in the order of the
    map, followed by the reply to the sender if there is one.  The
    document is the one the capability returned.  Nothing is scheduled:
    the state of the persistence scheduler is exactly what it was. *)
Theorem C2_legacy_update_is_broadcast_and_not_saved
    (conn : Conn) (room : string) (message : bytes) (w : World) (d : WSSharedDoc)
    (t x : Lib0.JsNumber) (rest update : bytes) :
  JsMap.get room (docs w) = Some d ->
  isEncryptedMessage message = false ->
  Lib0.readVarUint message = Some (t, rest) ->
  Lib0.js_is t messageSync = true ->
  Lib0.peekVarUint rest = Some x ->
  sync_update (readSyncMessage rest (ydoc d)) = Some update ->
  let w' := messageListener conn room message w in
  persist w' = persist w
  /\ exists d' sent,
       JsMap.get room (docs w') = Some d'
       /\ ydoc d' = sync_doc (readSyncMessage rest (ydoc d))
       /\ wire (network w') = sent ++ wire (network w)
       /\ (forall c, c ∈ JsMap.keys (conns d) ->
                     (c, updateFrame update) ∈ sent \/ JsMap.get c (conns d') = None)
       /\ (forall c, c ∈ JsMap.keys (conns d) -> aliveb (network w) c = true ->
                     (c, updateFrame update) ∈ sent)
       /\ ((forall c, c ∈ JsMap.keys (conns d) -> aliveb (network w) c = true) ->
           aliveb (network w) conn = true ->
           sent
           = match sync_reply (readSyncMessage rest (ydoc d)) with
             | Some written =>
                 if (1 <? length (Lib0.writeVarUint (Z.to_N messageSync) ++ written))%nat
                 then [(conn, Lib0.writeVarUint (Z.to_N messageSync) ++ written)]
                 else []
             | None => []
             end
             ++ rev ((fun c => (c, updateFrame update)) <$> JsMap.keys (conns d))).
Proof.
  intros Hget Hleg Hread Hsync Hpeek Hupd w'. unfold w'.
  rewrite (messageListener_legacy_update conn room message w d t rest x update) by done.
  cbv zeta.
  set (res := readSyncMessage rest (ydoc d)).
  set (r0 := set_ydoc (sync_doc res) (mkRelay d (network w))).
  set (r1 := updateHandler update r0).
  set (enc := Lib0.writeVarUint (Z.to_N messageSync)).
  set (r2 := match sync_reply res with
             | Some written =>
                 if (1 <? length (enc ++ written))%nat then send conn (enc ++ written) r1 else r1
             | None => r1
             end).
  pose proof (updateHandler_pruned update r0 : Pruned _ _ r0 r1) as H01.
  assert (Pruned (fun _ => True) (fun _ => True) r1 r2) as H12.
  { unfold r2. destruct (sync_reply res); [|apply pruned_refl].
    destruct (1 <? length _)%nat; [by apply pruned_send|apply pruned_refl]. }
  destruct (pruned_wire _ _ _ _ H01) as (s1 & E1 & _).
  destruct (pruned_wire _ _ _ _ H12) as (s2 & E2 & _).
  split; [done|]. exists (doc r2), (s2 ++ s1).
  split; [apply get_leave|].
  split; [by rewrite (pruned_ydoc _ _ _ _ H12), (pruned_ydoc _ _ _ _ H01)|].
  split; [simpl; by rewrite E2, E1, app_assoc|].
  split; [|split].
  - intros c Hc.
    destruct (updateHandler_reaches update c r0 Hc) as (s1' & E1' & Hor).
    fold r1 in E1', Hor. rewrite E1 in E1'. apply app_inv_tail in E1'. subst s1'.
    destruct Hor as [Hin|Hnone]; [left; apply elem_of_app; by right|right].
    by apply (pruned_absent _ _ _ _ _ H12).
  - intros c Hc Ha.
    destruct (updateHandler_delivers update c r0 Hc Ha) as (s1' & E1' & Hin).
    fold r1 in E1'. rewrite E1 in E1'. apply app_inv_tail in E1'. subst s1'.
    apply elem_of_app. by right.
  - intros Hall Hconn.
    pose proof (updateHandler_all_alive update r0 Hall) as Hr1. fold r1 in Hr1.
    assert (s1 = rev ((fun c => (c, updateFrame update)) <$> JsMap.keys (conns d))) as ->.
    { rewrite Hr1 in E1. simpl in E1. by apply app_inv_tail in E1. }
    f_equal.
    assert (aliveb (net r1) conn = true) as Hconn1 by (by rewrite Hr1).
    unfold r2 in E2. destruct (sync_reply res) as [written|].
    + destruct (1 <? length _)%nat.
      * rewrite send_alive in E2 by done.
        apply (app_inv_tail (wire (net r1))). by rewrite <- E2.
      * apply (app_inv_tail (wire (net r1))). by rewrite <- E2.
    + apply (app_inv_tail (wire (net r1))). by rewrite <- E2.
Qed.


(** *** The mode of a room *)

Lemma messageListener_absent conn room message w :
  JsMap.get room (docs w) = None -> messageListener conn room message w = w.
Proof. intros H. unfold messageListener, messageListener_try. by rewrite H. Qed.

Lemma messageListener_encrypted_presence conn room message w d :
  JsMap.get room (docs w) = Some d ->
  isEncryptedMessage message = true ->
  isEncryptedSyncMessage message = false ->
  messageListener conn room message w
  = leave room (broadcastEncryptedMessage conn message
                  (set_isEncrypted true (mkRelay d (network w)))) w.
Proof.
  intros Hget Henc Hsync. unfold messageListener, messageListener_try.
  by rewrite Hget, Henc, Hsync.
Qed.

Lemma latched_set room room' d' w w' :
  docs w' = JsMap.set room' d' (docs w) ->
  (room' = room -> isEncrypted d' = true) ->
  latched room w -> latched room w'.
Proof.
  intros Hdocs Hm (d & Hd & Hmode). unfold latched. rewrite Hdocs.
  destruct (decide (room' = room)) as [->|Hne].
  - exists d'. split; [apply get_set_eq|auto].
  - exists d. split; [by rewrite get_set_ne|done].
Qed.

Lemma latched_docs room w w' : docs w' = docs w -> latched room w -> latched room w'.
Proof. intros Hdocs. unfold latched. by rewrite Hdocs. Qed.

Lemma latched_inRoom room room' (f : Relay -> Relay) w :
  (forall r, isEncrypted (doc r) = true -> isEncrypted (doc (f r)) = true) ->
  latched room w -> latched room (inRoom room' f w).
Proof.
  intros Hf Hl. unfold inRoom.
  destruct (JsMap.get room' (docs w)) as [d0|] eqn:E; [|done].
  apply (latched_set room room' (doc (f (mkRelay d0 (network w)))) w); [done| |done].
  intros ->. apply Hf. simpl. destruct Hl as (d & Hd & Hm). congruence.
Qed.

Lemma static_mode r r' :
  Static r r' -> isEncrypted (doc r) = true -> isEncrypted (doc r') = true.
Proof. intros (_ & _ & Hm & _). congruence. Qed.

Lemma latched_messageListener conn room' message room w :
  latched room w -> latched room (messageListener conn room' message w).
Proof.
  intros Hl. destruct (JsMap.get room' (docs w)) as [d0|] eqn:E.
  2: { by rewrite messageListener_absent. }
  destruct (isEncryptedMessage message) eqn:Henc.
  - destruct (isEncryptedSyncMessage message) eqn:Hsync.
    + rewrite (messageListener_encrypted_sync conn room' message w d0) by done. cbv zeta.
      eapply latched_set; [done| |done]. intros _.
      by rewrite (pruned_mode _ _ _ _ (broadcast_pruned _ _ _)).
    + rewrite (messageListener_encrypted_presence conn room' message w d0) by done.
      eapply latched_set; [done| |done]. intros _.
      by rewrite (pruned_mode _ _ _ _ (broadcast_pruned _ _ _)).
  - destruct (messageListener_legacy conn room' message w d0 E Henc)
      as (_ & _ & Hothers & d' & Hd' & Hm & _).
    destruct Hl as (d & Hd & Hmode).
    destruct (decide (room = room')) as [->|Hne].
    + exists d'. split; [done|]. congruence.
    + exists d. split; [|done]. by rewrite Hothers.
Qed.

Lemma latched_getYDoc room room' gc w : latched room w -> latched room (getYDoc room' gc w).
Proof.
  intros (d & Hd & Hm). unfold getYDoc.
  destruct (JsMap.get room' (docs w)) eqn:E; [by exists d|].
  exists d. split; [|done]. simpl. rewrite get_set_ne; [done|]. congruence.
Qed.

Lemma docs_start room gc w :
  docs (setupWSConnection_start env room gc w).1 = docs (getYDoc room gc w).
Proof.
  unfold setupWSConnection_start.
  destruct (JsMap.get room (docs (getYDoc room gc w))); [|done].
  destruct (_ && _); [|done]. by destruct (loadState _ _ _).
Qed.

Lemma latched_finish conn room room' st w :
  latched room w -> latched room (setupWSConnection_finish conn room' st w).
Proof.
  apply latched_inRoom. intros r Hr.
  set (r1 := match st with
             | Some s => set_isEncrypted true (set_encryptedState (Some s) r)
             | None => r
             end).
  assert (isEncrypted (doc r1) = true) as H1 by (unfold r1; by destruct st).
  set (r2 := set_conns (JsMap.set conn [] (conns (doc r1))) r1).
  assert (isEncrypted (doc r2) = true) as H2 by done.
  change (isEncrypted
            (doc match isEncrypted (doc r2), encryptedState (doc r2) with
                 | true, Some s => send conn s r2
                 | _, _ =>
                     let r3 := send conn (Lib0.writeVarUint (Z.to_N messageSync)
                                          ++ writeSyncStep1 (ydoc (doc r2))) r2 in
                     if (0 <? length (states (awareness (doc r3))))%nat
                     then send conn (awarenessFrame r3 (JsMap.keys (states (awareness (doc r3))))) r3
                     else r3
                 end) = true).
  rewrite H2. destruct (encryptedState (doc r2)).
  - by apply (static_mode _ _ (send_static _ _ _)).
  - cbv zeta. destruct (0 <? length _)%nat.
    + apply (static_mode _ _ (send_static _ _ _)).
      by apply (static_mode _ _ (send_static _ _ _)).
    + by apply (static_mode _ _ (send_static _ _ _)).
Qed.

Lemma presenceTimeout_static clients r : Static r (presenceTimeout clients r).
Proof.
  unfold presenceTimeout. destruct (removeAwarenessStates _ clients) as [aw gone].
  destruct gone; [done|]. eapply static_trans; [|apply handler_static]. done.
Qed.

Lemma latched_handle room e w : latched room w -> latched room (handle env e w).
Proof.
  intros Hl. unfold handle.
  destruct (phase w) eqn:Hphase; [| |done]; destruct e;
    try (apply latched_inRoom; [|done]; intros r;
         first [apply static_mode, closeConn_static
               |apply static_mode, presenceTimeout_static]);
    try (by apply latched_messageListener);
    try (by apply latched_finish);
    try (eapply latched_docs; [|by apply latched_getYDoc]; by apply docs_start);
    try (by apply (latched_docs room w));
    try (apply (latched_docs room w); [|done]; unfold onSIGTERM, processExit;
         by rewrite Hphase).
Qed.

(** C7. Once a room is in encrypted mode it stays there: whatever events
    follow (joins, frames of either kind from any connection, closes, send
    failures, transport changes, presence timeouts, timers, shutdown), the
    room is still there and still encrypted. *)
Theorem C7_mode_is_monotonic (es : list Event) (w : World) (room : string) (d : WSSharedDoc) :
  JsMap.get room (docs w) = Some d ->
  isEncrypted d = true ->
  exists d', JsMap.get room (docs (runEvents env es w)) = Some d' /\ isEncrypted d' = true.
Proof.
  intros Hd Hm. assert (latched room w) as Hl by (by exists d). clear Hd Hm.
  revert w Hl. induction es as [|e es IH]; intros w Hl; [done|].
  apply IH. by apply latched_handle.
Qed.

(** *** Closing a connection *)

Lemma send_dead_spec c m r :
  aliveb (net r) c = false ->
  Pruned (fun c' => c' <> c) (fun _ => True) r (send c m r)
  /\ JsMap.get c (conns (doc (send c m r))) = None
  /\ (forall ids id,
        JsMap.get c (conns (doc r)) = Some ids -> id ∈ ids ->
        JsMap.get id (states (awareness (doc (send c m r)))) = None).
Proof.
  intros Hdead.
  destruct (closeConn_spec c r) as (Hp & Hgone & Hids).
  apply (pruned_weaken _ _ (fun _ => True)) in Hp; [|done].
  unfold send, send_with.
  destruct (negb (readyState (sockets (net r) c) =? wsReadyStateConnecting)
            && negb (readyState (sockets (net r) c) =? wsReadyStateOpen)) eqn:Ers.
  - destruct (sendThrows (sockets (net (closeConn c r)) c)).
    + destruct (closeConn_spec c (closeConn c r)) as (Hp2 & Hgone2 & _).
      apply (pruned_weaken _ _ (fun _ => True)) in Hp2; [|done].
      split; [by eapply pruned_trans|]. split; [done|].
      intros ids id Hg Hin.
      destruct (JsMap.get id (states (awareness (doc (closeConn c (closeConn c r))))))
        as [v|] eqn:Hv; [|done].
      apply (pruned_presence _ _ _ _ Hp2) in Hv. by rewrite (Hids ids id) in Hv.
    + split; [|done]. eapply pruned_trans; [exact Hp|]. by apply pruned_conn_send.
  - assert (sendThrows (sockets (net r) c) = true) as ->; [|done].
    unfold aliveb in Hdead.
    destruct (readyState (sockets (net r) c) =? wsReadyStateConnecting),
             (readyState (sockets (net r) c) =? wsReadyStateOpen),
             (sendThrows (sockets (net r) c)); simpl in *; congruence.
Qed.


(** *** Frames that are not passed on to the document or to presence *)



(** *** The scheduler inside the server *)

Lemma persist_messageListener conn room message w :
  persist (messageListener conn room message w) = persist w
  \/ exists roomId getState,
       persist (messageListener conn room message w) = scheduleSave roomId getState (persist w).
Proof.
  destruct (JsMap.get room (docs w)) as [d|] eqn:E.
  2: { left. by rewrite messageListener_absent. }
  destruct (isEncryptedMessage message) eqn:Henc.
  - destruct (isEncryptedSyncMessage message) eqn:Hsync.
    + right. rewrite (messageListener_encrypted_sync conn room message w d) by done.
      by eexists _, _.
    + left. by rewrite (messageListener_encrypted_presence conn room message w d).
  - left. by destruct (messageListener_legacy conn room message w d E Henc) as (-> & _).
Qed.

Lemma persist_inRoom room (f : Relay -> Relay) w : persist (inRoom room f w) = persist w.
Proof. unfold inRoom. by destruct (JsMap.get room (docs w)). Qed.

Lemma persist_start room gc w :
  exists s, persist (setupWSConnection_start env room gc w).1 = set_store s (persist w).
Proof.
  unfold setupWSConnection_start.
  assert (persist (getYDoc room gc w) = persist w) as Hp
    by (unfold getYDoc; by destruct (JsMap.get room (docs w))).
  assert (forall p : Persist (list (string * WSSharedDoc)), p = set_store (store p) p) as Hid
    by (by intros []).
  rewrite <- Hp. generalize (getYDoc room gc w). intros w1.
  destruct (JsMap.get room (docs w1)).
  - destruct (_ && _).
    + destruct (loadState _ _ _) as [res s]. by exists s.
    + exists (store (persist w1)). apply Hid.
  - exists (store (persist w1)). apply Hid.
Qed.

Lemma inv_handle e w : TimersInv (persist w) -> TimersInv (persist (handle env e w)).
Proof.
  intros Hinv. unfold handle.
  destruct (phase w) eqn:Hphase; [| |done]; destruct e;
    try (by rewrite persist_inRoom);
    try (unfold setupWSConnection_finish; by rewrite persist_inRoom);
    try (destruct (persist_start room gc w) as [s ->]; by apply PersistenceFacts.inv_set_store);
    try (destruct (persist_messageListener conn room message w) as [->|(? & ? & ->)];
         [done|by apply PersistenceFacts.inv_schedule]);
    try (by apply PersistenceFacts.inv_advance);
    try (by apply PersistenceFacts.inv_runDue);
    try done;
    try (unfold onSIGTERM, processExit; by rewrite Hphase).
Qed.

Lemma inv_runEvents (es : list Event) (s : S3) :
  TimersInv (persist (runEvents env es (boot s))).
Proof.
  generalize (boot s) (PersistenceFacts.inv_initial s : TimersInv (persist (boot s))).
  induction es as [|e es IH]; intros w0 H0; [done|]. simpl. apply IH.
  by apply inv_handle.
Qed.

(** In the running server, whatever has happened since it started, every
    room has at most one pending save timer, and it is the one recorded in
    [saveTimers]. *)
Theorem server_keeps_one_timer_per_room (es : list Event) (s : S3) (room : string) :
  let w := runEvents env es (boot s) in
  TimersInv (persist w) /\ (length (pendingFor room (persist w)) <= 1)%nat.
Proof.
  intros w.
  pose proof (inv_runEvents es s : TimersInv (persist w)) as Hinv.
  split; [done|].
  destruct (PersistenceFacts.pending_cases (persist w) room Hinv) as [[_ ->]|(t & _ & ->)];
    simpl; lia.
Qed.

(** *** The flush that is provided for shutdown *)

Lemma flush_list_absent (ds : list (string * WSSharedDoc)) room h :
  JsMap.get room ds = None ->
  omap (fun rg : string * (list (string * WSSharedDoc) -> bytes) =>
          if String.eqb rg.1 room then Some (rg.2 h) else None)
       (omap (fun kd => match encryptedState kd.2 with
                        | Some _ => Some (kd.1, encryptedStateGetter kd.1)
                        | None => None
                        end) ds) = [].
Proof.
  induction ds as [|[k v] ds IH]; [done|]. simpl.
  destruct (decide (room = k)) as [->|Hne]; [done|]. intros Hg.
  destruct (encryptedState v); simpl; [|by apply IH].
  destruct (String.eqb_spec k room); [congruence|by apply IH].
Qed.

Lemma flush_list_present (ds : list (string * WSSharedDoc)) room d b h :
  NoDup (JsMap.keys ds) -> JsMap.get room ds = Some d -> encryptedState d = Some b ->
  omap (fun rg : string * (list (string * WSSharedDoc) -> bytes) =>
          if String.eqb rg.1 room then Some (rg.2 h) else None)
       (omap (fun kd => match encryptedState kd.2 with
                        | Some _ => Some (kd.1, encryptedStateGetter kd.1)
                        | None => None
                        end) ds) = [encryptedStateGetter room h]
  /\ room ∈ (omap (fun kd => match encryptedState kd.2 with
                             | Some _ => Some (kd.1, encryptedStateGetter kd.1)
                             | None => None
                             end) ds).*1.
Proof.
  induction ds as [|[k v] ds IH]; [done|]. unfold JsMap.keys. rewrite fmap_cons.
  intros [Hnot Hnd]%NoDup_cons Hg Hb. simpl in Hg. simpl.
  destruct (decide (room = k)) as [->|Hne].
  - injection Hg as ->. rewrite Hb. simpl. rewrite String.eqb_refl. split; [|left].
    f_equal. apply flush_list_absent.
    destruct (JsMap.get k ds) eqn:E; [|done].
    exfalso. apply Hnot. apply get_is_Some_keys. by eexists.
  - destruct (IH Hnd Hg Hb) as [IH1 IH2].
    destruct (encryptedState v); simpl; [|done].
    destruct (String.eqb_spec k room); [congruence|]. split; [done|by right].
Qed.

(** Flushing what [getDocsForPersistence] lists through [saveAllPending],
    as the two functions are documented to be used on shutdown, cancels the
    pending timer of every room that holds a blob and, when the store is
    configured, writes that blob exactly once. *)
Theorem provided_flush_writes_every_blob (w : World) (room : string) (d : WSSharedDoc)
    (b : bytes) :
  TimersInv (persist w) ->
  NoDup (JsMap.keys (docs w)) ->
  JsMap.get room (docs w) = Some d ->
  encryptedState d = Some b ->
  let p' := saveAllPending env (getDocsForPersistence w) (docs w) (persist w) in
  pendingFor room p' = []
  /\ writesFor room (store p')
     = (if isPersistenceAvailable env then [b] else []) ++ writesFor room (store (persist w)).
Proof.
  intros Hinv Hnd Hget Hb p'. unfold p', getDocsForPersistence.
  destruct (flush_list_present (docs w) room d b (docs w) Hnd Hget Hb) as [Hl Hin].
  split; [by apply PersistenceFacts.pending_saveAllPending|].
  rewrite PersistenceFacts.writes_saveAllPending, Hl. simpl.
  unfold encryptedStateGetter. by rewrite Hget, Hb.
Qed.

(** *** Shutdown *)

Lemma exited_is_final e w : phase w = Exited -> handle env e w = w.
Proof. intros H. unfold handle. by rewrite H. Qed.

Lemma exited_stays es w : phase w = Exited -> runEvents env es w = w.
Proof.
  induction es as [|e es IH]; intros H; [done|]. simpl.
  rewrite exited_is_final by done. by apply IH.
Qed.

(** Whatever the state of the rooms, the shutdown path calls nothing of
    the persistence module: neither the store nor the timers change. *)
Lemma shutdown_touches_nothing es w :
  phase w = Running ->
  persist (runEvents env (EvSIGTERM :: EvExit :: es) w) = persist w
  /\ docs (runEvents env (EvSIGTERM :: EvExit :: es) w) = docs w
  /\ phase (runEvents env (EvSIGTERM :: EvExit :: es) w) = Exited.
Proof.
  intros H.
  assert (handle env EvSIGTERM w = mkWorld (docs w) (network w) (persist w) ShuttingDown)
    as H1 by (unfold handle, onSIGTERM; by rewrite H).
  assert (handle env EvExit (handle env EvSIGTERM w)
          = mkWorld (docs w) (network w) (persist w) Exited) as H2 by (by rewrite H1).
  change (runEvents env (EvSIGTERM :: EvExit :: es) w)
    with (runEvents env es (handle env EvExit (handle env EvSIGTERM w))).
  by rewrite H2, exited_stays.
Qed.

End Facts.
End ServerFacts.

(** ** Relaying and closing, in full *)

Module RelayingFacts.
Import Persistence Utils Server JsMapFacts UtilsFacts ClosingFacts ServerFacts.

Section Facts.
Context {Y : YLib}.
Variable env : Env.
Implicit Types (w : World) (r : Relay) (d : WSSharedDoc) (room : string).
Implicit Types (conn c : Conn) (m message : bytes).

(** A removal notice is only sent when a connection whose socket does not
    work controls a presence entry. *)
Lemma notice_needs_dead r x :
  isRemovalNotice (fun _ => True) r x ->
  exists c ids id,
    JsMap.get c (conns (doc r)) = Some ids /\ id ∈ ids
    /\ is_Some (JsMap.get id (states (awareness (doc r))))
    /\ aliveb (net r) c = false.
Proof.
  intros (aw & gone & Hne & _ & _ & Hall). destruct gone as [|id gone]; [done|].
  destruct (Hall id) as (_ & Hsome & c & ids & Hc & Hin & Hdead); [left|].
  exists c, ids, id. auto.
Qed.

Lemma notice_isPresenceFrame K r x : isRemovalNotice K r x -> isPresenceFrame x.
Proof. intros (aw & gone & _ & -> & _). by eexists. Qed.

(** Everything [broadcastEncryptedMessage] does. *)
Lemma broadcast_facts conn m r :
  let r' := broadcastEncryptedMessage conn m r in
  exists sent,
    wire (net r') = sent ++ wire (net r)
    /\ Forall (fun e => (e.1 <> conn /\ e.2 = m)
                        \/ isRemovalNotice (fun _ => True) r e.2) sent
    /\ ((forall c ids id,
           JsMap.get c (conns (doc r)) = Some ids -> id ∈ ids ->
           is_Some (JsMap.get id (states (awareness (doc r)))) ->
           aliveb (net r) c = true) ->
        Forall (fun e => e.1 <> conn /\ e.2 = m) sent)
    /\ (forall c, c ∈ JsMap.keys (conns (doc r)) -> c <> conn ->
                  (c, m) ∈ sent \/ JsMap.get c (conns (doc r')) = None)
    /\ (forall c, c ∈ JsMap.keys (conns (doc r)) -> c <> conn -> aliveb (net r) c = true ->
                  (c, m) ∈ sent)
    /\ (forall c, c <> conn -> aliveb (net r) c = false ->
                  JsMap.get c (conns (doc r')) = None)
    /\ (forall c, aliveb (net r) c = true ->
                  JsMap.get c (conns (doc r')) = JsMap.get c (conns (doc r)))
    /\ ((forall c, c ∈ JsMap.keys (conns (doc r)) -> c <> conn -> aliveb (net r) c = true) ->
        sent = rev ((fun c => (c, m))
                    <$> List.filter (fun c => negb (Nat.eqb c conn)) (JsMap.keys (conns (doc r))))
        /\ doc r' = doc r /\ closeCalls (net r') = closeCalls (net r)).
Proof.
  intros r'. pose proof (closes_broadcast conn m r) as Hc. fold r' in Hc.
  pose proof (closes_pruned _ _ _ _ Hc) as Hp.
  destruct (pruned_wire _ _ _ _ Hp) as (sent & Hw & Hall).
  exists sent. split; [done|]. split; [done|]. split; [|split; [|split; [|split; [|split]]]].
  - intros Hnone. eapply Forall_impl; [exact Hall|]. intros e [H|H]; [done|]. exfalso.
    destruct (notice_needs_dead r _ H) as (c & ids & id & H1 & H2 & H3 & H4).
    rewrite (Hnone c ids id H1 H2 H3) in H4. done.
  - intros c Hin Hne.
    destruct (broadcast_reaches conn m c r Hin Hne) as (sent' & Hw' & Hor).
    fold r' in Hw', Hor. rewrite Hw in Hw'. apply app_inv_tail in Hw'. by subst.
  - intros c Hin Hne Ha.
    destruct (broadcast_delivers conn m c r Hin Hne Ha) as (sent' & Hw' & Hin').
    fold r' in Hw'. rewrite Hw in Hw'. apply app_inv_tail in Hw'. by subst.
  - intros c Hne Hd. by apply broadcast_prunes.
  - intros c Ha. by apply (pruned_alive _ _ _ _ Hp).
  - intros Halive. pose proof (broadcast_all_alive conn m r Halive) as Heq. fold r' in Heq.
    rewrite Heq in Hw |- *. simpl in *. apply app_inv_tail in Hw. by subst.
Qed.

(** *** Encrypted sync frames *)

(** C4. An inbound frame whose first byte is 0x01 or 0x03, received from
    connection [conn] of a room, becomes the room's encrypted blob as it
    is, marks the room encrypted and arms a save timer for the room, due
    one debounce delay from now, whose getter reads the blob.  In the
    scheduler states the server reaches, that timer is then the room's
    only pending one (the earlier one is gone), the timers of other rooms
    and the store are untouched, and if nothing else happens to the room
    the timer writes nothing before the delay has passed and, once it
    has, issues exactly one write of the frame (none when the store is not
    configured).  The frames sent while the frame is handled are: copies
    of the frame, unchanged, to connections other than [conn], and notices
    of presence entries revoked from connections found dead; no frame at
    all goes to [conn] unless such a notice is due.  Every other
    connection whose socket works is sent the frame and stays registered;
    every other connection whose socket does not work is removed; when all
    of them work the frames sent are exactly one copy per other
    connection, in the order of the map. *)
Theorem C4_encrypted_sync_is_stored_scheduled_and_relayed
    (conn : Conn) (room : string) (message : bytes) (w : World) (d : WSSharedDoc) :
  JsMap.get room (docs w) = Some d ->
  hd_error message = Some x01 \/ hd_error message = Some x03 ->
  let w' := messageListener conn room message w in
  exists d' sent t,
    JsMap.get room (docs w') = Some d'
    /\ encryptedState d' = Some message
    /\ isEncrypted d' = true
    /\ persist w' = scheduleSave (name d) (encryptedStateGetter room) (persist w)
    /\ t ∈ timeouts (persist w')
    /\ saveTimers (persist w') !! name d = Some (timer_id t)
    /\ deadline t = now (persist w) + SAVE_DEBOUNCE_MS
    /\ timer_getState t (docs w') = message
    /\ (TimersInv (persist w) -> name d = room ->
        pendingFor room (persist w') = [t]
        /\ (forall t0, t0 ∈ timeouts (persist w) -> timer_room t0 = room ->
                       t0 ∉ timeouts (persist w'))
        /\ (forall room', room' <> room ->
                          pendingFor room' (persist w') = pendingFor room' (persist w))
        /\ store (persist w') = store (persist w)
        /\ forall dt,
             let p := runDue env (docs w') (advance dt (persist w')) in
             (dt < SAVE_DEBOUNCE_MS ->
              pendingFor room p = [t]
              /\ writesFor room (store p) = writesFor room (store (persist w)))
             /\ (SAVE_DEBOUNCE_MS <= dt ->
                 pendingFor room p = []
                 /\ writesFor room (store p)
                    = (if isPersistenceAvailable env then [message] else [])
                      ++ writesFor room (store (persist w))))
    /\ wire (network w') = sent ++ wire (network w)
    /\ Forall (fun e => (e.1 <> conn /\ e.2 = message)
                        \/ isRemovalNotice (fun _ => True) (mkRelay d (network w)) e.2) sent
    /\ ((forall c ids id,
           JsMap.get c (conns d) = Some ids -> id ∈ ids ->
           is_Some (JsMap.get id (states (awareness d))) -> aliveb (network w) c = true) ->
        Forall (fun e => e.1 <> conn /\ e.2 = message) sent)
    /\ (forall c, c ∈ JsMap.keys (conns d) -> c <> conn ->
                  (c, message) ∈ sent \/ JsMap.get c (conns d') = None)
    /\ (forall c, c ∈ JsMap.keys (conns d) -> c <> conn -> aliveb (network w) c = true ->
                  (c, message) ∈ sent)
    /\ (forall c, c <> conn -> aliveb (network w) c = false -> JsMap.get c (conns d') = None)
    /\ (forall c, aliveb (network w) c = true -> JsMap.get c (conns d') = JsMap.get c (conns d))
    /\ ((forall c, c ∈ JsMap.keys (conns d) -> c <> conn -> aliveb (network w) c = true) ->
        sent = rev ((fun c => (c, message))
                    <$> List.filter (fun c => negb (Nat.eqb c conn)) (JsMap.keys (conns d)))).
Proof.
  intros Hget Hhd w'.
  assert ((0 <? length message)%nat = true) as Hlen
    by (destruct message; [by destruct Hhd|done]).
  apply first_byte_sync in Hhd.
  unfold w'. rewrite (messageListener_encrypted_sync conn room message w d Hget Hhd).
  set (r0 := set_encryptedState (Some message) (set_isEncrypted true (mkRelay d (network w)))).
  destruct (broadcast_facts conn message r0)
    as (sent & Hw & Hall & Hquiet & Hreach & Hdeliver & Hprune & Hkeep & Hexact).
  pose proof (broadcast_pruned conn message r0) as Hp.
  destruct (schedule_armed (persist w) (name d) (encryptedStateGetter room)) as [Hin Hmap].
  set (t := mkTimer (nextTimer (persist w)) (now (persist w) + SAVE_DEBOUNCE_MS) (name d)
                    (encryptedStateGetter room)) in *.
  exists (doc (broadcastEncryptedMessage conn message r0)), sent, t.
  cbv zeta. simpl docs. simpl network. simpl persist.
  assert (encryptedState (doc (broadcastEncryptedMessage conn message r0)) = Some message)
    as Hblob by (by rewrite (pruned_blob _ _ _ _ Hp)).
  assert (encryptedStateGetter room
            (JsMap.set room (doc (broadcastEncryptedMessage conn message r0)) (docs w))
          = message) as Hgetter
    by (unfold encryptedStateGetter; by rewrite get_set_eq, Hblob).
  split; [apply get_set_eq|]. split; [done|].
  split; [by rewrite (pruned_mode _ _ _ _ Hp)|].
  split; [done|]. split; [done|]. split; [done|]. split; [done|].
  split; [done|]. split.
  { intros Hinv Hname. subst t. rewrite Hname in *.
    set (t := mkTimer (nextTimer (persist w)) (now (persist w) + SAVE_DEBOUNCE_MS) room
                      (encryptedStateGetter room)) in *.
    destruct (PersistenceFacts.schedule_effect (persist w) room (encryptedStateGetter room)
                Hinv) as (Hpend & Hnow & Hstore).
    set (p1 := scheduleSave room (encryptedStateGetter room) (persist w)) in *.
    assert (TimersInv p1) as Hinv1 by (by apply PersistenceFacts.inv_schedule).
    split; [done|]. split; [|split; [|split; [done|]]].
    - intros t0 Ht0 Hroom Hin0.
      assert (t0 ∈ pendingFor room p1) as Hp0
        by (by apply PersistenceFacts.pending_member).
      rewrite Hpend in Hp0. apply list_elem_of_singleton in Hp0.
      destruct Hinv as (_ & _ & Hlt & _). apply Hlt in Ht0. rewrite Hp0 in Ht0.
      simpl in Ht0. lia.
    - intros room' Hne. unfold p1. rewrite PersistenceFacts.schedule_is_arm by done.
      rewrite PersistenceFacts.pending_arm_ne, PersistenceFacts.pending_forget_ne by done.
      done.
    - intros dt. cbv zeta.
      set (h := JsMap.set room (doc (broadcastEncryptedMessage conn message r0)) (docs w))
        in *.
      assert (TimersInv (advance dt p1)) as Hinv2 by (by apply PersistenceFacts.inv_advance).
      split.
      + intros Hlt.
        destruct (PersistenceFacts.runDue_waiting env h (advance dt p1) room t Hinv2 Hpend)
          as [-> ->].
        * change (now p1 + Z.max 0 dt < now (persist w) + SAVE_DEBOUNCE_MS).
          rewrite Hnow. unfold SAVE_DEBOUNCE_MS in *. lia.
        * split; [done|]. change (store (advance dt p1)) with (store p1). by rewrite Hstore.
      + intros Hge.
        destruct (PersistenceFacts.runDue_due env h (advance dt p1) room t Hinv2 Hpend)
          as [-> ->].
        * change (now (persist w) + SAVE_DEBOUNCE_MS <= now p1 + Z.max 0 dt).
          rewrite Hnow. lia.
        * split; [done|]. change (store (advance dt p1)) with (store p1).
          change (timer_getState t h) with (encryptedStateGetter room h).
          rewrite Hgetter, Hstore. f_equal.
          unfold flushed. rewrite Hlen. by destruct (isPersistenceAvailable env). }
  split; [done|]. split; [done|]. split; [done|]. split; [done|]. split; [done|].
  split; [done|]. split; [done|].
  intros Halive. by destruct (Hexact Halive) as [-> _].
Qed.

(** *** Encrypted presence frames *)

(** An encrypted presence frame (first byte 2) is only relayed: the room
    is marked encrypted; the blob, the document and the scheduler stay as
    they were.  Every other connection whose socket works is sent the frame
    and stays registered with the ids it controls; every other connection
    whose socket does not work is removed.  The frames sent are copies of
    the frame to connections other than the sender and notices of presence
    entries revoked from connections found dead; when every other
    connection works they are exactly one copy per other connection, in
    the order of the map, and the room's connections and presence do not
    change. *)
Theorem encrypted_presence_is_only_relayed
    (conn : Conn) (room : string) (message : bytes) (w : World) (d : WSSharedDoc) :
  JsMap.get room (docs w) = Some d ->
  hd_error message = Some x02 ->
  let w' := messageListener conn room message w in
  persist w' = persist w
  /\ exists d' sent,
       JsMap.get room (docs w') = Some d'
       /\ isEncrypted d' = true
       /\ encryptedState d' = encryptedState d
       /\ ydoc d' = ydoc d
       /\ wire (network w') = sent ++ wire (network w)
       /\ Forall (fun e => (e.1 <> conn /\ e.2 = message)
                           \/ isRemovalNotice (fun _ => True) (mkRelay d (network w)) e.2) sent
       /\ ((forall c ids id,
              JsMap.get c (conns d) = Some ids -> id ∈ ids ->
              is_Some (JsMap.get id (states (awareness d))) -> aliveb (network w) c = true) ->
           Forall (fun e => e.1 <> conn /\ e.2 = message) sent)
       /\ (forall c, c ∈ JsMap.keys (conns d) -> c <> conn ->
                     (c, message) ∈ sent \/ JsMap.get c (conns d') = None)
       /\ (forall c, c ∈ JsMap.keys (conns d) -> c <> conn -> aliveb (network w) c = true ->
                     (c, message) ∈ sent)
       /\ (forall c, c <> conn -> aliveb (network w) c = false ->
                     JsMap.get c (conns d') = None)
       /\ (forall c, aliveb (network w) c = true ->
                     JsMap.get c (conns d') = JsMap.get c (conns d))
       /\ ((forall c, c ∈ JsMap.keys (conns d) -> c <> conn -> aliveb (network w) c = true) ->
           sent = rev ((fun c => (c, message))
                       <$> List.filter (fun c => negb (Nat.eqb c conn)) (JsMap.keys (conns d)))
           /\ conns d' = conns d /\ awareness d' = awareness d).
Proof.
  intros Hget Hhd w'. destruct message as [|b rest]; [done|]. simpl in Hhd.
  injection Hhd as ->. unfold w'.
  rewrite (messageListener_encrypted_presence conn room (x02 :: rest) w d) by done.
  set (r0 := set_isEncrypted true (mkRelay d (network w))).
  destruct (broadcast_facts conn (x02 :: rest) r0)
    as (sent & Hw & Hall & Hquiet & Hreach & Hdeliver & Hprune & Hkeep & Hexact).
  pose proof (broadcast_pruned conn (x02 :: rest) r0) as Hp.
  split; [done|].
  exists (doc (broadcastEncryptedMessage conn (x02 :: rest) r0)), sent.
  split; [apply get_leave|].
  split; [by rewrite (pruned_mode _ _ _ _ Hp)|].
  split; [by rewrite (pruned_blob _ _ _ _ Hp)|].
  split; [by rewrite (pruned_ydoc _ _ _ _ Hp)|].
  split; [done|]. split; [done|]. split; [done|]. split; [done|]. split; [done|].
  split; [done|]. split; [done|].
  intros Halive. destruct (Hexact Halive) as (-> & -> & _). done.
Qed.

(** *** Closing a connection *)

Lemma closeConn_unlisted conn r :
  JsMap.get conn (conns (doc r)) = None -> closeConn conn r = conn_close conn r.
Proof.
  intros H. unfold closeConn. destruct (length (conns (doc r))); simpl; by rewrite H.
Qed.

Lemma closeConn_calls conn r :
  exists k, closeCalls (net (closeConn conn r)) = (conn :: k) ++ closeCalls (net r).
Proof.
  destruct (JsMap.get conn (conns (doc r))) as [ids|] eqn:Hget.
  - rewrite (closeConn_unfold conn r ids Hget). cbv zeta.
    destruct (removeAwarenessStates (awareness (doc r)) ids) as [aw gone]. simpl.
    destruct gone as [|g gone]; [by exists []|].
    set (r2 := set_awareness aw (set_conns (JsMap.remove conn (conns (doc r))) r)).
    assert (Closes (fun _ => True) (fun _ => True) r2
              (awarenessChangeHandler (mkChange [] [] (g :: gone)) None r2)) as Hc.
    { unfold awarenessChangeHandler, awarenessChangeHandler_with.
      apply (closes_forEach _ _ r2); [|apply pruned_refl]. intros c r' Hg.
      by apply (closes_send_from _ _ r2). }
    destruct (closes_calls _ _ _ _ Hc) as (k & E & _). exists k. by rewrite E.
  - rewrite closeConn_unlisted by done. by exists [].
Qed.

Lemma send_dead_calls conn m r :
  aliveb (net r) conn = false ->
  exists k, closeCalls (net (send conn m r)) = k ++ closeCalls (net r) /\ conn ∈ k.
Proof.
  intros Hdead. unfold send, send_with. cbv zeta. unfold aliveb in Hdead.
  destruct (closeConn_calls conn r) as (k1 & E1).
  destruct (negb (readyState (sockets (net r) conn) =? wsReadyStateConnecting)
            && negb (readyState (sockets (net r) conn) =? wsReadyStateOpen)) eqn:Hrs;
    cbv beta iota.
  - destruct (sendThrows (sockets (net (closeConn conn r)) conn)).
    + destruct (closeConn_calls conn (closeConn conn r)) as (k2 & E2).
      exists ((conn :: k2) ++ conn :: k1). rewrite E2, E1, <- app_assoc.
      split; [done|by left].
    + exists (conn :: k1). simpl. rewrite E1. split; [done|by left].
  - assert (sendThrows (sockets (net r) conn) = true) as ->.
    { destruct (readyState _ =? wsReadyStateConnecting), (readyState _ =? wsReadyStateOpen),
        (sendThrows _); done. }
    exists (conn :: k1). rewrite E1. split; [done|by left].
Qed.

(** Once a revocation is broadcast, every connection whose socket does
    not work leaves the room. *)
Lemma closeConn_prunes conn r ids id c :
  JsMap.get conn (conns (doc r)) = Some ids -> id ∈ ids ->
  is_Some (JsMap.get id (states (awareness (doc r)))) ->
  aliveb (net r) c = false ->
  JsMap.get c (conns (doc (closeConn conn r))) = None.
Proof.
  intros Hget Hin Hsome Hdead. rewrite (closeConn_unfold conn r ids Hget). cbv zeta.
  pose proof (removeAwarenessStates_lists (awareness (doc r)) ids id Hin Hsome) as Hlisted.
  destruct (removeAwarenessStates (awareness (doc r)) ids) as [aw gone] eqn:E.
  simpl in *. destruct gone as [|g gone]; [by inversion Hlisted|].
  change (JsMap.get c
            (conns (doc (awarenessChangeHandler (mkChange [] [] (g :: gone)) None
                           (set_awareness aw
                              (set_conns (JsMap.remove conn (conns (doc r))) r))))) = None).
  unfold awarenessChangeHandler, awarenessChangeHandler_with.
  by apply forEach_send_prunes.
Qed.

(** C8, as the code has it.  Whether a connection is closed explicitly
    ([closeConn]) or found dead when something is sent to it ([send] on a
    socket that does not work), afterwards it is no longer registered in
    the room, none of the client ids it controlled has a presence entry,
    and [close()] has been called on its socket.  The room is still in
    [docs], with the same name, document, blob and mode; the scheduler,
    the phase and the other rooms are as they were.  No connection or
    presence entry is added, and every other connection whose socket works
    (it is open or connecting and sending on it does not throw) is still
    registered with the ids it controlled.  Another connection leaves the
    room only if its socket does not work, and then it is closed in the
    same way: the ids it controlled have no presence entry and [close()]
    has been called on it.  A presence entry goes away only with a
    connection that controlled it.  [close()] is called on no other
    socket, and the frames sent are notices of the revoked entries (and,
    for [send], the frame that was to be sent).  If the closed connection
    controlled an entry, so that a revocation is broadcast, every
    connection whose socket does not work leaves the room. *)
Theorem C8_closing_a_connection
    (conn : Conn) (room : string) (w : World) (d : WSSharedDoc) (f : Relay -> Relay) :
  JsMap.get room (docs w) = Some d ->
  f = closeConn conn
  \/ (aliveb (network w) conn = false /\ exists m, f = send conn m) ->
  let w' := inRoom room f w in
  OnlyRoom room
    (fun d' =>
       JsMap.get conn (conns d') = None
       /\ (forall ids id,
             JsMap.get conn (conns d) = Some ids -> id ∈ ids ->
             JsMap.get id (states (awareness d')) = None)
       /\ name d' = name d /\ ydoc d' = ydoc d
       /\ encryptedState d' = encryptedState d /\ isEncrypted d' = isEncrypted d
       /\ (forall c ids, JsMap.get c (conns d') = Some ids -> JsMap.get c (conns d) = Some ids)
       /\ (forall c, c <> conn -> aliveb (network w) c = true ->
                     JsMap.get c (conns d') = JsMap.get c (conns d))
       /\ (forall id v,
             JsMap.get id (states (awareness d')) = Some v ->
             JsMap.get id (states (awareness d)) = Some v)
       /\ (forall c ids,
             JsMap.get c (conns d) = Some ids -> JsMap.get c (conns d') = None ->
             (c = conn \/ aliveb (network w) c = false)
             /\ c ∈ closeCalls (network w')
             /\ forall id, id ∈ ids -> JsMap.get id (states (awareness d')) = None)
       /\ (forall id v,
             JsMap.get id (states (awareness d)) = Some v ->
             JsMap.get id (states (awareness d')) = None ->
             exists c ids, JsMap.get c (conns d) = Some ids /\ id ∈ ids
                           /\ JsMap.get c (conns d') = None)
       /\ ((exists ids id, JsMap.get conn (conns d) = Some ids /\ id ∈ ids
                           /\ is_Some (JsMap.get id (states (awareness d)))) ->
           forall c, aliveb (network w) c = false -> JsMap.get c (conns d') = None))
    w w'
  /\ exists called sent,
       closeCalls (network w') = called ++ closeCalls (network w)
       /\ conn ∈ called
       /\ (forall c, c ∈ called -> c = conn \/ aliveb (network w) c = false)
       /\ wire (network w') = sent ++ wire (network w)
       /\ Forall (fun e => isRemovalNotice (fun c => c <> conn) (mkRelay d (network w)) e.2
                           \/ exists m, f = send conn m /\ e = (conn, m)) sent.
Proof.
  intros Hget Hf w'. unfold w', inRoom. rewrite Hget.
  set (r := mkRelay d (network w)).
  set (P := fun e : Conn * bytes =>
              isRemovalNotice (fun c => c <> conn) r e.2
              \/ exists m, f = send conn m /\ e = (conn, m)).
  assert (Closes (fun c' => c' <> conn) P r (f r)
          /\ JsMap.get conn (conns (doc (f r))) = None
          /\ (forall ids id,
                JsMap.get conn (conns (doc r)) = Some ids -> id ∈ ids ->
                JsMap.get id (states (awareness (doc (f r)))) = None)
          /\ (exists k, closeCalls (net (f r)) = k ++ closeCalls (net r) /\ conn ∈ k)
          /\ (forall ids id c,
                JsMap.get conn (conns (doc r)) = Some ids -> id ∈ ids ->
                is_Some (JsMap.get id (states (awareness (doc r)))) ->
                aliveb (net r) c = false -> JsMap.get c (conns (doc (f r))) = None))
    as (Hc & Hgone & Hids & Hown & Hprune).
  { destruct Hf as [->|(Hdead & m & ->)].
    - destruct (closeConn_spec conn r) as (_ & ? & ?).
      split; [|split; [done|split; [done|split;
        [destruct (closeConn_calls conn r) as (k & ->); exists (conn :: k); split;
         [done|by left]|]]]].
      + apply (closes_weaken _ (fun e => isRemovalNotice (fun c => c <> conn) r e.2));
          [by left|apply closes_closeConn].
      + intros ids id c. apply closeConn_prunes.
    - destruct (send_dead_spec conn m r Hdead) as (_ & ? & ?).
      split; [|split; [done|split; [done|split; [by apply send_dead_calls|]]]].
      + apply (closes_send_from _ _ r); [by left| |apply pruned_refl].
        right. by exists m.
      + intros ids id c Hg Hin Hsome Hd.
        assert (forall r1, Pruned (fun _ => True) (fun _ => True) (closeConn conn r) r1 ->
                           JsMap.get c (conns (doc r1)) = None) as Hlater.
        { intros r1 H1. apply (pruned_absent _ _ _ _ _ H1).
          by apply (closeConn_prunes conn r ids id). }
        unfold send, send_with. cbv zeta. unfold aliveb in Hdead.
        destruct (negb (readyState (sockets (net r) conn) =? wsReadyStateConnecting)
                  && negb (readyState (sockets (net r) conn) =? wsReadyStateOpen)) eqn:Hrs;
          cbv beta iota.
        * destruct (sendThrows (sockets (net (closeConn conn r)) conn)); apply Hlater.
          -- apply pruned_closeConn; [done|]. left.
             apply (pruned_dead _ _ _ _ (proj1 (closeConn_spec conn r))).
             unfold aliveb. apply andb_true_iff in Hrs as [E0 E1].
             apply negb_true_iff in E0, E1. by rewrite E0, E1.
          -- by apply pruned_conn_send.
        * assert (sendThrows (sockets (net r) conn) = true) as ->.
          { destruct (readyState _ =? wsReadyStateConnecting),
              (readyState _ =? wsReadyStateOpen), (sendThrows _); done. }
          apply Hlater, pruned_refl. }
  destruct Hc as [Hp (called & Ecalls & Dcalls & Rcalls) Hrev Hpres].
  split.
  - apply onlyRoom_leave. destruct Hp.
    split; [done|]. split; [done|]. split; [done|]. split; [done|]. split; [done|].
    split; [done|]. split; [done|]. split; [by intros c Hne Ha; apply pruned_alive0|].
    split; [done|]. split; [|split; [done|]].
    + intros c ids H1 H2. split; [|split].
      * destruct (decide (c = conn)) as [->|Hne]; [by left|right].
        apply Dcalls; [|done]. by apply (Rcalls c ids).
      * change (network (leave room (f r) w)) with (net (f r)). rewrite Ecalls.
        apply elem_of_app. left. by apply (Rcalls c ids).
      * intros id Hin. by apply (Hrev c ids).
    + intros (ids & id & H1 & H2 & H3) c Hd. by apply (Hprune ids id c).
  - destruct (pruned_wire _ _ _ _ Hp) as (sent & Hw & Hall).
    exists called, sent. split; [done|]. split.
    { destruct Hown as (k & Ek & Hin_k).
      rewrite Ecalls in Ek. apply app_inv_tail in Ek. by rewrite Ek. }
    split; [|split; [done|done]].
    intros c Hc. destruct (decide (c = conn)) as [->|Hne]; [by left|right]. by apply Dcalls.
Qed.

End Facts.
End RelayingFacts.

(** ** The mode flag is never read on the legacy path *)

Module ModeFacts.
Import Persistence Utils Server JsMapFacts UtilsFacts ClosingFacts ServerFacts.

Section Facts.
Context {Y : YLib}.
Variable env : Env.
Implicit Types (w : World) (r : Relay) (d : WSSharedDoc) (room : string).
Implicit Types (conn c : Conn) (m message : bytes) (b : bool).

Lemma set_set_eq {K V : Type} `{EqDecision K} (k : K) (v v' : V) (l : list (K * V)) :
  JsMap.set k v (JsMap.set k v' l) = JsMap.set k v l.
Proof.
  induction l as [|[k0 v0] l IH]; simpl.
  - by rewrite decide_True.
  - destruct (decide (k = k0)) as [->|Hne]; simpl.
    + by rewrite decide_True.
    + rewrite decide_False by done. by rewrite IH.
Qed.

Lemma set_same {K V : Type} `{EqDecision K} (k : K) (v : V) (l : list (K * V)) :
  JsMap.get k l = Some v -> JsMap.set k v l = l.
Proof.
  induction l as [|[k0 v0] l IH]; simpl; [done|].
  destruct (decide (k = k0)) as [->|Hne].
  - by intros [= ->].
  - intros H. by rewrite IH.
Qed.

(** *** Every relay function commutes with setting the flag *)

Lemma mode_send_with (cc : Conn -> Relay -> Relay) b c m r :
  (forall c r, cc c (set_isEncrypted b r) = set_isEncrypted b (cc c r)) ->
  send_with cc c m (set_isEncrypted b r) = set_isEncrypted b (send_with cc c m r).
Proof.
  intros Hcc. unfold send_with. cbv zeta.
  change (net (set_isEncrypted b r)) with (net r).
  destruct (negb (readyState (sockets (net r) c) =? wsReadyStateConnecting)
            && negb (readyState (sockets (net r) c) =? wsReadyStateOpen)).
  - rewrite Hcc. change (net (set_isEncrypted b (cc c r))) with (net (cc c r)).
    destruct (sendThrows (sockets (net (cc c r)) c)); [|done].
    by rewrite Hcc.
  - change (net (set_isEncrypted b r)) with (net r).
    destruct (sendThrows (sockets (net r) c)); [by rewrite Hcc|done].
Qed.

Lemma mode_fold (step : Relay -> Conn -> Relay) b (l : list Conn) r :
  (forall r c, step (set_isEncrypted b r) c = set_isEncrypted b (step r c)) ->
  fold_left step l (set_isEncrypted b r) = set_isEncrypted b (fold_left step l r).
Proof.
  intros Hstep. revert r. induction l as [|c l IH]; intros r; [done|].
  simpl. by rewrite Hstep, IH.
Qed.

Lemma mode_forEach (f : Conn -> Relay -> Relay) b r :
  (forall c r, f c (set_isEncrypted b r) = set_isEncrypted b (f c r)) ->
  conns_forEach f (set_isEncrypted b r) = set_isEncrypted b (conns_forEach f r).
Proof.
  intros Hf. unfold conns_forEach.
  change (conns (doc (set_isEncrypted b r))) with (conns (doc r)).
  apply mode_fold. intros r' c.
  change (conns (doc (set_isEncrypted b r'))) with (conns (doc r')).
  destruct (JsMap.has c (conns (doc r'))); [apply Hf|done].
Qed.

Lemma mode_handler_with (cc : Conn -> Relay -> Relay) change origin b r :
  (forall c r, cc c (set_isEncrypted b r) = set_isEncrypted b (cc c r)) ->
  awarenessChangeHandler_with cc change origin (set_isEncrypted b r)
  = set_isEncrypted b (awarenessChangeHandler_with cc change origin r).
Proof.
  intros Hcc. unfold awarenessChangeHandler_with.
  set (r1 := match origin with
             | Some conn =>
                 match JsMap.get conn (conns (doc r)) with
                 | Some ids => _
                 | None => r
                 end
             | None => r
             end).
  assert (match origin with
          | Some conn =>
              match JsMap.get conn (conns (doc (set_isEncrypted b r))) with
              | Some connControlledIDs =>
                  set_conns
                    (JsMap.set conn
                       (fold_left (fun s x => set_delete x s) (removed change)
                          (fold_left (fun s x => set_add x s) (added change)
                             connControlledIDs))
                       (conns (doc (set_isEncrypted b r)))) (set_isEncrypted b r)
              | None => set_isEncrypted b r
              end
          | None => set_isEncrypted b r
          end = set_isEncrypted b r1) as ->.
  { unfold r1. destruct origin as [conn|]; [|done].
    change (conns (doc (set_isEncrypted b r))) with (conns (doc r)).
    by destruct (JsMap.get conn (conns (doc r))). }
  change (awarenessFrame (set_isEncrypted b r1)) with (awarenessFrame r1).
  apply mode_forEach. intros c r'. by apply mode_send_with.
Qed.

Lemma mode_closeConn_fuel n b c r :
  closeConn_fuel n c (set_isEncrypted b r) = set_isEncrypted b (closeConn_fuel n c r).
Proof.
  revert c r. induction n as [|n IH]; intros c r; simpl.
  - by destruct (JsMap.get c (conns (doc r))).
  - destruct (JsMap.get c (conns (doc r))) as [ids|]; [|done].
    destruct (removeAwarenessStates (awareness (doc r)) ids) as [aw gone].
    destruct gone as [|g gone]; [done|].
    change (set_awareness aw
              (set_conns (JsMap.remove c (conns (doc r))) (set_isEncrypted b r)))
      with (set_isEncrypted b (set_awareness aw (set_conns (JsMap.remove c (conns (doc r))) r))).
    by rewrite (mode_handler_with (closeConn_fuel n)).
Qed.

Lemma mode_closeConn b c r :
  closeConn c (set_isEncrypted b r) = set_isEncrypted b (closeConn c r).
Proof. apply mode_closeConn_fuel. Qed.

Lemma mode_send b c m r : send c m (set_isEncrypted b r) = set_isEncrypted b (send c m r).
Proof. apply mode_send_with. intros. apply mode_closeConn. Qed.

Lemma mode_handler change origin b r :
  awarenessChangeHandler change origin (set_isEncrypted b r)
  = set_isEncrypted b (awarenessChangeHandler change origin r).
Proof. apply mode_handler_with. intros. apply mode_closeConn. Qed.

Lemma mode_updateHandler update b r :
  updateHandler update (set_isEncrypted b r) = set_isEncrypted b (updateHandler update r).
Proof. apply mode_forEach. intros. apply mode_send. Qed.

(** *** Back to the latched room *)

Lemma relatch room w d r' :
  JsMap.get room (docs w) = Some d ->
  isEncrypted (doc r') = true ->
  setMode room true (leave room (set_isEncrypted false r') (setMode room false w))
  = leave room r' w.
Proof.
  intros Hd Hm. unfold setMode, inRoom. rewrite Hd.
  rewrite get_leave. unfold leave. simpl. rewrite !set_set_eq.
  destruct r' as [[n cs aw e i y] nt]. simpl in *. by rewrite Hm.
Qed.

Lemma relatch_same room w d :
  JsMap.get room (docs w) = Some d ->
  isEncrypted d = true ->
  setMode room true (setMode room false w) = w.
Proof.
  intros Hd Hm. unfold setMode, inRoom. rewrite Hd.
  rewrite get_leave. unfold leave. simpl. rewrite set_set_eq.
  destruct d as [n cs aw e i y]. simpl in *. subst i.
  rewrite set_same by done. by destruct w.
Qed.

(** C3, as the code has it.  In a room that has latched to encrypted mode,
    a frame whose first byte is not 1, 2 or 3 is handled exactly as in a
    legacy room: what the handler makes of the world is what it makes of
    the same world with the room's flag cleared, with the flag set again
    afterwards.  So the frames sent, the sockets closed, the replies, the
    room's connections, presence and document come out the same as in the
    legacy room, and the flag itself is not touched either way.  The mode
    stays encrypted, the blob is untouched and nothing is scheduled, and a
    legacy sync frame that decodes is applied to the room's document.
    ([messageListener] itself always returns: whatever its body throws is
    caught.) *)
Theorem C3_legacy_frame_in_encrypted_room
    (conn : Conn) (room : string) (message : bytes) (w : World) (d : WSSharedDoc) :
  JsMap.get room (docs w) = Some d ->
  isEncrypted d = true ->
  isEncryptedMessage message = false ->
  let w' := messageListener conn room message w in
  let legacy := messageListener conn room message (setMode room false w) in
  persist w' = persist w
  /\ w' = setMode room true legacy
  /\ network w' = network legacy
  /\ persist legacy = persist w
  /\ exists d' dl,
       JsMap.get room (docs w') = Some d'
       /\ JsMap.get room (docs legacy) = Some dl
       /\ isEncrypted dl = false
       /\ conns d' = conns dl
       /\ awareness d' = awareness dl
       /\ ydoc d' = ydoc dl
       /\ encryptedState d' = encryptedState dl
       /\ isEncrypted d' = true
       /\ encryptedState d' = encryptedState d
       /\ forall t rest x,
            Lib0.readVarUint message = Some (t, rest) ->
            Lib0.js_is t messageSync = true ->
            Lib0.peekVarUint rest = Some x ->
            ydoc d' = sync_doc (readSyncMessage rest (ydoc d)).
Proof.
  intros Hget Hmode Hleg w' legacy.
  destruct (messageListener_legacy conn room message w d Hget Hleg)
    as (Hp & _ & _ & d' & Hd' & Hm & Hb & _ & Hy).
  split; [done|].
  assert (w' = setMode room true legacy
          /\ network w' = network legacy /\ persist legacy = persist w
          /\ exists dl, JsMap.get room (docs legacy) = Some dl /\ isEncrypted dl = false)
    as (H1 & H2 & H3 & dl & Hdl & Hml).
  2: { split; [done|]. split; [done|]. split; [done|].
       exists d', dl. split; [done|]. split; [done|]. split; [done|].
       assert (d' = doc (set_isEncrypted true (mkRelay dl (network legacy)))) as ->.
       { change (JsMap.get room (docs w') = Some d') in Hd'.
         rewrite H1 in Hd'. unfold setMode, inRoom in Hd'. rewrite Hdl in Hd'.
         rewrite get_leave in Hd'. congruence. }
       simpl in Hb, Hy |- *. split; [done|]. split; [done|]. split; [done|].
       split; [done|]. split; [done|]. split; [done|]. exact Hy. }
  clear Hp d' Hd' Hm Hb Hy.
  set (r := mkRelay d (network w)).
  set (w0 := setMode room false w).
  assert (w0 = leave room (set_isEncrypted false r) w) as Hw0
    by (unfold w0, setMode, inRoom; by rewrite Hget).
  assert (JsMap.get room (docs w0) = Some (doc (set_isEncrypted false r))) as Hget0
    by (rewrite Hw0; apply get_leave).
  (* The two ways in which the handler ends. *)
  assert (forall r', isEncrypted (doc r') = true ->
            leave room r' w = setMode room true (leave room (set_isEncrypted false r') w0)
            /\ network (leave room r' w) = network (leave room (set_isEncrypted false r') w0)
            /\ persist (leave room (set_isEncrypted false r') w0) = persist w
            /\ exists dl, JsMap.get room (docs (leave room (set_isEncrypted false r') w0))
                          = Some dl /\ isEncrypted dl = false) as Hchanged.
  { intros r' Hm'. split; [|split; [done|split; [by rewrite Hw0|]]].
    - symmetry. by apply (relatch room w d).
    - eexists. split; [apply get_leave|done]. }
  assert (w = setMode room true w0
          /\ network w = network w0 /\ persist w0 = persist w
          /\ exists dl, JsMap.get room (docs w0) = Some dl /\ isEncrypted dl = false)
    as Hsame.
  { split; [symmetry; by apply (relatch_same room w d)|].
    split; [by rewrite Hw0|]. split; [by rewrite Hw0|]. by eexists. }
  unfold w', legacy, messageListener, messageListener_try. fold w0.
  rewrite Hget, Hget0, Hleg.
  replace (network w0) with (network w) by (by rewrite Hw0).
  change (mkRelay (doc (set_isEncrypted false r)) (network w)) with (set_isEncrypted false r).
  change (ydoc (doc (set_isEncrypted false r))) with (ydoc d).
  change (awareness (doc (set_isEncrypted false r))) with (awareness d).
  fold r.
  destruct (Lib0.readVarUint message) as [[t rest]|]; [|done].
  destruct (Lib0.js_is t messageSync).
  - destruct (Lib0.peekVarUint rest); [|done].
    set (res := readSyncMessage rest (ydoc d)).
    change (set_ydoc (sync_doc res) (set_isEncrypted false r))
      with (set_isEncrypted false (set_ydoc (sync_doc res) r)).
    set (r1 := set_ydoc (sync_doc res) r).
    assert (exists r2, isEncrypted (doc r2) = true
              /\ match sync_update res with
                 | Some update => updateHandler update r1
                 | None => r1
                 end = r2
              /\ match sync_update res with
                 | Some update => updateHandler update (set_isEncrypted false r1)
                 | None => set_isEncrypted false r1
                 end = set_isEncrypted false r2) as (r2 & Hm2 & -> & ->).
    { destruct (sync_update res) as [update|].
      - eexists. split; [|split; [done|apply mode_updateHandler]].
        destruct (updateHandler_static update r1) as (_ & _ & -> & _). done.
      - by exists r1. }
    destruct (sync_reply res) as [written|].
    + destruct (1 <? length _)%nat.
      * rewrite mode_send. apply Hchanged.
        destruct (send_static conn (Lib0.writeVarUint (Z.to_N messageSync) ++ written) r2)
          as (_ & _ & -> & _). done.
      * by apply Hchanged.
    + by apply Hchanged.
  - destruct (Lib0.js_is t messageAwareness); [|done].
    destruct (Lib0.readVarUint8Array rest) as [[update rest']|]; [|done].
    destruct (applyAwarenessUpdate (awareness d) update) as [aw outcome].
    change (set_awareness aw (set_isEncrypted false r))
      with (set_isEncrypted false (set_awareness aw r)).
    destruct outcome as [|[change|]].
    + by apply Hchanged.
    + rewrite mode_handler. apply Hchanged.
      destruct (handler_static change (Some conn) (set_awareness aw r)) as (_ & _ & -> & _).
      done.
    + by apply Hchanged.
Qed.

End Facts.
End ModeFacts.

(** ** Room keys *)

Module KeyFacts.
Import Persistence.
Local Open Scope string_scope.

Implicit Types (s a b c : string) (sep : ascii).

Lemma split_no_sep sep s : ~ In sep (list_ascii_of_string s) -> split sep s = [s].
Proof.
  induction s as [|x s IH]; simpl; [done|]. intros Hn.
  destruct (Ascii.eqb_spec x sep) as [->|Hne]; [exfalso; apply Hn; by left|].
  rewrite IH; [done|]. intros Hin. apply Hn. by right.
Qed.

Lemma split_app sep a b :
  ~ In sep (list_ascii_of_string a) -> split sep (a +:+ String sep b) = a :: split sep b.
Proof.
  induction a as [|x a IH]; simpl.
  - intros _. by rewrite Ascii.eqb_refl.
  - intros Hn. destruct (Ascii.eqb_spec x sep) as [->|Hne]; [exfalso; apply Hn; by left|].
    rewrite IH; [done|]. intros Hin. apply Hn. by right.
Qed.

Lemma app_cancel_l a b c : a +:+ b = a +:+ c -> b = c.
Proof. induction a as [|x a IH]; simpl; [done|]. intros [= H]. by apply IH. Qed.

Lemma app_sep_unique sep a a' b b' :
  ~ In sep (list_ascii_of_string a) -> ~ In sep (list_ascii_of_string a') ->
  a +:+ String sep b = a' +:+ String sep b' -> a = a' /\ b = b'.
Proof.
  revert a'. induction a as [|x a IH]; intros [|x' a']; simpl; intros Ha Ha'.
  - by intros [= ->].
  - intros [= <- _]. exfalso. apply Ha'. by left.
  - intros [= -> _]. exfalso. apply Ha. by left.
  - intros [= -> H]. destruct (IH a') as [-> ->]; [tauto|tauto|done|done].
Qed.

Lemma list_ascii_app a b :
  list_ascii_of_string (a +:+ b) = (list_ascii_of_string a ++ list_ascii_of_string b)%list.
Proof. induction a as [|x a IH]; simpl; [done|]. by rewrite IH. Qed.

Lemma app_cancel_r a a' b : a +:+ b = a' +:+ b -> a = a'.
Proof.
  intros H. apply (f_equal list_ascii_of_string) in H. rewrite !list_ascii_app in H.
  apply app_inv_tail in H. apply (f_equal string_of_list_ascii) in H.
  by rewrite !string_of_list_ascii_of_string in H.
Qed.

Lemma getStateKey_of_pair b c :
  ~ In ":"%char (list_ascii_of_string b) -> ~ In ":"%char (list_ascii_of_string c) ->
  getStateKey (b +:+ ":" +:+ c) = "collab/" +:+ b +:+ "/" +:+ c +:+ "/state.yjs".
Proof.
  intros Hb Hc. unfold getStateKey. change (":" +:+ c) with (String ":" c).
  rewrite split_app, split_no_sep by done. reflexivity.
Qed.

(** The state of room [bookId:chapterId] is stored under
    [collab/bookId/chapterId/state.yjs], and two such rooms never share a
    key, as long as the ids contain no colon and the book ids no slash. *)
Theorem room_keys_are_distinct b c b' c' :
  ~ In ":"%char (list_ascii_of_string b) -> ~ In ":"%char (list_ascii_of_string c) ->
  ~ In ":"%char (list_ascii_of_string b') -> ~ In ":"%char (list_ascii_of_string c') ->
  ~ In "/"%char (list_ascii_of_string b) -> ~ In "/"%char (list_ascii_of_string b') ->
  getStateKey (b +:+ ":" +:+ c) = "collab/" +:+ b +:+ "/" +:+ c +:+ "/state.yjs"
  /\ (getStateKey (b +:+ ":" +:+ c) = getStateKey (b' +:+ ":" +:+ c') ->
      b = b' /\ c = c').
Proof.
  intros Hb Hc Hb' Hc' Sb Sb'. split; [by apply getStateKey_of_pair|].
  rewrite !getStateKey_of_pair by done.
  intros H. apply app_cancel_l in H.
  change ("/" +:+ ?x) with (String "/" x) in H.
  apply app_sep_unique in H as [-> H]; [|done|done]. split; [done|].
  by apply app_cancel_r in H.
Qed.

(** Room ids of another shape: without a colon the chapter part of the key
    is the text [undefined], and whatever follows a second colon is
    ignored, so that rooms [b:c] and [b:c:rest] share one stored object. *)
Theorem getStateKey_edge_cases :
  (forall s, ~ In ":"%char (list_ascii_of_string s) ->
             getStateKey s = "collab/" +:+ s +:+ "/undefined/state.yjs")
  /\ (forall b c rest,
        ~ In ":"%char (list_ascii_of_string b) -> ~ In ":"%char (list_ascii_of_string c) ->
        getStateKey (b +:+ ":" +:+ c +:+ ":" +:+ rest) = getStateKey (b +:+ ":" +:+ c)).
Proof.
  split.
  - intros s Hs. unfold getStateKey. rewrite split_no_sep by done. reflexivity.
  - intros b c rest Hb Hc. rewrite (getStateKey_of_pair b c) by done. unfold getStateKey.
    change (":" +:+ c +:+ ":" +:+ rest) with (String ":" (c +:+ String ":" rest)).
    rewrite !split_app by done. reflexivity.
Qed.

End KeyFacts.

(** ** The store and the scheduler, further *)

Module StoreFacts.
Import Persistence PersistenceFacts.

Section Facts.
Variable env : Env.
Context {Heap : Type}.
Implicit Types (p : Persist Heap) (h : Heap) (room : string) (t : Timer Heap) (s : S3).

Lemma available_client :
  isPersistenceAvailable env = true -> exists c, getS3Client env = Some c.
Proof. unfold isPersistenceAvailable. destruct (getS3Client env); [by eexists|done]. Qed.

Lemma persistState_sent room state s :
  isPersistenceAvailable env = true ->
  persistState env room state s
  = (Resolved tt,
     (s3_send room (PutObjectCommand (BUCKET_NAME env) (getStateKey room) state) s).2).
Proof.
  intros [c Hc]%available_client. unfold persistState. rewrite Hc.
  by destruct (s3_send _ _ _) as [[] ?].
Qed.

(** What has been saved for a room is what the next load of that room, or
    of any room with the same key, returns. *)
Theorem persist_then_load room room' state s :
  isPersistenceAvailable env = true ->
  getStateKey room' = getStateKey room ->
  fault s (length (requests s))
        (PutObjectCommand (BUCKET_NAME env) (getStateKey room) state) = None ->
  fault s (S (length (requests s)))
        (GetObjectCommand (BUCKET_NAME env) (getStateKey room)) = None ->
  (loadState env room' (persistState env room state s).2).1 = Resolved (Some state).
Proof.
  intros Hav Hkey Hput Hget. rewrite persistState_sent by done.
  destruct (available_client Hav) as [c Hc].
  unfold loadState. rewrite Hc, Hkey. unfold s3_send at 2. rewrite Hput. simpl.
  unfold s3_send. simpl. rewrite Hget, lookup_insert_eq. done.
Qed.

Lemma loadState_effect room s :
  objects (loadState env room s).2 = objects s
  /\ (requests (loadState env room s).2 = requests s
      \/ requests (loadState env room s).2
         = (room, GetObjectCommand (BUCKET_NAME env) (getStateKey room)) :: requests s).
Proof.
  unfold loadState. destruct (getS3Client env) as [c|]; [|by split; [|left]].
  unfold s3_send. destruct (fault s _ _) as [e|]; simpl; [by split; [|right]|].
  destruct (objects s !! _); simpl; by split; [|right].
Qed.


Lemma deleteState_sent room s :
  isPersistenceAvailable env = true ->
  deleteState env room s
  = (Resolved tt,
     (s3_send room (DeleteObjectCommand (BUCKET_NAME env) (getStateKey room)) s).2).
Proof.
  intros [c Hc]%available_client. unfold deleteState. rewrite Hc.
  by destruct (s3_send _ _ _) as [[] ?].
Qed.

(** After [deleteState] has gone through, the room has no stored state:
    the next load resolves to null, whatever was stored before. *)
Theorem delete_then_load room s :
  isPersistenceAvailable env = true ->
  fault s (length (requests s))
        (DeleteObjectCommand (BUCKET_NAME env) (getStateKey room)) = None ->
  objects (deleteState env room s).2 !! (BUCKET_NAME env, getStateKey room) = None
  /\ (loadState env room (deleteState env room s).2).1 = Resolved None.
Proof.
  intros Hav Hdel. rewrite deleteState_sent by done.
  destruct (available_client Hav) as [c Hc].
  unfold loadState. rewrite Hc. unfold s3_send at 1 3. rewrite Hdel. simpl.
  rewrite lookup_delete_eq. split; [done|].
  unfold s3_send. simpl.
  destruct (fault s (S _) _); simpl; [done|]. by rewrite lookup_delete_eq.
Qed.

Lemma fire_store p t h :
  TimersInv p -> t ∈ timeouts p -> deadline t <= now p ->
  store (fire env (timer_id t) h p)
  = if (0 <? length (timer_getState t h))%nat
    then (persistState env (timer_room t) (timer_getState t h) (store p)).2
    else store p.
Proof.
  intros Hinv Hin Hdue. unfold fire.
  rewrite (find_by_id (timeouts p) t) by (done || apply Hinv).
  destruct (Z.leb_spec (deadline t) (now p)); [|lia].
  unfold timerCallback. simpl. by destruct (0 <? _)%nat.
Qed.

(** A debounced save that fails is not retried: when the store answers the
    write with an error, the timer is gone all the same, nothing is
    scheduled in its place and the stored object stays as it was. *)
Theorem failed_save_is_not_retried p room t h e :
  TimersInv p ->
  pendingFor room p = [t] ->
  deadline t <= now p ->
  timer_getState t h <> [] ->
  isPersistenceAvailable env = true ->
  fault (store p) (length (requests (store p)))
        (PutObjectCommand (BUCKET_NAME env) (getStateKey room) (timer_getState t h)) = Some e ->
  let p' := fire env (timer_id t) h p in
  pendingFor room p' = []
  /\ saveTimers p' !! room = None
  /\ objects (store p') = objects (store p)
  /\ requests (store p')
     = (room, PutObjectCommand (BUCKET_NAME env) (getStateKey room) (timer_getState t h))
       :: requests (store p)
  /\ forall dt h', pendingFor room (runDue env h' (advance dt p')) = [].
Proof.
  intros Hinv Hpend Hdue Hne Hav Hfault p'.
  destruct (pending_singleton _ _ _ Hpend) as [Hin Hroom].
  destruct (fire_due env p t h Hinv Hin Hdue) as (s' & Hfire & _).
  assert (TimersInv p') as Hinv' by (by apply inv_fire).
  assert (pendingFor room p' = []) as Hnil.
  { unfold p'. rewrite Hfire, Hroom. apply pending_forget_eq. }
  assert (store p' = (persistState env room (timer_getState t h) (store p)).2) as Hst.
  { unfold p'. rewrite fire_store by done. rewrite Hroom.
    destruct (timer_getState t h); [done|]. done. }
  split; [done|]. split.
  { unfold p'. rewrite Hfire, Hroom. apply forget_lookup. }
  rewrite Hst, persistState_sent by done. unfold s3_send. rewrite Hfault. simpl.
  repeat split; try done.
  intros dt h'. apply runDue_absent; [by apply inv_advance|done].
Qed.

(** [cancelPendingSave] drops the room's timer without saving: the store
    is not touched and, however much time passes, nothing is written for
    the room until a save is scheduled again; the timers of the other rooms
    are not affected. *)
Theorem cancelled_save_never_runs (s : S3) (ops : list (Heap * Op Heap)) room :
  let p := run env ops (initial s) in
  let p' := cancelPendingSave room p in
  store p' = store p
  /\ saveTimers p' !! room = None
  /\ pendingFor room p' = []
  /\ (forall room', room' <> room -> pendingFor room' p' = pendingFor room' p)
  /\ (forall dt h, writesFor room (store (runDue env h (advance dt p')))
                   = writesFor room (store p))
  /\ cancelPendingSave room p' = p'.
Proof.
  intros p p'.
  assert (TimersInv p) as Hinv by apply inv_run, inv_initial.
  assert (p' = forget room p) as Hp' by (by apply cancel_is_forget).
  assert (TimersInv p') as Hinv' by (by apply inv_cancel).
  assert (pendingFor room p' = []) as Hnil by (rewrite Hp'; apply pending_forget_eq).
  assert (saveTimers p' !! room = None) as Hnone by (rewrite Hp'; apply forget_lookup).
  split; [by rewrite Hp'|]. split; [done|]. split; [done|]. split.
  { intros room' Hne. rewrite Hp'. by apply pending_forget_ne. }
  split.
  { intros dt h.
    destruct (runDue_absent env h (advance dt p') room) as [_ ->];
      [by apply inv_advance|done|]. by rewrite Hp'. }
  unfold cancelPendingSave at 1. by rewrite Hnone.
Qed.

(** Rooms are debounced independently: scheduling, cancelling or forcing a
    save for one room leaves the pending timer of every other room as it
    is, and that timer still writes its room's state when it is due. *)
Theorem rooms_are_debounced_independently p room room' t g h dt :
  TimersInv p ->
  room' <> room ->
  pendingFor room' p = [t] ->
  deadline t <= now p + dt ->
  pendingFor room' (scheduleSave room g p) = [t]
  /\ pendingFor room' (cancelPendingSave room p) = [t]
  /\ pendingFor room' (forceSave env room g h p).2 = [t]
  /\ writesFor room' (store (runDue env h (advance dt (scheduleSave room g p))))
     = flushed env (timer_getState t h) ++ writesFor room' (store p).
Proof.
  intros Hinv Hne Hpend Hdue.
  assert (pendingFor room' (scheduleSave room g p) = [t]) as H1.
  { rewrite schedule_is_arm by done.
    rewrite pending_arm_ne, pending_forget_ne by done. done. }
  assert (pendingFor room' (cancelPendingSave room p) = [t]) as H2.
  { rewrite cancel_is_forget by done. by rewrite pending_forget_ne. }
  split; [done|]. split; [done|]. split.
  { unfold forceSave. destruct (0 <? _)%nat; [|done].
    destruct (persistState _ _ _ _) as [res s']. done. }
  destruct (runDue_due env h (advance dt (scheduleSave room g p)) room' t) as [_ ->].
  - apply inv_advance. by apply inv_schedule.
  - done.
  - change (deadline t <= now (scheduleSave room g p) + Z.max 0 dt).
    destruct (schedule_effect p room g Hinv) as (_ & -> & _). lia.
  - f_equal. change (store (advance dt (scheduleSave room g p)))
      with (store (scheduleSave room g p)).
    by destruct (schedule_effect p room g Hinv) as (_ & _ & ->).
Qed.

End Facts.
End StoreFacts.

(** ** Invariants of the server and the way to the store *)

Module ReachFacts.
Import Persistence Utils Server Reach JsMapFacts UtilsFacts ServerFacts PersistenceFacts.

Section Facts.
Context {Y : YLib}.
Variable env : Env.
Implicit Types (w : World) (r : Relay) (d : WSSharedDoc) (room : string).
Implicit Types (conn c : Conn) (m message : bytes).

Lemma keys_set_absent {K V : Type} `{EqDecision K} (k : K) (v : V) (l : list (K * V)) :
  JsMap.get k l = None -> JsMap.keys (JsMap.set k v l) = JsMap.keys l ++ [k].
Proof.
  induction l as [|[k' v'] l IH]; simpl; [done|].
  destruct (decide (k = k')); [done|]. intros H. unfold JsMap.keys in *.
  rewrite !fmap_cons. simpl. by rewrite IH.
Qed.

Lemma nodup_keys_set {K V : Type} `{EqDecision K} (k : K) (v : V) (l : list (K * V)) :
  NoDup (JsMap.keys l) -> NoDup (JsMap.keys (JsMap.set k v l)).
Proof.
  intros Hnd. destruct (JsMap.get k l) as [v'|] eqn:E.
  - by rewrite (keys_set_same k v v').
  - rewrite keys_set_absent by done. apply NoDup_app. split; [done|]. split.
    + intros x Hx ->%list_elem_of_singleton.
      apply get_is_Some_keys in Hx. rewrite E in Hx. by destruct Hx.
    + apply NoDup_singleton.
Qed.

Lemma advances_refl d : Advances d d.
Proof. split; [done|]. by left. Qed.

Lemma advances_static r r' : Static r r' -> Advances (doc r) (doc r').
Proof. intros (Hn & Hb & Hm & _). split; [done|]. by left. Qed.

Lemma docsStep_docs w w' : docs w' = docs w -> DocsStep w w'.
Proof.
  intros H. unfold DocsStep. rewrite H. split; [|split; [|done]].
  - intros room d Hd. exists d. split; [done|apply advances_refl].
  - intros room d' Hd'. left. by rewrite Hd'.
Qed.

Lemma docsStep_set w w' room d d' :
  docs w' = JsMap.set room d' (docs w) ->
  JsMap.get room (docs w) = Some d -> Advances d d' -> DocsStep w w'.
Proof.
  intros H Hd Hadv. unfold DocsStep. rewrite H. split; [|split].
  - intros room0 d0 Hd0. destruct (decide (room = room0)) as [<-|Hne].
    + exists d'. rewrite get_set_eq. split; [done|]. congruence.
    + exists d0. rewrite get_set_ne by done. split; [done|apply advances_refl].
  - intros room0 d0. destruct (decide (room = room0)) as [<-|Hne].
    + intros _. left. by rewrite Hd.
    + rewrite get_set_ne by done. intros ->. by left.
  - apply nodup_keys_set.
Qed.

Lemma docsStep_new w w' room gc :
  docs w' = JsMap.set room (WSSharedDocImpl room gc) (docs w) ->
  JsMap.get room (docs w) = None -> DocsStep w w'.
Proof.
  intros H Hd. unfold DocsStep. rewrite H. split; [|split].
  - intros room0 d0 Hd0. exists d0. split; [|apply advances_refl].
    rewrite get_set_ne; [done|]. congruence.
  - intros room0 d0. destruct (decide (room = room0)) as [<-|Hne].
    + rewrite get_set_eq. intros [= <-]. right. by exists gc.
    + rewrite get_set_ne by done. intros ->. by left.
  - apply nodup_keys_set.
Qed.

Lemma docsStep_inRoom room (f : Relay -> Relay) w :
  (forall r, Static r (f r)) -> DocsStep w (inRoom room f w).
Proof.
  intros Hf. unfold inRoom. destruct (JsMap.get room (docs w)) as [d|] eqn:E.
  - eapply docsStep_set; [done|exact E|]. apply (advances_static (mkRelay d (network w))), Hf.
  - by apply docsStep_docs.
Qed.

Lemma messageListener_shape conn room message w :
  messageListener conn room message w = w
  \/ exists r p, messageListener conn room message w
                 = mkWorld (JsMap.set room (doc r) (docs w)) (net r) p (phase w).
Proof.
  unfold messageListener, messageListener_try, leave.
  destruct (JsMap.get room (docs w)) as [d|]; [|by left].
  destruct (isEncryptedMessage message).
  { destruct (isEncryptedSyncMessage message); right; by eexists _, _. }
  destruct (Lib0.readVarUint message) as [[t rest]|]; [|by left].
  destruct (Lib0.js_is t messageSync).
  { destruct (Lib0.peekVarUint rest); [|by left].
    destruct (sync_reply _); [|right; by eexists _, _].
    destruct (1 <? _)%nat; right; by eexists _, _. }
  destruct (Lib0.js_is t messageAwareness); [|by left].
  destruct (Lib0.readVarUint8Array rest) as [[update rest']|]; [|by left].
  destruct (applyAwarenessUpdate _ _) as [aw [|[change|]]]; right; by eexists _, _.
Qed.

Lemma docsStep_messageListener conn room message w :
  DocsStep w (messageListener conn room message w).
Proof.
  destruct (JsMap.get room (docs w)) as [d|] eqn:E.
  2: { rewrite messageListener_absent by done. by apply docsStep_docs. }
  destruct (messageListener_shape conn room message w) as [->|(r & p & Hshape)];
    [by apply docsStep_docs|].
  eapply docsStep_set; [by rewrite Hshape|exact E|].
  assert (JsMap.get room (docs (messageListener conn room message w)) = Some (doc r)) as Hr
    by (rewrite Hshape; apply get_set_eq).
  destruct (isEncryptedMessage message) eqn:Henc.
  - destruct (isEncryptedSyncMessage message) eqn:Hsync.
    + rewrite (messageListener_encrypted_sync conn room message w d) in Hr by done.
      cbv zeta in Hr. simpl in Hr. rewrite get_set_eq in Hr. injection Hr as <-.
      pose proof (broadcast_pruned conn message
                    (set_encryptedState (Some message)
                       (set_isEncrypted true (mkRelay d (network w))))) as Hp.
      split; [by rewrite (pruned_name _ _ _ _ Hp)|]. right.
      rewrite (pruned_mode _ _ _ _ Hp), (pruned_blob _ _ _ _ Hp). by split.
    + rewrite (messageListener_encrypted_presence conn room message w d) in Hr by done.
      rewrite get_leave in Hr. injection Hr as <-.
      pose proof (broadcast_pruned conn message
                    (set_isEncrypted true (mkRelay d (network w)))) as Hp.
      split; [by rewrite (pruned_name _ _ _ _ Hp)|]. right.
      rewrite (pruned_mode _ _ _ _ Hp), (pruned_blob _ _ _ _ Hp). by split.
  - destruct (messageListener_legacy conn room message w d E Henc)
      as (_ & _ & _ & d' & Hd' & Hm & Hb & Hn & _).
    assert (d' = doc r) as -> by congruence. split; [done|]. by left.
Qed.

Lemma docsStep_getYDoc room gc w : DocsStep w (getYDoc room gc w).
Proof.
  unfold getYDoc. destruct (JsMap.get room (docs w)) eqn:E; [by apply docsStep_docs|].
  by eapply docsStep_new.
Qed.

Lemma docsStep_start room gc w : DocsStep w (setupWSConnection_start env room gc w).1.
Proof.
  destruct (docsStep_getYDoc room gc w) as (A & B & C).
  unfold DocsStep. rewrite docs_start. done.
Qed.

Lemma docsStep_finish conn room st w : DocsStep w (setupWSConnection_finish conn room st w).
Proof.
  unfold setupWSConnection_finish, inRoom.
  destruct (JsMap.get room (docs w)) as [d|] eqn:E; [|by apply docsStep_docs].
  eapply docsStep_set; [done|exact E|].
  set (r := mkRelay d (network w)).
  set (r1 := match st with
             | Some s => set_isEncrypted true (set_encryptedState (Some s) r)
             | None => r
             end).
  set (r2 := set_conns (JsMap.set conn [] (conns (doc r1))) r1).
  assert (Advances d (doc r2)) as H2.
  { unfold r2, r1. destruct st; simpl.
    - split; [done|]. right. by split.
    - split; [done|]. by left. }
  assert (forall r', Static r2 r' -> Advances d (doc r')) as Hfin.
  { intros r' (Hn & Hb & Hm & _). destruct H2 as [H2n H2].
    split; [congruence|]. rewrite Hb, Hm. done. }
  change (Advances d
            (doc match isEncrypted (doc r2), encryptedState (doc r2) with
                 | true, Some s => send conn s r2
                 | _, _ =>
                     let r3 := send conn (Lib0.writeVarUint (Z.to_N messageSync)
                                          ++ writeSyncStep1 (ydoc (doc r2))) r2 in
                     if (0 <? length (states (awareness (doc r3))))%nat
                     then send conn (awarenessFrame r3 (JsMap.keys (states (awareness (doc r3))))) r3
                     else r3
                 end)).
  assert (forall m, Static r2 (send conn m r2)) as Hs by (intros; apply send_static).
  assert (Static r2
            (let r3 := send conn (Lib0.writeVarUint (Z.to_N messageSync)
                                  ++ writeSyncStep1 (ydoc (doc r2))) r2 in
             if (0 <? length (states (awareness (doc r3))))%nat
             then send conn (awarenessFrame r3 (JsMap.keys (states (awareness (doc r3))))) r3
             else r3)) as Hlegacy.
  { cbv zeta. destruct (0 <? _)%nat; [|apply Hs].
    eapply static_trans; [apply Hs|apply send_static]. }
  destruct (isEncrypted (doc r2)); [destruct (encryptedState (doc r2))|]; apply Hfin; auto.
Qed.

Lemma docsStep_handle e w : DocsStep w (handle env e w).
Proof.
  unfold handle. destruct (phase w) eqn:Hphase; [| |by apply docsStep_docs]; destruct e;
    try apply docsStep_start;
    try apply docsStep_finish;
    try apply docsStep_messageListener;
    try (apply docsStep_inRoom; intros r;
         first [apply closeConn_static|apply presenceTimeout_static]);
    try (by apply docsStep_docs);
    try (apply docsStep_docs; unfold onSIGTERM, processExit; by rewrite Hphase).
Qed.

Lemma ok_step w w' : DocsStep w w' -> WorldOk w -> WorldOk w'.
Proof.
  intros (A & B & C) [Hnd Hok]. split; [auto|].
  intros room d' Hd'. destruct (B room d' Hd') as [[d Hd]|[gc ->]].
  - destruct (A room d Hd) as (d'' & Hd'' & Hn & Hor).
    assert (d'' = d') as -> by congruence.
    destruct (Hok room d Hd) as [Hname Hblob]. split; [congruence|].
    destruct Hor as [[Hm Hb]|[Hm _]]; [|done]. rewrite Hm, Hb. done.
  - split; [done|]. simpl. by intros [? ?].
Qed.

Lemma ok_boot s : WorldOk (boot s).
Proof. split; [constructor|]. intros room d. done. Qed.

Lemma ok_runEvents es w : WorldOk w -> WorldOk (runEvents env es w).
Proof.
  revert w. induction es as [|e es IH]; intros w Hok; [done|].
  simpl. apply IH. eapply ok_step; [apply docsStep_handle|done].
Qed.

Lemma docsStep_runEvents es w room d :
  JsMap.get room (docs w) = Some d ->
  exists d', JsMap.get room (docs (runEvents env es w)) = Some d'
             /\ name d' = name d
             /\ (isEncrypted d = true -> isEncrypted d' = true)
             /\ (is_Some (encryptedState d) -> is_Some (encryptedState d')).
Proof.
  revert w d. induction es as [|e es IH]; intros w d Hd.
  - exists d. by repeat split.
  - destruct (docsStep_handle e w) as (A & _ & _).
    destruct (A room d Hd) as (d1 & Hd1 & Hn & Hor).
    destruct (IH _ d1 Hd1) as (d' & Hd' & Hn' & Hm' & Hb'). exists d'.
    split; [done|]. split; [congruence|].
    destruct Hor as [[Hm Hb]|[Hm Hb]].
    + rewrite <- Hm, <- Hb. done.
    + split; [auto|]. auto.
Qed.

(** *** Invariants of the running server *)

(** Whatever has happened since the server started, [docs] has one entry
    per room, every [doc] is stored under its own name, and a room that
    holds a blob is in encrypted mode. *)
Theorem server_state_is_well_formed (es : list Event) (s : S3) :
  let w := runEvents env es (boot s) in
  NoDup (JsMap.keys (docs w))
  /\ forall room d, JsMap.get room (docs w) = Some d ->
       name d = room /\ (is_Some (encryptedState d) -> isEncrypted d = true).
Proof. apply ok_runEvents, ok_boot. Qed.

(** A room is never removed from [docs], and a room that holds a blob
    always holds one afterwards (it can be replaced, never cleared),
    whatever events follow. *)
Theorem rooms_and_blobs_are_kept (es : list Event) (w : World) (room : string)
    (d : WSSharedDoc) :
  JsMap.get room (docs w) = Some d ->
  exists d', JsMap.get room (docs (runEvents env es w)) = Some d'
             /\ name d' = name d
             /\ (is_Some (encryptedState d) -> is_Some (encryptedState d')).
Proof.
  intros Hd. destruct (docsStep_runEvents es w room d Hd) as (d' & Hd' & Hn & _ & Hb).
  by exists d'.
Qed.

(** *** From an encrypted frame to the store *)

Lemma handle_running e w :
  phase w <> Exited ->
  handle env e w
  = match e with
    | EvSetupStart room gc => (setupWSConnection_start env room gc w).1
    | EvSetupFinish conn room st => setupWSConnection_finish conn room st w
    | EvMessage conn room m => messageListener conn room m w
    | EvClose conn room => inRoom room (closeConn conn) w
    | EvSendError conn room => inRoom room (closeConn conn) w
    | EvTransport conn s => transport conn s w
    | EvPresenceTimeout room clients => inRoom room (presenceTimeout clients) w
    | EvAdvance dt => set_persist (advance dt (persist w)) w
    | EvTimers => set_persist (runDue env (docs w) (persist w)) w
    | EvSIGTERM => onSIGTERM w
    | EvExit => processExit w
    end.
Proof. intros H. unfold handle. by destruct (phase w). Qed.

Lemma sync_nonempty m : isEncryptedSyncMessage m = true -> (0 <? length m)%nat = true.
Proof. by destruct m. Qed.

Lemma armed_message conn room m w d :
  phase w <> Exited -> WorldOk w -> TimersInv (persist w) ->
  JsMap.get room (docs w) = Some d ->
  isEncryptedSyncMessage m = true ->
  Armed room m (handle env (EvMessage conn room m) w)
  /\ store (persist (handle env (EvMessage conn room m) w)) = store (persist w).
Proof.
  intros Hph Hok Hinv Hd Hsync.
  assert (WorldOk (handle env (EvMessage conn room m) w)) as Hok'
    by (eapply ok_step; [apply docsStep_handle|done]).
  rewrite handle_running in * by done.
  rewrite (messageListener_encrypted_sync conn room m w d) in * by done.
  cbv zeta in *.
  destruct (proj2 Hok room d Hd) as [Hname _]. rewrite Hname.
  destruct (schedule_effect (persist w) room (encryptedStateGetter room) Hinv)
    as (Hpend & Hnow & Hstore).
  split; [|done].
  split; [done|]. split; [done|]. split; [by apply inv_schedule|]. split; [done|]. split.
  - eexists. split; [apply get_set_eq|].
    by rewrite (pruned_blob _ _ _ _ (broadcast_pruned _ _ _)).
  - eexists. split; [exact Hpend|]. split; [|done].
    transitivity (now (scheduleSave room (encryptedStateGetter room) (persist w))
                  + SAVE_DEBOUNCE_MS); [by rewrite Hnow|done].
Qed.

Lemma armed_wait room m w dt :
  Armed room m w ->
  let w' := handle env EvTimers (handle env (EvAdvance dt) w) in
  phase w' = phase w /\ docs w' = docs w /\ TimersInv (persist w')
  /\ (dt < SAVE_DEBOUNCE_MS ->
      pendingFor room (persist w') = pendingFor room (persist w)
      /\ writesFor room (store (persist w')) = writesFor room (store (persist w)))
  /\ (SAVE_DEBOUNCE_MS <= dt ->
      pendingFor room (persist w') = []
      /\ writesFor room (store (persist w'))
         = (if isPersistenceAvailable env then [m] else [])
           ++ writesFor room (store (persist w))).
Proof.
  intros (Hph & Hok & Hinv & Hsync & (d & Hd & Hb) & t & Hpend & Hdl & Hg) w'.
  unfold w'. rewrite (handle_running (EvAdvance dt)) by done.
  rewrite handle_running by done. simpl.
  assert (TimersInv (advance dt (persist w))) as Hinv1 by (by apply inv_advance).
  split; [done|]. split; [done|]. split; [by apply inv_runDue|]. split.
  - intros Hlt.
    destruct (runDue_waiting env (docs w) (advance dt (persist w)) room t) as [-> ->];
      [done|done| |done].
    simpl. rewrite Hdl. unfold SAVE_DEBOUNCE_MS in *. lia.
  - intros Hge.
    destruct (runDue_due env (docs w) (advance dt (persist w)) room t) as [-> ->];
      [done|done| |].
    { simpl. rewrite Hdl. lia. }
    split; [done|]. f_equal. rewrite Hg. unfold encryptedStateGetter, flushed.
    rewrite Hd, Hb. simpl. rewrite (sync_nonempty m Hsync).
    by destruct (isPersistenceAvailable env).
Qed.


End Facts.
End ReachFacts.

(** ** Joining a room *)

Module JoinFacts.
Import Persistence Utils Server Reach JsMapFacts UtilsFacts ServerFacts PersistenceFacts.
Import StoreFacts ReachFacts.

Section Facts.
Context {Y : YLib}.
Variable env : Env.
Implicit Types (w : World) (r : Relay) (d : WSSharedDoc) (room : string).
Implicit Types (conn c : Conn) (m message : bytes).

(** The relay part of [setupWSConnection_finish]. *)
Lemma finish_room conn room st w d :
  JsMap.get room (docs w) = Some d ->
  setupWSConnection_finish conn room st w
  = leave room
      (let r1 := match st with
                 | Some s => set_isEncrypted true
                               (set_encryptedState (Some s) (mkRelay d (network w)))
                 | None => mkRelay d (network w)
                 end in
       let r2 := set_conns (JsMap.set conn [] (conns (doc r1))) r1 in
       match isEncrypted (doc r2), encryptedState (doc r2) with
       | true, Some s => send conn s r2
       | _, _ =>
           let r3 := send conn (Lib0.writeVarUint (Z.to_N messageSync)
                                ++ writeSyncStep1 (ydoc (doc r2))) r2 in
           if (0 <? length (states (awareness (doc r3))))%nat
           then send conn (awarenessFrame r3 (JsMap.keys (states (awareness (doc r3))))) r3
           else r3
       end) w.
Proof. intros Hd. unfold setupWSConnection_finish, inRoom. by rewrite Hd. Qed.

Lemma start_known room gc w d :
  JsMap.get room (docs w) = Some d ->
  setupWSConnection_start env room gc w
  = if (length (conns d) =? 0)%nat
       && match encryptedState d with None => true | Some _ => false end
    then (set_persist (set_store (loadState env room (store (persist w))).2 (persist w)) w,
          match (loadState env room (store (persist w))).1 with
          | Resolved v => v
          | Rejected _ => None
          end)
    else (w, None).
Proof.
  intros Hd. unfold setupWSConnection_start, getYDoc. rewrite Hd, Hd.
  destruct (_ && _); [|done]. by destruct (loadState _ _ _).
Qed.

Lemma start_fresh room gc w :
  JsMap.get room (docs w) = None ->
  setupWSConnection_start env room gc w
  = (mkWorld (JsMap.set room (WSSharedDocImpl room gc) (docs w)) (network w)
             (set_store (loadState env room (store (persist w))).2 (persist w)) (phase w),
     match (loadState env room (store (persist w))).1 with
     | Resolved v => v
     | Rejected _ => None
     end).
Proof.
  intros Hd. unfold setupWSConnection_start, getYDoc. rewrite Hd. simpl.
  rewrite get_set_eq. simpl. by destruct (loadState _ _ _).
Qed.

Lemma setupName_given (n : string) url : n <> EmptyString -> setupName (Some n) url = n.
Proof.
  intros Hn. unfold setupName. simpl. destruct (String.eqb_spec n ""); [done|]. done.
Qed.

(** A client that joins a room which holds a blob is sent that blob, and
    nothing else, from memory: the store is not asked, no legacy handshake
    is sent, and the client is registered with no presence ids. *)
Theorem joiner_is_sent_the_blob_from_memory
    (es : list Event) (s : S3) (conn : Conn) (room : string) (url : option string)
    (gc : bool) (d : WSSharedDoc) (b : bytes) :
  let w := runEvents env es (boot s) in
  room <> EmptyString ->
  JsMap.get room (docs w) = Some d ->
  encryptedState d = Some b ->
  aliveb (network w) conn = true ->
  let w' := setupWSConnection env conn (Some room) url gc w in
  persist w' = persist w
  /\ wire (network w') = (conn, b) :: wire (network w)
  /\ JsMap.get room (docs w')
     = Some (mkDoc (name d) (JsMap.set conn [] (conns d)) (awareness d) (Some b) true (ydoc d)).
Proof.
  intros w Hroom Hd Hb Halive w'.
  destruct (proj2 (ok_runEvents env es (boot s) (ok_boot s)) room d Hd) as [_ Hmode].
  assert (isEncrypted d = true) as Hm by (apply Hmode; rewrite Hb; by eexists).
  unfold w', setupWSConnection. rewrite setupName_given by done.
  rewrite (start_known room gc w d Hd), Hb, andb_false_r.
  rewrite (finish_room conn room None w d Hd). cbv zeta. simpl.
  rewrite Hm, Hb. rewrite send_alive by done. simpl.
  split; [done|]. split; [done|]. rewrite get_set_eq. by rewrite Hm, Hb.
Qed.



Lemma finish_static conn r :
  Static r
    (let r2 := set_conns (JsMap.set conn [] (conns (doc r))) r in
     match isEncrypted (doc r2), encryptedState (doc r2) with
     | true, Some s => send conn s r2
     | _, _ =>
         let r3 := send conn (Lib0.writeVarUint (Z.to_N messageSync)
                              ++ writeSyncStep1 (ydoc (doc r2))) r2 in
         if (0 <? length (states (awareness (doc r3))))%nat
         then send conn (awarenessFrame r3 (JsMap.keys (states (awareness (doc r3))))) r3
         else r3
     end).
Proof.
  cbv zeta. set (r2 := set_conns _ r).
  assert (Static r r2) as H2 by done.
  assert (forall r', Static r2 r' -> Static r r') as Hfin
    by (intros r'; by apply static_trans).
  destruct (isEncrypted (doc r2)); [destruct (encryptedState (doc r2))|];
    try (apply Hfin, send_static);
    (destruct (0 <? _)%nat;
     [apply Hfin; eapply static_trans; apply send_static|apply Hfin, send_static]).
Qed.

(** Joining never writes to the store and never touches the save timers.
    Up to its [await], [setupWSConnection] changes no room (it may create
    the one it was called for, empty), sends nothing, and sends the store
    at most one read, for that room; it does not read when the room has a
    connection or a blob.  When the load has settled, whatever has
    happened to the room in between, the rest of [setupWSConnection]
    leaves the scheduler, the store and the other rooms alone; if the load
    gave a stored state, that state becomes the room's blob and the room
    is marked encrypted, also when the room holds a newer blob by then,
    which is lost; if the load gave nothing, mode and blob stay.  When
    nothing happens during the load ([setupWSConnection] run in one go), a
    blob that a room holds is never replaced. *)
Theorem joining_never_writes
    (conn : Conn) (docName url : option string) (gc : bool) (w : World) :
  let room := setupName docName url in
  let s := setupWSConnection_start env room gc w in
  (timeouts (persist s.1) = timeouts (persist w)
   /\ saveTimers (persist s.1) = saveTimers (persist w)
   /\ objects (store (persist s.1)) = objects (store (persist w))
   /\ (requests (store (persist s.1)) = requests (store (persist w))
       \/ requests (store (persist s.1))
          = (room, GetObjectCommand (BUCKET_NAME env) (getStateKey room))
            :: requests (store (persist w)))
   /\ network s.1 = network w
   /\ (forall room' d, JsMap.get room' (docs w) = Some d ->
                       JsMap.get room' (docs s.1) = Some d)
   /\ (forall room' d', JsMap.get room' (docs s.1) = Some d' ->
                        JsMap.get room' (docs w) = Some d'
                        \/ (room' = room /\ JsMap.get room (docs w) = None
                            /\ d' = WSSharedDocImpl room gc))
   /\ (forall d, JsMap.get room (docs w) = Some d ->
                 (conns d <> [] \/ is_Some (encryptedState d)) ->
                 s = (w, None)))
  /\ (forall w2 st,
        let w' := setupWSConnection_finish conn room st w2 in
        persist w' = persist w2
        /\ (forall room', room' <> room ->
                          JsMap.get room' (docs w') = JsMap.get room' (docs w2))
        /\ forall d, JsMap.get room (docs w2) = Some d ->
             exists d', JsMap.get room (docs w') = Some d'
                        /\ encryptedState d'
                           = match st with Some b => Some b | None => encryptedState d end
                        /\ isEncrypted d'
                           = match st with Some _ => true | None => isEncrypted d end
                        /\ name d' = name d /\ ydoc d' = ydoc d)
  /\ setupWSConnection env conn docName url gc w = setupWSConnection_finish conn room s.2 s.1
  /\ forall room' d b,
       JsMap.get room' (docs w) = Some d -> encryptedState d = Some b ->
       exists d', JsMap.get room' (docs (setupWSConnection env conn docName url gc w)) = Some d'
                  /\ encryptedState d' = Some b.
Proof.
  intros room s.
  assert (setupWSConnection env conn docName url gc w
          = setupWSConnection_finish conn room s.2 s.1) as Hwhole
    by (unfold setupWSConnection; fold room; fold s; by destruct s).
  rewrite Hwhole.
  destruct (loadState_effect env room (store (persist w))) as (Hobj & Hreq).
  assert (forall w2 st d, JsMap.get room (docs w2) = Some d ->
            exists d', JsMap.get room (docs (setupWSConnection_finish conn room st w2))
                       = Some d'
                       /\ encryptedState d'
                          = match st with Some b => Some b | None => encryptedState d end
                       /\ isEncrypted d'
                          = match st with Some _ => true | None => isEncrypted d end
                       /\ name d' = name d /\ ydoc d' = ydoc d) as Hfin.
  { intros w2 st d Hd. rewrite (finish_room conn room st w2 d Hd), get_leave.
    eexists. split; [done|]. cbv zeta.
    set (r1 := match st with
               | Some s0 => set_isEncrypted true
                              (set_encryptedState (Some s0) (mkRelay d (network w2)))
               | None => mkRelay d (network w2)
               end).
    pose proof (finish_static conn r1) as Hs. cbv zeta in Hs.
    destruct Hs as (Hn & Hb & Hm & Hy).
    rewrite Hn, Hb, Hm, Hy. unfold r1. by destruct st. }
  assert (forall w2 st room', room' <> room ->
            JsMap.get room' (docs (setupWSConnection_finish conn room st w2))
            = JsMap.get room' (docs w2)) as Hother.
  { intros w2 st room' Hne. unfold setupWSConnection_finish, inRoom.
    destruct (JsMap.get room (docs w2)); [|done]. by rewrite get_leave_ne. }
  split; [|split; [|split; [done|]]].
  - unfold s. destruct (JsMap.get room (docs w)) as [d0|] eqn:Hd.
    + rewrite (start_known room gc w d0 Hd).
      destruct (_ && _) eqn:Hcond; simpl.
      * split; [done|]. split; [done|]. split; [done|]. split; [done|]. split; [done|].
        split; [done|]. split; [by left|].
        intros d Hd' Hor. exfalso. injection Hd' as <-.
        apply andb_true_iff in Hcond as [Hc Hb].
        destruct Hor as [Hne|[b Hsome]].
        -- destruct (conns d0); done.
        -- by rewrite Hsome in Hb.
      * split; [done|]. split; [done|]. split; [done|]. split; [by left|]. split; [done|].
        split; [done|]. split; [by left|]. done.
    + rewrite (start_fresh room gc w Hd). simpl.
      split; [done|]. split; [done|]. split; [done|]. split; [done|]. split; [done|].
      split.
      { intros room' d Hd'. rewrite get_set_ne; [done|]. congruence. }
      split; [|done].
      intros room' d'. destruct (decide (room = room')) as [<-|Hne].
      * rewrite get_set_eq. intros [= <-]. by right.
      * rewrite get_set_ne by done. by left.
  - intros w2 st w'. split; [apply persist_inRoom|]. split; [by apply Hother|].
    apply Hfin.
  - intros room' d b Hd Hb.
    destruct (decide (room' = room)) as [->|Hne].
    + assert (s = (w, None)) as ->.
      { unfold s. rewrite (start_known room gc w d Hd), Hb. by rewrite andb_false_r. }
      simpl. destruct (Hfin w None d Hd) as (d' & Hd' & Hb' & _).
      exists d'. split; [done|]. by rewrite Hb'.
    + rewrite Hother by done. exists d. split; [|done].
      unfold s. rewrite docs_start. unfold getYDoc.
      destruct (JsMap.get room (docs w)) eqn:E; [done|]. simpl. by rewrite get_set_ne.
Qed.


Lemma closeConn_calls_close conn r :
  exists rest, closeCalls (net (closeConn conn r)) = conn :: rest.
Proof.
  unfold closeConn. destruct (length (conns (doc r))); simpl; by eexists.
Qed.

Lemma send_dead_facts conn m r :
  aliveb (net r) conn = false ->
  JsMap.get conn (conns (doc (send conn m r))) = None
  /\ conn ∈ closeCalls (net (send conn m r))
  /\ aliveb (net (send conn m r)) conn = false
  /\ (forall c ids, JsMap.get c (conns (doc (send conn m r))) = Some ids ->
                    JsMap.get c (conns (doc r)) = Some ids).
Proof.
  intros Hdead. destruct (send_dead_spec conn m r Hdead) as (Hp & Hgone & _).
  split; [done|]. split; [|split; [by apply (pruned_dead _ _ _ _ Hp)|apply Hp]].
  unfold send, send_with. cbv zeta. unfold aliveb in Hdead.
  destruct (negb (readyState (sockets (net r) conn) =? wsReadyStateConnecting)
            && negb (readyState (sockets (net r) conn) =? wsReadyStateOpen)) eqn:Hrs;
    cbv beta iota.
  - destruct (closeConn_calls_close conn r) as [rest Hrest].
    destruct (sendThrows (sockets (net (closeConn conn r)) conn)).
    + destruct (closeConn_calls_close conn (closeConn conn r)) as [rest' ->]. by left.
    + simpl. rewrite Hrest. by left.
  - assert (sendThrows (sockets (net r) conn) = true) as ->.
    { destruct (readyState _ =? wsReadyStateConnecting), (readyState _ =? wsReadyStateOpen),
        (sendThrows _); done. }
    destruct (closeConn_calls_close conn r) as [rest ->]. by left.
Qed.

(** A client whose socket no longer works when the load has settled does
    not stay registered: the first frame sent to it closes it again, and
    no other connection is added. *)
Theorem dead_joiner_is_not_registered
    (conn : Conn) (room : string) (st : option bytes) (w : World) (d : WSSharedDoc) :
  JsMap.get room (docs w) = Some d ->
  aliveb (network w) conn = false ->
  let w' := setupWSConnection_finish conn room st w in
  exists d', JsMap.get room (docs w') = Some d'
             /\ JsMap.get conn (conns d') = None
             /\ conn ∈ closeCalls (network w')
             /\ (forall c ids, JsMap.get c (conns d') = Some ids ->
                               JsMap.get c (conns d) = Some ids).
Proof.
  intros Hd Hdead w'. unfold w'. rewrite (finish_room conn room st w d Hd), get_leave.
  eexists. split; [done|]. cbv zeta.
  set (r1 := match st with Some _ => _ | None => _ end).
  set (r2 := set_conns _ r1).
  assert (net r2 = network w) as Hnet by (unfold r2, r1; by destruct st).
  assert (conns (doc r2) = JsMap.set conn [] (conns d)) as Hc2
    by (unfold r2, r1; by destruct st).
  assert (aliveb (net r2) conn = false) as Hdead2 by (by rewrite Hnet).
  assert (forall c ids, c <> conn -> JsMap.get c (conns (doc r2)) = Some ids ->
                        JsMap.get c (conns d) = Some ids) as Hsub2.
  { intros c ids Hne. rewrite Hc2. by rewrite get_set_ne. }
  assert (forall r', JsMap.get conn (conns (doc r')) = None ->
            conn ∈ closeCalls (net r') ->
            (forall c ids, JsMap.get c (conns (doc r')) = Some ids ->
                           JsMap.get c (conns (doc r2)) = Some ids) ->
            JsMap.get conn (conns (doc r')) = None
            /\ conn ∈ closeCalls (network (leave room r' w))
            /\ (forall c ids, JsMap.get c (conns (doc r')) = Some ids ->
                              JsMap.get c (conns d) = Some ids)) as Hfin.
  { intros r' Hgone Hcl Hsub. split; [done|]. split; [done|].
    intros c ids Hc. destruct (decide (c = conn)) as [->|Hne]; [congruence|].
    apply Hsub2; [done|]. by apply Hsub. }
  assert (forall m, let r' := send conn m r2 in
            JsMap.get conn (conns (doc r')) = None
            /\ conn ∈ closeCalls (network (leave room r' w))
            /\ (forall c ids, JsMap.get c (conns (doc r')) = Some ids ->
                              JsMap.get c (conns d) = Some ids)) as Hone.
  { intros m r'. destruct (send_dead_facts conn m r2 Hdead2) as (H1 & H2 & _ & H4).
    by apply Hfin. }
  assert (forall m m', let r' := send conn m' (send conn m r2) in
            JsMap.get conn (conns (doc r')) = None
            /\ conn ∈ closeCalls (network (leave room r' w))
            /\ (forall c ids, JsMap.get c (conns (doc r')) = Some ids ->
                              JsMap.get c (conns d) = Some ids)) as Htwo.
  { intros m m' r'. destruct (send_dead_facts conn m r2 Hdead2) as (_ & _ & H3 & H4).
    destruct (send_dead_facts conn m' (send conn m r2) H3) as (G1 & G2 & _ & G4).
    apply Hfin; [done|done|]. intros c ids Hc. by apply H4, G4. }
  destruct (isEncrypted (doc r2)); [destruct (encryptedState (doc r2))|];
    try apply Hone; (destruct (0 <? _)%nat; [apply Htwo|apply Hone]).
Qed.

End Facts.
End JoinFacts.

(** ** Bursts of encrypted frames among other traffic *)

Module BurstFacts.
Import Persistence Utils Server Reach JsMapFacts UtilsFacts ServerFacts PersistenceFacts.
Import StoreFacts ReachFacts JoinFacts.

Section Facts.
Context {Y : YLib}.
Variable env : Env.
Implicit Types (w : World) (r : Relay) (d : WSSharedDoc) (room : string).
Implicit Types (conn c : Conn) (m message : bytes).

Lemma runEvents_app (es1 es2 : list Event) w :
  runEvents env (es1 ++ es2) w = runEvents env es2 (runEvents env es1 w).
Proof. apply fold_left_app. Qed.

(** *** The phase *)

Lemma phase_inRoom room (f : Relay -> Relay) w : phase (inRoom room f w) = phase w.
Proof. unfold inRoom. by destruct (JsMap.get room (docs w)). Qed.

Lemma phase_start room gc w : phase (setupWSConnection_start env room gc w).1 = phase w.
Proof.
  destruct (JsMap.get room (docs w)) as [d|] eqn:E.
  - rewrite (start_known env room gc w d E). by destruct (_ && _).
  - by rewrite (start_fresh env room gc w E).
Qed.

Lemma phase_messageListener conn room message w :
  phase (messageListener conn room message w) = phase w.
Proof.
  destruct (messageListener_shape conn room message w) as [->|(r & p & ->)]; done.
Qed.

Lemma quiet_phase room (e : Event) w :
  quietFor room e -> phase w <> Exited -> phase (handle env e w) <> Exited.
Proof.
  intros Hq Hph. rewrite handle_running by done.
  destruct e; try done; simpl;
    rewrite ?phase_start, ?phase_messageListener, ?phase_inRoom; try done.
  - unfold setupWSConnection_finish. by rewrite phase_inRoom.
  - unfold onSIGTERM. destruct (phase w) eqn:E; simpl; congruence.
Qed.

(** *** The blob of the room *)

Lemma blob_inRoom room room' (f : Relay -> Relay) w d :
  (room' = room -> Static (mkRelay d (network w)) (f (mkRelay d (network w)))) ->
  JsMap.get room (docs w) = Some d ->
  exists d', JsMap.get room (docs (inRoom room' f w)) = Some d'
             /\ encryptedState d' = encryptedState d.
Proof.
  intros Hf Hd. unfold inRoom. destruct (decide (room' = room)) as [->|Hne].
  - rewrite Hd, get_leave. eexists. split; [done|]. by destruct (Hf eq_refl) as (_ & -> & _).
  - destruct (JsMap.get room' (docs w)); [|by exists d].
    rewrite get_leave_ne by done. by exists d.
Qed.

Lemma quiet_blob room (e : Event) w d :
  quietFor room e -> phase w <> Exited ->
  JsMap.get room (docs w) = Some d ->
  exists d', JsMap.get room (docs (handle env e w)) = Some d'
             /\ encryptedState d' = encryptedState d.
Proof.
  intros Hq Hph Hd. rewrite handle_running by done.
  destruct e; try done; simpl in Hq |- *.
  - (* a join starts *)
    rewrite docs_start. unfold getYDoc.
    destruct (JsMap.get room0 (docs w)) eqn:E; [by exists d|]. simpl.
    rewrite get_set_ne by congruence. by exists d.
  - (* a join finishes *)
    unfold setupWSConnection_finish. apply blob_inRoom; [|done]. intros ->.
    destruct persistedState as [st|]; [done|]. apply finish_static.
  - (* a frame *)
    destruct (decide (room0 = room)) as [->|Hne].
    + destruct Hq as [?|Hsync]; [done|].
      destruct (isEncryptedMessage message) eqn:Henc.
      * rewrite (messageListener_encrypted_presence conn room message w d) by done.
        rewrite get_leave. eexists. split; [done|].
        by rewrite (pruned_blob _ _ _ _ (broadcast_pruned _ _ _)).
      * destruct (messageListener_legacy conn room message w d Hd Henc)
          as (_ & _ & _ & d' & Hd' & _ & Hb & _). by exists d'.
    + destruct (messageListener_shape conn room0 message w) as [->|(r & p & ->)];
        [by exists d|]. simpl. rewrite get_set_ne by done. by exists d.
  - apply blob_inRoom; [|done]. intros _. apply closeConn_static.
  - apply blob_inRoom; [|done]. intros _. apply closeConn_static.
  - by exists d.
  - apply blob_inRoom; [|done]. intros _. apply presenceTimeout_static.
  - unfold onSIGTERM. destruct (phase w); by exists d.
Qed.

(** *** The scheduler and the store *)

Lemma writes_loadState room room' (s : S3) :
  writesFor room (loadState env room' s).2 = writesFor room s.
Proof.
  destruct (loadState_effect env room' s) as [_ [H|H]]; unfold writesFor; by rewrite H.
Qed.

Lemma quiet_persist_message room conn room0 message w :
  room0 <> room \/ isEncryptedSyncMessage message = false ->
  WorldOk w -> TimersInv (persist w) ->
  let w' := messageListener conn room0 message w in
  pendingFor room (persist w') = pendingFor room (persist w)
  /\ now (persist w') = now (persist w)
  /\ writesFor room (store (persist w')) = writesFor room (store (persist w)).
Proof.
  intros Hq Hok Hinv w'. unfold w'.
  destruct (JsMap.get room0 (docs w)) as [d0|] eqn:E;
    [|by rewrite messageListener_absent].
  destruct (isEncryptedSyncMessage message) eqn:Hsync.
  - destruct Hq as [Hne|?]; [|done].
    rewrite (messageListener_encrypted_sync conn room0 message w d0) by done.
    cbv zeta. destruct (proj2 Hok room0 d0 E) as [Hname _]. rewrite Hname.
    destruct (schedule_effect (persist w) room0 (encryptedStateGetter room0) Hinv)
      as (_ & Hnow & Hstore).
    assert (pendingFor room (scheduleSave room0 (encryptedStateGetter room0) (persist w))
            = pendingFor room (persist w)) as Hpend.
    { rewrite schedule_is_arm by done.
      by rewrite pending_arm_ne, pending_forget_ne by done. }
    remember (scheduleSave room0 (encryptedStateGetter room0) (persist w)) as p1 eqn:Hp1.
    simpl. by rewrite Hnow, Hstore.
  - destruct (isEncryptedMessage message) eqn:Henc.
    + by rewrite (messageListener_encrypted_presence conn room0 message w d0).
    + by destruct (messageListener_legacy conn room0 message w d0 E Henc) as (-> & _).
Qed.

Lemma quiet_persist_start room room0 gc w :
  let w' := (setupWSConnection_start env room0 gc w).1 in
  pendingFor room (persist w') = pendingFor room (persist w)
  /\ now (persist w') = now (persist w)
  /\ writesFor room (store (persist w')) = writesFor room (store (persist w)).
Proof.
  intros w'. unfold w'. destruct (JsMap.get room0 (docs w)) as [d0|] eqn:E.
  - rewrite (start_known env room0 gc w d0 E). destruct (_ && _); [|done].
    simpl. split; [done|]. split; [done|]. apply writes_loadState.
  - rewrite (start_fresh env room0 gc w E).
    simpl. split; [done|]. split; [done|]. apply writes_loadState.
Qed.

Lemma quiet_persist room (e : Event) w :
  quietFor room e -> WorldOk w -> TimersInv (persist w) ->
  pendingFor room (persist (handle env e w)) = pendingFor room (persist w)
  /\ now (persist (handle env e w)) = now (persist w)
  /\ writesFor room (store (persist (handle env e w))) = writesFor room (store (persist w)).
Proof.
  intros Hq Hok Hinv.
  assert (phase w = Exited \/ phase w <> Exited) as [Hex|Hph]
    by (destruct (phase w); auto).
  { by rewrite exited_is_final. }
  rewrite handle_running by done.
  destruct e; try done; simpl in Hq; rewrite ?persist_inRoom; try done.
  - apply quiet_persist_start.
  - unfold setupWSConnection_finish. by rewrite persist_inRoom.
  - by apply quiet_persist_message.
  - unfold onSIGTERM. by destruct (phase w).
Qed.

(** *** A pending save among other events *)

Lemma elapsed_cons (e : Event) (es : list Event) :
  elapsed (e :: es) = elapsed [e] + elapsed es.
Proof. destruct e; simpl; lia. Qed.

Lemma elapsed_nonneg (es : list Event) : 0 <= elapsed es.
Proof.
  induction es as [|e es IH]; [done|]. rewrite elapsed_cons.
  destruct e; simpl; lia.
Qed.

Lemma elapsed_quiet room (e : Event) : quietFor room e -> elapsed [e] = 0.
Proof. by destruct e. Qed.

Lemma armed_waiting room m w : Armed room m w -> Waiting room m (now (persist w)) w.
Proof. done. Qed.

Lemma waiting_quiet room m a (e : Event) w :
  Waiting room m a w -> quietFor room e ->
  Waiting room m a (handle env e w)
  /\ writesFor room (store (persist (handle env e w))) = writesFor room (store (persist w))
  /\ now (persist (handle env e w)) = now (persist w).
Proof.
  intros (Hph & Hok & Hinv & Hsync & (d & Hd & Hb) & t & Hpend & Hdl & Hg) Hq.
  destruct (quiet_persist room e w Hq Hok Hinv) as (Hp' & Hnow' & Hw').
  destruct (quiet_blob room e w d Hq Hph Hd) as (d' & Hd' & Hb').
  split; [|done].
  split; [by apply (quiet_phase room)|].
  split; [eapply ok_step; [apply docsStep_handle|done]|].
  split; [by apply inv_handle|]. split; [done|]. split.
  - exists d'. split; [done|]. congruence.
  - exists t. by rewrite Hp'.
Qed.

Lemma waiting_advance room m a dt w :
  Waiting room m a w ->
  Waiting room m a (handle env (EvAdvance dt) w)
  /\ writesFor room (store (persist (handle env (EvAdvance dt) w)))
     = writesFor room (store (persist w))
  /\ now (persist (handle env (EvAdvance dt) w)) = now (persist w) + Z.max 0 dt.
Proof.
  intros (Hph & Hok & Hinv & Hsync & Hblob & Ht).
  rewrite handle_running by done. split; [|done].
  split; [done|]. split; [done|]. split; [by apply inv_advance|]. done.
Qed.

Lemma waiting_timers room m a w :
  Waiting room m a w -> now (persist w) < a + SAVE_DEBOUNCE_MS ->
  Waiting room m a (handle env EvTimers w)
  /\ writesFor room (store (persist (handle env EvTimers w)))
     = writesFor room (store (persist w))
  /\ now (persist (handle env EvTimers w)) = now (persist w).
Proof.
  intros (Hph & Hok & Hinv & Hsync & Hblob & t & Hpend & Hdl & Hg) Hlt.
  rewrite handle_running by done.
  destruct (runDue_waiting env (docs w) (persist w) room t Hinv Hpend) as [Hp' Hw'];
    [by rewrite Hdl|].
  split; [|split; [done|by apply now_runDue]].
  split; [done|]. split; [done|]. split; [by apply inv_runDue|]. split; [done|].
  split; [done|]. exists t. split; [exact Hp'|done].
Qed.

Lemma waiting_calm room m a (es : list Event) w :
  Waiting room m a w -> Forall (calmFor room) es ->
  now (persist w) + elapsed es < a + SAVE_DEBOUNCE_MS ->
  Waiting room m a (runEvents env es w)
  /\ writesFor room (store (persist (runEvents env es w))) = writesFor room (store (persist w))
  /\ now (persist (runEvents env es w)) = now (persist w) + elapsed es.
Proof.
  revert w. induction es as [|e es IH]; intros w Hwait Hall Hlt.
  { simpl. split; [done|]. split; [done|]. lia. }
  apply Forall_cons in Hall as [Hcalm Hall]. rewrite elapsed_cons in Hlt |- *.
  pose proof (elapsed_nonneg es) as Hes.
  assert (Waiting room m a (handle env e w)
          /\ writesFor room (store (persist (handle env e w)))
             = writesFor room (store (persist w))
          /\ now (persist (handle env e w)) = now (persist w) + elapsed [e])
    as (Hwait1 & Hw1 & Hnow1).
  { destruct e; try (destruct (waiting_quiet room m a _ w Hwait Hcalm) as (? & ? & ->);
                     simpl; split; [done|]; split; [done|]; lia).
    - destruct (waiting_advance room m a dt w Hwait) as (? & ? & ->). simpl.
      split; [done|]. split; [done|]. lia.
    - destruct (waiting_timers room m a w Hwait) as (? & ? & ->); [simpl in Hlt; lia|].
      simpl. split; [done|]. split; [done|]. lia. }
  destruct (IH _ Hwait1 Hall) as (Hwait2 & Hw2 & Hnow2); [lia|].
  simpl runEvents. split; [done|]. split; [by rewrite Hw2|]. lia.
Qed.

Lemma armed_burst room (frames : list (list Event * Conn * bytes)) m w :
  Armed room m w ->
  Forall (fun f => Forall (calmFor room) f.1.1 /\ elapsed f.1.1 < SAVE_DEBOUNCE_MS
                   /\ isEncryptedSyncMessage f.2 = true) frames ->
  Armed room (List.last (snd <$> frames) m) (runEvents env (burstEvents room frames) w)
  /\ writesFor room (store (persist (runEvents env (burstEvents room frames) w)))
     = writesFor room (store (persist w)).
Proof.
  revert m w. induction frames as [|[[gap c] m'] frames IH]; intros m w Harm Hall; [done|].
  apply Forall_cons in Hall as [(Hgap & Hdt & Hsync) Hall]. simpl in Hgap, Hdt, Hsync.
  destruct (waiting_calm room m (now (persist w)) gap w (armed_waiting room m w Harm) Hgap)
    as (Hwait0 & Hw0 & _); [lia|].
  set (w0 := runEvents env gap w) in *.
  assert (runEvents env (burstEvents room (((gap, c), m') :: frames)) w
          = runEvents env (burstEvents room frames) (handle env (EvMessage c room m') w0))
    as ->.
  { unfold burstEvents. simpl. rewrite <- app_assoc, runEvents_app. done. }
  destruct Hwait0 as (Hph0 & Hok0 & Hinv0 & _ & (d & Hd & _) & _).
  destruct (armed_message env c room m' w0 d Hph0 Hok0 Hinv0 Hd Hsync) as [Harm' Hst].
  destruct (IH m' _ Harm' Hall) as [IH1 IH2].
  rewrite fmap_cons, last_cons_default. split; [done|].
  by rewrite IH2, Hst, Hw0.
Qed.

(** Encrypted sync frames that reach a room less than the debounce delay
    apart are coalesced, whatever else the server handles in between that
    is not a load for the room settling with a stored state and not the
    exit of the process: frames for other rooms, presence and legacy frames
    for this one, joins, closes, send errors, presence timeouts, SIGTERM,
    time passing and turns of the timers.  Nothing is written for the room
    while the frames keep coming and for less than the delay after the last
    one; the room then holds the last frame and has one pending save; and
    at the first turn of the timers once the delay has passed after the
    last frame the store is sent exactly one write for the room, whose body
    is the last frame (none when the store is not configured).  If a load
    for the room that was started earlier settles with a stored state
    after the last frame and before that turn, that state replaces the
    frame as the room's blob and the one write carries it (nothing is
    written when it is empty). *)
Theorem encrypted_frames_are_saved_once
    (es : list Event) (s : S3) (room : string) (d : WSSharedDoc)
    (conn : Conn) (m : bytes) (frames : list (list Event * Conn * bytes))
    (noise : list Event) (dt : Z) :
  let w := runEvents env es (boot s) in
  phase w <> Exited ->
  JsMap.get room (docs w) = Some d ->
  isEncryptedSyncMessage m = true ->
  Forall (fun f => Forall (calmFor room) f.1.1 /\ elapsed f.1.1 < SAVE_DEBOUNCE_MS
                   /\ isEncryptedSyncMessage f.2 = true) frames ->
  Forall (calmFor room) noise ->
  elapsed noise < SAVE_DEBOUNCE_MS ->
  SAVE_DEBOUNCE_MS <= elapsed noise + dt ->
  let final := List.last (snd <$> frames) m in
  let w1 := runEvents env (EvMessage conn room m :: burstEvents room frames ++ noise) w in
  let w2 := runEvents env [EvAdvance dt; EvTimers] w1 in
  writesFor room (store (persist w1)) = writesFor room (store (persist w))
  /\ length (pendingFor room (persist w1)) = 1%nat
  /\ (exists d1, JsMap.get room (docs w1) = Some d1 /\ encryptedState d1 = Some final)
  /\ pendingFor room (persist w2) = []
  /\ writesFor room (store (persist w2))
     = (if isPersistenceAvailable env then [final] else [])
       ++ writesFor room (store (persist w))
  /\ forall c st,
       let w1' := handle env (EvSetupFinish c room (Some st)) w1 in
       let w2' := runEvents env [EvAdvance dt; EvTimers] w1' in
       (exists d1, JsMap.get room (docs w1') = Some d1 /\ encryptedState d1 = Some st)
       /\ pendingFor room (persist w2') = []
       /\ writesFor room (store (persist w2'))
          = flushed env st ++ writesFor room (store (persist w)).
Proof.
  intros w Hph Hd Hsync Hall Hnoise Hshort Hdt final w1 w2.
  assert (WorldOk w) as Hok by apply ok_runEvents, ok_boot.
  assert (TimersInv (persist w)) as Hinv by apply inv_runEvents.
  destruct (armed_message env conn room m w d Hph Hok Hinv Hd Hsync) as [Harm Hst].
  destruct (armed_burst room frames m _ Harm Hall) as [Harm1 Hw1].
  set (w0 := runEvents env (burstEvents room frames) (handle env (EvMessage conn room m) w))
    in *.
  destruct (waiting_calm room _ (now (persist w0)) noise w0
              (armed_waiting room _ w0 Harm1) Hnoise) as (Hwait & Hw2 & Hnow); [lia|].
  assert (w1 = runEvents env noise w0) as Ew1
    by (unfold w1, w0; simpl; by rewrite runEvents_app).
  rewrite <- Ew1 in Hwait, Hw2, Hnow. fold final in Hwait.
  rewrite Hw1, Hst in Hw2.
  destruct Hwait as (Hph1 & Hok1 & Hinv1 & Hsync1 & (d1 & Hd1 & Hb1) & t & Hpend & Hdl & Hg).
  assert (TimersInv (advance dt (persist w1))) as Hinv2 by (by apply inv_advance).
  assert (deadline t <= now (advance dt (persist w1))) as Hdue
    by (simpl; rewrite Hdl, Hnow; lia).
  split; [done|]. split; [by rewrite Hpend|]. split; [by exists d1|].
  assert (pendingFor room (persist w2) = []
          /\ writesFor room (store (persist w2))
             = (if isPersistenceAvailable env then [final] else [])
               ++ writesFor room (store (persist w))) as [Hp2 Hwr2].
  { unfold w2. simpl.
    rewrite (handle_running env (EvAdvance dt)) by done.
    rewrite handle_running by done. simpl.
    destruct (runDue_due env (docs w1) (advance dt (persist w1)) room t Hinv2 Hpend Hdue)
      as [-> ->].
    split; [done|]. rewrite Hg. unfold encryptedStateGetter, flushed. rewrite Hd1, Hb1. simpl.
    rewrite (sync_nonempty final Hsync1), Hw2. by destruct (isPersistenceAvailable env). }
  split; [done|]. split; [done|].
  intros c st w1' w2'.
  assert (w1' = leave room
                  (let r1 := set_isEncrypted true
                               (set_encryptedState (Some st) (mkRelay d1 (network w1))) in
                   let r2 := set_conns (JsMap.set c [] (conns (doc r1))) r1 in
                   match isEncrypted (doc r2), encryptedState (doc r2) with
                   | true, Some s0 => send c s0 r2
                   | _, _ =>
                       let r3 := send c (Lib0.writeVarUint (Z.to_N messageSync)
                                         ++ writeSyncStep1 (ydoc (doc r2))) r2 in
                       if (0 <? length (states (awareness (doc r3))))%nat
                       then send c (awarenessFrame r3 (JsMap.keys (states (awareness (doc r3)))))
                              r3
                       else r3
                   end) w1) as Ew1'.
  { unfold w1'. rewrite handle_running by done.
    by rewrite (finish_room c room (Some st) w1 d1 Hd1). }
  assert (exists d1', JsMap.get room (docs w1') = Some d1' /\ encryptedState d1' = Some st)
    as (d1' & Hd1' & Hb1').
  { rewrite Ew1', get_leave. eexists. split; [done|]. cbv zeta. simpl.
    by destruct (send_static c st
                   (set_conns (JsMap.set c [] (conns d1))
                      (set_isEncrypted true
                         (set_encryptedState (Some st) (mkRelay d1 (network w1))))))
      as (_ & -> & _). }
  split; [by exists d1'|].
  assert (persist w1' = persist w1 /\ phase w1' = phase w1) as [Hp1' Hph1']
    by (by rewrite Ew1').
  unfold w2'. simpl.
  rewrite (handle_running env (EvAdvance dt)) by congruence.
  rewrite handle_running by (simpl; congruence). simpl. rewrite Hp1'.
  destruct (runDue_due env (docs w1') (advance dt (persist w1)) room t Hinv2 Hpend Hdue)
    as [-> ->].
  split; [done|]. rewrite Hg. unfold encryptedStateGetter. rewrite Hd1', Hb1'. simpl.
  by rewrite Hw2.
Qed.

End Facts.
End BurstFacts.

(** ** Presence, closing and replies *)

Module RelayFacts.
Import Persistence Utils Server Reach JsMapFacts UtilsFacts ServerFacts PersistenceFacts.
Import KeyFacts StoreFacts ReachFacts JoinFacts.

Section Facts.
Context {Y : YLib}.
Variable env : Env.
Implicit Types (w : World) (r : Relay) (d : WSSharedDoc) (room : string).
Implicit Types (conn c : Conn) (m message : bytes).

(** *** Presence frames *)

Lemma presenceFrame_first_byte m : isPresenceFrame m -> hd_error m = Some x01.
Proof. by intros [payload ->]. Qed.

(** A presence frame in the encoding of y-protocols, which is also how the
    server writes its own, starts with byte 1 and is therefore taken for an
    encrypted sync frame: it becomes the room's blob, the room latches to
    encrypted mode and a save is scheduled; it is never applied to the
    room's presence. *)
Theorem presence_frame_is_taken_for_encrypted_sync
    (conn : Conn) (room : string) (m : bytes) (w : World) (d : WSSharedDoc) :
  JsMap.get room (docs w) = Some d ->
  isPresenceFrame m ->
  let w' := messageListener conn room m w in
  isEncryptedSyncMessage m = true
  /\ persist w' = scheduleSave (name d) (encryptedStateGetter room) (persist w)
  /\ exists d', JsMap.get room (docs w') = Some d'
       /\ isEncrypted d' = true
       /\ encryptedState d' = Some m
       /\ ydoc d' = ydoc d
       /\ forall id v, JsMap.get id (states (awareness d')) = Some v ->
                       JsMap.get id (states (awareness d)) = Some v.
Proof.
  intros Hd Hm w'.
  assert (isEncryptedSyncMessage m = true) as Hsync
    by (apply first_byte_sync; left; by apply presenceFrame_first_byte).
  split; [done|]. unfold w'.
  rewrite (messageListener_encrypted_sync conn room m w d) by done. cbv zeta.
  split; [done|]. eexists. split; [apply get_set_eq|].
  pose proof (broadcast_pruned conn m
                (set_encryptedState (Some m) (set_isEncrypted true (mkRelay d (network w)))))
    as Hp.
  rewrite (pruned_mode _ _ _ _ Hp), (pruned_blob _ _ _ _ Hp), (pruned_ydoc _ _ _ _ Hp).
  repeat split; try done. apply Hp.
Qed.

(** *** Which connection controls which presence ids *)

Lemma fold_set_add (l ids : list nat) x :
  x ∈ fold_left (fun s y => set_add y s) l ids <-> x ∈ ids \/ x ∈ l.
Proof.
  revert ids. induction l as [|y l IH]; intros ids; simpl.
  - split; [by left|]. intros [?|H]; [done|by inversion H].
  - rewrite IH. unfold set_add. rewrite elem_of_cons.
    destruct (bool_decide (y ∈ ids)) eqn:E.
    + apply bool_decide_eq_true in E. split; [tauto|]. intros [?|[->|?]]; tauto.
    + rewrite elem_of_app, list_elem_of_singleton. tauto.
Qed.

Lemma fold_set_delete (l ids : list nat) x :
  x ∈ fold_left (fun s y => set_delete y s) l ids <-> x ∈ ids /\ x ∉ l.
Proof.
  revert ids. induction l as [|y l IH]; intros ids; simpl.
  - split; [intros ?; split; [done|by inversion 1]|tauto].
  - rewrite IH. unfold set_delete. rewrite list_elem_of_filter, not_elem_of_cons. tauto.
Qed.

Lemma handler_from_pruned change conn r :
  Pruned (fun _ => True) (fun e => isPresenceFrame e.2)
    match JsMap.get conn (conns (doc r)) with
    | Some connControlledIDs =>
        set_conns
          (JsMap.set conn
             (fold_left (fun s x => set_delete x s) (removed change)
                (fold_left (fun s x => set_add x s) (added change) connControlledIDs))
             (conns (doc r))) r
    | None => r
    end
    (awarenessChangeHandler change (Some conn) r).
Proof.
  unfold awarenessChangeHandler, awarenessChangeHandler_with.
  apply pruned_forEach. intros c r'. apply pruned_send_with.
  - intros. by apply pruned_closeConn.
  - apply awarenessFrame_isPresenceFrame.
Qed.

(** The server records which connection brought which presence ids: after
    a presence change that came from a connection, that connection (if it
    is still registered) controls the ids it controlled before, plus the
    ids it added, minus the ids it removed; what the other connections
    control does not change; and when the connection closes, the ids it
    added are revoked. *)
Theorem presence_ids_follow_their_connection
    (change : AwarenessChange) (conn : Conn) (r : Relay) (ids : list nat) :
  JsMap.get conn (conns (doc r)) = Some ids ->
  let r' := awarenessChangeHandler change (Some conn) r in
  (forall ids', JsMap.get conn (conns (doc r')) = Some ids' ->
                forall x, x ∈ ids' <-> (x ∈ ids \/ x ∈ added change) /\ x ∉ removed change)
  /\ (aliveb (net r) conn = true -> is_Some (JsMap.get conn (conns (doc r'))))
  /\ (forall c i, c <> conn -> JsMap.get c (conns (doc r')) = Some i ->
                  JsMap.get c (conns (doc r)) = Some i)
  /\ (aliveb (net r) conn = true ->
      forall x, x ∈ added change -> x ∉ removed change ->
                JsMap.get x (states (awareness (doc (closeConn conn r')))) = None).
Proof.
  intros Hids r'. pose proof (handler_from_pruned change conn r) as Hp.
  rewrite Hids in Hp. fold r' in Hp.
  set (ids1 := fold_left (fun s x => set_delete x s) (removed change)
                 (fold_left (fun s x => set_add x s) (added change) ids)) in *.
  assert (forall x, x ∈ ids1 <-> (x ∈ ids \/ x ∈ added change) /\ x ∉ removed change) as Hmem.
  { intros x. unfold ids1. by rewrite fold_set_delete, fold_set_add. }
  assert (forall ids', JsMap.get conn (conns (doc r')) = Some ids' -> ids' = ids1) as Hown.
  { intros ids' H. apply (pruned_conns _ _ _ _ Hp) in H. simpl in H.
    rewrite get_set_eq in H. congruence. }
  assert (aliveb (net r) conn = true -> JsMap.get conn (conns (doc r')) = Some ids1) as Hstay.
  { intros Ha. destruct (pruned_alive _ _ _ _ Hp conn I Ha) as [_ ->]. simpl.
    apply get_set_eq. }
  split; [|split; [|split]].
  - intros ids' H x. by rewrite (Hown ids' H).
  - intros Ha. rewrite (Hstay Ha). by eexists.
  - intros c i Hne H. apply (pruned_conns _ _ _ _ Hp) in H. simpl in H.
    by rewrite get_set_ne in H.
  - intros Ha x Hadd Hrem.
    destruct (closeConn_spec conn r') as (_ & _ & Hrevoke).
    apply (Hrevoke ids1); [by apply Hstay|]. apply Hmem. tauto.
Qed.

(** *** Closing twice *)

Lemma closeConn_unregistered conn r :
  JsMap.get conn (conns (doc r)) = None -> closeConn conn r = conn_close conn r.
Proof.
  intros H. unfold closeConn. destruct (length (conns (doc r))); simpl; by rewrite H.
Qed.

(** Closing a connection that is not registered in the room only calls
    [close()] on its socket, so closing a connection twice leaves the room
    as the first close left it: nothing more is revoked or sent. *)
Theorem closing_twice_is_closing_once (conn : Conn) (r : Relay) :
  (JsMap.get conn (conns (doc r)) = None -> closeConn conn r = conn_close conn r)
  /\ doc (closeConn conn (closeConn conn r)) = doc (closeConn conn r)
  /\ wire (net (closeConn conn (closeConn conn r))) = wire (net (closeConn conn r))
  /\ closeCalls (net (closeConn conn (closeConn conn r)))
     = conn :: closeCalls (net (closeConn conn r)).
Proof.
  split; [apply closeConn_unregistered|].
  destruct (closeConn_spec conn r) as (_ & Hgone & _).
  by rewrite (closeConn_unregistered conn (closeConn conn r) Hgone).
Qed.

(** *** Replies *)

(** A legacy sync frame that does not change the document is answered to
    its sender only: the reply the library wrote, behind the sync tag, when
    it wrote one, and nothing at all otherwise.  No other connection is
    sent anything and nothing is scheduled. *)
Theorem sync_reply_goes_to_the_sender_only
    (conn : Conn) (room : string) (message : bytes) (w : World) (d : WSSharedDoc)
    (t x : Lib0.JsNumber) (rest : bytes) :
  JsMap.get room (docs w) = Some d ->
  isEncryptedMessage message = false ->
  Lib0.readVarUint message = Some (t, rest) ->
  Lib0.js_is t messageSync = true ->
  Lib0.peekVarUint rest = Some x ->
  sync_update (readSyncMessage rest (ydoc d)) = None ->
  aliveb (network w) conn = true ->
  let w' := messageListener conn room message w in
  let res := readSyncMessage rest (ydoc d) in
  persist w' = persist w
  /\ wire (network w')
     = match sync_reply res with
       | Some (b :: written) => [(conn, x00 :: b :: written)]
       | _ => []
       end ++ wire (network w)
  /\ JsMap.get room (docs w')
     = Some (mkDoc (name d) (conns d) (awareness d) (encryptedState d) (isEncrypted d)
                   (sync_doc res)).
Proof.
  intros Hd Hleg Hread Hsync Hpeek Hupd Halive w' res.
  unfold w', messageListener, messageListener_try.
  rewrite Hd, Hleg, Hread, Hsync, Hpeek, Hupd. fold res.
  destruct (sync_reply res) as [[|b written]|]; simpl.
  - split; [done|]. split; [done|]. by rewrite get_set_eq.
  - rewrite send_alive by done. simpl. split; [done|]. split; [done|]. by rewrite get_set_eq.
  - split; [done|]. split; [done|]. by rewrite get_set_eq.
Qed.

(** *** The name of the room *)

(** [setupName]: a non-empty [docName] option is the room; otherwise the
    room is the path of the request URL without its first character and
    without the query; and when that is empty too, or there is no URL, the
    room is ["default"]. *)
Theorem setupName_cases :
  (forall n url, n <> EmptyString -> setupName (Some n) url = n)
  /\ (forall docName (ch : ascii) path query,
        truthy docName = false -> path <> EmptyString ->
        ~ In "?"%char (list_ascii_of_string path) ->
        setupName docName (Some (String ch path)) = path
        /\ setupName docName (Some (String ch (path +:+ String "?" query))) = path)
  /\ (forall docName (ch : ascii) query,
        truthy docName = false ->
        setupName docName None = "default"%string
        /\ setupName docName (Some EmptyString) = "default"%string
        /\ setupName docName (Some (String ch EmptyString)) = "default"%string
        /\ setupName docName (Some (String ch (String "?" query))) = "default"%string).
Proof.
  split; [apply setupName_given|]. split.
  - intros docName ch path query Hdoc Hpath Hq. unfold setupName. rewrite Hdoc. simpl.
    rewrite split_no_sep, split_app by done. simpl.
    destruct (String.eqb_spec path ""); done.
  - intros docName ch query Hdoc. unfold setupName. rewrite Hdoc. simpl.
    done.
Qed.

End Facts.
End RelayFacts.

(** ** Which connections a room holds *)

Module ConnsFacts.
Import Persistence Utils Server Reach JsMapFacts UtilsFacts ServerFacts PersistenceFacts.
Import KeyFacts StoreFacts ReachFacts JoinFacts RelayFacts.

Section Facts.
Context {Y : YLib}.
Variable env : Env.
Implicit Types (w : World) (r : Relay) (d : WSSharedDoc) (room : string).
Implicit Types (conn c ws : Conn) (m message : bytes).

Lemma elem_of_set_add (x y : nat) (s : list nat) : x ∈ set_add y s <-> x = y \/ x ∈ s.
Proof.
  unfold set_add. destruct (bool_decide (y ∈ s)) eqn:E.
  - apply bool_decide_eq_true in E. split; [by right|]. by intros [->|?].
  - rewrite elem_of_app, list_elem_of_singleton. tauto.
Qed.

Lemma elem_of_set_delete (x y : nat) (s : list nat) : x ∈ set_delete y s <-> x ∈ s /\ x <> y.
Proof. unfold set_delete. rewrite list_elem_of_filter. tauto. Qed.

Lemma nodup_set_add (y : nat) (s : list nat) : NoDup s -> NoDup (set_add y s).
Proof.
  intros Hnd. unfold set_add. destruct (bool_decide (y ∈ s)) eqn:E; [done|].
  apply bool_decide_eq_false in E. apply NoDup_app. split; [done|]. split.
  - intros x Hx ->%list_elem_of_singleton. done.
  - apply NoDup_singleton.
Qed.

Lemma nodup_set_delete (y : nat) (s : list nat) : NoDup s -> NoDup (set_delete y s).
Proof. apply NoDup_filter. Qed.

Lemma keys_remove {K V : Type} `{EqDecision K} (k k' : K) (l : list (K * V)) :
  k' ∈ JsMap.keys (JsMap.remove k l) <-> k' ∈ JsMap.keys l /\ k' <> k.
Proof.
  rewrite <- !get_is_Some_keys. destruct (decide (k = k')) as [->|Hne].
  - rewrite get_remove_eq. split; [by intros [? ?]|]. by intros [_ ?].
  - rewrite get_remove_ne by done. split; [intros ?; split; [done|congruence]|tauto].
Qed.

Lemma nodup_keys_remove {K V : Type} `{EqDecision K} (k : K) (l : list (K * V)) :
  NoDup (JsMap.keys l) -> NoDup (JsMap.keys (JsMap.remove k l)).
Proof.
  induction l as [|[k' v] l IH]; [done|].
  change (JsMap.keys ((k', v) :: l)) with (k' :: JsMap.keys l).
  intros [Hnot Hnd]%NoDup_cons. simpl. destruct (decide (k = k')).
  - by apply IH.
  - change (JsMap.keys ((k', v) :: JsMap.remove k l))
      with (k' :: JsMap.keys (JsMap.remove k l)).
    apply NoDup_cons. split; [|by apply IH].
    intros Hin. apply Hnot. by apply (keys_remove k k' l) in Hin as [? _].
Qed.

(** The connections registered after a step were registered before. *)
Lemma conns_pruned K P r r' c :
  Pruned K P r r' -> c ∈ JsMap.keys (conns (doc r')) -> c ∈ JsMap.keys (conns (doc r)).
Proof.
  intros Hp [ids Hc]%get_is_Some_keys. apply get_is_Some_keys.
  rewrite (pruned_conns _ _ _ _ Hp c ids Hc). by eexists.
Qed.

Lemma conns_inRoom room (f : Relay -> Relay) w R d' c :
  (forall r c, c ∈ JsMap.keys (conns (doc (f r))) -> c ∈ JsMap.keys (conns (doc r))) ->
  JsMap.get R (docs (inRoom room f w)) = Some d' -> c ∈ JsMap.keys (conns d') ->
  exists d, JsMap.get R (docs w) = Some d /\ c ∈ JsMap.keys (conns d).
Proof.
  intros Hf. unfold inRoom. destruct (JsMap.get room (docs w)) as [d0|] eqn:E.
  - destruct (decide (R = room)) as [->|Hne].
    + rewrite get_leave. intros [= <-] Hc. exists d0. split; [done|].
      by apply (Hf (mkRelay d0 (network w))).
    + rewrite get_leave_ne by done. intros Hd' Hc. by exists d'.
  - intros Hd' Hc. by exists d'.
Qed.

Lemma conns_closeConn conn r c :
  c ∈ JsMap.keys (conns (doc (closeConn conn r))) -> c ∈ JsMap.keys (conns (doc r)).
Proof. apply (conns_pruned _ _ _ _ _ (proj1 (closeConn_spec conn r))). Qed.

Lemma conns_send conn m r c :
  c ∈ JsMap.keys (conns (doc (send conn m r))) -> c ∈ JsMap.keys (conns (doc r)).
Proof.
  apply (conns_pruned (fun _ => True) (fun _ => True)). by apply pruned_send.
Qed.

Lemma conns_presenceTimeout clients r c :
  c ∈ JsMap.keys (conns (doc (presenceTimeout clients r))) -> c ∈ JsMap.keys (conns (doc r)).
Proof.
  unfold presenceTimeout. destruct (removeAwarenessStates _ clients) as [aw gone].
  destruct gone; [done|].
  intros H. apply (conns_pruned (fun _ => True) (fun _ => True) _ _ _
                     (pruned_awarenessChangeHandler _ _ _ _ (fun _ _ _ => I))) in H.
  done.
Qed.

Lemma conns_handler change conn r c :
  c ∈ JsMap.keys (conns (doc (awarenessChangeHandler change (Some conn) r))) ->
  c ∈ JsMap.keys (conns (doc r)).
Proof.
  intros H. apply (conns_pruned _ _ _ _ _ (handler_from_pruned change conn r)) in H.
  destruct (JsMap.get conn (conns (doc r))) as [ids|] eqn:E; [|done].
  simpl in H. by rewrite (keys_set_same conn _ ids) in H.
Qed.

Lemma conns_messageListener conn room message w R d' c :
  JsMap.get R (docs (messageListener conn room message w)) = Some d' ->
  c ∈ JsMap.keys (conns d') ->
  exists d, JsMap.get R (docs w) = Some d /\ c ∈ JsMap.keys (conns d).
Proof.
  unfold messageListener, messageListener_try.
  destruct (JsMap.get room (docs w)) as [d|] eqn:E; [|intros; by exists d'].
  assert (forall r', (forall c, c ∈ JsMap.keys (conns (doc r')) -> c ∈ JsMap.keys (conns d)) ->
            forall p ph,
            JsMap.get R (docs (mkWorld (JsMap.set room (doc r') (docs w)) (net r') p ph))
            = Some d' ->
            c ∈ JsMap.keys (conns d') ->
            exists d0, JsMap.get R (docs w) = Some d0 /\ c ∈ JsMap.keys (conns d0)) as Hfin.
  { intros r' Hsub p ph. simpl. destruct (decide (R = room)) as [->|Hne].
    - rewrite get_set_eq. intros [= <-] Hc. exists d. auto.
    - rewrite get_set_ne by done. intros Hd' Hc. by exists d'. }
  assert (forall d0, JsMap.get R (docs w) = Some d0 -> c ∈ JsMap.keys (conns d0) ->
            exists d1, JsMap.get R (docs w) = Some d1 /\ c ∈ JsMap.keys (conns d1)) as Hsame
    by (intros d0 ? ?; by exists d0).
  destruct (isEncryptedMessage message).
  { destruct (isEncryptedSyncMessage message); apply Hfin; intros c0 H;
      apply (conns_pruned _ _ _ _ _ (broadcast_pruned _ _ _)) in H; exact H. }
  destruct (Lib0.readVarUint message) as [[t rest]|]; [|apply Hsame].
  destruct (Lib0.js_is t messageSync).
  { destruct (Lib0.peekVarUint rest); [|apply Hsame].
    set (r0 := set_ydoc _ _).
    assert (forall c, c ∈ JsMap.keys (conns (doc match sync_update (readSyncMessage rest (ydoc d)) with
                                                  | Some update => updateHandler update r0
                                                  | None => r0
                                                  end)) -> c ∈ JsMap.keys (conns d)) as Hupd.
    { intros c0. destruct (sync_update _); [|done].
      intros H. apply (conns_pruned _ _ _ _ _ (updateHandler_pruned _ _)) in H. exact H. }
    destruct (sync_reply _); [|by apply Hfin].
    destruct (1 <? _)%nat; apply Hfin; [|done].
    intros c0 H. by apply Hupd, (conns_send _ _ _ _ H). }
  destruct (Lib0.js_is t messageAwareness); [|apply Hsame].
  destruct (Lib0.readVarUint8Array rest) as [[update rest']|]; [|apply Hsame].
  destruct (applyAwarenessUpdate _ _) as [aw [|[change|]]]; apply Hfin; try done.
  intros c0 H. by apply conns_handler in H.
Qed.

Lemma conns_finish conn room st w R d' c :
  JsMap.get R (docs (setupWSConnection_finish conn room st w)) = Some d' ->
  c ∈ JsMap.keys (conns d') ->
  (R = room /\ c = conn)
  \/ exists d, JsMap.get R (docs w) = Some d /\ c ∈ JsMap.keys (conns d).
Proof.
  destruct (JsMap.get room (docs w)) as [d|] eqn:E.
  2: { unfold setupWSConnection_finish, inRoom. rewrite E. intros; right; by exists d'. }
  rewrite (finish_room conn room st w d E).
  destruct (decide (R = room)) as [->|Hne].
  2: { rewrite get_leave_ne by done. intros; right; by exists d'. }
  rewrite get_leave. cbv zeta.
  set (r1 := match st with Some _ => _ | None => _ end).
  set (r2 := set_conns _ r1).
  match goal with |- Some (doc ?x) = _ -> _ => set (rfin := x) end.
  assert (forall c, c ∈ JsMap.keys (conns (doc r2)) -> c = conn \/ c ∈ JsMap.keys (conns d))
    as H2.
  { intros c0. unfold r2, r1. rewrite <- !get_is_Some_keys.
    destruct (decide (c0 = conn)) as [->|Hne]; [by left|].
    destruct st; simpl; rewrite get_set_ne by done; by right. }
  assert (forall c, c ∈ JsMap.keys (conns (doc rfin)) -> c ∈ JsMap.keys (conns (doc r2)))
    as Hsub.
  { intros c0. unfold rfin.
    destruct (isEncrypted (doc r2)); [destruct (encryptedState (doc r2))|];
      try apply conns_send;
      (destruct (0 <? _)%nat; intros H; [apply conns_send in H|]; by apply conns_send in H). }
  intros [= <-] Hc. destruct (H2 c (Hsub c Hc)) as [->|?]; [by left|right; by exists d].
Qed.

Lemma conns_getYDoc room gc w R d' c :
  JsMap.get R (docs (getYDoc room gc w)) = Some d' -> c ∈ JsMap.keys (conns d') ->
  exists d, JsMap.get R (docs w) = Some d /\ c ∈ JsMap.keys (conns d).
Proof.
  unfold getYDoc. destruct (JsMap.get room (docs w)) eqn:E; [intros; by exists d'|].
  simpl. destruct (decide (R = room)) as [->|Hne].
  - rewrite get_set_eq. intros [= <-] Hc. by inversion Hc.
  - rewrite get_set_ne by done. intros; by exists d'.
Qed.

Lemma conns_start room gc w R d' c :
  JsMap.get R (docs (setupWSConnection_start env room gc w).1) = Some d' ->
  c ∈ JsMap.keys (conns d') ->
  exists d, JsMap.get R (docs w) = Some d /\ c ∈ JsMap.keys (conns d).
Proof. rewrite docs_start. apply conns_getYDoc. Qed.

End Facts.
End ConnsFacts.

(** ** Relaying *)

Module MoreRelayFacts.
Import Persistence Utils Server Reach JsMapFacts UtilsFacts ClosingFacts ServerFacts.
Import RelayingFacts PersistenceFacts.
Import KeyFacts StoreFacts ReachFacts JoinFacts RelayFacts ConnsFacts.

Section Facts.
Context {Y : YLib}.
Variable env : Env.
Implicit Types (w : World) (r : Relay) (d : WSSharedDoc) (room : string).
Implicit Types (conn c : Conn) (m message : bytes).

(** The server relays encrypted frames without looking into them: a frame
    whose first byte is 1, 2 or 3 is never applied to the room's document
    or presence, and it adds no connection and no presence entry.  Every
    other connection whose socket works is sent the frame, byte for byte,
    and stays registered; every other connection whose socket does not
    work is removed.  The frames sent because of it are copies of the
    frame to connections other than the sender and notices of presence
    entries revoked from connections found dead: no notice is sent unless
    a connection whose socket does not work controls a presence entry, and
    when every other connection works the frames sent are exactly one copy
    per other connection, in the order of the map, and the room's
    connections and presence are unchanged. *)
Theorem encrypted_frames_never_touch_the_document
    (conn : Conn) (room : string) (m : bytes) (w : World) (d : WSSharedDoc) :
  JsMap.get room (docs w) = Some d ->
  isEncryptedMessage m = true ->
  let w' := messageListener conn room m w in
  exists d' sent,
    JsMap.get room (docs w') = Some d'
    /\ ydoc d' = ydoc d
    /\ name d' = name d
    /\ isEncrypted d' = true
    /\ (forall id v, JsMap.get id (states (awareness d')) = Some v ->
                     JsMap.get id (states (awareness d)) = Some v)
    /\ (forall c ids, JsMap.get c (conns d') = Some ids -> JsMap.get c (conns d) = Some ids)
    /\ wire (network w') = sent ++ wire (network w)
    /\ Forall (fun e => (e.1 <> conn /\ e.2 = m)
                        \/ isRemovalNotice (fun _ => True) (mkRelay d (network w)) e.2) sent
    /\ ((forall c ids id,
           JsMap.get c (conns d) = Some ids -> id ∈ ids ->
           is_Some (JsMap.get id (states (awareness d))) -> aliveb (network w) c = true) ->
        Forall (fun e => e.1 <> conn /\ e.2 = m) sent)
    /\ (forall c, c ∈ JsMap.keys (conns d) -> c <> conn -> aliveb (network w) c = true ->
                  (c, m) ∈ sent)
    /\ (forall c, c <> conn -> aliveb (network w) c = false -> JsMap.get c (conns d') = None)
    /\ (forall c, aliveb (network w) c = true -> JsMap.get c (conns d') = JsMap.get c (conns d))
    /\ ((forall c, c ∈ JsMap.keys (conns d) -> c <> conn -> aliveb (network w) c = true) ->
        sent = rev ((fun c => (c, m))
                    <$> List.filter (fun c => negb (Nat.eqb c conn)) (JsMap.keys (conns d)))
        /\ conns d' = conns d /\ awareness d' = awareness d).
Proof.
  intros Hd Henc w'. unfold w'.
  assert (forall r0, doc r0 = doc (set_isEncrypted true (mkRelay d (network w)))
                     \/ doc r0 = doc (set_encryptedState (Some m)
                                        (set_isEncrypted true (mkRelay d (network w)))) ->
            net r0 = network w ->
            forall p,
            let r1 := broadcastEncryptedMessage conn m r0 in
            let w1 := mkWorld (JsMap.set room (doc r1) (docs w)) (net r1) p (phase w) in
            exists d' sent,
              JsMap.get room (docs w1) = Some d'
              /\ ydoc d' = ydoc d /\ name d' = name d /\ isEncrypted d' = true
              /\ (forall id v, JsMap.get id (states (awareness d')) = Some v ->
                               JsMap.get id (states (awareness d)) = Some v)
              /\ (forall c ids, JsMap.get c (conns d') = Some ids ->
                                JsMap.get c (conns d) = Some ids)
              /\ wire (network w1) = sent ++ wire (network w)
              /\ Forall (fun e => (e.1 <> conn /\ e.2 = m)
                                  \/ isRemovalNotice (fun _ => True) (mkRelay d (network w)) e.2)
                        sent
              /\ ((forall c ids id,
                     JsMap.get c (conns d) = Some ids -> id ∈ ids ->
                     is_Some (JsMap.get id (states (awareness d))) ->
                     aliveb (network w) c = true) ->
                  Forall (fun e => e.1 <> conn /\ e.2 = m) sent)
              /\ (forall c, c ∈ JsMap.keys (conns d) -> c <> conn ->
                            aliveb (network w) c = true -> (c, m) ∈ sent)
              /\ (forall c, c <> conn -> aliveb (network w) c = false ->
                            JsMap.get c (conns d') = None)
              /\ (forall c, aliveb (network w) c = true ->
                            JsMap.get c (conns d') = JsMap.get c (conns d))
              /\ ((forall c, c ∈ JsMap.keys (conns d) -> c <> conn ->
                             aliveb (network w) c = true) ->
                  sent = rev ((fun c => (c, m))
                              <$> List.filter (fun c => negb (Nat.eqb c conn))
                                    (JsMap.keys (conns d)))
                  /\ conns d' = conns d /\ awareness d' = awareness d)) as Hfin.
  { intros r0 Hdoc Hnet p r1 w1. pose proof (broadcast_pruned conn m r0) as Hp. fold r1 in Hp.
    assert (ydoc (doc r0) = ydoc d /\ name (doc r0) = name d /\ isEncrypted (doc r0) = true
            /\ awareness (doc r0) = awareness d /\ conns (doc r0) = conns d)
      as (E1 & E2 & E3 & E4 & E5) by (destruct Hdoc as [-> | ->]; done).
    destruct (broadcast_facts conn m r0)
      as (sent & Hw & Hall & Hquiet & _ & Hdeliver & Hprune & Hkeep & Hexact).
    fold r1 in Hw, Hprune, Hkeep, Hexact.
    exists (doc r1), sent. unfold w1. simpl docs. simpl network. rewrite get_set_eq.
    rewrite (pruned_ydoc _ _ _ _ Hp), (pruned_name _ _ _ _ Hp), (pruned_mode _ _ _ _ Hp).
    rewrite Hw, Hnet, E1, E2, E3. rewrite Hnet, ?E4, ?E5 in *.
    split; [done|]. split; [done|]. split; [done|]. split; [done|]. split.
    { intros id v H. apply (pruned_presence _ _ _ _ Hp) in H. by rewrite E4 in H. }
    split.
    { intros c ids H. apply (pruned_conns _ _ _ _ Hp) in H. by rewrite E5 in H. }
    split; [done|]. split.
    { eapply Forall_impl; [exact Hall|]. intros e [H|H]; [by left|right].
      destruct H as (aw & gone & H1 & H2 & H3 & H4). exists aw, gone.
      split; [done|]. split; [done|]. simpl. rewrite E4 in H3, H4. rewrite E5, Hnet in H4.
      by split. }
    split; [done|]. split; [done|]. split; [done|]. split; [done|].
    intros Halive. destruct (Hexact Halive) as (-> & -> & _). by rewrite E4, E5. }
  destruct (isEncryptedSyncMessage m) eqn:Hsync.
  - rewrite (messageListener_encrypted_sync conn room m w d) by done. cbv zeta.
    apply (Hfin (set_encryptedState (Some m) (set_isEncrypted true (mkRelay d (network w)))));
      [by right|done].
  - rewrite (messageListener_encrypted_presence conn room m w d) by done.
    apply (Hfin (set_isEncrypted true (mkRelay d (network w)))); [by left|done].
Qed.


(** A legacy presence frame (tag 1, written so that the first byte is not
    1, 2 or 3, as in the two bytes 0x81 0x00) whose update changes
    something is applied to the room's presence and announced to every
    connection of the room, the sender included.  Every connection whose
    socket works is sent the presence frame and stays registered; every
    connection whose socket does not work is removed.  The presence is
    what the update made of it, less the entries of the connections that
    were removed: no entry is added, an entry goes away only with a
    removed connection that controlled it, and when every socket works
    the presence is exactly the updated one and the frames sent are
    exactly one copy of the presence frame per connection, in the order
    of the map.  Otherwise the frames sent are copies of the presence frame
    and notices of the entries revoked from connections found dead.
    Nothing is scheduled; mode, blob and document stay. *)
Theorem legacy_presence_update_is_broadcast
    (conn : Conn) (room : string) (message : bytes) (w : World) (d : WSSharedDoc)
    (t : Lib0.JsNumber) (rest update rest' : bytes) (aw : Awareness Json Meta)
    (change : AwarenessChange) :
  JsMap.get room (docs w) = Some d ->
  isEncryptedMessage message = false ->
  Lib0.readVarUint message = Some (t, rest) ->
  Lib0.js_is t messageSync = false ->
  Lib0.js_is t messageAwareness = true ->
  Lib0.readVarUint8Array rest = Some (update, rest') ->
  applyAwarenessUpdate (awareness d) update = (aw, AwDone (Some change)) ->
  let w' := messageListener conn room message w in
  let frame := Lib0.writeVarUint (Z.to_N messageAwareness)
               ++ Lib0.writeVarUint8Array
                    (encodeAwarenessUpdate aw
                       (added change ++ updated change ++ removed change)) in
  let r1 := recordChange change conn (set_awareness aw (mkRelay d (network w))) in
  persist w' = persist w
  /\ exists d' sent,
       JsMap.get room (docs w') = Some d'
       /\ isEncrypted d' = isEncrypted d
       /\ encryptedState d' = encryptedState d
       /\ ydoc d' = ydoc d
       /\ (forall id v, JsMap.get id (states (awareness d')) = Some v ->
                        JsMap.get id (states aw) = Some v)
       /\ (forall id v,
             JsMap.get id (states aw) = Some v ->
             JsMap.get id (states (awareness d')) = None ->
             exists c ids, JsMap.get c (conns (doc r1)) = Some ids /\ id ∈ ids
                           /\ aliveb (network w) c = false
                           /\ JsMap.get c (conns d') = None)
       /\ wire (network w') = sent ++ wire (network w)
       /\ Forall (fun e => e.2 = frame \/ isRemovalNotice (fun _ => True) r1 e.2) sent
       /\ ((forall c ids id,
              JsMap.get c (conns (doc r1)) = Some ids -> id ∈ ids ->
              is_Some (JsMap.get id (states aw)) -> aliveb (network w) c = true) ->
           Forall (fun e => e.2 = frame) sent)
       /\ (forall c, c ∈ JsMap.keys (conns d) ->
                     (c, frame) ∈ sent \/ JsMap.get c (conns d') = None)
       /\ (forall c, c ∈ JsMap.keys (conns d) -> aliveb (network w) c = true ->
                     (c, frame) ∈ sent)
       /\ (forall c, aliveb (network w) c = false -> JsMap.get c (conns d') = None)
       /\ (forall c, aliveb (network w) c = true ->
                     JsMap.get c (conns d') = JsMap.get c (conns (doc r1)))
       /\ ((forall c, c ∈ JsMap.keys (conns d) -> aliveb (network w) c = true) ->
           sent = rev ((fun c => (c, frame)) <$> JsMap.keys (conns d))
           /\ awareness d' = aw /\ conns d' = conns (doc r1)).
Proof.
  intros Hd Hleg Hread Hsync Haw Hpayload Happly w' frame r1.
  unfold w', messageListener, messageListener_try.
  rewrite Hd, Hleg, Hread, Hsync, Haw, Hpayload, Happly.
  split; [done|]. rewrite get_leave.
  set (r0 := set_awareness aw (mkRelay d (network w))) in *.
  destruct (closes_handler change conn r0) as [Heq Hc]. fold r1 in Heq, Hc.
  assert (awareness (doc r1) = aw /\ net r1 = network w
          /\ JsMap.keys (conns (doc r1)) = JsMap.keys (conns d)
          /\ isEncrypted (doc r1) = isEncrypted d
          /\ encryptedState (doc r1) = encryptedState d
          /\ ydoc (doc r1) = ydoc d) as (Haw1 & Hnet1 & Hkeys & Hm1 & Hb1 & Hy1).
  { unfold r1, recordChange. destruct (JsMap.get conn (conns (doc r0))) as [ids|] eqn:E.
    - repeat split; try done. simpl. by rewrite (keys_set_same conn _ ids).
    - repeat split; done. }
  assert (awarenessFrame r1 (added change ++ updated change ++ removed change) = frame)
    as Hframe by (unfold awarenessFrame; by rewrite Haw1).
  rewrite Hframe in Heq, Hc.
  set (r' := awarenessChangeHandler change (Some conn) r0) in *.
  destruct Hc as [Hp _ _ Hpres].
  destruct (pruned_wire _ _ _ _ Hp) as (sent & Hw & Hall).
  exists (doc r'), sent.
  split; [done|].
  rewrite (pruned_mode _ _ _ _ Hp), (pruned_blob _ _ _ _ Hp), (pruned_ydoc _ _ _ _ Hp).
  split; [done|]. split; [done|]. split; [done|]. split.
  { intros id v H. apply (pruned_presence _ _ _ _ Hp) in H. by rewrite Haw1 in H. }
  assert (forall c, aliveb (network w) c = false -> JsMap.get c (conns (doc r')) = None)
    as Hprune.
  { intros c Hdead. rewrite Heq. apply forEach_send_prunes. by rewrite Hnet1. }
  split.
  { intros id v H1 H2. rewrite <- Haw1 in H1.
    destruct (Hpres id v H1 H2) as (c & ids & Hg & Hin & Hgone).
    exists c, ids. split; [done|]. split; [done|]. split; [|done].
    destruct (aliveb (network w) c) eqn:Ha; [|done].
    destruct (pruned_alive _ _ _ _ Hp c I) as [_ Hk]; [by rewrite Hnet1|]. congruence. }
  change (network (leave room r' w)) with (net r').
  rewrite Hw, Hnet1. split; [done|]. split; [done|]. split.
  { intros Hnone. eapply Forall_impl; [exact Hall|]. intros e [H|H]; [done|]. exfalso.
    destruct (notice_needs_dead r1 _ H) as (c & ids & id & H1 & H2 & H3 & H4).
    rewrite Haw1 in H3. rewrite Hnet1 in H4. rewrite (Hnone c ids id H1 H2 H3) in H4. done. }
  split.
  { intros c Hc.
    destruct (fold_reaches (fun _ => True) (fun _ => True)
                (fun c0 => send c0 frame) c frame (JsMap.keys (conns (doc r1))) r1)
      as (sent' & Hw' & Hor).
    - intros c' r2. by apply pruned_send.
    - intros r2. apply send_outcome.
    - by rewrite Hkeys.
    - rewrite Heq in Hw. unfold conns_forEach in Hw. rewrite Hw in Hw'.
      apply app_inv_tail in Hw'. rewrite Hw', Heq. exact Hor. }
  split.
  { intros c Hc Ha.
    destruct (fold_delivers (fun _ => True) (fun _ => True)
                (fun c0 => send c0 frame) c frame (JsMap.keys (conns (doc r1))) r1)
      as (sent' & Hw' & Hin').
    - intros c' r2. by apply pruned_send.
    - done.
    - intros r2. apply send_alive.
    - by rewrite Hkeys.
    - by rewrite Hnet1.
    - apply get_is_Some_keys. by rewrite Hkeys.
    - rewrite Heq in Hw. unfold conns_forEach in Hw. rewrite Hw in Hw'.
      apply app_inv_tail in Hw'. by rewrite Hw'. }
  split; [done|]. split.
  { intros c Ha. apply (pruned_alive _ _ _ _ Hp c I). by rewrite Hnet1. }
  intros Halive.
  assert (r' = mkRelay (doc r1)
                 (mkNet (sockets (net r1))
                        (rev ((fun c => (c, frame))
                              <$> List.filter (fun _ => true) (JsMap.keys (conns (doc r1))))
                         ++ wire (net r1))
                        (closeCalls (net r1)))) as Hr'.
  { rewrite Heq. unfold conns_forEach.
    apply (fold_all_alive (fun c0 => send c0 frame) (fun _ => true)).
    - done.
    - intros c r2 _. apply send_alive.
    - intros c Hc. split; [by apply get_is_Some_keys|]. intros _.
      rewrite Hnet1. apply Halive. by rewrite <- Hkeys. }
  assert (forall l : list Conn, List.filter (fun _ => true) l = l) as Hfilter
    by (induction l as [|a l IH]; [done|]; simpl; by rewrite IH).
  rewrite Hfilter, Hkeys in Hr'. rewrite Hr' in Hw |- *. simpl in Hw |- *.
  rewrite Hnet1 in Hw. apply app_inv_tail in Hw. by rewrite Hw.
Qed.


End Facts.
End MoreRelayFacts.

(** ** The front end *)

Module IndexFacts.
Import Persistence Utils Server Reach Index JsMapFacts UtilsFacts ServerFacts PersistenceFacts.
Import KeyFacts StoreFacts ReachFacts JoinFacts RelayFacts ConnsFacts.

Section Facts.
Context {Y : YLib}.
Variable env : Env.
Variable COLLAB_JWT_SECRET : option string.
Variable jwt_verify : string -> string -> option CollabToken.

Local Abbreviation Front := (Front (Y := Y)).
Local Abbreviation onConnection := (onConnection env COLLAB_JWT_SECRET jwt_verify).
Local Abbreviation verifyToken := (verifyToken COLLAB_JWT_SECRET jwt_verify).
Local Abbreviation handleFront := (handleFront env COLLAB_JWT_SECRET jwt_verify).
Local Abbreviation runFront := (runFront env COLLAB_JWT_SECRET jwt_verify).
Local Abbreviation AdmissionInv := (AdmissionInv COLLAB_JWT_SECRET jwt_verify).

Implicit Types (f : Front) (w : World) (ws c : Conn) (room roomName : string).

(** *** Rejected connections *)

(** The close code a request is answered with, if it is not admitted. *)
Lemma onConnection_rejected (req : Request) f (token name : option string) :
  searchParams req = Some (token, name) ->
  truthy token && truthy name
  && match verifyToken (default EmptyString token) with
     | Some tokenData =>
         String.eqb (default EmptyString name)
                    (bookId tokenData +:+ ":" +:+ chapterId tokenData)
     | None => false
     end = false ->
  exists code reason,
    onConnection req f
    = Normal (ws_close (nextSocket f) code reason
                (mkFront (world f) (roomConnections f) (set_add (nextSocket f) (clients f))
                   (fun c => if decide (c = nextSocket f) then plainSocket else fields f c)
                   (listening f) (awaiting f) (joined f) (closed f) (terminated f)
                   (pinged f) (S (nextSocket f))))
    /\ code = (if negb (truthy token) || negb (truthy name) then 4001
               else match verifyToken (default EmptyString token) with
                    | None => 4002
                    | Some _ => 4003
                    end).
Proof.
  intros Hreq Hrej. unfold onConnection. rewrite Hreq.
  destruct (truthy token), (truthy name); simpl in *;
    try (eexists _, _; split; [reflexivity|done]).
  destruct (verifyToken (default EmptyString token)) as [td|].
  - rewrite Hrej. simpl. eexists _, _. split; [reflexivity|done].
  - eexists _, _. split; [reflexivity|done].
Qed.

(** A connection that is not admitted is closed with the code of the
    first check it fails (4001: token or room missing or empty; 4002: the
    token does not verify; 4003: the room is not the token's
    [bookId:chapterId]) and leaves no other trace: no room is created, the
    store is not asked, nothing is sent, and the socket is neither tracked
    nor listened to. *)
Theorem rejected_connection_is_closed_and_ignored
    (req : Request) (f : Front) (token name : option string) :
  searchParams req = Some (token, name) ->
  truthy token && truthy name
  && match verifyToken (default EmptyString token) with
     | Some tokenData =>
         String.eqb (default EmptyString name)
                    (bookId tokenData +:+ ":" +:+ chapterId tokenData)
     | None => false
     end = false ->
  exists f' reason,
    onConnection req f = Normal f'
    /\ closed f'
       = (nextSocket f,
          (if negb (truthy token) || negb (truthy name) then 4001
           else match verifyToken (default EmptyString token) with
                | None => 4002
                | Some _ => 4003
                end, reason)) :: closed f
    /\ docs (world f') = docs (world f)
    /\ persist (world f') = persist (world f)
    /\ wire (network (world f')) = wire (network (world f))
    /\ roomConnections f' = roomConnections f
    /\ listening f' = listening f
    /\ awaiting f' = awaiting f
    /\ joined f' = joined f.
Proof.
  intros Hreq Hrej.
  destruct (onConnection_rejected req f token name Hreq Hrej) as (code & reason & -> & ->).
  eexists _, reason. split; [reflexivity|]. by repeat split.
Qed.

(** *** Admission *)

Lemma adm_same f f' :
  listening f' = listening f -> awaiting f' = awaiting f -> joined f' = joined f ->
  (nextSocket f <= nextSocket f')%nat ->
  (forall R d' c, JsMap.get R (docs (world f')) = Some d' -> c ∈ JsMap.keys (conns d') ->
                  exists d, JsMap.get R (docs (world f)) = Some d /\ c ∈ JsMap.keys (conns d)) ->
  AdmissionInv f -> AdmissionInv f'.
Proof.
  intros Hl Ha Hj Hn Hc [I1 I2 I3 I4 I5 I6 I7].
  constructor; rewrite ?Hl, ?Ha, ?Hj.
  - intros ws x H. specialize (I1 ws x H). lia.
  - intros ws x H. specialize (I2 ws x H). lia.
  - intros ws x H. specialize (I3 ws x H). lia.
  - done.
  - done.
  - done.
  - intros room d ws Hd Hin. destruct (Hc room d ws Hd Hin) as (d0 & Hd0 & Hin0). eauto.
Qed.

Lemma conns_handle (e : Event) w R d' c :
  match e with EvSetupFinish _ _ _ => False | _ => True end ->
  JsMap.get R (docs (handle env e w)) = Some d' -> c ∈ JsMap.keys (conns d') ->
  exists d, JsMap.get R (docs w) = Some d /\ c ∈ JsMap.keys (conns d).
Proof.
  intros He. unfold handle.
  assert (forall w', docs w' = docs w ->
            JsMap.get R (docs w') = Some d' -> c ∈ JsMap.keys (conns d') ->
            exists d, JsMap.get R (docs w) = Some d /\ c ∈ JsMap.keys (conns d)) as Hsame.
  { intros w' ->. intros; by exists d'. }
  destruct (phase w) eqn:Hph; [| |by apply Hsame]; destruct e; try done;
    try apply (conns_start env);
    try apply conns_messageListener;
    try (apply conns_inRoom; intros r c0;
         first [apply conns_closeConn|apply conns_presenceTimeout]);
    try (by apply Hsame);
    try (apply Hsame; unfold onSIGTERM, processExit; by rewrite Hph).
Qed.

Lemma keepalive_frame ws f f' :
  keepalive ws f = Some f' ->
  docs (world f') = docs (world f) /\ persist (world f') = persist (world f)
  /\ phase (world f') = phase (world f) /\ wire (network (world f')) = wire (network (world f))
  /\ roomConnections f' = roomConnections f /\ clients f' = clients f
  /\ listening f' = listening f /\ awaiting f' = awaiting f /\ joined f' = joined f
  /\ nextSocket f' = nextSocket f /\ closed f' = closed f.
Proof.
  unfold keepalive, ws_ping. destruct (isAlive (fields f ws)) as [[|]|].
  - simpl. destruct (_ =? _); [done|]. intros [= <-]. by repeat split.
  - intros [= <-]. by repeat split.
  - simpl. destruct (_ =? _); [done|]. intros [= <-]. by repeat split.
Qed.

Lemma tick_frame f f' :
  tick f = Some f' ->
  docs (world f') = docs (world f) /\ persist (world f') = persist (world f)
  /\ phase (world f') = phase (world f) /\ wire (network (world f')) = wire (network (world f))
  /\ roomConnections f' = roomConnections f /\ clients f' = clients f
  /\ listening f' = listening f /\ awaiting f' = awaiting f /\ joined f' = joined f
  /\ nextSocket f' = nextSocket f /\ closed f' = closed f.
Proof.
  unfold tick. generalize (clients f) at 1. intros l. revert f.
  induction l as [|ws l IH]; intros f; simpl.
  - intros [= <-]. by repeat split.
  - destruct (keepalive ws f) as [f1|] eqn:E.
    + intros H. apply IH in H. apply keepalive_frame in E.
      destruct H as (A1&A2&A3&A4&A5&A6&A7&A8&A9&A10&A11),
               E as (B1&B2&B3&B4&B5&B6&B7&B8&B9&B10&B11).
      repeat split; congruence.
    + intros H. exfalso. clear -H. induction l as [|x l IHl]; simpl in H; [done|auto].
Qed.

Lemma adm_fresh_not_joined f :
  AdmissionInv f -> JsMap.get (nextSocket f) (joined f) = None
                    /\ JsMap.get (nextSocket f) (awaiting f) = None
                    /\ JsMap.get (nextSocket f) (listening f) = None.
Proof.
  intros [I1 I2 I3 _ _ _ _]. repeat split.
  - destruct (JsMap.get _ (joined f)) eqn:E; [|done]. apply I3 in E. lia.
  - destruct (JsMap.get _ (awaiting f)) eqn:E; [|done]. apply I2 in E. lia.
  - destruct (JsMap.get _ (listening f)) eqn:E; [|done]. apply I1 in E. lia.
Qed.

Lemma adm_callSetup (req : Request) f (tokenData : CollabToken) roomName token :
  AdmissionInv f ->
  roomName <> EmptyString ->
  verifyToken token = Some tokenData ->
  roomName = (bookId tokenData +:+ ":" +:+ chapterId tokenData)%string ->
  let ws := nextSocket f in
  forall f2,
    world f2 = world f -> listening f2 = listening f -> awaiting f2 = awaiting f ->
    joined f2 = joined f -> nextSocket f2 = S ws ->
    let f3 := callSetup env ws req roomName f2 in
    AdmissionInv (mkFront (world f3) (roomConnections f3) (clients f3) (fields f3)
                    (JsMap.set ws (tokenData, roomName) (listening f3))
                    (awaiting f3) (joined f3) (closed f3) (terminated f3)
                    (pinged f3) (nextSocket f3)).
Proof.
  intros Hinv Hroom Htok Hname ws f2 Hw Hl Ha Hj Hn f3.
  destruct (adm_fresh_not_joined f Hinv) as (Fj & Fa & Fl). fold ws in Fj, Fa, Fl.
  destruct Hinv as [I1 I2 I3 I4 I5 I6 I7].
  unfold f3, callSetup. rewrite setupName_given by done.
  destruct (setupWSConnection_start env roomName true (world f2)) as [w1 st] eqn:Hstart.
  assert (w1 = (setupWSConnection_start env roomName true (world f)).1) as Hw1
    by (by rewrite <- Hw, Hstart).
  destruct (suspends roomName w1); constructor; simpl; rewrite ?Hl, ?Ha, ?Hj, ?Hn.
  - intros c x. destruct (decide (c = ws)) as [->|Hne]; [lia|].
    rewrite get_set_ne by done. intros H. apply I1 in H. fold ws in H. lia.
  - intros c x. destruct (decide (c = ws)) as [->|Hne]; [lia|].
    rewrite get_set_ne by done. intros H. apply I2 in H. fold ws in H. lia.
  - intros c x H. apply I3 in H. fold ws in H. lia.
  - intros c td rn. destruct (decide (c = ws)) as [->|Hne].
    + rewrite get_set_eq. intros [= <- <-]. split; [by exists token|done].
    + rewrite get_set_ne by done. apply I4.
  - intros c rm st0. destruct (decide (c = ws)) as [->|Hne].
    + rewrite !get_set_eq. intros [= <- <-]. split; [done|by eexists].
    + rewrite !get_set_ne by done. intros H. exact (I5 _ _ _ H).
  - intros c rm H. destruct (decide (c = ws)) as [->|Hne]; [congruence|].
    rewrite get_set_ne by done. by apply I6.
  - intros R d c Hd Hc. rewrite Hw1 in Hd.
    destruct (conns_start env roomName true (world f) R d c Hd Hc) as (d0 & Hd0 & Hc0).
    by apply (I7 R d0).
  - intros c x. destruct (decide (c = ws)) as [->|Hne]; [lia|].
    rewrite get_set_ne by done. intros H. apply I1 in H. fold ws in H. lia.
  - intros c x H. apply I2 in H. fold ws in H. lia.
  - intros c x. destruct (decide (c = ws)) as [->|Hne]; [lia|].
    rewrite get_set_ne by done. intros H. apply I3 in H. fold ws in H. lia.
  - intros c td rn. destruct (decide (c = ws)) as [->|Hne].
    + rewrite get_set_eq. intros [= <- <-]. split; [by exists token|done].
    + rewrite get_set_ne by done. apply I4.
  - intros c rm st0 H. assert (c <> ws) as Hne by congruence.
    rewrite !get_set_ne by done. exact (I5 _ _ _ H).
  - intros c rm. destruct (decide (c = ws)) as [->|Hne].
    + rewrite !get_set_eq. intros [= <-]. by eexists.
    + rewrite !get_set_ne by done. apply I6.
  - intros R d c Hd Hc.
    destruct (conns_finish ws roomName None w1 R d c Hd Hc) as [[-> ->]|(d1 & Hd1 & Hc1)].
    + apply get_set_eq.
    + rewrite Hw1 in Hd1.
      destruct (conns_start env roomName true (world f) R d1 c Hd1 Hc1) as (d0 & Hd0 & Hc0).
      pose proof (I7 R d0 c Hd0 Hc0) as Hjc.
      assert (c <> ws) as Hne by congruence. by rewrite get_set_ne.
Qed.

Lemma adm_onConnection (req : Request) f f' :
  AdmissionInv f ->
  onConnection req f = Normal f' \/ onConnection req f = Threw f' ->
  AdmissionInv f'.
Proof.
  intros Hinv. unfold onConnection.
  set (f0 := mkFront (world f) (roomConnections f) (set_add (nextSocket f) (clients f)) _
                     (listening f) (awaiting f) (joined f) (closed f) (terminated f)
                     (pinged f) (S (nextSocket f))).
  assert (forall f1, listening f1 = listening f -> awaiting f1 = awaiting f ->
            joined f1 = joined f -> nextSocket f1 = S (nextSocket f) ->
            docs (world f1) = docs (world f) -> AdmissionInv f1) as Hsame.
  { intros f1 Hl Ha Hj Hn Hd. apply (adm_same f); try done; [lia|].
    rewrite Hd. intros; by eexists. }
  destruct (searchParams req) as [[token name]|].
  2: { intros [?|[= <-]]; [done|]. by apply Hsame. }
  destruct (truthy token) eqn:Ht; simpl.
  2: { intros [[= <-]|?]; [|done]. by apply Hsame. }
  destruct (truthy name) eqn:Hn; simpl.
  2: { intros [[= <-]|?]; [|done]. by apply Hsame. }
  destruct (verifyToken (default EmptyString token)) as [td|] eqn:Hv.
  2: { intros [[= <-]|?]; [|done]. by apply Hsame. }
  destruct (String.eqb_spec (default EmptyString name)
              (bookId td +:+ ":" +:+ chapterId td)) as [Heq|Hne]; simpl.
  2: { intros [[= <-]|?]; [|done]. by apply Hsame. }
  intros [[= <-]|?]; [|done].
  apply (adm_callSetup req f td (default EmptyString name) (default EmptyString token));
    try done.
  destruct name as [n|]; [|done]. simpl in *. by destruct n.
Qed.

Lemma adm_onLoaded ws f : AdmissionInv f -> AdmissionInv (onLoaded ws f).
Proof.
  intros Hinv. unfold onLoaded.
  destruct (JsMap.get ws (awaiting f)) as [[room st]|] eqn:E; [|done].
  destruct Hinv as [I1 I2 I3 I4 I5 I6 I7].
  destruct (I5 ws room st E) as [Hnj [td Htd]].
  constructor; simpl.
  - done.
  - intros c x H. apply get_remove_some in H. by apply I2 in H.
  - intros c x. destruct (decide (c = ws)) as [->|Hne].
    + intros _. by apply I2 in E.
    + rewrite get_set_ne by done. apply I3.
  - done.
  - intros c rm st0 H. assert (c <> ws) as Hne.
    { intros ->. by rewrite get_remove_eq in H. }
    rewrite get_remove_ne in H by done. rewrite get_set_ne by done. by apply I5 in H.
  - intros c rm. destruct (decide (c = ws)) as [->|Hne].
    + rewrite get_set_eq. intros [= <-]. by exists td.
    + rewrite get_set_ne by done. apply I6.
  - intros R d c Hd Hc.
    destruct (conns_finish ws room st (world f) R d c Hd Hc) as [[-> ->]|(d1 & Hd1 & Hc1)].
    + apply get_set_eq.
    + pose proof (I7 R d1 c Hd1 Hc1) as Hjc.
      assert (c <> ws) as Hne by congruence. by rewrite get_set_ne.
Qed.

Lemma adm_handleFront (e : FrontEvent) f : AdmissionInv f -> AdmissionInv (handleFront e f).
Proof.
  intros Hinv. unfold handleFront.
  assert (forall w', (forall R d' c, JsMap.get R (docs w') = Some d' ->
                                     c ∈ JsMap.keys (conns d') ->
                                     exists d, JsMap.get R (docs (world f)) = Some d
                                               /\ c ∈ JsMap.keys (conns d)) ->
            AdmissionInv (set_world w' f)) as Hworld.
  { intros w' Hc. by apply (adm_same f). }
  assert (forall (e0 : Event),
            match e0 with EvSetupFinish _ _ _ => False | _ => True end ->
            AdmissionInv (set_world (handle env e0 (world f)) f)) as Hbg.
  { intros e0 He0. apply Hworld. intros R d' c. by apply conns_handle. }
  assert (forall f0, AdmissionInv f0 -> AdmissionInv (crash f0)) as Hcrash.
  { intros f0 H0. apply (adm_same f0); try done. intros; by eexists. }
  assert (AdmissionInv
            match e with
            | FConnection req =>
                match phase (world f) with
                | Running =>
                    match onConnection req f with
                    | Normal f' => f'
                    | Threw f' => crash f'
                    end
                | _ => f
                end
            | FLoaded ws => onLoaded ws f
            | FMessage ws m => onMessage ws m f
            | FPong ws => onPong ws f
            | FSocketClose ws => onSocketClose ws f
            | FTick => match tick f with Some f' => f' | None => crash f end
            | FSendError ws =>
                match JsMap.get ws (joined f) with
                | Some room => set_world (handle env (EvSendError ws room) (world f)) f
                | None => f
                end
            | FTransport ws s => set_world (handle env (EvTransport ws s) (world f)) f
            | FPresenceTimeout room clients =>
                set_world (handle env (EvPresenceTimeout room clients) (world f)) f
            | FAdvance dt => set_world (handle env (EvAdvance dt) (world f)) f
            | FTimers => set_world (handle env EvTimers (world f)) f
            | FSIGTERM => set_world (handle env EvSIGTERM (world f)) f
            | FExit => set_world (handle env EvExit (world f)) f
            end) as Hbody.
  { destruct e; try (by apply Hbg).
    - destruct (phase (world f)); try done.
      destruct (onConnection req f) as [f'|f'] eqn:E.
      + apply (adm_onConnection req f); auto.
      + apply Hcrash. apply (adm_onConnection req f); auto.
    - by apply adm_onLoaded.
    - unfold onMessage. destruct (bool_decide _); [|done].
      destruct (JsMap.get ws (joined f)); [|done].
      apply Hworld. intros R d' c. apply conns_messageListener.
    - unfold onPong. destruct (_ && _); [|done].
      apply (adm_same f); try done. intros; by eexists.
    - unfold onSocketClose. destruct (bool_decide _); [|done].
      apply (adm_same f); try done. simpl.
      destruct (JsMap.get ws (joined f)) as [room|].
      + intros R d' c Hd' Hc.
        destruct (conns_inRoom room (closeConn ws) _ R d' c
                    (fun r c0 => conns_closeConn ws r c0) Hd' Hc) as (d0 & Hd0 & Hc0).
        by exists d0.
      + intros; by eexists.
    - destruct (tick f) as [f'|] eqn:E; [|by apply Hcrash].
      apply tick_frame in E as (A1&A2&A3&A4&A5&A6&A7&A8&A9&A10&A11).
      apply (adm_same f); try done; [lia|]. rewrite A1. intros; by eexists.
    - destruct (JsMap.get ws (joined f)); [by apply Hbg|done]. }
  by destruct (phase (world f)).
Qed.

Lemma adm_start s : AdmissionInv (start s).
Proof. constructor; simpl; try done. Qed.

Lemma adm_runFront es f : AdmissionInv f -> AdmissionInv (runFront es f).
Proof.
  revert f. induction es as [|e es IH]; intros f H; [done|].
  simpl. apply IH. by apply adm_handleFront.
Qed.

(** *** Where a listener comes from *)

Lemma listening_callSetup ws (req : Request) roomName f :
  listening (callSetup env ws req roomName f) = listening f.
Proof.
  unfold callSetup. destruct (setupWSConnection_start _ _ _ _) as [w1 st].
  by destruct (suspends _ w1).
Qed.

(** The listeners of index.ts are registered by [onConnection] alone, on
    the socket it was called for, once the token has verified and the room
    is the token's. *)
Lemma listening_onConnection (req : Request) f f' ws (tokenData : CollabToken) room :
  onConnection req f = Normal f' \/ onConnection req f = Threw f' ->
  JsMap.get ws (listening f') = Some (tokenData, room) ->
  JsMap.get ws (listening f) = Some (tokenData, room)
  \/ exists token,
       ws = nextSocket f
       /\ searchParams req = Some (Some token, Some room)
       /\ verifyToken token = Some tokenData
       /\ room = (bookId tokenData +:+ ":" +:+ chapterId tokenData)%string.
Proof.
  unfold onConnection.
  destruct (searchParams req) as [[token name]|].
  2: { intros [?|[= <-]]; [done|]. by left. }
  destruct (truthy token) eqn:Ht; simpl.
  2: { intros [[= <-]|?]; [|done]. by left. }
  destruct (truthy name) eqn:Hn; simpl.
  2: { intros [[= <-]|?]; [|done]. by left. }
  destruct (verifyToken (default EmptyString token)) as [td|] eqn:Hv.
  2: { intros [[= <-]|?]; [|done]. by left. }
  destruct (String.eqb_spec (default EmptyString name)
              (bookId td +:+ ":" +:+ chapterId td)) as [Heq|Hne]; simpl.
  2: { intros [[= <-]|?]; [|done]. by left. }
  intros [[= <-]|?]; [|done]. simpl. rewrite listening_callSetup. simpl.
  destruct (decide (ws = nextSocket f)) as [->|Hne].
  - rewrite get_set_eq. intros [= <- <-]. right.
    destruct token as [tok|]; [|done]. destruct name as [nm|]; [|done]. simpl in *.
    by exists tok.
  - rewrite get_set_ne by done. by left.
Qed.

Lemma listening_handleFront (e : FrontEvent) f ws (tokenData : CollabToken) room :
  JsMap.get ws (listening (handleFront e f)) = Some (tokenData, room) ->
  JsMap.get ws (listening f) = Some (tokenData, room)
  \/ exists req token,
       e = FConnection req
       /\ phase (world f) = Running
       /\ ws = nextSocket f
       /\ searchParams req = Some (Some token, Some room)
       /\ verifyToken token = Some tokenData
       /\ room = (bookId tokenData +:+ ":" +:+ chapterId tokenData)%string.
Proof.
  unfold handleFront.
  assert (forall f', listening f' = listening f ->
            JsMap.get ws (listening f') = Some (tokenData, room) ->
            JsMap.get ws (listening f) = Some (tokenData, room)
            \/ exists req token,
                 e = FConnection req
                 /\ phase (world f) = Running
                 /\ ws = nextSocket f
                 /\ searchParams req = Some (Some token, Some room)
                 /\ verifyToken token = Some tokenData
                 /\ room = (bookId tokenData +:+ ":" +:+ chapterId tokenData)%string) as Hsame.
  { intros f' ->. by left. }
  assert (listening match tick f with Some f' => f' | None => crash f end = listening f)
    as Htick.
  { destruct (tick f) as [f'|] eqn:E; [|done].
    by apply tick_frame in E as (_&_&_&_&_&_&->&_). }
  assert (forall ws0, listening (onLoaded ws0 f) = listening f) as Hloaded.
  { intros ws0. unfold onLoaded. by destruct (JsMap.get ws0 (awaiting f)) as [[??]|]. }
  assert (forall ws0 m, listening (onMessage ws0 m f) = listening f) as Hmsg.
  { intros ws0 m. unfold onMessage. destruct (bool_decide _); [|done].
    by destruct (JsMap.get ws0 (joined f)). }
  assert (forall ws0, listening (onPong ws0 f) = listening f) as Hpong.
  { intros ws0. unfold onPong. by destruct (_ && _). }
  assert (forall ws0, listening (onSocketClose ws0 f) = listening f) as Hclose.
  { intros ws0. unfold onSocketClose. by destruct (bool_decide _). }
  assert (forall ws0,
            listening match JsMap.get ws0 (joined f) with
                      | Some room0 => set_world (handle env (EvSendError ws0 room0) (world f)) f
                      | None => f
                      end = listening f) as Herr.
  { intros ws0. by destruct (JsMap.get ws0 (joined f)). }
  destruct (phase (world f)) eqn:Hph; [| |by apply Hsame].
  - destruct e; try (by apply Hsame).
    destruct (onConnection req f) as [f'|f'] eqn:E; intros H.
    + destruct (listening_onConnection req f f' ws tokenData room (or_introl E) H)
        as [?|(token & ? & ? & ? & ?)]; [by left|right]. by exists req, token.
    + destruct (listening_onConnection req f f' ws tokenData room (or_intror E) H)
        as [?|(token & ? & ? & ? & ?)]; [by left|right]. by exists req, token.
  - destruct e; by apply Hsame.
Qed.

(** Every listener was registered at a [connection] event of the run. *)
Lemma listening_origin (es : list FrontEvent) f ws (tokenData : CollabToken) room :
  JsMap.get ws (listening (runFront es f)) = Some (tokenData, room) ->
  JsMap.get ws (listening f) = Some (tokenData, room)
  \/ exists es1 req es2 token,
       es = es1 ++ FConnection req :: es2
       /\ phase (world (runFront es1 f)) = Running
       /\ nextSocket (runFront es1 f) = ws
       /\ searchParams req = Some (Some token, Some room)
       /\ verifyToken token = Some tokenData
       /\ room = (bookId tokenData +:+ ":" +:+ chapterId tokenData)%string.
Proof.
  revert f. induction es as [|e es IH]; intros f H; [by left|].
  simpl in H. destruct (IH _ H) as [H0|(es1 & req & es2 & token & -> & Hph & Hws & Hrest)].
  - destruct (listening_handleFront e f ws tokenData room H0)
      as [?|(req & token & -> & Hph & -> & Hrest)]; [by left|right].
    by exists [], req, es, token.
  - right. by exists (e :: es1), req, es2, token.
Qed.

(** Every connection registered in a room presented a token that verifies
    and that names that room.  Whatever the front end has been through, a
    socket found in the connections of room [R] is the socket of one of
    the [connection] events of the run, handled while the server was
    running: the request of that event carried a token and the room name
    [R], the token verified, and [R] is the [bookId:chapterId] of the
    verified token; the [pong] and [close] listeners registered for the
    socket hold that token and that room, and the socket's [message]
    listener is the one of room [R]. *)
Theorem registered_connections_were_admitted
    (es : list FrontEvent) (s : S3) (room : string) (d : WSSharedDoc) (ws : Conn) :
  let f := runFront es (start s) in
  JsMap.get room (docs (world f)) = Some d ->
  ws ∈ JsMap.keys (conns d) ->
  exists es1 req es2 token tokenData,
    es = es1 ++ FConnection req :: es2
    /\ phase (world (runFront es1 (start s))) = Running
    /\ nextSocket (runFront es1 (start s)) = ws
    /\ searchParams req = Some (Some token, Some room)
    /\ verifyToken token = Some tokenData
    /\ room = (bookId tokenData +:+ ":" +:+ chapterId tokenData)%string
    /\ JsMap.get ws (listening f) = Some (tokenData, room)
    /\ JsMap.get ws (joined f) = Some room.
Proof.
  intros f Hd Hws.
  pose proof (adm_runFront es (start s)
                (adm_start s)) as [I1 I2 I3 I4 I5 I6 I7].
  pose proof (I7 room d ws Hd Hws) as Hj.
  destruct (I6 ws room Hj) as [td Htd].
  destruct (listening_origin es (start s) ws td room Htd)
    as [H0|(es1 & req & es2 & token & ? & ? & ? & ? & ? & ?)]; [done|].
  by exists es1, req, es2, token, td.
Qed.


(** A frame that arrives while [setupWSConnection] is still waiting for
    the load is lost: the socket has no [message] listener yet, so the
    frame is neither applied, stored nor relayed. *)
Theorem frames_during_the_load_are_dropped
    (es : list FrontEvent) (s : S3) (ws : Conn) (m : bytes) (x : string * option bytes) :
  let f := runFront es (start s) in
  JsMap.get ws (awaiting f) = Some x ->
  handleFront (FMessage ws m) f = f.
Proof.
  intros f Hx. destruct x as [room st].
  pose proof (adm_runFront es (start s) (adm_start s)) as [_ _ _ _ I5 _ _].
  destruct (I5 ws room st Hx) as [Hnj _].
  assert (onMessage ws m f = f) as Hdrop.
  { fold f in Hnj. unfold onMessage. rewrite Hnj. by destruct (bool_decide _). }
  unfold handleFront. rewrite Hdrop. by destruct (phase (world f)).
Qed.

(** *** Room tracking and the health endpoint *)

Lemma get_track ws roomName (rc : list (string * list Conn)) R :
  JsMap.get R (track ws roomName rc)
  = if decide (R = roomName)
    then Some (set_add ws (default [] (JsMap.get roomName rc)))
    else JsMap.get R rc.
Proof.
  unfold track, JsMap.has. destruct (decide (R = roomName)) as [->|Hne].
  - rewrite get_set_eq. destruct (JsMap.get roomName rc) eqn:E; [by rewrite E|].
    by rewrite get_set_eq.
  - rewrite get_set_ne by done. destruct (JsMap.get roomName rc); [done|].
    by rewrite get_set_ne.
Qed.

Lemma nodup_track ws roomName (rc : list (string * list Conn)) :
  NoDup (JsMap.keys rc) -> NoDup (JsMap.keys (track ws roomName rc)).
Proof.
  intros H. unfold track. apply nodup_keys_set.
  destruct (JsMap.has roomName rc); [done|by apply nodup_keys_set].
Qed.

Lemma get_untrack ws roomName (rc : list (string * list Conn)) R :
  JsMap.get R (untrack ws roomName rc)
  = if decide (R = roomName)
    then match JsMap.get roomName rc with
         | Some connections =>
             if (length (set_delete ws connections) =? 0)%nat then None
             else Some (set_delete ws connections)
         | None => None
         end
    else JsMap.get R rc.
Proof.
  unfold untrack. destruct (JsMap.get roomName rc) as [cs|] eqn:E.
  - destruct (length (set_delete ws cs) =? 0)%nat; destruct (decide (R = roomName)) as [->|Hne];
      rewrite ?get_remove_eq, ?get_set_eq; try done.
    + by rewrite get_remove_ne.
    + by rewrite get_set_ne.
  - destruct (decide (R = roomName)) as [->|Hne]; done.
Qed.

Lemma nodup_untrack ws roomName (rc : list (string * list Conn)) :
  NoDup (JsMap.keys rc) -> NoDup (JsMap.keys (untrack ws roomName rc)).
Proof.
  intros H. unfold untrack. destruct (JsMap.get roomName rc); [|done].
  destruct (_ =? _)%nat; [by apply nodup_keys_remove|by apply nodup_keys_set].
Qed.

Lemma trk_same f f' :
  roomConnections f' = roomConnections f -> clients f' = clients f ->
  listening f' = listening f -> (nextSocket f <= nextSocket f')%nat ->
  TrackingInv f -> TrackingInv f'.
Proof.
  intros Hr Hc Hl Hn [T1 T2 T3 T4 T5 T6]. constructor; rewrite ?Hr, ?Hc, ?Hl; try done.
  - intros ws H. apply T1 in H. lia.
  - intros ws x H. apply T2 in H. lia.
Qed.

Lemma trk_new_socket f f' :
  roomConnections f' = roomConnections f ->
  clients f' = set_add (nextSocket f) (clients f) ->
  listening f' = listening f -> nextSocket f' = S (nextSocket f) ->
  TrackingInv f -> TrackingInv f'.
Proof.
  intros Hr Hc Hl Hn [T1 T2 T3 T4 T5 T6]. constructor; rewrite ?Hr, ?Hc, ?Hl, ?Hn; try done.
  - intros ws [->|H]%elem_of_set_add; [lia|]. apply T1 in H. lia.
  - intros ws x H. apply T2 in H. lia.
  - by apply nodup_set_add.
  - intros roomName ws. rewrite T5, elem_of_set_add. split; [tauto|].
    intros [[->|?] [td Htd]]; [|by eauto]. apply T2 in Htd. lia.
Qed.

Lemma trk_admitted f f' (tokenData : CollabToken) roomName :
  roomConnections f' = track (nextSocket f) roomName (roomConnections f) ->
  clients f' = set_add (nextSocket f) (clients f) ->
  listening f' = JsMap.set (nextSocket f) (tokenData, roomName) (listening f) ->
  nextSocket f' = S (nextSocket f) ->
  TrackingInv f -> TrackingInv f'.
Proof.
  intros Hr Hc Hl Hn [T1 T2 T3 T4 T5 T6]. set (ws := nextSocket f) in *.
  assert (ws ∉ clients f) as Hfresh by (intros H; apply T1 in H; lia).
  assert (forall R cs, JsMap.get R (roomConnections f) = Some cs -> ws ∉ cs) as Hnot.
  { intros R cs HR Hin. apply Hfresh. apply (T5 R ws). eauto. }
  constructor; rewrite ?Hr, ?Hc, ?Hl, ?Hn.
  - intros c [->|H]%elem_of_set_add; [lia|]. apply T1 in H. lia.
  - intros c x. destruct (decide (c = ws)) as [->|Hne]; [lia|].
    rewrite get_set_ne by done. intros H. apply T2 in H. lia.
  - by apply nodup_set_add.
  - by apply nodup_track.
  - intros R c. rewrite get_track, elem_of_set_add.
    destruct (decide (c = ws)) as [->|Hc'].
    + rewrite get_set_eq. destruct (decide (R = roomName)) as [->|HR].
      * split; [intros _; split; [by left|by eexists]|].
        intros _. eexists. split; [done|]. apply elem_of_set_add. by left.
      * split.
        -- intros (cs & Hcs & Hin). by apply Hnot in Hcs.
        -- intros [_ [td [= _ ?]]]. congruence.
    + rewrite get_set_ne by done. pose proof (T5 R c) as Hold.
      destruct (decide (R = roomName)) as [->|HR].
      * split.
        -- intros (cs & [= <-] & [?|Hin]%elem_of_set_add); [done|].
           destruct (JsMap.get roomName (roomConnections f)) as [cs0|] eqn:E0;
             [|by inversion Hin].
           destruct (proj1 Hold) as [Hcl Htd]; [by eauto|]. split; [by right|done].
        -- intros [[?|Hcl] Htd]; [done|].
           destruct (proj2 Hold (conj Hcl Htd)) as (cs & Hcs & Hin).
           eexists. split; [done|]. apply elem_of_set_add. right. by rewrite Hcs.
      * split.
        -- intros Hex. destruct (proj1 Hold Hex) as [Hcl Htd]. split; [by right|done].
        -- intros [[?|Hcl] Htd]; [done|]. by apply Hold.
  - intros R cs. rewrite get_track. destruct (decide (R = roomName)) as [->|HR].
    + intros [= <-] Hnil.
      assert (ws ∈ set_add ws (default [] (JsMap.get roomName (roomConnections f)))) as Hin
        by (apply elem_of_set_add; by left).
      rewrite Hnil in Hin. by inversion Hin.
    + apply T6.
Qed.

Lemma trk_onConnection (req : Request) f f' :
  TrackingInv f ->
  onConnection req f = Normal f' \/ onConnection req f = Threw f' ->
  TrackingInv f'.
Proof.
  intros Hinv. unfold onConnection.
  destruct (searchParams req) as [[token name]|].
  2: { intros [?|[= <-]]; [done|]. by apply (trk_new_socket f). }
  destruct (truthy token) eqn:Ht; simpl.
  2: { intros [[= <-]|?]; [|done]. by apply (trk_new_socket f). }
  destruct (truthy name) eqn:Hn; simpl.
  2: { intros [[= <-]|?]; [|done]. by apply (trk_new_socket f). }
  destruct (verifyToken (default EmptyString token)) as [td|] eqn:Hv.
  2: { intros [[= <-]|?]; [|done]. by apply (trk_new_socket f). }
  destruct (String.eqb (default EmptyString name) (bookId td +:+ ":" +:+ chapterId td)); simpl.
  2: { intros [[= <-]|?]; [|done]. by apply (trk_new_socket f). }
  intros [[= <-]|?]; [|done].
  apply (trk_admitted f _ td (default EmptyString name)); try done;
    unfold callSetup; simpl;
    destruct (setupWSConnection_start _ _ _ _) as [w1 st];
    by destruct (suspends _ _).
Qed.

Lemma trk_onSocketClose ws f : TrackingInv f -> TrackingInv (onSocketClose ws f).
Proof.
  intros [T1 T2 T3 T4 T5 T6]. unfold onSocketClose.
  destruct (bool_decide (ws ∈ clients f)) eqn:Hin; [|done].
  apply bool_decide_eq_true in Hin.
  constructor; simpl.
  - intros c [H _]%elem_of_set_delete. by apply T1.
  - done.
  - by apply nodup_set_delete.
  - destruct (JsMap.get ws (listening f)) as [[td rn]|]; [by apply nodup_untrack|done].
  - intros R c. rewrite elem_of_set_delete.
    destruct (JsMap.get ws (listening f)) as [[td rn]|] eqn:El.
    + rewrite get_untrack. destruct (decide (R = rn)) as [->|HR].
      * destruct (JsMap.get rn (roomConnections f)) as [cs|] eqn:Ecs.
        -- destruct (length (set_delete ws cs) =? 0)%nat eqn:Elen.
           ++ apply Nat.eqb_eq, length_zero_iff_nil in Elen.
              split; [by intros (? & ? & ?)|].
              intros [[Hc Hne] Htd]. exfalso.
              assert (c ∈ set_delete ws cs) as Hcin.
              { apply elem_of_set_delete. split; [|done].
                destruct (proj2 (T5 rn c) (conj Hc Htd)) as (cs' & Hcs' & Hcin').
                congruence. }
              rewrite Elen in Hcin. by inversion Hcin.
           ++ split.
              ** intros (cs' & [= <-] & [Hc Hne]%elem_of_set_delete).
                 destruct (proj1 (T5 rn c)) as [? ?]; [by eauto|]. tauto.
              ** intros [[Hc Hne] Htd]. eexists. split; [done|].
                 apply elem_of_set_delete. split; [|done].
                 destruct (proj2 (T5 rn c) (conj Hc Htd)) as (cs' & Hcs' & Hcin').
                 congruence.
        -- split; [by intros (? & ? & ?)|]. intros [[Hc Hne] Htd].
           destruct (proj2 (T5 rn c) (conj Hc Htd)) as (cs' & Hcs' & _). congruence.
      * rewrite T5. split; [|tauto]. intros [Hc [td' Htd']]. split; [|by eauto].
        split; [done|]. intros ->. congruence.
    + rewrite T5. split; [|tauto]. intros [Hc [td' Htd']]. split; [|by eauto].
      split; [done|]. intros ->. congruence.
  - intros R cs. destruct (JsMap.get ws (listening f)) as [[td rn]|]; [|apply T6].
    rewrite get_untrack. destruct (decide (R = rn)) as [->|HR]; [|apply T6].
    destruct (JsMap.get rn (roomConnections f)) as [cs0|]; [|done].
    destruct (length (set_delete ws cs0) =? 0)%nat eqn:Elen; [done|].
    intros [= <-] Hnil. by rewrite Hnil in Elen.
Qed.

Lemma trk_handleFront (e : FrontEvent) f : TrackingInv f -> TrackingInv (handleFront e f).
Proof.
  intros Hinv. unfold handleFront.
  assert (forall w', TrackingInv (set_world w' f)) as Hworld
    by (intros; by apply (trk_same f)).
  assert (forall f0, TrackingInv f0 -> TrackingInv (crash f0)) as Hcrash
    by (intros f0 H0; by apply (trk_same f0)).
  assert (TrackingInv
            match e with
            | FConnection req =>
                match phase (world f) with
                | Running =>
                    match onConnection req f with
                    | Normal f' => f'
                    | Threw f' => crash f'
                    end
                | _ => f
                end
            | FLoaded ws => onLoaded ws f
            | FMessage ws m => onMessage ws m f
            | FPong ws => onPong ws f
            | FSocketClose ws => onSocketClose ws f
            | FTick => match tick f with Some f' => f' | None => crash f end
            | FSendError ws =>
                match JsMap.get ws (joined f) with
                | Some room => set_world (handle env (EvSendError ws room) (world f)) f
                | None => f
                end
            | FTransport ws s => set_world (handle env (EvTransport ws s) (world f)) f
            | FPresenceTimeout room clients =>
                set_world (handle env (EvPresenceTimeout room clients) (world f)) f
            | FAdvance dt => set_world (handle env (EvAdvance dt) (world f)) f
            | FTimers => set_world (handle env EvTimers (world f)) f
            | FSIGTERM => set_world (handle env EvSIGTERM (world f)) f
            | FExit => set_world (handle env EvExit (world f)) f
            end) as Hbody.
  { destruct e; try apply Hworld.
    - destruct (phase (world f)); try done.
      destruct (onConnection req f) as [f'|f'] eqn:E.
      + apply (trk_onConnection req f); auto.
      + apply Hcrash. apply (trk_onConnection req f); auto.
    - unfold onLoaded. destruct (JsMap.get ws (awaiting f)) as [[room st]|]; [|done].
      by apply (trk_same f).
    - unfold onMessage. destruct (bool_decide _); [|done].
      destruct (JsMap.get ws (joined f)); [apply Hworld|done].
    - unfold onPong. destruct (_ && _); [|done]. by apply (trk_same f).
    - by apply trk_onSocketClose.
    - destruct (tick f) as [f'|] eqn:E; [|by apply Hcrash].
      apply tick_frame in E as (A1&A2&A3&A4&A5&A6&A7&A8&A9&A10&A11).
      apply (trk_same f); try done. lia.
    - destruct (JsMap.get ws (joined f)); [apply Hworld|done]. }
  by destruct (phase (world f)).
Qed.

Lemma trk_start s : TrackingInv (start s).
Proof.
  constructor; simpl.
  - intros ws H. by inversion H.
  - done.
  - constructor.
  - constructor.
  - intros R ws. split; [by intros (? & ? & ?)|]. intros [H _]. by inversion H.
  - done.
Qed.

Lemma trk_runFront es f : TrackingInv f -> TrackingInv (runFront es f).
Proof.
  revert f. induction es as [|e es IH]; intros f H; [done|].
  simpl. apply IH. by apply trk_handleFront.
Qed.

(** The health endpoint reports, as [connections], the number of rooms
    that have at least one admitted socket which has not closed yet (not
    the number of sockets): [roomConnections] has one entry for each such
    room and no other. *)
Theorem health_counts_rooms_with_open_connections (es : list FrontEvent) (s : S3) :
  let f := runFront es (start s) in
  onRequest (Some "/health"%string) f
  = mkResponse 200 (Some ("ok"%string, length (JsMap.keys (roomConnections f))))
  /\ NoDup (JsMap.keys (roomConnections f))
  /\ forall roomName,
       roomName ∈ JsMap.keys (roomConnections f)
       <-> exists ws tokenData,
             ws ∈ clients f
             /\ JsMap.get ws (listening f) = Some (tokenData, roomName).
Proof.
  intros f. pose proof (trk_runFront es (start s) (trk_start s)) as [T1 T2 T3 T4 T5 T6].
  fold f in T1, T2, T3, T4, T5, T6.
  split; [|split; [done|]].
  - unfold onRequest. simpl. unfold JsMap.keys. by rewrite length_fmap.
  - intros roomName. rewrite <- get_is_Some_keys. split.
    + intros [cs Hcs]. destruct cs as [|ws cs']; [by apply T6 in Hcs|].
      destruct (proj1 (T5 roomName ws)) as [Hc [td Htd]]; [|by exists ws, td].
      exists (ws :: cs'). split; [done|by left].
    + intros (ws & td & Hc & Htd).
      destruct (proj2 (T5 roomName ws)) as (cs & -> & _); [by eauto|by eexists].
Qed.

(** *** Keepalive *)

Lemma keepalive_step ws f :
  readyState (sockets (network (world f)) ws) <> wsReadyStateConnecting ->
  exists f1,
    keepalive ws f = Some f1
    /\ isAlive (fields f1 ws) = Some false
    /\ (forall c, c <> ws -> fields f1 c = fields f c)
    /\ (isAlive (fields f ws) = Some false ->
        terminated f1 = ws :: terminated f /\ pinged f1 = pinged f)
    /\ (isAlive (fields f ws) <> Some false ->
        terminated f1 = terminated f /\ pinged f1 = ws :: pinged f)
    /\ (forall c, readyState (sockets (network (world f)) c) <> wsReadyStateConnecting ->
                  readyState (sockets (network (world f1)) c) <> wsReadyStateConnecting).
Proof.
  intros Hrs. unfold keepalive, ws_ping.
  assert (forall b,
            exists f1,
              (if readyState (sockets (network (world (set_isAlive ws b f))) ws)
                  =? wsReadyStateConnecting
               then None
               else Some (mkFront (world (set_isAlive ws b f))
                            (roomConnections (set_isAlive ws b f))
                            (clients (set_isAlive ws b f)) (fields (set_isAlive ws b f))
                            (listening (set_isAlive ws b f)) (awaiting (set_isAlive ws b f))
                            (joined (set_isAlive ws b f)) (closed (set_isAlive ws b f))
                            (terminated (set_isAlive ws b f))
                            (ws :: pinged (set_isAlive ws b f))
                            (nextSocket (set_isAlive ws b f)))) = Some f1
              /\ isAlive (fields f1 ws) = Some b
              /\ (forall c, c <> ws -> fields f1 c = fields f c)
              /\ terminated f1 = terminated f /\ pinged f1 = ws :: pinged f
              /\ world f1 = world f) as Hping.
  { intros b. simpl. destruct (Z.eqb_spec (readyState (sockets (network (world f)) ws))
                                          wsReadyStateConnecting) as [?|_]; [done|].
    eexists. split; [done|]. simpl. rewrite decide_True by done.
    repeat split; try done. intros c Hne. by rewrite decide_False. }
  destruct (isAlive (fields f ws)) as [[|]|] eqn:Ealive.
  - destruct (Hping false) as (f1 & -> & H1 & H2 & H3 & H4 & H5). exists f1.
    split; [done|]. split; [done|]. split; [done|]. split; [done|]. split; [done|].
    by rewrite H5.
  - eexists. split; [done|]. simpl. split; [done|]. split; [done|]. split; [done|].
    split; [done|]. intros c Hc. unfold closing. simpl.
    destruct (decide (c = ws)) as [->|?]; [|done].
    destruct (readyState _ =? 3); [done|]. simpl. unfold wsReadyStateConnecting. lia.
  - destruct (Hping false) as (f1 & -> & H1 & H2 & H3 & H4 & H5). exists f1.
    split; [done|]. split; [done|]. split; [done|]. split; [done|]. split; [done|].
    by rewrite H5.
Qed.

Lemma keepalive_fold (l : list Conn) f :
  NoDup l ->
  (forall ws, ws ∈ l ->
     readyState (sockets (network (world f)) ws) <> wsReadyStateConnecting) ->
  exists f1,
    fold_left (fun acc ws => match acc with Some f' => keepalive ws f' | None => None end)
              l (Some f) = Some f1
    /\ (forall ws, ws ∈ l ->
          isAlive (fields f1 ws) = Some false
          /\ (isAlive (fields f ws) = Some false -> ws ∈ terminated f1)
          /\ (isAlive (fields f ws) <> Some false ->
              ws ∈ pinged f1 /\ (ws ∈ terminated f1 -> ws ∈ terminated f)))
    /\ (forall ws, ws ∉ l ->
          fields f1 ws = fields f ws
          /\ (ws ∈ terminated f1 -> ws ∈ terminated f)
          /\ (ws ∈ pinged f -> ws ∈ pinged f1))
    /\ (forall ws, ws ∈ terminated f -> ws ∈ terminated f1)
    /\ (forall ws, ws ∈ pinged f -> ws ∈ pinged f1)
    /\ (forall c, readyState (sockets (network (world f)) c) <> wsReadyStateConnecting ->
                  readyState (sockets (network (world f1)) c) <> wsReadyStateConnecting).
Proof.
  revert f. induction l as [|ws0 l IH]; intros f Hnd Hrs.
  - exists f. split; [done|]. split; [intros ws H; by inversion H|]. by repeat split.
  - apply NoDup_cons in Hnd as [Hnot Hnd].
    destruct (keepalive_step ws0 f) as (g & Hg & G1 & G2 & G3 & G4 & G5);
      [apply Hrs; by left|].
    destruct (IH g Hnd) as (f1 & Hf1 & F1 & F2 & F3 & F4 & F5).
    { intros ws Hws. apply G5, Hrs. by right. }
    exists f1. simpl. rewrite Hg. split; [done|].
    assert (forall ws, ws ∈ terminated f -> ws ∈ terminated g) as Gt.
    { intros ws Hws. destruct (decide (isAlive (fields f ws0) = Some false)) as [E|E].
      - destruct (G3 E) as [-> _]. by right.
      - destruct (G4 E) as [-> _]. done. }
    assert (forall ws, ws ∈ pinged f -> ws ∈ pinged g) as Gp.
    { intros ws Hws. destruct (decide (isAlive (fields f ws0) = Some false)) as [E|E].
      - destruct (G3 E) as [_ ->]. done.
      - destruct (G4 E) as [_ ->]. by right. }
    split; [|split; [|split; [|split]]].
    + intros ws [->|Hws]%elem_of_cons.
      * destruct (F2 ws0 Hnot) as (Hfields & Hterm & Hping). rewrite Hfields.
        split; [done|]. split.
        -- intros E. apply F3. destruct (G3 E) as [-> _]. by left.
        -- intros E. destruct (G4 E) as [Ht Hp]. split.
           ++ apply F4. rewrite Hp. by left.
           ++ intros H. apply Hterm in H. by rewrite Ht in H.
      * assert (ws <> ws0) as Hne by (intros ->; done).
        destruct (F1 ws Hws) as (A1 & A2 & A3). rewrite (G2 ws Hne) in A2, A3.
        split; [done|]. split; [done|]. intros E. destruct (A3 E) as [B1 B2].
        split; [done|]. intros H. apply B2 in H.
        destruct (decide (isAlive (fields f ws0) = Some false)) as [E0|E0].
        -- destruct (G3 E0) as [Ht _]. rewrite Ht in H.
           apply elem_of_cons in H as [?|?]; done.
        -- destruct (G4 E0) as [Ht _]. by rewrite Ht in H.
    + intros ws [Hne Hnl]%not_elem_of_cons.
      destruct (F2 ws Hnl) as (A1 & A2 & A3). rewrite (G2 ws Hne) in A1.
      split; [done|]. split; [|auto]. intros H. apply A2 in H.
      destruct (decide (isAlive (fields f ws0) = Some false)) as [E0|E0].
      * destruct (G3 E0) as [Ht _]. rewrite Ht in H. apply elem_of_cons in H as [?|?]; done.
      * destruct (G4 E0) as [Ht _]. by rewrite Ht in H.
    + auto.
    + auto.
    + auto.
Qed.

(** The keepalive interval: a socket that has not answered the previous
    ping is terminated at the next turn, and one that has is pinged again
    and left alone.  So after two turns with no pong in between every
    socket has been terminated, while a socket whose pong arrives between
    two turns survives the second. *)
Theorem keepalive_terminates_silent_sockets (f : Front) :
  NoDup (clients f) ->
  (forall ws, ws ∈ clients f ->
     readyState (sockets (network (world f)) ws) <> wsReadyStateConnecting) ->
  exists f1,
    tick f = Some f1
    /\ (forall ws, ws ∈ clients f ->
          (isAlive (fields f ws) = Some false -> ws ∈ terminated f1)
          /\ (isAlive (fields f ws) <> Some false ->
              ws ∈ pinged f1 /\ (ws ∈ terminated f1 -> ws ∈ terminated f)))
    /\ (exists f2, tick f1 = Some f2 /\ forall ws, ws ∈ clients f -> ws ∈ terminated f2)
    /\ (forall ws, ws ∈ clients f -> JsMap.has ws (listening f) = true ->
          exists f2, tick (onPong ws f1) = Some f2
                     /\ (ws ∈ terminated f2 -> ws ∈ terminated f1)).
Proof.
  intros Hnd Hrs. unfold tick at 1.
  destruct (keepalive_fold (clients f) f Hnd Hrs) as (f1 & Hf1 & F1 & F2 & F3 & F4 & F5).
  exists f1. split; [done|].
  destruct (tick_frame f f1 Hf1) as (_&_&_&_&_&Hcl&Hli&_).
  split; [|split].
  - intros ws Hws. destruct (F1 ws Hws) as (_ & A2 & A3). done.
  - unfold tick. rewrite Hcl.
    destruct (keepalive_fold (clients f) f1 Hnd) as (f2 & Hf2 & G1 & _).
    { intros ws Hws. by apply F5, Hrs. }
    exists f2. split; [done|]. intros ws Hws.
    destruct (G1 ws Hws) as (_ & A2 & _). apply A2. by destruct (F1 ws Hws) as (-> & _).
  - intros ws Hws Hlis. unfold tick.
    assert (onPong ws f1 = set_isAlive ws true f1) as ->.
    { unfold onPong. rewrite Hcl, Hli, Hlis, bool_decide_eq_true_2 by done. done. }
    change (clients (set_isAlive ws true f1)) with (clients f1). rewrite Hcl.
    destruct (keepalive_fold (clients f) (set_isAlive ws true f1) Hnd)
      as (f2 & Hf2 & G1 & _).
    { intros c Hc. simpl. by apply F5, Hrs. }
    exists f2. split; [done|]. destruct (G1 ws Hws) as (_ & _ & A3).
    destruct A3 as [_ A3]; [|done]. simpl. by rewrite decide_True.
Qed.

End Facts.
End IndexFacts.

(** ** The claims on concrete runs *)

Module Runs.
Import Persistence Utils Server Scenario.

(** C1, on the code: a room holds an encrypted state whose save is still
    pending when [SIGTERM] arrives.  The handler closes the listeners and
    the process exits: the pending timer is neither cancelled nor fired,
    no write is issued, and the state is lost.  Flushing what
    [getDocsForPersistence] lists through [saveAllPending] would have
    written it. *)
Theorem C1_sigterm_flushes_nothing :
  let w := unsaved in
  let w' := runEvents configured [EvSIGTERM; EvExit; EvAdvance 5000; EvTimers] w in
  (encryptedState <$> JsMap.get room (docs w)) = Some (Some encryptedSync)
  /\ fst <$> getDocsForPersistence w = [room]
  /\ length (pendingFor room (persist w)) = 1%nat
  /\ writesFor room (store (persist w)) = []
  /\ phase w' = Exited
  /\ length (pendingFor room (persist w')) = 1%nat
  /\ writesFor room (store (persist w')) = []
  /\ writesFor room
       (store (saveAllPending configured (getDocsForPersistence w) (docs w) (persist w)))
     = [encryptedSync].
Proof. vm_compute. repeat split. Qed.

(** C2, as stated, fails: a legacy update changes the document and is
    broadcast to both connections, but no save timer exists afterwards. *)
Lemma C2_counterexample :
  let w' := messageListener 1%nat room legacyUpdate twoJoined in
  match JsMap.get room (docs twoJoined), JsMap.get room (docs w') with
  | Some d, Some d' => ydoc d = [] /\ ydoc d' = [noteA]
  | _, _ => False
  end
  /\ updateFrame notesUpdate = legacyUpdate
  /\ wire (network w')
     = [(2%nat, legacyUpdate); (1%nat, legacyUpdate)] ++ wire (network twoJoined)
  /\ saveTimers (persist w') !! room = None
  /\ length (timeouts (persist w')) = 0%nat.
Proof. vm_compute. repeat split. Qed.

(** C3, as stated, fails: in a room latched to encrypted mode a legacy
    update frame is applied to the room's document. *)
Lemma C3_counterexample :
  let w' := messageListener 2%nat room legacyUpdate latched in
  match JsMap.get room (docs latched), JsMap.get room (docs w') with
  | Some d, Some d' => isEncrypted d = true /\ ydoc d = [] /\ ydoc d' = [noteA]
  | _, _ => False
  end.
Proof. vm_compute. repeat split. Qed.

(** C8, as stated, fails: closing connection 1, which controls a presence
    entry, also removes connection 2, whose socket had already closed. *)
Lemma C8_counterexample :
  let w' := inRoom room (closeConn 1%nat) oneDead in
  match JsMap.get room (docs oneDead), JsMap.get room (docs w') with
  | Some d, Some d' =>
      conns d = [(1%nat, [7%nat]); (2%nat, [])]
      /\ JsMap.get 2%nat (conns d) = Some []
      /\ JsMap.get 2%nat (conns d') = None
  | _, _ => False
  end.
Proof. vm_compute. repeat split. Qed.

(** A client joins a room that has no stored object and sends a first
    encrypted sync frame; nothing else happens.  Two seconds later the
    store receives one write, under the room's key, whose body is the
    frame, and no other write follows. *)
Theorem first_encrypted_frame_is_saved_once :
  let w := runEvents configured
             [EvSetupStart room true; EvSetupFinish 1%nat room None;
              EvMessage 1%nat room encryptedSync;
              EvAdvance 1999; EvTimers; EvAdvance 1; EvTimers;
              EvAdvance 60000; EvTimers] (boot (Y := StandIn.lib) emptyStore) in
  requests (store (persist w))
  = [(room, PutObjectCommand "write" "collab/book1/ch2/state.yjs" encryptedSync);
     (room, GetObjectCommand "write" "collab/book1/ch2/state.yjs")]
  /\ objects (store (persist w)) !! ("write", "collab/book1/ch2/state.yjs")
     = Some encryptedSync
  /\ length (timeouts (persist w)) = 0%nat.
Proof. vm_compute. repeat split. Qed.

(** *** The theorems at concrete inputs *)

Lemma C2_witness :
  persist (messageListener 1%nat room legacyUpdate twoJoined) = persist twoJoined.
Proof.
  refine (proj1 (ServerFacts.C2_legacy_update_is_broadcast_and_not_saved
                   (Y := StandIn.lib) 1%nat room legacyUpdate twoJoined
                   _ _ _ _ _ _ _ _ _ _ _)); reflexivity.
Defined.

Lemma C3_witness :
  persist (messageListener 2%nat room legacyUpdate latched) = persist latched.
Proof.
  refine (proj1 (ModeFacts.C3_legacy_frame_in_encrypted_room
                   (Y := StandIn.lib) 2%nat room legacyUpdate latched _ _ _ _)); reflexivity.
Defined.

Lemma C4_witness :
  let w' := messageListener 1%nat room encryptedSync twoJoined in
  (exists d', JsMap.get room (docs w') = Some d' /\ encryptedState d' = Some encryptedSync)
  /\ writesFor room (store (runDue configured (docs w') (advance 2000 (persist w'))))
     = [encryptedSync].
Proof.
  destruct (RelayingFacts.C4_encrypted_sync_is_stored_scheduled_and_relayed
              (Y := StandIn.lib) configured 1%nat room encryptedSync twoJoined _
              eq_refl (or_introl eq_refl))
    as (d' & sent & t & H1 & H2 & _ & _ & _ & _ & _ & _ & Hsched & _).
  split; [exists d'; split; [exact H1|exact H2]|].
  destruct Hsched as (_ & _ & _ & _ & Hrun).
  - apply (ServerFacts.inv_runEvents (Y := StandIn.lib) configured _ emptyStore).
  - reflexivity.
  - pose proof (Hrun 2000) as Hr. cbv zeta in Hr. destruct Hr as [_ Hdue].
    destruct Hdue as [_ Hw]; [unfold SAVE_DEBOUNCE_MS; lia|].
    rewrite Hw. reflexivity.
Defined.

Lemma C5_witness :
  writesFor room
    (store (runDue configured [x01; x0c]
              (advance 2000
                 (burst configured room burstCalls
                    (scheduleSave room blob
                       (run configured otherRoom (initial emptyStore)))))))
  = [[x01; x0c]].
Proof.
  assert (Forall (fun c : Z * bytes * (bytes -> bytes) => 0 <= c.1.1 < SAVE_DEBOUNCE_MS)
                 burstCalls) as Hcalls
    by (repeat constructor; unfold SAVE_DEBOUNCE_MS; simpl; lia).
  assert (SAVE_DEBOUNCE_MS <= 2000) as Hdt by (unfold SAVE_DEBOUNCE_MS; lia).
  pose proof (PersistenceFacts.C5_burst_writes_once configured emptyStore otherRoom room
                blob burstCalls 2000 [x01; x0c] Hcalls Hdt) as H.
  cbv zeta in H. destruct H as (_ & _ & H & _). rewrite H. reflexivity.
Defined.

Lemma C6_witness :
  writesFor room
    (store (forceSave configured room blob [x01; x0c]
              (run configured pendingSave (initial emptyStore))).2)
  = [[x01; x0c]].
Proof.
  pose proof (PersistenceFacts.C6_forceSave_writes_at_most_once configured emptyStore
                pendingSave room blob [x01; x0c] 0%nat eq_refl) as H.
  cbv zeta in H. destruct H as (_ & _ & _ & _ & H & _). rewrite H. reflexivity.
Defined.

Lemma C7_witness :
  exists d',
    JsMap.get room
      (docs (runEvents configured
               [EvMessage 2%nat room legacyUpdate; EvClose 1%nat room;
                EvAdvance 2000; EvTimers] latched)) = Some d'
    /\ isEncrypted d' = true.
Proof.
  refine (ServerFacts.C7_mode_is_monotonic (Y := StandIn.lib) configured _ latched room _ _ _);
    reflexivity.
Defined.

Lemma C8_witness :
  persist (inRoom room (closeConn 1%nat) oneDead) = persist oneDead.
Proof.
  destruct (RelayingFacts.C8_closing_a_connection (Y := StandIn.lib) 1%nat room oneDead _
              (closeConn 1%nat) eq_refl (or_introl eq_refl)) as ((H & _) & _).
  exact H.
Defined.


Lemma encrypted_presence_witness :
  persist (messageListener 1%nat room [x02; x2a] twoJoined) = persist twoJoined.
Proof.
  refine (proj1 (RelayingFacts.encrypted_presence_is_only_relayed (Y := StandIn.lib)
                   1%nat room [x02; x2a] twoJoined _ _ _)); reflexivity.
Defined.

Lemma provided_flush_witness :
  writesFor room
    (store (saveAllPending configured (getDocsForPersistence unsaved) (docs unsaved)
              (persist unsaved)))
  = [encryptedSync].
Proof.
  assert (TimersInv (persist unsaved)) as Hinv
    by apply (ServerFacts.inv_runEvents (Y := StandIn.lib) configured _ emptyStore).
  assert (NoDup (JsMap.keys (docs unsaved))) as Hnd
    by (vm_compute; repeat constructor; by inversion 1).
  destruct (ServerFacts.provided_flush_writes_every_blob (Y := StandIn.lib) configured
              unsaved room _ encryptedSync Hinv Hnd eq_refl eq_refl) as [_ H].
  rewrite H. reflexivity.
Defined.

Lemma C9_witness :
  persistState unconfigured room [x01; x0c] emptyStore = (Resolved tt, emptyStore)
  /\ loadState unconfigured room emptyStore = (Resolved None, emptyStore).
Proof.
  destruct (PersistenceFacts.C9_unconfigured_store_is_never_called unconfigured
              (Heap := bytes) room [x01; x0c] emptyStore blob [] (initial emptyStore) eq_refl)
    as (_ & H1 & H2 & _).
  by split.
Defined.

End Runs.

(** ** The further properties at concrete inputs *)

Module MoreRuns.
Import Persistence Utils Server Reach Index Scenario FrontScenario.

Ltac not_in := let H := fresh in intros H; simpl in H; intuition discriminate.

Lemma room_keys_witness :
  getStateKey room = "collab/book1/ch2/state.yjs"%string.
Proof.
  exact (proj1 (KeyFacts.room_keys_are_distinct "book1" "ch2" "book9" "ch9"
                  ltac:(not_in) ltac:(not_in) ltac:(not_in) ltac:(not_in)
                  ltac:(not_in) ltac:(not_in))).
Defined.

Lemma persist_then_load_witness :
  (loadState configured "book1:ch2:draft"
     (persistState configured room encryptedSync emptyStore).2).1
  = Resolved (Some encryptedSync).
Proof.
  exact (StoreFacts.persist_then_load configured room "book1:ch2:draft" encryptedSync
           emptyStore eq_refl eq_refl eq_refl eq_refl).
Defined.

Lemma delete_then_load_witness :
  (loadState configured room (deleteState configured room stocked).2).1 = Resolved None.
Proof.
  exact (proj2 (StoreFacts.delete_then_load configured room stocked eq_refl eq_refl)).
Defined.

Lemma failed_save_witness :
  pendingFor room (fire configured 0%nat [x01; x0c] (dueSave failing)) = []
  /\ objects (store (fire configured 0%nat [x01; x0c] (dueSave failing))) = ∅.
Proof.
  assert (TimersInv (dueSave failing)) as Hinv.
  { apply PersistenceFacts.inv_advance, PersistenceFacts.inv_schedule,
      PersistenceFacts.inv_initial. }
  destruct (StoreFacts.failed_save_is_not_retried configured (dueSave failing) room dueTimer
              [x01; x0c] "InternalError" Hinv eq_refl ltac:(by vm_compute) ltac:(done)
              eq_refl eq_refl) as (H1 & _ & H3 & _).
  split; [exact H1|exact H3].
Defined.

Lemma independent_rooms_witness :
  pendingFor "book9:ch9" (scheduleSave room blob otherPending) = [otherTimer].
Proof.
  assert (TimersInv otherPending) as Hinv
    by apply PersistenceFacts.inv_schedule, PersistenceFacts.inv_initial.
  exact (proj1 (StoreFacts.rooms_are_debounced_independently configured otherPending room
                  "book9:ch9" otherTimer blob [x01; x0c] 2000 Hinv ltac:(done) eq_refl
                  ltac:(by vm_compute))).
Defined.

Lemma rooms_and_blobs_witness :
  exists d' : WSSharedDoc (Y := StandIn.lib),
    JsMap.get room (docs (runEvents configured [EvAdvance 5000; EvTimers] unsaved)) = Some d'
    /\ is_Some (encryptedState d').
Proof.
  destruct (ReachFacts.rooms_and_blobs_are_kept (Y := StandIn.lib) configured
              [EvAdvance 5000; EvTimers] unsaved room _ eq_refl) as (d' & H1 & _ & H3).
  exists d'. split; [exact H1|]. apply H3. by eexists.
Defined.

Lemma encrypted_frames_witness :
  writesFor room
    (store (persist
       (runEvents configured [EvAdvance 500; EvTimers]
          (runEvents configured
             (EvMessage 1%nat room encryptedSync
              :: burstEvents room
                   [([EvAdvance 500; EvTimers], 2%nat, [x01; x0b]);
                    ([EvMessage 2%nat room [x02; x2a]; EvAdvance 700; EvTimers], 1%nat,
                     [x03; x0c])]
                 ++ [EvAdvance 1500; EvTimers; EvClose 2%nat room])
             twoJoined))))
  = [[x03; x0c]].
Proof.
  assert (Forall (fun f : list Event * Conn * bytes =>
                    Forall (calmFor room) f.1.1 /\ elapsed f.1.1 < SAVE_DEBOUNCE_MS
                    /\ isEncryptedSyncMessage f.2 = true)
                 [([EvAdvance 500; EvTimers], 2%nat, [x01; x0b]);
                  ([EvMessage 2%nat room [x02; x2a]; EvAdvance 700; EvTimers], 1%nat,
                   [x03; x0c])]) as Hall.
  { apply Forall_cons. split.
    { split; [by repeat constructor|]. split; [by vm_compute|reflexivity]. }
    apply Forall_cons. split; [|by apply Forall_nil].
    split; [|split; [by vm_compute|reflexivity]].
    apply Forall_cons. split; [by right|]. by repeat constructor. }
  assert (Forall (calmFor room) [EvAdvance 1500; EvTimers; EvClose 2%nat room]) as Hnoise
    by (by repeat constructor).
  pose proof (BurstFacts.encrypted_frames_are_saved_once (Y := StandIn.lib) configured
                [EvSetupStart room true; EvSetupFinish 1%nat room None;
                 EvSetupStart room true; EvSetupFinish 2%nat room None]
                emptyStore room _ 1%nat encryptedSync _ _ 500
                ltac:(done) eq_refl eq_refl Hall Hnoise
                ltac:(by vm_compute) ltac:(by vm_compute)) as H.
  cbv zeta in H. destruct H as (_ & _ & _ & _ & H & _). unfold twoJoined. rewrite H.
  reflexivity.
Defined.

Lemma joiner_from_memory_witness :
  wire (network (setupWSConnection configured 5%nat (Some room) None true unsaved))
  = (5%nat, encryptedSync) :: wire (network unsaved).
Proof.
  destruct (JoinFacts.joiner_is_sent_the_blob_from_memory (Y := StandIn.lib) configured
              [EvSetupStart room true; EvSetupFinish 1%nat room None;
               EvMessage 1%nat room encryptedSync; EvClose 1%nat room]
              emptyStore 5%nat room None true _ encryptedSync
              ltac:(done) eq_refl eq_refl eq_refl) as (_ & H & _).
  exact H.
Defined.



Lemma dead_joiner_witness :
  exists d' : WSSharedDoc (Y := StandIn.lib),
    JsMap.get room (docs (setupWSConnection_finish 9%nat room None goneBeforeJoining))
    = Some d'
    /\ JsMap.get 9%nat (conns d') = None.
Proof.
  destruct (JoinFacts.dead_joiner_is_not_registered (Y := StandIn.lib) 9%nat room None
              goneBeforeJoining _ eq_refl eq_refl) as (d' & H1 & H2 & _).
  exists d'. split; [exact H1|exact H2].
Defined.

Lemma presence_frame_witness :
  exists d' : WSSharedDoc (Y := StandIn.lib),
    JsMap.get room (docs (messageListener 1%nat room canonicalPresence twoJoined)) = Some d'
    /\ encryptedState d' = Some canonicalPresence.
Proof.
  destruct (RelayFacts.presence_frame_is_taken_for_encrypted_sync (Y := StandIn.lib)
              1%nat room canonicalPresence twoJoined _ eq_refl
              (ex_intro _ [x00] eq_refl)) as (_ & _ & d' & H1 & _ & H3 & _).
  exists d'. split; [exact H1|exact H3].
Defined.

Lemma presence_ids_witness :
  JsMap.get 7%nat
    (states (awareness (doc (closeConn 1%nat
                               (awarenessChangeHandler (mkChange [7%nat] [] []) (Some 1%nat)
                                                       relayOfTwo))))) = None.
Proof.
  destruct (RelayFacts.presence_ids_follow_their_connection (Y := StandIn.lib)
              (mkChange [7%nat] [] []) 1%nat relayOfTwo [] eq_refl) as (_ & _ & _ & H).
  apply H; [reflexivity|by left|by inversion 1].
Defined.

Lemma sync_reply_witness :
  wire (network (messageListener 1%nat room syncStep1 twoJoined))
  = (1%nat, [x00; x01; x02; x00; x00]) :: wire (network twoJoined).
Proof.
  destruct (RelayFacts.sync_reply_goes_to_the_sender_only (Y := StandIn.lib)
              1%nat room syncStep1 twoJoined _ _ _ _
              eq_refl eq_refl eq_refl eq_refl eq_refl eq_refl eq_refl) as (_ & H & _).
  exact H.
Defined.

Lemma encrypted_relay_witness :
  exists d' : WSSharedDoc (Y := StandIn.lib),
    JsMap.get room (docs (messageListener 1%nat room encryptedSync twoJoined)) = Some d'
    /\ ydoc d' = [].
Proof.
  destruct (MoreRelayFacts.encrypted_frames_never_touch_the_document (Y := StandIn.lib)
              1%nat room encryptedSync twoJoined _ eq_refl eq_refl)
    as (d' & sent & H1 & H2 & _).
  exists d'. split; [exact H1|exact H2].
Defined.

Lemma legacy_presence_witness :
  persist (messageListener 1%nat room presenceOf7 twoJoined) = persist twoJoined.
Proof.
  refine (proj1 (MoreRelayFacts.legacy_presence_update_is_broadcast (Y := StandIn.lib)
                   1%nat room presenceOf7 twoJoined _ _ _ _ _ _ _ _ _ _ _ _ _ _));
    reflexivity.
Defined.

Lemma rejected_connection_witness :
  exists f' reason,
    onConnection configured None jwt wrongRoom (start (Y := StandIn.lib) emptyStore)
    = Normal f'
    /\ closed f' = [(0%nat, (4003, reason))].
Proof.
  destruct (IndexFacts.rejected_connection_is_closed_and_ignored (Y := StandIn.lib)
              configured None jwt wrongRoom (start emptyStore) _ _ eq_refl eq_refl)
    as (f' & reason & H1 & H2 & _).
  by exists f', reason.
Defined.

Lemma registered_connections_witness :
  exists token tokenData,
    verifyToken None jwt token = Some tokenData
    /\ room = (bookId tokenData +:+ ":" +:+ chapterId tokenData)%string.
Proof.
  assert (JsMap.get room
            (docs (world (runFront configured None jwt
                            [FConnection goodRequest; FLoaded 0%nat; FConnection goodRequest]
                            (start (Y := StandIn.lib) emptyStore))))
          = Some (mkDoc room [(0%nat, []); (1%nat, [])] (mkAwareness [] newMeta) None false
                        (newYDoc true))) as Hd by (vm_compute; reflexivity).
  destruct (IndexFacts.registered_connections_were_admitted (Y := StandIn.lib) configured
              None jwt [FConnection goodRequest; FLoaded 0%nat; FConnection goodRequest]
              emptyStore room _ 0%nat Hd ltac:(by left))
    as (es1 & req & es2 & token & tokenData & _ & _ & _ & _ & Hv & Hr & _).
  exists token, tokenData. split; [exact Hv|exact Hr].
Defined.

Lemma keepalive_witness :
  exists f1, tick twoClients = Some f1.
Proof.
  destruct (IndexFacts.keepalive_terminates_silent_sockets (Y := StandIn.lib) twoClients)
    as (f1 & H & _).
  - apply (bool_decide_unpack (NoDup (clients twoClients))). by vm_compute.
  - intros ws _. vm_compute. discriminate.
  - by exists f1.
Defined.

Lemma dropped_frame_witness :
  handleFront configured None jwt (FMessage 0%nat encryptedSync) connecting = connecting.
Proof.
  exact (IndexFacts.frames_during_the_load_are_dropped (Y := StandIn.lib) configured None jwt
           [FConnection goodRequest] emptyStore 0%nat encryptedSync _ eq_refl).
Defined.

End MoreRuns.
